(* ===== verification/_CoqProject ===== *)
-Q . S2P
Prelude.v
JsString.v
JsDate.v
JsNumber.v
Types.v
View.v
Notification.v
Store.v
Chat.v
Wiring.v
Json.v
Payload.v
Api.v
Route.v
Server.v
Buddies.v
Dashboard.v
App.v
