(* ===== verification/Prelude.v ===== *)
(** * SafeZonePH front end: a verification development

    SafeZonePH is a React front end for community support (buddies, check-ins,
    tasks, alerts).  This library models the parts of it that hold state or
    compute, as Rocq functions translated from the TypeScript sources, and
    proves what each part guarantees and where the code departs from the
    design document of the repository.

    ** The program

    - [src/context/NotificationContext.tsx]: the notification feed.  A
      provider holds the list of notifications and offers [addNotification],
      [markAsRead], [markAllAsRead], [clearNotification] and the derived
      [unreadCount].
    - [src/pages/ChatPage.tsx]: the chat page.  React state (search query,
      selected conversation, draft, displayed messages, mobile flag), the
      handlers of the controls, an effect that loads the stored log when the
      selection changes, and a timeout that appends a random reply 1500 ms
      after each send.
    - [src/pages/BuddiesPage.tsx]: the buddies page.  React state (search
      query, status filter, selected buddy, two modal flags, the check-in
      form), the filtered grid of buddy cards, the check-in modal and the
      profile modal.
    - [src/pages/DashboardPage.tsx]: the dashboard.  It reads the task
      store, seeds it from the mock tasks in an effect when it is empty, and
      shows four figures and four short lists derived from the store and the
      mock data.
    - [src/services/api.ts]: the HTTP client.  A singleton that keeps the
      access token, mirrors it in [localStorage], builds the request of each
      of the 17 endpoints and turns a response into [{data}] or [{error}].
    The parts do not call each other in the sources: the pages read mock
    data, the feed is fed by its callers, and the client is called by code
    outside the repository.  They share the types, the clock and the
    ECMAScript built-ins; the three pages share one shape (cells of state,
    handlers bound to controls, and values a render derives) and the same
    mock buddies; the client shares a protocol with a back end that is not
    in the repository.

    ** The files, in dependency order

    - [Prelude] (this file): the scope [js_scope], the hint databases [js] and
      [js_rw] with the tactics [js_simpl] and [js_cases]; [Completion], the
      result of a function that may throw; the interface [Readable] of an
      entity with a read flag, with [unread], [mark_where], [mark_all] and
      their counting lemmas, proved once for messages and notifications; the
      generic [run] of a step function with [run_invariant] and
      [run_preorder]; the labelled transition system of a page ([lts_run],
      [lts_reachable], [lts_enabled_all]) with induction on runs
      ([lts_run_invariant]) and execution of event lists ([lts_run_exec]),
      which the three pages instantiate; list lemmas on [filter], [fmap] and
      [take].
    - [JsString]: [trim], [toLowerCase], [includes], [s[0]], [split(c)[0]],
      [replace(/\s/g, '')], truthiness and [||] on strings, decimal printing
      of numbers, and how a template literal and a JSX child print a value
      that may be [undefined], as ECMAScript and React define them.
    - [JsDate]: [Date.prototype.toISOString] from milliseconds since the
      epoch (civil-from-days arithmetic on [Z]), its date part, and how that
      date relates to the date of a local clock ahead of UTC
      ([isoDate_local]).
    - [JsNumber]: the Number type where the sources compute with it, as the
      IEEE 754 binary64 arithmetic of the standard library ([SpecFloat]):
      the rounded product [mul], the Number of a length [of_nat],
      [Math_floor], what [Math.random()] may return ([is_random]) and the
      access [a[i]] with a Number as index ([element]).
    - [Types]: the records [Message], [Conversation], [Buddy],
      [Notification], [User], [Task], [CheckIn], [Hotline] and [Clock], with
      decidable equality and the [Readable] instances.
    - [View]: the controls of a render ([Control]: input, checkbox, button,
      form, or a button without handler), the events they raise ([raises],
      [offers]) and the tactics that relate them to the guard of a page
      ([offers_cases], [offer], [offers_iff]).
    - [Notification]: the feed.  State: [list Notification], newest first.
      Each operation is the updater the code hands to [setNotifications];
      [notification_step] dispatches a [NotificationAction];
      [NotificationProvider] is the context value; [useNotifications] throws
      outside a provider.  [feed_map] is the abstract feed, a finite map from
      identifiers to notifications.
    - [Store], module [ConversationStore]: the Conversation Store and the
      Delivery Simulator of the design document (its sections 3, 4.1, 4.2
      and 8), which the sources do not have as components: [sendMessage],
      [receiveMessage], [markConversationRead], [deleteConversation] and
      [deliver] on a [Store], with the invariant [store_inv] on unread
      counts that every command keeps.  It is the specification the chat
      page is compared with.
    - [Chat], module [ChatPage]: the chat page.  State: [ChatState], the
      five [useState] cells and the queue of pending timeouts.
      [handleSelectConversation], [handleSendMessage], [replyCallback],
      [useEffect_selectedConversation], [getRandomReply], [getBuddy] and
      [filteredConversations] are the functions of the same names;
      [chat_step] is one handler followed by the effect of the render it
      causes; [chat_enabled] says which events the rendered page can produce;
      [chat_run] and [chat_reachable] are the runs of the page.
      [conversationRow], [noConversationsFound], [chatArea], [chatHeader],
      [bubble], [sendDisabled], [listPaneHidden] and [chatPaneHidden] are
      what the JSX computes, [controls] the elements of the render with
      their handlers.  [store_step] is the command of the store an event of
      the page stands for, [sim] the relation between the page and the
      store.
    - [Wiring]: the event wiring of the design document, which the sources
      do not have: a [System] of the design's store and the feed of the
      sources, [deliver_notify] (a delivery that emits the new-message
      event) and [system_step] over the commands of both, with [log_of],
      [sent_to] and [notifications_of] to state what a run leaves;
      [Application]
      and [app_step], the chat page and the provider side by side as the
      sources run them; [wired_step], the command of the wired system an
      event of the page stands for.
    - [Json]: JSON values, [JSON.stringify], an executable [JSON.parse],
      truthiness, [||] and property access on values, the round trip
      [JSON_parse_stringify] and the adequacy of the parser's fuel for every
      text, [JSON_parse_fuel].
    - [Payload]: the payloads of the methods that send data, as records with
      the JSON value [JSON.stringify] writes for them ([ToJson]), and the
      reading of that value back ([FromJson], with the law [of_to_json] that
      every instance discharges).
    - [Api]: the client.  State: [ApiService], the token and the storage.
      [constructor], [setToken], [clearToken], [getHeaders] and
      [handleResponse] are the methods of the same names; each endpoint method
      is a [Call], the request handed to [fetch] and the continuation applied
      to the response; [invoke] dispatches an [ApiCall]; [run_call] supplies
      the network.
    - [Route]: the router the client assumes of the back end: [route] reads
      a request back into the [ApiCall] that made it (base address, path,
      method, identifier, payload).
    - [Server]: the client and a back end composed.  [serve] routes the
      request, checks the bearer token of a call that needs one and answers
      as FastAPI does; which tokens are valid, which calls are protected and
      what the answers are remain section variables.
    - [Buddies], module [BuddiesPage]: the buddies page.  State:
      [BuddiesState], the six [useState] cells and the alerts shown.
      [filteredBuddies], [handleCheckIn], [handleViewProfile] and
      [handleSubmitCheckIn] are the functions of the same names; the inline
      callbacks of the JSX are the other cases of [buddies_step];
      [buddies_enabled] says which controls are rendered; [checkInModal],
      [profile], [statusButtons] and [emptyState] are what the JSX computes,
      [controls] the elements of the render with their handlers.
    - [Dashboard], module [DashboardPage]: the dashboard.  [useEffect_tasks]
      is the body of the effect, [render] one render with its effect phase
      on a [DashState] (the store and the dependencies of the previous
      render), [settle] its iteration; [dash_step] places the page among the
      other writers of the store (the router mounts and unmounts it, other
      components write the store); [stats], [pendingTasks],
      [recentCheckIns], [activeBuddies] and [rankProgress] are the constants
      of the same names; [statTiles], [rankCard], [pendingSection] and the
      three kinds of rows are what the JSX computes, and [view] is the
      element the component returns: its sections, its anchors and its
      buttons.
    - [App]: the three pages on the same mock buddies: [online_marks], the
      marks the chat page and the dashboard put on a buddy, against
      [listed_online], the filter of the buddies page.
    The page modules keep the names of the sources, which repeat from page to
    page ([setSearchQuery], [matchesSearch]).

    ** What is proved

    - Feed: [feed_map_refines] (the list implements the map: insert, update,
      map, delete); [notification_reachable_origin] (a notification is only
      ever added, removed or marked read); identifiers stay distinct when
      [Date.now()] increases strictly ([feed_ids_NoDup_run]) and collide
      within one millisecond ([same_millisecond_ids_collide]); the effect of
      each operation on [unreadCount] ([notification_step_unreadCount]);
      removal and stale identifiers ([clearNotification_removes]);
      exactly which two operations give the same feed in either order, and
      that the others differ from every feed
      ([notification_updates_commute]).
    - Numbers: for every array of 1 to [2 ^ 53 - 1] elements and every value
      of [Math.random()], the index [Math.floor(Math.random() * a.length)]
      is within the array ([element_floor_random]), from a bound on the
      rounding of a product ([round_shr_bound], [binary_round_aux_floor]).
    - Chat: the invariant [chat_inv] of every reachable state
      ([chat_reachable_inv]); one pending timeout or delivered reply per send
      ([timeouts_accounting]); every pending reply is delivered by the timer
      events that follow, in the order of the sends
      ([replies_eventually_delivered]); while the user stays in one
      conversation the list of the page is the log of the design's store and
      the timeouts are its scheduled replies, but not its unread counter
      ([page_refines_store]); the functional behaviour of a send,
      of a rejected send, of a send without a user and of a firing timeout;
      the displayed list is append-only except on a change of conversation;
      the reply index, computed as the doubles of the source compute it,
      is within bounds and reaches every reply
      ([getRandomReply_in_replies]); the search filter; the guard of the
      machine is what the render offers, plus the timer
      ([controls_offer_chat_enabled]).  Three results state behaviour that
      departs from the design once the user changes conversation or goes
      back: [reply_lands_in_other_conversation],
      [sent_message_lost_on_switch], [back_shows_both_panes].
    - Wiring: the store keeps its invariant along every run of the wired
      system, and the two unread counters move in step over sends and
      deliveries, the feed's never falling behind while only the store is
      commanded ([counters_in_step]); over interleaved sends the log of a
      conversation holds the messages sent to it, in order, as if the other
      sends had not happened ([sends_interleaved]); a deleted conversation
      is never brought back and no delivery notifies for it
      ([delete_cancels]); a send is read back as the last message
      ([sendMessage_read_back]); over a run of the page in one
      conversation the feed of the sources does not move, while the wired
      system holds one unread message notification for every delivered
      reply ([page_never_notifies]).
    - Client: [handleResponse_outcomes] (every branch of [handleResponse]),
      the error message on every body and exactly when it is not the string
      its type declares ([handleResponse_error_message]); the token is
      always the stored one ([reload_restores_service]); every endpoint sends
      the same headers, with [Authorization] exactly for a non-empty token,
      and none after [clearToken]; when a call throws; which requests carry a
      body, and that the body parses back to the payload; a value the server
      serialises arrives as [data], its [detail] as the error
      ([handleResponse_roundtrip]).
    - Client and back end: every payload type is read back from its JSON
      ([of_to_json], from which [to_json] is injective); a request
      determines the method and the arguments of the call that made it, so
      no two calls make the same request ([route_invoke]); a call carried to
      the back end and back gives the caller the answer to that very call,
      or [Not authenticated] when the call needs a token and [localStorage]
      holds none the back end accepts, after any sequence of [setToken],
      [clearToken] and page loads ([call_end_to_end]).
    - Buddies: the invariant [buddies_inv] of every reachable state
      ([buddies_reachable_inv]: a modal is open only on a selected buddy of
      the data, no alert says [undefined]); the grid as a specification of
      the filter ([filteredBuddies_spec]) and the three status filters as a
      partition of it ([filteredBuddies_partition]); a submitted check-in is
      discarded and a cancelled one stays in the form ([checkIn_form_data]);
      the guard of the machine is what the render offers
      ([controls_offer_enabled]).
    - Dashboard: the effect loop terminates in two renders and reaches a
      stable state ([settle_terminates]); while the page is mounted the
      store is never left empty, whatever other components write
      ([dashboard_store_seeded]); the figures and their bounds, with the
      day the check-in figure counts on a clock ahead of UTC
      ([stats_values]); the pending card ([pendingSection_spec]); the double
      slices ([dashboard_slices]); the shape of the page, its anchors and
      its buttons ([view_shape]); the first render on an empty store
      ([view_mount_empty]).
    - Pages together: when buddy identifiers are unique, the online marks of
      the chat page and of the dashboard are those of the buddies page's
      [online] filter, whose size is the first figure of the dashboard
      ([buddy_across_pages]); with a repeated identifier the chat page shows
      the first buddy ([duplicate_id_pages_disagree]).

    ** Modelling choices and bounds

    - A [string] is a sequence of code units below 256 (Latin-1); a number
      is an integer ([Z]); [toISOString] covers the years 0000 to 9999.
    - Two readings of the clock per handler ([Clock]): [Date.now()] for the
      identifier and [new Date()] for the timestamp.  No theorem assumes they
      agree or increase unless it says so.
    - [Math.random()] is any binary64 Number [r] with [0 ≤ r < 1]
      ([is_random]); its product with the number of replies is the rounded
      product of two doubles, not the exact one, and the index is the floor
      of the rounded product.  The two differ: for
      [7720456504063707 / 2^53] the exact product is below 6 and the
      rounded one is 6 ([rounded_product_index]).
    - The timeouts of one page all have delay 1500, so they fire in the order
      they were set: the queue is a FIFO list.  Liveness is stated on finite
      runs: the timer events that follow a state, one per pending timeout.
    - The wiring is modelled from the design document: a delivery notifies
      when the conversation it was scheduled for is still in the store, the
      payload of the notification is the conversation's identifier, and a
      stale delivery counts on neither side.  The comparison with the
      sources takes the events of the page for the commands [store_step]
      takes them for.
    - React's object identity is structural equality: the selection effect
      runs when the selected conversation changes as a value.  This agrees
      with the code when no two conversations of the store are equal as
      values; where two are, React would run the effect on a click from one
      to the other and the model does not.
    - The page stays mounted: no event unmounts it, so a timeout never fires
      into an unmounted component.
    - The controls of a page are listed region by region of the markup
      ([searchControls], [headerControls], [formControls], ...), and
      [controls] composes them; the static text and the class names around
      them are not translated.
    - An effect runs after a render whose dependency array differs from the
      one of the previous render.  [settle] takes fuel; [settle_terminates]
      proves that fuel 2 is enough from every state (one render to seed the
      store, one to see the new length) and that more fuel changes nothing,
      so [mount] and [rerender] use 2.
    - The task store is outside the sources.  [dash_step] assumes of it what
      a store with subscriptions provides: the page reads the current tasks,
      a write while the page is mounted makes it render again, and a page
      mounted anew has no previous dependencies ([lastDeps = None]).
    - A template literal prints [undefined] as [undefined], a JSX child
      prints nothing for it: [template] and [jsx_child].
    - [BuddyCard], [Modal] and [TaskCard] are outside the sources: a card
      offers the four callbacks it is given, a modal shows its children and
      its close button while [isOpen], a task card shows its task.
    - [window.alert] is the list [alerts] of the messages shown, oldest
      first.
    - The mock data, the signed-in user, [getRankProgress], [getMoodEmoji]
      and [API_BASE_URL] are section variables: the theorems hold for every
      store, user, helper and base URL.  [getRankProgress] returns integers.
    - [JSON_parse] uses the length of the text as fuel: every value consumes
      a character, so the fuel bounds both the nesting and the number of
      elements.  [JSON_parse_fuel] proves it enough for every text: a parse
      that succeeds with any fuel is the result of [JSON_parse], so [None]
      is a syntax error and never exhaustion.  It rejects fractions,
      exponents and [\u] escapes above 255.
    - [fetch] and the network are a parameter ([run_call]); the theorems of
      [Api] assume nothing of the server.  [Route] and [Server] assume the
      routes of the client and the conventions of FastAPI (200 with the
      value, an error status with a [detail]); a path identifier is the
      decimal text of an integer, a task identifier any text.  [fetch]
      sends the address as written: the normalisation of dot segments is
      not modelled, so [route_invoke] is about the request as built.
    - A control is in the render or not: classes that hide a pane below a
      breakpoint ([hidden md:flex]) do not remove its controls.  A form
      whose submit button is disabled is not submitted.

    ** Not modelled

    - The auth context, the task store, [utils/helpers], the components
      under [components/] and the mock data themselves: they are outside
      [src/]; the pages' uses of them are parameters.
    - Rendering proper: class names, icons, headings and other static text,
      scrolling ([scrollIntoView]), [timeAgo] and [toLocaleTimeString].
    - The back end itself: its storage, its rules and its responses are
      parameters of [Server].  The router of the application (which page is
      shown for which path) is outside [src/]; the dashboard's anchors are
      modelled as the paths they name.
    - The design's [receiveMessage], [markConversationRead], cancellation
      of scheduled replies and the new-message event have no counterpart in
      the sources: [Store] and [Wiring] state them from the design document,
      and no definition of them is a translation of code.  The observer of
      the design (its section 6, change notifications to subscribers) is
      not modelled: the theorems read the state after each command.
    - The lines of the sources that no definition covers are imports, blank
      lines, the component headers and closing brackets of the JSX: nothing
      that holds state or computes is left out.
    - Imports, exports and type declarations that have no run-time
      behaviour. *)

From stdpp Require Export prelude strings pretty gmap.

(** ** Scopes and automation *)

Declare Scope js_scope.
Delimit Scope js_scope with js.

(** [js] collects the equations of the modelled operations that the
    components prove once and then rewrite with; [js_simpl] normalises a goal
    with them. *)
Create HintDb js discriminated.
Create Rewrite HintDb js_rw.

Ltac js_simpl := repeat (progress (autorewrite with js_rw; simpl)).

(** Case analysis on the first [decide] or [bool_decide] of the goal, closing
    the branches that are immediate. *)
Ltac js_cases :=
  repeat first [ case_decide | case_bool_decide | case_match ];
  simplify_eq/=; try done.

(** ** Completions: handlers that may throw

    A JavaScript function either returns normally or throws.  [Throw] carries
    the message of the error object. *)
Inductive Completion (A : Type) : Type :=
| Normal (a : A)
| Throw (msg : string).
Arguments Normal {A} a.
Arguments Throw {A} msg.

#[export] Instance Completion_eq_dec `{EqDecision A} : EqDecision (Completion A).
Proof. solve_decision. Defined.

#[export] Instance Completion_ret : MRet Completion := @Normal.
#[export] Instance Completion_bind : MBind Completion := λ A B f c,
  match c with Normal a => f a | Throw m => Throw m end.
#[export] Instance Completion_fmap : FMap Completion := λ A B f c,
  match c with Normal a => Normal (f a) | Throw m => Throw m end.

Definition is_Normal {A} (c : Completion A) : Prop :=
  match c with Normal _ => True | Throw _ => False end.

#[export] Instance is_Normal_dec {A} (c : Completion A) : Decision (is_Normal c).
Proof. destruct c; apply _. Defined.

(** ** Entities with a read flag

    Messages and notifications both carry a flag that the user interface sets
    once and never clears.  [Readable] is what the counting lemmas need of
    such an entity; the message type of the chat page and the notification
    type of the notification context are its instances. *)
Class Readable (A : Type) := {
  is_read : A → bool;
  mark_read : A → A;
  is_read_mark_read : ∀ a, is_read (mark_read a) = true;
  mark_read_id : ∀ a, is_read a = true → mark_read a = a;
}.

Section readable.
Context `{Readable A}.
Implicit Types (a : A) (l : list A) (p : A → bool).

(** The number of entities of [l] whose flag is still clear. *)
Definition unread l : nat := length (filter (λ a, negb (is_read a)) l).

(** [mark_where p l] sets the flag of the entities that satisfy [p]. *)
Definition mark_where p l : list A :=
  (λ a, if p a then mark_read a else a) <$> l.

Definition mark_all l : list A := mark_read <$> l.

End readable.

(** ** Runs of a step function

    Every stateful component is a function [step : E → S → S] from an event
    and a state to the next state; a run applies the events of a list from
    left to right, the first event first. *)
Definition run {S E : Type} (step : E → S → S) (es : list E) (s : S) : S :=
  foldl (λ s e, step e s) s es.

(** ** Pages as labelled transition systems

    A page is a step function together with the events it offers in each
    state ([enabled]: the controls the render shows, the timers that are
    pending) and its first state.  A run lists the events that led to a
    state, oldest first. *)
Section lts.
Context {S E : Type} (step : E → S → S) (enabled : E → S → Prop) (init : S).

Inductive lts_trans : S → E → S → Prop :=
| lts_trans_intro s e : enabled e s → lts_trans s e (step e s).

Inductive lts_run : list E → S → Prop :=
| lts_run_init : lts_run [] init
| lts_run_step es s e s' : lts_run es s → lts_trans s e s' → lts_run (es ++ [e]) s'.

Definition lts_reachable (s : S) : Prop := ∃ es, lts_run es s.

(** Every event of the list is offered when its turn comes. *)
Fixpoint lts_enabled_all (es : list E) (s : S) : Prop :=
  match es with
  | [] => True
  | e :: es => enabled e s ∧ lts_enabled_all es (step e s)
  end.

#[export] Instance lts_enabled_all_dec `{!∀ e s, Decision (enabled e s)} es s :
  Decision (lts_enabled_all es s).
Proof. revert s. induction es; simpl; apply _. Defined.

End lts.

(** ** Lists: maps *)

(** A map relates every element to its image, position by position. *)
Lemma Forall2_fmap_self {A B} (R : A → B → Prop) (f : A → B) (l : list A) :
  (∀ x, R x (f x)) → Forall2 R l (f <$> l).
Proof. intros HR. induction l; simpl; constructor; auto. Qed.

(** A filter commutes with a map that the test does not see through. *)
Lemma filter_fmap {A B} (f : A → B) (P : B → Prop) `{!∀ y, Decision (P y)}
    (l : list A) :
  filter P (f <$> l) = f <$> filter (λ x, P (f x)) l.
Proof.
  induction l as [|x l IH]; [done|].
  rewrite fmap_cons, !filter_cons. case_decide; by rewrite ?fmap_cons, IH.
Qed.

(** ** Counting unread entities *)

Section readable_lemmas.
Context `{Readable A}.
Implicit Types (a : A) (l : list A) (p : A → bool).

Lemma unread_nil : unread [] = 0.
Proof. done. Qed.

Lemma unread_cons a l :
  unread (a :: l) = (if is_read a then 0 else 1) + unread l.
Proof. unfold unread. rewrite filter_cons. by destruct (is_read a). Qed.

Lemma unread_app l1 l2 : unread (l1 ++ l2) = unread l1 + unread l2.
Proof. unfold unread. by rewrite filter_app, length_app. Qed.

Lemma unread_snoc l a :
  unread (l ++ [a]) = unread l + (if is_read a then 0 else 1).
Proof. rewrite unread_app, unread_cons, unread_nil. lia. Qed.

Lemma unread_le_length l : unread l ≤ length l.
Proof. apply length_filter. Qed.

Lemma unread_0_iff l : unread l = 0 ↔ Forall (λ a, is_read a = true) l.
Proof.
  induction l as [|a l IH]; [by split|].
  rewrite unread_cons, Forall_cons, <-IH.
  destruct (is_read a); simpl; [tauto|split; [lia|by intros [? _]]].
Qed.

Lemma mark_where_length p l : length (mark_where p l) = length l.
Proof. apply length_fmap. Qed.

Lemma mark_all_mark_where l : mark_all l = mark_where (λ _, true) l.
Proof. done. Qed.

Lemma unread_mark_where_cons p a l :
  unread (mark_where p (a :: l)) =
  (if is_read a || p a then 0 else 1) + unread (mark_where p l).
Proof.
  unfold mark_where. rewrite fmap_cons, unread_cons.
  destruct (p a), (is_read a) eqn:?; simpl; rewrite ?is_read_mark_read; by simplify_eq/=.
Qed.

(** Marking never raises the count, and lowers it by exactly the number of
    unread entities it selects. *)
Lemma unread_mark_where p l :
  unread (mark_where p l) + unread (filter (λ a, p a) l) = unread l.
Proof.
  induction l as [|a l IH]; [done|].
  rewrite unread_mark_where_cons, filter_cons, unread_cons.
  destruct (p a) eqn:?, (is_read a) eqn:?; case_decide; rewrite ?unread_cons;
    simplify_eq/=; try done; destruct (is_read a); simplify_eq/=; lia.
Qed.

(** A test and its negation split the count. *)
Lemma unread_filter_split (P : A → Prop) `{!∀ a, Decision (P a)} l :
  unread (filter (λ a, ¬ P a) l) + unread (filter P l) = unread l.
Proof.
  induction l as [|a l IH]; [done|].
  rewrite !filter_cons, unread_cons.
  repeat case_decide; try done; rewrite unread_cons; lia.
Qed.

Lemma unread_mark_where_le p l : unread (mark_where p l) ≤ unread l.
Proof. pose proof (unread_mark_where p l). lia. Qed.

Lemma unread_mark_all l : unread (mark_all l) = 0.
Proof.
  apply unread_0_iff, Forall_fmap, Forall_forall. intros a _. apply is_read_mark_read.
Qed.

Lemma mark_where_idemp p l :
  (∀ a, p (mark_read a) = p a) → mark_where p (mark_where p l) = mark_where p l.
Proof.
  intros Hp. unfold mark_where. rewrite <-list_fmap_compose.
  apply list_fmap_ext. intros _ a _. simpl. destruct (p a) eqn:Hpa; [|by rewrite Hpa].
  rewrite Hp, Hpa. apply mark_read_id, is_read_mark_read.
Qed.

Lemma mark_all_idemp l : mark_all (mark_all l) = mark_all l.
Proof. rewrite !mark_all_mark_where. by apply mark_where_idemp. Qed.

(** Marking where nothing is selected changes nothing. *)
Lemma mark_where_none p l :
  Forall (λ a, p a = false) l → mark_where p l = l.
Proof.
  intros Hl. unfold mark_where. rewrite <-(list_fmap_id l) at 2.
  apply Forall_fmap_ext_1. eapply Forall_impl; [done|]. by intros a ->.
Qed.

(** The flag only ever goes from clear to set: position by position, an
    entity that was read stays read. *)
Lemma mark_where_monotone p l :
  Forall2 (λ a a', is_read a = true → is_read a' = true) l (mark_where p l).
Proof.
  apply Forall2_fmap_self. intros a Ha.
  destruct (p a); [apply is_read_mark_read|done].
Qed.

End readable_lemmas.

(** ** Lists: keys *)

(** Two elements of a list whose keys are distinct are equal when their keys
    are. *)
Lemma NoDup_fmap_elem_eq {A B} (f : A → B) (l : list A) x y :
  NoDup (f <$> l) → x ∈ l → y ∈ l → f x = f y → x = y.
Proof.
  induction l as [|a l IH]; [by intros _ ?%elem_of_nil|].
  rewrite fmap_cons, NoDup_cons, !elem_of_cons. intros [Ha Hl] [->|Hx] [->|Hy] Hf; auto.
  - destruct Ha. rewrite Hf. by apply list_elem_of_fmap_2.
  - destruct Ha. rewrite <-Hf. by apply list_elem_of_fmap_2.
Qed.

(** A filter keeps the keys distinct. *)
Lemma NoDup_fmap_filter {A B} (f : A → B) (P : A → Prop) `{!∀ x, Decision (P x)}
    (l : list A) :
  NoDup (f <$> l) → NoDup (f <$> filter P l).
Proof.
  induction l as [|a l IH]; [done|]. rewrite fmap_cons, NoDup_cons, filter_cons.
  intros [Ha Hl]. case_decide; [|by auto]. rewrite fmap_cons, NoDup_cons.
  split; [|by auto]. intros (y & Hy & [_ Hin]%list_elem_of_filter)%list_elem_of_fmap.
  apply Ha. rewrite Hy. by apply list_elem_of_fmap_2.
Qed.

(** ** Lists: filters *)

Section filter.
Context {A : Type} (P : A → Prop) `{!∀ x, Decision (P x)}.
Implicit Types (l : list A).

(** A filter whose test every element passes keeps the list. *)
Lemma filter_all l : Forall P l → filter P l = l.
Proof.
  induction 1 as [|x l Hx _ IH]; [done|]. by rewrite filter_cons_True, IH.
Qed.

(** A filter whose test no element passes empties the list. *)
Lemma filter_none l : Forall (λ x, ¬ P x) l → filter P l = [].
Proof.
  induction 1 as [|x l Hx _ IH]; [done|]. by rewrite filter_cons_False.
Qed.

Lemma Forall_filter (Q : A → Prop) l : Forall Q l → Forall Q (filter P l).
Proof.
  rewrite !Forall_forall. intros HQ x [_ ?]%list_elem_of_filter. auto.
Qed.

Lemma filter_idemp l : filter P (filter P l) = filter P l.
Proof. apply filter_all, Forall_forall. by intros x [? _]%list_elem_of_filter. Qed.

(** A stronger test keeps a sublist of what a weaker test keeps. *)
Lemma filter_sublist_impl (Q : A → Prop) `{!∀ x, Decision (Q x)} l :
  (∀ x, P x → Q x) → filter P l `sublist_of` filter Q l.
Proof.
  intros HPQ. induction l as [|x l IH]; [done|]. rewrite !filter_cons.
  destruct (decide (P x)) as [HP|], (decide (Q x)) as [|HQ];
    [by constructor|by destruct HQ; auto|by constructor|done].
Qed.

Lemma length_filter_all l : length (filter P l) = length l → filter P l = l.
Proof.
  induction l as [|x l IH]; [done|]. rewrite filter_cons.
  case_decide; simpl; [intros; f_equal; apply IH; lia|].
  pose proof (length_filter P l). lia.
Qed.

End filter.

(** A filter whose test is, on the elements of the list, the disjunction of
    two exclusive tests keeps what the two keep, up to order. *)
Lemma filter_split {A} (P Q R : A → Prop)
    `{!∀ x, Decision (P x), !∀ x, Decision (Q x), !∀ x, Decision (R x)} (l : list A) :
  Forall (λ x, (P x ↔ Q x ∨ R x) ∧ ¬ (Q x ∧ R x)) l →
  filter P l ≡ₚ filter Q l ++ filter R l.
Proof.
  induction 1 as [|x l [HP Hex] _ IH]; [done|]. rewrite !filter_cons.
  destruct (decide (P x)) as [Hx|Hx], (decide (Q x)) as [HQ|HQ], (decide (R x)) as [HR|HR];
    try tauto; simpl; rewrite ?IH; try done.
  by rewrite <-Permutation_middle.
Qed.

(** A stronger test keeps no more, and fewer when an element passes the
    weaker test only. *)
Lemma length_filter_impl {A} (P Q : A → Prop)
    `{!∀ x, Decision (P x), !∀ x, Decision (Q x)} (l : list A) :
  (∀ x, P x → Q x) → length (filter P l) ≤ length (filter Q l).
Proof. intros. by apply sublist_length, filter_sublist_impl. Qed.

Lemma length_filter_lt {A} (P Q : A → Prop)
    `{!∀ x, Decision (P x), !∀ x, Decision (Q x)} (l : list A) x :
  (∀ x, P x → Q x) → x ∈ l → Q x → ¬ P x →
  length (filter P l) < length (filter Q l).
Proof.
  intros HPQ Hx HQ HP. induction l as [|y l IH]; [by apply elem_of_nil in Hx|].
  pose proof (length_filter_impl P Q l HPQ). rewrite !filter_cons.
  apply elem_of_cons in Hx as [<-|Hx].
  - rewrite (decide_False (P:=P x)), (decide_True (P:=Q x)) by done. simpl. lia.
  - specialize (IH Hx). destruct (decide (P y)), (decide (Q y)); simpl; try lia.
    by destruct n; auto.
Qed.

(** Two exclusive tests keep no more than the list holds. *)
Lemma length_filter_exclusive {A} (P Q : A → Prop)
    `{!∀ x, Decision (P x), !∀ x, Decision (Q x)} (l : list A) :
  (∀ x, P x → Q x → False) → length (filter P l) + length (filter Q l) ≤ length l.
Proof.
  intros Hex. induction l as [|y l IH]; [done|]. rewrite !filter_cons.
  destruct (decide (P y)), (decide (Q y)); simpl; try lia. by destruct (Hex y).
Qed.

(** What a slice of a slice keeps: [l.slice(0, n).slice(0, m)]. *)
Lemma take_take_le {A} (l : list A) n m : m ≤ n → take m (take n l) = take m l.
Proof. intros. by rewrite take_take, Nat.min_l. Qed.

(** ** Runs: equations and induction *)

Section run.
Context {S E : Type} (step : E → S → S).

Lemma run_nil s : run step [] s = s.
Proof. done. Qed.

Lemma run_cons e es s : run step (e :: es) s = run step es (step e s).
Proof. done. Qed.

Lemma run_app es1 es2 s : run step (es1 ++ es2) s = run step es2 (run step es1 s).
Proof. apply foldl_app. Qed.

Lemma run_snoc es e s : run step (es ++ [e]) s = step e (run step es s).
Proof. by rewrite run_app. Qed.

(** A property that every step preserves holds after every run. *)
Lemma run_invariant (P : S → Prop) :
  (∀ e s, P s → P (step e s)) → ∀ es s, P s → P (run step es s).
Proof. intros Hstep es. induction es as [|e es IH]; simpl; auto. Qed.

(** A relation between the state before and after that is reflexive,
    transitive and holds of every step holds of every run. *)
Lemma run_preorder (R : relation S) `{!PreOrder R} :
  (∀ e s, R s (step e s)) → ∀ es s, R s (run step es s).
Proof.
  intros Hstep es. induction es as [|e es IH]; intros s; simpl; [done|].
  by etrans; [apply Hstep|apply IH].
Qed.

(** The same for the runs whose events satisfy [Q], from a state that
    satisfies an invariant [I] of the steps. *)
Lemma run_preorder_where (R : relation S) `{!PreOrder R} (Q : E → Prop) (I : S → Prop) :
  (∀ e s, I s → I (step e s)) →
  (∀ e s, Q e → I s → R s (step e s)) →
  ∀ es s, Forall Q es → I s → R s (run step es s).
Proof.
  intros HI Hstep es. induction es as [|e es IH]; intros s Hes Hs; simpl; [done|].
  apply Forall_cons in Hes as [He Hes]. etrans; [by apply Hstep|]. apply IH; auto.
Qed.

(** Comparing a measure before and after is a preorder. *)
Lemma measure_preorder (R : relation Z) `{!PreOrder R} (μ : S → Z) :
  PreOrder (λ s s', R (μ s) (μ s')).
Proof. split; [by intros s|intros s1 s2 s3 ??; by etrans]. Qed.

End run.

(** ** Pages: runs and invariants *)

Section lts_lemmas.
Context {S E : Type} (step : E → S → S) (enabled : E → S → Prop) (init : S).
#[local] Abbreviation runs := (lts_run step enabled init).

Lemma lts_trans_inv s e s' :
  lts_trans step enabled s e s' → enabled e s ∧ s' = step e s.
Proof. by intros []. Qed.

Lemma lts_run_snoc es s e : runs es s → enabled e s → runs (es ++ [e]) (step e s).
Proof. intros. by eapply lts_run_step, lts_trans_intro. Qed.

(** Induction on a run, with the step unfolded. *)
Lemma lts_run_rect (P : list E → S → Prop) :
  P [] init →
  (∀ es s e, runs es s → P es s → enabled e s → P (es ++ [e]) (step e s)) →
  ∀ es s, runs es s → P es s.
Proof.
  intros Hinit Hstep es s. induction 1 as [|es s e s' Hrun IH [He ->]%lts_trans_inv]; auto.
Qed.

(** A property of the first state that every offered event preserves holds
    of every state of every run. *)
Lemma lts_run_invariant (P : S → Prop) :
  P init → (∀ e s, P s → enabled e s → P (step e s)) → ∀ es s, runs es s → P s.
Proof. intros Hinit Hstep. apply (lts_run_rect (λ _, P)); eauto. Qed.

(** The state of a run is the one its events compute. *)
Lemma lts_run_state es s : runs es s → s = run step es init.
Proof.
  revert es s. apply lts_run_rect; [done|]. intros es s e _ -> _. by rewrite run_snoc.
Qed.

(** Executing a list of events that are all offered extends a run. *)
Lemma lts_run_exec es0 s0 es :
  runs es0 s0 → lts_enabled_all step enabled es s0 → runs (es0 ++ es) (run step es s0).
Proof.
  revert es0 s0. induction es as [|e es IH]; intros es0 s0 Hrun Hen; simpl.
  - by rewrite app_nil_r.
  - destruct Hen as [He Hes]. rewrite cons_middle, app_assoc. apply IH; [|done].
    by apply lts_run_snoc.
Qed.

Lemma lts_reachable_exec es :
  lts_enabled_all step enabled es init → lts_reachable step enabled init (run step es init).
Proof. intros Hen. exists es. by apply (lts_run_exec [] _ es (lts_run_init _ _ _)). Qed.

(** The events of a run were all offered. *)
Lemma lts_run_enabled_all es s : runs es s → lts_enabled_all step enabled es init.
Proof.
  assert (Hsnoc : ∀ es s0 e, lts_enabled_all step enabled es s0 →
    enabled e (run step es s0) → lts_enabled_all step enabled (es ++ [e]) s0).
  { intros es'. induction es' as [|e' es' IH]; intros s0 e; simpl; [done|].
    intros [? ?] ?. split; [done|]. by apply IH. }
  revert es s. apply lts_run_rect; [done|]. intros es s e Hrun Hen He.
  apply Hsnoc; [done|]. by rewrite <-(lts_run_state es s).
Qed.

End lts_lemmas.

#[export] Hint Rewrite @unread_nil @unread_cons @unread_app @unread_mark_all
  @mark_where_length @run_nil @run_cons @run_app : js_rw.
#[export] Hint Resolve unread_le_length unread_mark_where_le : js.
