(* ===== verification/JsString.v ===== *)
(** * JsString: the string primitives the pages call

    The source calls [String.prototype.trim], [toLowerCase], [includes],
    [split] and [replace], indexes strings ([s[0]]), tests them for
    truthiness ([s || d], [!s]) and builds strings with template literals
    and JSX children.  This file gives each the meaning ECMAScript gives it
    on strings whose code units are below 256 (Latin-1), which is what a
    [string] of this development is: one [ascii] per code unit. *)

From S2P Require Import Prelude.
From Stdlib Require Import Ascii.

(** stdpp keeps [simpl] from unfolding string append; the inductions of this
    file need it to compute on a leading code unit. *)
#[local] Arguments String.append !_ _ / : simpl nomatch.

(** ** Truthiness *)

(** A string is falsy exactly when it is empty. *)
Definition truthy (s : string) : bool :=
  match s with EmptyString => false | String _ _ => true end.

(** [a || b] on strings. *)
Definition or_else (a b : string) : string := if truthy a then a else b.

Infix "||ₛ" := or_else (at level 50, left associativity) : js_scope.

(** [o?.f || d] style defaults on optional strings: [undefined] is falsy. *)
Definition truthy_opt (o : option string) : bool := from_option truthy false o.

(** ** Code units *)

(** WhiteSpace and LineTerminator code units below 256: TAB, LF, VT, FF, CR,
    SP and NBSP. *)
Definition is_white_space (c : ascii) : bool :=
  match N_of_ascii c with
  | 9 | 10 | 11 | 12 | 13 | 32 | 160 => true
  | _ => false
  end%N.

(** Lower-case mapping of one code unit: A-Z, and the Latin-1 capitals
    U+00C0-U+00DE except the multiplication sign U+00D7, move up by 32. *)
Definition toLowerCase_char (c : ascii) : ascii :=
  let n := N_of_ascii c in
  if ((65 <=? n) && (n <=? 90) ||
      (192 <=? n) && (n <=? 222) && negb (n =? 215))%N
  then ascii_of_N (n + 32) else c.

(** ** trim *)

Fixpoint trimStart (s : string) : string :=
  match s with
  | String c s' => if is_white_space c then trimStart s' else s
  | EmptyString => EmptyString
  end.

Fixpoint trimEnd (s : string) : string :=
  match s with
  | String c s' =>
      match trimEnd s' with
      | EmptyString => if is_white_space c then EmptyString else String c EmptyString
      | t => String c t
      end
  | EmptyString => EmptyString
  end.

Definition trim (s : string) : string := trimEnd (trimStart s).

(** Every code unit of the string is white space. *)
Fixpoint all_white_space (s : string) : bool :=
  match s with
  | String c s' => is_white_space c && all_white_space s'
  | EmptyString => true
  end.

(** ** toLowerCase *)

Fixpoint toLowerCase (s : string) : string :=
  match s with
  | String c s' => String (toLowerCase_char c) (toLowerCase s')
  | EmptyString => EmptyString
  end.

(** ** includes *)

(** [startsWith s q]: [q] is a prefix of [s]. *)
Fixpoint startsWith (s q : string) : bool :=
  match q, s with
  | EmptyString, _ => true
  | String a q', String b s' => bool_decide (a = b) && startsWith s' q'
  | String _ _, EmptyString => false
  end.

(** [includes s q]: [q] occurs in [s] as a contiguous substring. *)
Fixpoint includes (s q : string) : bool :=
  startsWith s q ||
  match s with
  | String _ s' => includes s' q
  | EmptyString => false
  end.

(** ** Numbers in template literals

    [`${n}`] and [n.toString()] of an integer [n] of magnitude below 1e21
    print its decimal digits, with a minus sign when negative. *)
Definition toString (n : Z) : string := pretty n.

(** [`${x}`] of an optional string: [undefined] prints as its name. *)
Definition template (o : option string) : string := default "undefined" o.

(** A JSX child [{x}] of an optional string: React renders nothing for
    [undefined]. *)
Definition jsx_child (o : option string) : string := default EmptyString o.

(** ** Indexing, split and replace *)

(** [s[0]]: the first code unit as a string, [undefined] for the empty
    string. *)
Definition charAt0 (s : string) : option string :=
  match s with
  | String c _ => Some (String c EmptyString)
  | EmptyString => None
  end.

(** [s.split(sep)[0]] for a separator of one code unit: what precedes its
    first occurrence, the whole string when there is none. *)
Fixpoint split_head (sep : ascii) (s : string) : string :=
  match s with
  | String c s' => if decide (c = sep) then EmptyString else String c (split_head sep s')
  | EmptyString => EmptyString
  end.

(** [s.replace(/\s/g, '')]: the class [\s] is the white space of [trim]. *)
Fixpoint remove_white_space (s : string) : string :=
  match s with
  | String c s' =>
      if is_white_space c then remove_white_space s' else String c (remove_white_space s')
  | EmptyString => EmptyString
  end.

(** [c] occurs in [s]. *)
Fixpoint occurs (c : ascii) (s : string) : bool :=
  match s with
  | String c' s' => bool_decide (c' = c) || occurs c s'
  | EmptyString => false
  end.

(** * Lemmas *)

Lemma truthy_true s : truthy s = true ↔ s ≠ "".
Proof. by destruct s. Qed.

Lemma truthy_false s : truthy s = false ↔ s = "".
Proof. by destruct s. Qed.

Lemma or_else_truthy a b : truthy b = true → truthy (or_else a b) = true.
Proof. unfold or_else. by destruct (truthy a) eqn:?. Qed.

Lemma or_else_empty_l b : or_else "" b = b.
Proof. done. Qed.

Lemma or_else_assoc a b c : or_else (or_else a b) c = or_else a (or_else b c).
Proof. unfold or_else. destruct (truthy a) eqn:Ha; [by rewrite Ha|done]. Qed.

Lemma toString_inj : Inj (=) (=) toString.
Proof. apply _. Qed.

Lemma app_truthy_l a b : truthy a = true → truthy (a +:+ b) = true.
Proof. by destruct a. Qed.

Lemma app_assoc_s (a b c : string) : (a +:+ b) +:+ c = a +:+ (b +:+ c).
Proof. induction a as [|x a IH]; simpl; [done|]. by rewrite <-IH. Qed.

Lemma app_empty_r (a : string) : a +:+ "" = a.
Proof. induction a as [|x a IH]; simpl; [done|]. by rewrite IH. Qed.

Lemma app_length_s (a b : string) :
  String.length (a +:+ b) = String.length a + String.length b.
Proof. induction a as [|x a IH]; simpl; [done|]. by rewrite IH. Qed.

(** *** trim *)

Lemma all_white_space_app a b :
  all_white_space (a +:+ b) = all_white_space a && all_white_space b.
Proof. induction a as [|x a IH]; simpl; [done|]. by rewrite IH, andb_assoc. Qed.

Lemma trimStart_all_white_space s : all_white_space s = true → trimStart s = "".
Proof.
  induction s as [|c s IH]; simpl; [done|]. by destruct (is_white_space c).
Qed.

Lemma trimEnd_empty_iff s : trimEnd s = "" ↔ all_white_space s = true.
Proof.
  induction s as [|c s IH]; simpl; [done|].
  destruct (trimEnd s) as [|d t].
  - rewrite (proj1 IH eq_refl), andb_true_r. by destruct (is_white_space c).
  - destruct (all_white_space s); [by pose proof (proj2 IH eq_refl)|].
    by rewrite andb_false_r.
Qed.

Lemma trimStart_empty_iff s : trimStart s = "" ↔ all_white_space s = true.
Proof.
  induction s as [|c s IH]; simpl; [done|]. by destruct (is_white_space c).
Qed.

(** The first code unit of a left-trimmed string is not white space. *)
Definition head_not_white (s : string) : Prop :=
  match s with String c _ => is_white_space c = false | EmptyString => True end.

(** The last code unit of a right-trimmed string is not white space. *)
Fixpoint last_not_white (s : string) : Prop :=
  match s with
  | String c EmptyString => is_white_space c = false
  | String _ s' => last_not_white s'
  | EmptyString => True
  end.

Lemma trimStart_head s : head_not_white (trimStart s).
Proof. induction s as [|c s IH]; simpl; [done|]. by destruct (is_white_space c) eqn:?. Qed.

Lemma trimStart_id s : head_not_white s → trimStart s = s.
Proof. destruct s as [|c s]; simpl; [done|]. by intros ->. Qed.

Lemma trimEnd_head s : head_not_white s → head_not_white (trimEnd s).
Proof.
  destruct s as [|c s]; simpl; [done|]. intros Hc. rewrite Hc. by destruct (trimEnd s).
Qed.

Lemma trimEnd_last s : last_not_white (trimEnd s).
Proof.
  induction s as [|c s IH]; simpl; [done|].
  destruct (trimEnd s) as [|d t]; [by destruct (is_white_space c) eqn:?|done].
Qed.

Lemma trimEnd_id s : last_not_white s → trimEnd s = s.
Proof.
  induction s as [|c s IH]; simpl; [done|].
  destruct s as [|d s]; [by intros ->|]. intros Hs. by rewrite (IH Hs).
Qed.

Lemma trimEnd_idemp s : trimEnd (trimEnd s) = trimEnd s.
Proof. apply trimEnd_id, trimEnd_last. Qed.

Lemma trimStart_trimEnd s : head_not_white s → trimStart (trimEnd s) = trimEnd s.
Proof. intros. by apply trimStart_id, trimEnd_head. Qed.

Lemma trim_head s : head_not_white (trim s).
Proof. apply trimEnd_head, trimStart_head. Qed.

Lemma trim_last s : last_not_white (trim s).
Proof. apply trimEnd_last. Qed.

Lemma trim_id s : head_not_white s → last_not_white s → trim s = s.
Proof. intros Hh Hl. unfold trim. by rewrite (trimStart_id s Hh), trimEnd_id. Qed.

Lemma trim_idemp s : trim (trim s) = trim s.
Proof. apply trim_id; [apply trim_head|apply trim_last]. Qed.

Lemma trimStart_decompose s :
  ∃ pre, s = pre +:+ trimStart s ∧ all_white_space pre = true.
Proof.
  induction s as [|c s (pre & Hs & Hpre)]; simpl; [by exists ""|].
  destruct (is_white_space c) eqn:Hc; [|by exists ""].
  exists (String c pre). simpl. by rewrite <-Hs, Hc.
Qed.

Lemma trimEnd_decompose s :
  ∃ post, s = trimEnd s +:+ post ∧ all_white_space post = true.
Proof.
  induction s as [|c s (post & Hs & Hpost)]; simpl; [by exists ""|].
  destruct (trimEnd s) as [|d t] eqn:Ht; simpl in *.
  - destruct (is_white_space c) eqn:Hc; [|exists post; by subst].
    exists (String c post). simpl. rewrite Hc. by subst.
  - exists post. split; [by f_equal|done].
Qed.

Lemma all_white_space_trimStart s :
  all_white_space (trimStart s) = all_white_space s.
Proof.
  induction s as [|c s IH]; simpl; [done|].
  destruct (is_white_space c) eqn:Hc; simpl; by rewrite ?Hc.
Qed.

(** The trimmed string is empty exactly when the string is blank. *)
Lemma trim_empty_iff s : trim s = "" ↔ all_white_space s = true.
Proof. unfold trim. by rewrite trimEnd_empty_iff, all_white_space_trimStart. Qed.

Lemma trim_truthy s : truthy (trim s) = true ↔ all_white_space s = false.
Proof.
  rewrite truthy_true, trim_empty_iff. destruct (all_white_space s); naive_solver.
Qed.

Lemma trimStart_length s : String.length (trimStart s) ≤ String.length s.
Proof. induction s as [|c s IH]; simpl; [done|]. destruct (is_white_space c); simpl; lia. Qed.

Lemma trimEnd_length s : String.length (trimEnd s) ≤ String.length s.
Proof.
  destruct (trimEnd_decompose s) as (post & Hs & _).
  rewrite Hs at 2. rewrite app_length_s. lia.
Qed.

(** *** toLowerCase *)

Lemma toLowerCase_char_idemp c :
  toLowerCase_char (toLowerCase_char c) = toLowerCase_char c.
Proof. by destruct c as [[] [] [] [] [] [] [] []]. Qed.

Lemma toLowerCase_app a b :
  toLowerCase (a +:+ b) = toLowerCase a +:+ toLowerCase b.
Proof. induction a as [|x a IH]; simpl; [done|]. by rewrite IH. Qed.

Lemma toLowerCase_length s : String.length (toLowerCase s) = String.length s.
Proof. induction s as [|c s IH]; simpl; [done|]. by rewrite IH. Qed.

(** *** includes *)

Lemma startsWith_spec s q : startsWith s q = true ↔ ∃ post, s = q +:+ post.
Proof.
  revert s. induction q as [|a q IH]; intros [|b s]; simpl.
  - split; [by exists ""|done].
  - split; [by eexists|done].
  - split; [done|by intros [? ?]].
  - rewrite andb_true_iff, bool_decide_eq_true, IH. split.
    + intros [-> [post ->]]. by exists post.
    + intros [post ?]. simplify_eq. split; [done|by exists post].
Qed.

Lemma startsWith_refl s : startsWith s s = true.
Proof. apply startsWith_spec. exists "". by rewrite app_empty_r. Qed.

Lemma includes_empty s : includes s "" = true.
Proof. by destruct s. Qed.

Lemma includes_nil q : includes "" q = startsWith "" q.
Proof. simpl. apply orb_false_r. Qed.

Lemma includes_cons c s q :
  includes (String c s) q = startsWith (String c s) q || includes s q.
Proof. done. Qed.

Lemma includes_spec s q :
  includes s q = true ↔ ∃ pre post, s = pre +:+ q +:+ post.
Proof.
  induction s as [|c s IH].
  - rewrite includes_nil, startsWith_spec. split.
    + intros [post ->]. by exists "", post.
    + intros ([|??] & post & Hs); [by exists post|done].
  - rewrite includes_cons, orb_true_iff, startsWith_spec, IH. split.
    + intros [[post ->]|(pre & post & ->)]; [by exists "", post|].
      by exists (String c pre), post.
    + intros ([|c' pre] & post & Hs); [left; by exists post|].
      right. exists pre, post. simpl in Hs. by simplify_eq.
Qed.

Lemma includes_refl s : includes s s = true.
Proof. apply includes_spec. exists "", "". simpl. by rewrite app_empty_r. Qed.

(** A substring of a substring is a substring. *)
Lemma includes_trans s q r :
  includes s q = true → includes q r = true → includes s r = true.
Proof.
  rewrite !includes_spec. intros (p1 & p2 & ->) (p3 & p4 & ->).
  exists (p1 +:+ p3), (p4 +:+ p2). by rewrite !app_assoc_s.
Qed.

(** Narrowing a query: the empty query matches everything, and what matches
    a query matches every substring of it. *)
Lemma includes_toLowerCase s q :
  includes s q = true → includes (toLowerCase s) (toLowerCase q) = true.
Proof.
  rewrite !includes_spec. intros (pre & post & ->).
  exists (toLowerCase pre), (toLowerCase post). by rewrite !toLowerCase_app.
Qed.

#[export] Hint Rewrite includes_empty includes_refl or_else_empty_l trimEnd_idemp : js_rw.
#[export] Hint Resolve trim_head trim_last trimStart_length trimEnd_length : js.

(** ** split and replace *)

Lemma occurs_app c a b : occurs c (a +:+ b) = occurs c a || occurs c b.
Proof. induction a as [|x a IH]; simpl; [done|]. by rewrite IH, orb_assoc. Qed.

(** The head of a split holds no separator. *)
Lemma split_head_occurs sep s : occurs sep (split_head sep s) = false.
Proof.
  induction s as [|c s IH]; simpl; [done|]. case_decide; simpl; [done|].
  by rewrite bool_decide_eq_false_2.
Qed.

(** Splitting cuts at the first separator. *)
Lemma split_head_app sep a b :
  occurs sep a = false → split_head sep (a +:+ String sep b) = a.
Proof.
  induction a as [|c a IH]; simpl; [by rewrite decide_True|].
  intros [Hc Ha]%orb_false_elim. apply bool_decide_eq_false in Hc.
  by rewrite decide_False, IH.
Qed.

Lemma split_head_id sep s : occurs sep s = false → split_head sep s = s.
Proof.
  induction s as [|c s IH]; simpl; [done|].
  intros [Hc Hs]%orb_false_elim. apply bool_decide_eq_false in Hc.
  by rewrite decide_False, IH.
Qed.

Lemma remove_white_space_clean s c :
  is_white_space c = true → occurs c (remove_white_space s) = false.
Proof.
  intros Hc. induction s as [|x s IH]; simpl; [done|].
  destruct (is_white_space x) eqn:Hx; simpl; [done|].
  rewrite IH, orb_false_r. apply bool_decide_eq_false. by intros ->; congruence.
Qed.

Lemma remove_white_space_idemp s :
  remove_white_space (remove_white_space s) = remove_white_space s.
Proof.
  induction s as [|x s IH]; simpl; [done|].
  destruct (is_white_space x) eqn:Hx; simpl; [done|]. by rewrite Hx, IH.
Qed.

Lemma remove_white_space_all s :
  remove_white_space s = EmptyString ↔ all_white_space s = true.
Proof.
  induction s as [|x s IH]; simpl; [done|].
  destruct (is_white_space x); simpl; [done|]. split; discriminate.
Qed.

(** ** The digits of a number *)

(** A character that is no decimal digit occurs in the text of a natural
    number only where the continuation holds it. *)
Lemma pretty_N_go_occurs c x s :
  (∀ d, (d < 10)%N → pretty_N_char d ≠ c) →
  occurs c (pretty_N_go x s) = occurs c s.
Proof.
  intros Hc. revert s. induction (N.lt_wf_0 x) as [x _ IH]; intros s.
  destruct (decide (x = 0)%N) as [->|]; [by rewrite pretty_N_go_0|].
  rewrite pretty_N_go_step, IH by (try apply N.div_lt; lia). simpl.
  rewrite bool_decide_eq_false_2; [done|]. by apply Hc, N.mod_lt.
Qed.

(** The text of an integer holds digits and at most a minus sign. *)
Lemma toString_occurs c n :
  (∀ d, (d < 10)%N → pretty_N_char d ≠ c) → c ≠ "-"%char →
  occurs c (toString n) = false.
Proof.
  intros Hc Hm. assert (pretty_N_char 0 ≠ c) as H0 by (by apply Hc).
  destruct n as [|p|p]; unfold toString, pretty, pretty_Z, pretty, pretty_positive,
    pretty, pretty_N; simpl.
  - by rewrite bool_decide_eq_false_2.
  - by rewrite pretty_N_go_occurs.
  - by rewrite bool_decide_eq_false_2, pretty_N_go_occurs.
Qed.

(** No letter is a digit. *)
Lemma pretty_N_char_not_T d : pretty_N_char d ≠ "T"%char.
Proof. unfold pretty_N_char. by repeat case_match. Qed.
