(* ===== verification/JsDate.v ===== *)
(** * JsDate: the clock readings the handlers take

    The handlers read the clock with [Date.now()] (milliseconds since the
    epoch, an integer) and print it with [new Date().toISOString()].  A clock
    reading is a [Z]; [toISOString] is the ECMAScript rendering
    [YYYY-MM-DDTHH:mm:ss.sssZ] of it (with the expanded year [±YYYYYY]
    outside 0..9999), computed with the proleptic Gregorian calendar.  The
    dashboard takes the date part of it, [split('T')[0]]. *)

From S2P Require Import Prelude JsString.
From Stdlib Require Import Ascii.

#[local] Open Scope Z_scope.
#[local] Arguments String.append !_ _ / : simpl nomatch.

Definition msPerDay : Z := 86400000.

(** [Day(t)] and [TimeWithinDay(t)] of ECMAScript: floor division. *)
Definition Day (t : Z) : Z := t `div` msPerDay.
Definition TimeWithinDay (t : Z) : Z := t `mod` msPerDay.

(** Year, month (1..12) and day of the month (1..31) of a day number counted
    from 1970-01-01. *)
Definition civil_from_days (day : Z) : Z * Z * Z :=
  let z := day + 719468 in
  let era := z `div` 146097 in
  let doe := z - era * 146097 in
  let yoe := (doe - doe `div` 1460 + doe `div` 36524 - doe `div` 146096) `div` 365 in
  let doy := doe - (365 * yoe + yoe `div` 4 - yoe `div` 100) in
  let mp := (5 * doy + 2) `div` 153 in
  let d := doy - (153 * mp + 2) `div` 5 + 1 in
  let m := if decide (mp < 10) then mp + 3 else mp - 9 in
  (yoe + era * 400 + (if decide (m ≤ 2) then 1 else 0), m, d).

(** [padStart(w, "0")] of the decimal digits of a natural number. *)
Fixpoint zeros (n : nat) : string :=
  match n with O => "" | S n' => "0" +:+ zeros n' end.

Definition pad (w : nat) (n : Z) : string :=
  let s := toString n in zeros (w - String.length s) +:+ s.

Definition isoYear (y : Z) : string :=
  if decide (0 ≤ y ≤ 9999) then pad 4 y
  else (if decide (y < 0) then "-" else "+") +:+ pad 6 (Z.abs y).

(** The date part, [YYYY-MM-DD]. *)
Definition isoDate (t : Z) : string :=
  let '(y, m, d) := civil_from_days (Day t) in
  isoYear y +:+ "-" +:+ pad 2 m +:+ "-" +:+ pad 2 d.

(** The time part, [HH:mm:ss.sss]. *)
Definition isoTime (t : Z) : string :=
  let ms := TimeWithinDay t in
  pad 2 (ms `div` 3600000) +:+ ":" +:+ pad 2 ((ms `div` 60000) `mod` 60) +:+ ":" +:+
  pad 2 ((ms `div` 1000) `mod` 60) +:+ "." +:+ pad 3 (ms `mod` 1000).

Definition toISOString (t : Z) : string := isoDate t +:+ "T" +:+ isoTime t +:+ "Z".

(** * Lemmas *)

Lemma app_truthy_r a b : truthy b = true → truthy (a +:+ b) = true.
Proof. by destruct a, b. Qed.

(** An ISO timestamp is never the empty string, so it is truthy: the
    [timestamp || lastMessageAt] of the conversation list always takes the
    message's own timestamp when there is a message. *)
Lemma toISOString_truthy t : truthy (toISOString t) = true.
Proof. unfold toISOString. by apply app_truthy_r. Qed.

Lemma TimeWithinDay_bounds t : 0 ≤ TimeWithinDay t < msPerDay.
Proof. unfold TimeWithinDay, msPerDay. apply Z.mod_pos_bound. lia. Qed.

Lemma Day_TimeWithinDay t : t = Day t * msPerDay + TimeWithinDay t.
Proof. unfold Day, TimeWithinDay, msPerDay. rewrite Z.mul_comm. apply Z.div_mod. lia. Qed.

(** The clock's day number is monotone in the clock. *)
Lemma Day_mono t t' : t ≤ t' → Day t ≤ Day t'.
Proof. unfold Day, msPerDay. intros. apply Z.div_le_mono; lia. Qed.

(** The date part depends on the day number only. *)
Lemma isoDate_Day t t' : Day t = Day t' → isoDate t = isoDate t'.
Proof. unfold isoDate. by intros ->. Qed.

(** The day of a clock that runs [offset] milliseconds ahead of UTC, as the
    local clocks east of Greenwich do: during the first [offset]
    milliseconds of a local day the UTC day is still the day before. *)
Definition localDay (offset t : Z) : Z := Day (t + offset).

Lemma Day_localDay offset t :
  0 ≤ offset ≤ msPerDay →
  Day t = localDay offset t - (if decide (TimeWithinDay (t + offset) < offset) then 1 else 0).
Proof.
  intros Ho. unfold localDay. pose proof (Day_TimeWithinDay (t + offset)) as Ht.
  pose proof (TimeWithinDay_bounds (t + offset)) as Hb. symmetry.
  case_decide; unfold Day at 2; unfold msPerDay in *;
    [apply (Z.div_unique_pos _ _ _ (86400000 + TimeWithinDay (t + offset) - offset))
    |apply (Z.div_unique_pos _ _ _ (TimeWithinDay (t + offset) - offset))]; lia.
Qed.

(** The date [toISOString] prints is the local date, except in the first
    [offset] milliseconds of a local day, when it is the date of the day
    before. *)
Lemma isoDate_local offset t :
  0 ≤ offset ≤ msPerDay →
  isoDate t = isoDate (if decide (TimeWithinDay (t + offset) < offset)
                       then t + offset - msPerDay else t + offset).
Proof.
  intros Ho. apply isoDate_Day. rewrite (Day_localDay offset) by done. unfold localDay.
  case_decide; [|lia]. unfold Day, msPerDay.
  replace (t + offset - 86400000) with (t + offset + (-1) * 86400000) by lia.
  rewrite Z.div_add by lia. lia.
Qed.

Example toISOString_epoch : toISOString 0 = "1970-01-01T00:00:00.000Z".
Proof. reflexivity. Qed.

Example toISOString_2023 : toISOString 1700000000123 = "2023-11-14T22:13:20.123Z".
Proof. vm_compute. reflexivity. Qed.

Example toISOString_leap : toISOString 1709210096789 = "2024-02-29T12:34:56.789Z".
Proof. vm_compute. reflexivity. Qed.

Example toISOString_before_epoch : toISOString (-1) = "1969-12-31T23:59:59.999Z".
Proof. vm_compute. reflexivity. Qed.

#[export] Hint Rewrite toISOString_truthy : js_rw.

(** ** The date part *)

Lemma zeros_occurs c n : c ≠ "0"%char → occurs c (zeros n) = false.
Proof.
  intros Hc. induction n as [|n IH]; simpl; [done|].
  by rewrite IH, bool_decide_eq_false_2.
Qed.

Lemma pad_no_T w n : occurs "T" (pad w n) = false.
Proof.
  unfold pad. rewrite occurs_app, zeros_occurs, toString_occurs; try done.
  intros d _. apply pretty_N_char_not_T.
Qed.

Lemma isoDate_no_T t : occurs "T" (isoDate t) = false.
Proof.
  unfold isoDate, isoYear. destruct (civil_from_days (Day t)) as [[y m] d].
  repeat case_decide; rewrite !occurs_app, !pad_no_T; done.
Qed.

(** [toISOString().split('T')[0]] is the date part. *)
Lemma split_head_toISOString t : split_head "T" (toISOString t) = isoDate t.
Proof. unfold toISOString. apply split_head_app, isoDate_no_T. Qed.
