(* ===== verification/JsNumber.v ===== *)
(** * JsNumber: the Number type where the sources compute with it

    A Number of ECMAScript is an IEEE 754 binary64 value.  The chat page
    multiplies the result of [Math.random()] by the length of an array and
    takes [Math.floor] of the product to index the array; the product is
    rounded to the nearest Number, so the index is not the floor of the
    exact product.  This file takes the binary64 arithmetic of the standard
    library ([SpecFloat], precision 53, [emax] 1024): [mul] is its rounded
    multiplication, [of_nat] the Number of a length, [Math_floor] the
    integer below a finite Number, [is_random] what [Math.random()] may
    return (a Number from 0 up to, not including, 1), and [element] the
    access [a[i]] with a Number as index.

    The result is [element_floor_random]: for every array of 1 to
    [2 ^ 53 - 1] elements and every value of [Math.random()], the index
    [Math.floor(Math.random() * a.length)] is within the array.  It rests
    on a bound on the rounding of [SpecFloat] ([round_shr_bound],
    [binary_round_aux_floor]): rounding to nearest moves a product by at
    most half a unit of the last place, which is never enough to reach the
    length. *)

From S2P Require Import Prelude.
From Stdlib Require Import SpecFloat.

#[local] Open Scope Z_scope.

(** ** Binary64 *)

Definition prec : Z := 53.
Definition emax : Z := 1024.

Definition Number : Type := spec_float.

#[export] Instance Number_eq_dec : EqDecision Number.
Proof. unfold Number. solve_decision. Defined.

(** The Number of a natural number, such as the length of an array. *)
Definition of_nat (n : nat) : Number := binary_normalize prec emax (Z.of_nat n) 0 false.

(** [x * y], rounded to nearest, ties to even. *)
Definition mul (x y : Number) : Number := SFmul prec emax x y.

(** [Math.floor(x)] as an integer; [NaN] and the infinities are no
    integer. *)
Definition Math_floor (x : Number) : option Z :=
  match x with
  | S754_zero _ => Some 0
  | S754_finite s m e => Some (Z.shiftl (cond_Zopp s (Z.pos m)) e)
  | _ => None
  end.

(** What [Math.random()] may return: a Number [r] with [0 ≤ r < 1]. *)
Definition is_random (r : Number) : Prop :=
  valid_binary prec emax r = true ∧
  SFleb (S754_zero false) r = true ∧ SFltb r (of_nat 1) = true.

(** The Number nearest to [n / 2 ^ 53]. *)
Definition random_of (n : Z) : Number := binary_normalize prec emax n (- prec) false.

(** [a[i]] where [i] is the result of [Math.floor]: an integer from 0 to
    the length gives the element, anything else [undefined]. *)
Definition element {A} (a : list A) (i : option Z) : option A :=
  i ≫= λ k, if decide (0 ≤ k) then a !! Z.to_nat k else None.

(** * Lemmas *)

(** ** Digits *)

Lemma digits2_pos_size p : digits2_pos p = Pos.size p.
Proof. induction p; simpl; by rewrite ?IHp. Qed.

Lemma Zdigits2_bounds x :
  0 < x → 0 < Zdigits2 x ∧ 2 ^ (Zdigits2 x - 1) ≤ x < 2 ^ Zdigits2 x.
Proof.
  destruct x as [|p|p]; [lia| |lia]. intros _. simpl. rewrite digits2_pos_size.
  pose proof (Pos.size_gt p) as Hgt. pose proof (Pos.size_le p) as Hle.
  apply Pos2Z.pos_lt_pos in Hgt. apply Pos2Z.pos_le_pos in Hle.
  rewrite Pos2Z.inj_pow in *.
  split; [lia|]. split; [|done].
  replace (Z.pos (Pos.size p)) with (Z.pos (Pos.size p) - 1 + 1) in Hle by lia.
  rewrite Z.pow_add_r in Hle by lia. lia.
Qed.

(** A number below [2 ^ j] has at most [j] digits. *)
Lemma Zdigits2_le x j : 0 ≤ x < 2 ^ j → 0 ≤ j → Zdigits2 x ≤ j.
Proof.
  intros [Hx Hj] Hj0. destruct (decide (x = 0)) as [->|]; [done|].
  destruct (Zdigits2_bounds x) as (Hd & Hlo & _); [lia|].
  destruct (decide (Zdigits2 x ≤ j)); [done|].
  assert (2 ^ j ≤ 2 ^ (Zdigits2 x - 1)) by (apply Z.pow_le_mono_r; lia). lia.
Qed.

(** ** Shifting right *)

Lemma iter_pos_nat {A} (f : A → A) p x : iter_pos f p x = Nat.iter (Pos.to_nat p) f x.
Proof.
  revert x. induction p as [p IH|p IH|]; intros x; cbn [iter_pos]; [| |done].
  - rewrite !IH, Pos2Nat.inj_xI, <-Nat.iter_add, <-Nat.iter_succ_r. f_equal. lia.
  - rewrite !IH, Pos2Nat.inj_xO, <-Nat.iter_add. f_equal. lia.
Qed.

Lemma shr_1_spec mrs :
  0 ≤ shr_m mrs →
  shr_m (shr_1 mrs) = shr_m mrs `div` 2 ∧ shr_r (shr_1 mrs) = Z.odd (shr_m mrs).
Proof.
  destruct mrs as [[|[p|p|]|p] r s]; simpl; intros Hm; try lia; try done.
  - by rewrite Pos2Z.inj_xI, Z.mul_comm, Z.div_add_l by lia.
  - by rewrite Pos2Z.inj_xO, Z.mul_comm, Z.div_mul by lia.
Qed.

(** After [k] shifts the mantissa is the quotient by [2 ^ k]; the round bit,
    the last bit shifted out, is set only in the upper half of the
    interval between two quotients. *)
Lemma iter_shr_1_spec M k :
  0 ≤ M →
  let mrs := Nat.iter k shr_1 {| shr_m := M; shr_r := false; shr_s := false |} in
  shr_m mrs = M `div` 2 ^ Z.of_nat k ∧
  (shr_r mrs = true → 2 ^ Z.of_nat k ≤ 2 * (M `mod` 2 ^ Z.of_nat k)).
Proof.
  intros HM. cbv zeta. induction k as [|k [IHm IHr]]; [by rewrite Z.div_1_r|].
  rewrite Nat.iter_succ. set (mrs := Nat.iter k shr_1 _) in *.
  assert (0 < 2 ^ Z.of_nat k) as HP by (apply Z.pow_pos_nonneg; lia).
  destruct (shr_1_spec mrs) as [-> ->]; [rewrite IHm; by apply Z.div_pos|].
  rewrite Nat2Z.inj_succ, Z.pow_succ_r, IHm by lia.
  rewrite Z.div_div, (Z.mul_comm _ 2) by lia. split; [done|].
  intros Hodd. rewrite Z.odd_spec in Hodd. destruct Hodd as [q Hq].
  pose proof (Z.div_mod M (2 ^ Z.of_nat k)) as H1.
  pose proof (Z.mod_pos_bound M (2 ^ Z.of_nat k) HP) as H2.
  rewrite <-(Z.mod_unique M (2 * 2 ^ Z.of_nat k) q (2 ^ Z.of_nat k + M `mod` 2 ^ Z.of_nat k));
    [lia|left; lia|nia].
Qed.

(** Rounding to nearest after [k] shifts: the result is the quotient or the
    next integer, and never more than half a unit of the last place above
    the number. *)
Lemma round_shr_bound M k :
  0 ≤ M →
  let mrs := Nat.iter k shr_1 {| shr_m := M; shr_r := false; shr_s := false |} in
  let R := round_nearest_even (shr_m mrs) (loc_of_shr_record mrs) in
  0 ≤ R ∧ 2 * (2 ^ Z.of_nat k * R) ≤ 2 * M + 2 ^ Z.of_nat k.
Proof.
  intros HM mrs R. destruct (iter_shr_1_spec M k HM) as [Hm Hr]. fold mrs in Hm, Hr.
  assert (0 < 2 ^ Z.of_nat k) as HP by (apply Z.pow_pos_nonneg; lia).
  pose proof (Z.div_mod M (2 ^ Z.of_nat k)) as H1.
  pose proof (Z.mod_pos_bound M (2 ^ Z.of_nat k) HP) as H2.
  assert (0 ≤ M `div` 2 ^ Z.of_nat k) as H3 by (by apply Z.div_pos).
  subst R. destruct mrs as [m [] []]; simpl in *; subst m;
    try destruct (Z.even _); specialize (Hr ltac:(done)) || clear Hr; nia.
Qed.

Lemma shr_nat mrs e n :
  shr mrs e n = (Nat.iter (Z.to_nat n) shr_1 mrs, e + Z.max 0 n).
Proof.
  destruct n as [|p|p]; simpl; rewrite ?iter_pos_nat; f_equal; lia.
Qed.

(** ** Rounding a product and taking its floor *)

(** A positive number [M * 2 ^ E] rounded to a Number, when the rounding
    cannot reach the integer [b]: the floor of the result is below [b].
    [k] is the number of bits the rounding drops. *)
Lemma binary_round_aux_floor M E b :
  0 < M → b ≤ 2 ^ prec →
  let k := Z.max 0 (fexp prec emax (Zdigits2 M + E) - E) in
  E + k ≤ 0 → 2 * M + 2 ^ k < 2 * (b * 2 ^ (- E)) →
  ∃ i, Math_floor (binary_round_aux prec emax false M E loc_Exact) = Some i ∧ 0 ≤ i < b.
Proof.
  intros HM Hb k Hk Hlt. unfold binary_round_aux, shr_fexp. rewrite shr_nat.
  cbn [shr_record_of_loc]. set (n := Z.to_nat _).
  destruct (round_shr_bound M n) as [HR0 HR]; [lia|]. cbv zeta in HR0, HR.
  set (R := round_nearest_even _ _) in *. rewrite shr_nat.
  fold k. set (e' := E + k) in *. set (n2 := Z.to_nat _).
  set (k2 := Z.max 0 _).
  destruct (iter_shr_1_spec R n2 HR0) as [HR' _]. cbv zeta in HR'.
  set (mrs := Nat.iter n2 _ _) in *.
  replace (Z.of_nat n) with k in HR by lia. replace (Z.of_nat n2) with k2 in HR' by lia.
  assert (0 < 2 ^ k ∧ 0 < 2 ^ k2 ∧ 0 < 2 ^ (- E)) as (HPk & HPk2 & HPE)
    by (split_and!; apply Z.pow_pos_nonneg; lia).
  assert (2 ^ k * R < b * 2 ^ (- E)) as HRb by lia.
  assert (0 < b) as Hb0 by nia.
  assert (R < 2 ^ (prec - e')) as HRd.
  { apply (Z.mul_lt_mono_pos_l (2 ^ k)); [done|]. rewrite <-Z.pow_add_r by (unfold prec; lia).
    replace (k + (prec - e')) with (prec + - E) by lia. rewrite Z.pow_add_r by (unfold prec; lia).
    nia. }
  assert (e' + k2 ≤ 0) as He''.
  { pose proof (Zdigits2_le R (prec - e') (conj HR0 HRd) ltac:(unfold prec; lia)).
    subst k2. unfold fexp, emin, prec, emax in *. lia. }
  pose proof (Z.mul_div_le R (2 ^ k2) HPk2) as Hdiv.
  assert (0 ≤ R `div` 2 ^ k2) as Hpos by (by apply Z.div_pos).
  destruct (shr_m mrs) as [|m|m] eqn:Hm; [exists 0; split; [done|lia]| |lia].
  rewrite (proj2 (Z.leb_le _ _)) by (unfold emax, prec; lia).
  eexists. split; [done|]. simpl. rewrite <-Z.shiftr_opp_r, Z.shiftr_div_pow2 by lia.
  split; [apply Z.div_pos; lia|]. apply Z.div_lt_upper_bound; [apply Z.pow_pos_nonneg; lia|].
  rewrite HR'.
  apply (Z.mul_lt_mono_pos_l (2 ^ k * 2 ^ k2)); [lia|].
  replace (2 ^ k * 2 ^ k2 * (2 ^ (- (e' + k2)) * b)) with (b * 2 ^ (- E)).
  { assert (2 ^ k * (2 ^ k2 * (R `div` 2 ^ k2)) ≤ 2 ^ k * R)
      by (apply Z.mul_le_mono_nonneg_l; lia). lia. }
  replace (- E) with (k + k2 + - (e' + k2)) by lia.
  rewrite !Z.pow_add_r by lia. ring.
Qed.

(** ** [Math.random] *)

(** A random Number is zero or has a mantissa below [2 ^ 53] and an
    exponent between [-1074] and [-53]. *)
Lemma is_random_finite s m e :
  is_random (S754_finite s m e) →
  s = false ∧ Z.pos m < 2 ^ prec ∧ -1074 ≤ e ≤ - prec.
Proof.
  intros (Hvalid & Hpos & Hlt). destruct s; [discriminate Hpos|]. split; [done|].
  apply andb_prop in Hvalid as [Hcan%Z.eqb_eq _].
  destruct (Zdigits2_bounds (Z.pos m)) as (_ & Hlo & Hhi); [done|].
  change (Zdigits2 (Z.pos m)) with (Z.pos (digits2_pos m)) in *.
  unfold fexp, emin, prec, emax in *.
  assert (Z.pos (digits2_pos m) ≤ 53 ∧ -1074 ≤ e) as [Hd He] by lia.
  assert (Z.pos m < 2 ^ 53).
  { eapply Z.lt_le_trans; [done|]. apply Z.pow_le_mono_r; lia. }
  split; [done|]. split; [done|].
  unfold SFltb in Hlt. change (of_nat 1) with (S754_finite false 4503599627370496 (-52)) in Hlt.
  cbn [SFcompare] in Hlt. destruct (Z.compare_spec e (-52)) as [->| |]; [|lia|done].
  rewrite Pos.compare_cont_spec in Hlt.
  destruct (Pos.compare_spec m 4503599627370496) as [|Hm%Pos2Z.pos_lt_pos|];
    cbn [Pos.switch_Eq] in Hlt; try done.
  assert (Z.pos (digits2_pos m) = 53) as Hd53 by lia. rewrite Hd53 in Hlo.
  change (2 ^ (53 - 1)) with (Z.pos 4503599627370496) in Hlo. lia.
Qed.

#[export] Instance is_random_dec r : Decision (is_random r).
Proof. unfold is_random. apply _. Defined.

(** [Math.floor(Math.random() * b)] is an integer from [0] to [b - 1], for
    every integer [b] from 1 to [2 ^ 53] given as the Number [N * 2 ^ eN]:
    the product is rounded, and rounding never reaches [b]. *)
Lemma floor_mul_random r N eN b :
  is_random r → 2 ^ (prec - 1) ≤ Z.pos N < 2 ^ prec → 1 - prec ≤ eN ≤ 0 →
  Z.pos N = b * 2 ^ (- eN) →
  ∃ i, Math_floor (mul r (S754_finite false N eN)) = Some i ∧ 0 ≤ i < b.
Proof.
  intros Hr HN HeN Hb. assert (0 < 2 ^ (- eN)) as HP by (apply Z.pow_pos_nonneg; lia).
  assert (0 < b ≤ 2 ^ prec) as Hb0 by nia.
  destruct r as [s|[]| |s m e]; [|by destruct Hr as (_ & ? & ?)..|].
  { exists 0. split; [done|lia]. }
  destruct (is_random_finite s m e Hr) as (-> & Hm & He). unfold prec in *.
  apply (binary_round_aux_floor (Z.pos m * Z.pos N) (e + eN) b); [lia|unfold prec; lia|..];
    set (M := Z.pos m * Z.pos N); set (k := Z.max 0 _).
  all: destruct (Zdigits2_bounds M) as (_ & Hlo & _); [lia|].
  all: assert (M < 2 ^ 53 * Z.pos N) as HM by nia.
  all: assert (Zdigits2 M ≤ 106) as Hd
    by (apply Zdigits2_le; [change (2 ^ 106) with (2 ^ 53 * 2 ^ 53); nia|lia]).
  all: assert (k ≤ 53) as Hk by (subst k; unfold fexp, emin, prec, emax; lia).
  { lia. }
  assert (2 ^ k < 2 * Z.pos N) as Hk2.
  { destruct (decide (k ≤ 52)).
    - assert (2 ^ k ≤ 2 ^ 52) by (apply Z.pow_le_mono_r; lia). lia.
    - assert (k = 53) as Hk53 by lia. rewrite Hk53.
      assert (Zdigits2 M = 106) as Hd106 by (subst k; unfold fexp, emin, prec, emax in *; lia).
      rewrite Hd106 in Hlo. change (2 ^ (106 - 1)) with (2 ^ 53 * 2 ^ 52) in Hlo. nia. }
  assert (Z.pos m + 1 ≤ 2 ^ (- e)).
  { assert (2 ^ 53 ≤ 2 ^ (- e)) by (apply Z.pow_le_mono_r; lia). lia. }
  replace (- (e + eN)) with (- eN + - e) by lia. rewrite Z.pow_add_r by lia.
  rewrite (Z.mul_assoc b), <-Hb. nia.
Qed.

(** ** The Number of a length *)

Lemma Zdigits2_unique x d : 2 ^ (d - 1) ≤ x < 2 ^ d → 0 < d → Zdigits2 x = d.
Proof.
  intros [Hlo Hhi] Hd.
  assert (0 < x) by (pose proof (Z.pow_pos_nonneg 2 (d - 1)); lia).
  destruct (Zdigits2_bounds x) as (Hd' & Hlo' & Hhi'); [done|].
  destruct (Z.lt_trichotomy (Zdigits2 x) d) as [Hlt|[?|Hlt]]; [|done|].
  - assert (2 ^ Zdigits2 x ≤ 2 ^ (d - 1)) by (apply Z.pow_le_mono_r; lia). lia.
  - assert (2 ^ d ≤ 2 ^ (Zdigits2 x - 1)) by (apply Z.pow_le_mono_r; lia). lia.
Qed.

Lemma iter_xO p d : Z.pos (Pos.iter xO p d) = Z.pos p * 2 ^ Z.pos d.
Proof.
  rewrite Pos2Nat.inj_iter, <-(positive_nat_Z d).
  induction (Pos.to_nat d) as [|n IH]; [simpl; lia|].
  cbn [nat_rect]. rewrite Pos2Z.inj_xO, IH, Nat2Z.inj_succ, Z.pow_succ_r by lia. ring.
Qed.

(** A mantissa of 53 digits is not rounded. *)
Lemma binary_round_aux_exact m e :
  Zdigits2 (Z.pos m) = prec → emin prec emax ≤ e ≤ emax - prec →
  binary_round_aux prec emax false (Z.pos m) e loc_Exact = S754_finite false m e.
Proof.
  intros Hd He. unfold binary_round_aux, shr_fexp. rewrite Hd.
  replace (fexp prec emax (prec + e) - e) with 0 by (unfold fexp, emin, prec, emax in *; lia).
  cbn [shr shr_record_of_loc shr_m loc_of_shr_record round_nearest_even]. rewrite Hd.
  replace (fexp prec emax (prec + e) - e) with 0 by (unfold fexp, emin, prec, emax in *; lia).
  cbn [shr shr_m]. by rewrite (proj2 (Z.leb_le _ _)) by lia.
Qed.

(** The Number of a length from 1 to [2 ^ 53 - 1] is the length: a mantissa
    of 53 digits with the exponent that makes it an integer. *)
Lemma of_nat_canonical n :
  0 < Z.of_nat n < 2 ^ prec →
  ∃ N eN, of_nat n = S754_finite false N eN ∧
    2 ^ (prec - 1) ≤ Z.pos N < 2 ^ prec ∧ 1 - prec ≤ eN ≤ 0 ∧
    Z.pos N = Z.of_nat n * 2 ^ (- eN).
Proof.
  intros Hn. unfold of_nat, binary_normalize. destruct (Z.of_nat n) as [|p|p]; [lia| |lia].
  destruct (Zdigits2_bounds (Z.pos p)) as (Hd0 & Hlo & Hhi); [done|].
  pose proof (Zdigits2_le (Z.pos p) prec ltac:(lia) ltac:(done)) as Hd.
  unfold binary_round, shl_align. change (Z.pos (digits2_pos p)) with (Zdigits2 (Z.pos p)).
  set (d := Zdigits2 (Z.pos p)) in *.
  replace (fexp prec emax (d + 0) - 0) with (d - prec)
    by (unfold fexp, emin, prec, emax in *; lia).
  replace (fexp prec emax (d + 0)) with (d - prec)
    by (unfold fexp, emin, prec, emax in *; lia).
  destruct (d - prec) as [|q|q] eqn:Hq; [|lia|].
  - assert (d = prec) as Hd53 by lia. rewrite Hd53 in *.
    rewrite binary_round_aux_exact by (unfold emin, prec, emax; done || lia).
    exists p, 0. split_and!; try done; lia.
  - assert (Z.pos q = prec - d) as Hq' by lia.
    assert (0 < 2 ^ (d - 1)) by (apply Z.pow_pos_nonneg; lia).
    assert (2 ^ (prec - 1) = 2 ^ (d - 1) * 2 ^ Z.pos q ∧ 2 ^ prec = 2 ^ d * 2 ^ Z.pos q)
      as [Hp1 Hp2] by (rewrite <-!Z.pow_add_r by lia; split; f_equal; lia).
    assert (0 < 2 ^ Z.pos q) by (apply Z.pow_pos_nonneg; lia).
    assert (2 ^ (prec - 1) ≤ Z.pos (Pos.iter xO p q) < 2 ^ prec) as HN
      by (rewrite iter_xO, Hp1, Hp2; nia).
    rewrite binary_round_aux_exact;
      [|by apply Zdigits2_unique|unfold emin, prec, emax in *; lia].
    eexists _, _. split; [done|]. split; [done|]. split; [unfold prec in *; lia|].
    by rewrite iter_xO.
Qed.

(** ** Indexing an array with a Number *)

(** [Math.floor(Math.random() * a.length)] is an index of [a], whatever
    [Math.random()] returns, for every array that is not empty. *)
Lemma element_floor_random {A} (a : list A) r :
  is_random r → 0 < Z.of_nat (length a) < 2 ^ prec →
  ∃ i, Math_floor (mul r (of_nat (length a))) = Some i ∧ 0 ≤ i < Z.of_nat (length a).
Proof.
  intros Hr Hlen. destruct (of_nat_canonical _ Hlen) as (N & eN & -> & ? & ? & ?).
  by apply floor_mul_random.
Qed.

Lemma element_lookup {A} (a : list A) i :
  0 ≤ i < Z.of_nat (length a) → ∃ x, element a (Some i) = Some x ∧ x ∈ a.
Proof.
  intros Hi. destruct (lookup_lt_is_Some_2 a (Z.to_nat i)) as [x Hx]; [lia|].
  exists x. simpl. rewrite decide_True by lia. eauto using list_elem_of_lookup_2.
Qed.

(** * Examples *)

(** Rounding changes the index: for this value of [Math.random()] the exact
    product is below 6 and the rounded product is 6. *)
Example rounded_product_index :
  let r := S754_finite false 7720456504063707 (-53) in
  is_random r ∧ Math_floor (mul r (of_nat 7)) = Some 6 ∧
  (7720456504063707 * 7) `div` 2 ^ 53 = 5.
Proof. split; [compute_done|by vm_compute]. Qed.

(** The largest and the smallest random Numbers, and zero. *)
Example extreme_randoms :
  let largest := S754_finite false 9007199254740991 (-53) in
  let smallest := S754_finite false 1 (-1074) in
  is_random largest ∧ is_random smallest ∧ is_random (S754_zero false) ∧
  Math_floor (mul largest (of_nat 7)) = Some 6 ∧
  Math_floor (mul smallest (of_nat 7)) = Some 0 ∧
  ¬ is_random (of_nat 1).
Proof. split_and!; try compute_done; by vm_compute. Qed.
