(* ===== verification/Types.v ===== *)
(** * Types: the records the pages and contexts exchange

    The entity types of [src/types] as the source files use them: one record
    per interface, one field per property the code reads or writes.  Field
    names carry the record's initial ([m_] for [Message], [c_] for
    [Conversation], ...) because every record has an [id].  Timestamps are the
    ISO strings the code stores; counters are natural numbers. *)

From S2P Require Import Prelude.

(** A chat message ([ChatPage.tsx], the literals of [handleSendMessage]). *)
Record Message := mkMessage {
  m_id : string;
  m_senderId : string;
  m_content : string;
  m_timestamp : string;
  m_read : bool;
}.

(** A conversation with one participant: its stored log, the time of its last
    message and the stored number of unread messages. *)
Record Conversation := mkConversation {
  c_id : string;
  c_participantId : string;
  c_messages : list Message;
  c_lastMessageAt : string;
  c_unreadCount : nat;
}.

(** A buddy.  [b_status] is one of ["online"], ["away"], ["offline"];
    [b_location] and [b_skills] are optional properties. *)
Record Buddy := mkBuddy {
  b_id : string;
  b_name : string;
  b_status : string;
  b_location : option string;
  b_phone : string;
  b_skills : option (list string);
  b_checkInCount : nat;
}.

(** What [addNotification] receives: a notification without [id],
    [timestamp] and [isRead]. *)
Record NotificationInput := mkNotificationInput {
  ni_category : string;
  ni_payload : string;
}.

Record Notification := mkNotification {
  n_id : string;
  n_timestamp : string;
  n_isRead : bool;
  n_input : NotificationInput;
}.

(** The signed-in user, as the pages read it from the auth context. *)
Record User := mkUser {
  u_id : string;
  u_firstName : string;
  u_points : nat;
  u_rank : string;
}.

Record Task := mkTask {
  t_id : string;
  t_status : string;
}.

Record CheckIn := mkCheckIn {
  ci_id : string;
  ci_buddyId : string;
  ci_date : string;
  ci_mood : string;
  ci_notes : string;
}.

(** An entry of [emergencyHotlines], as the dashboard reads it. *)
Record Hotline := mkHotline {
  h_name : string;
  h_number : string;
}.

(** The two readings of the clock a handler takes: [Date.now()] for the
    identifier and [new Date()] for the timestamp. *)
Record Clock := mkClock {
  now : Z;
  date : Z;
}.

#[export] Instance Clock_inhabited : Inhabited Clock := populate (mkClock 0 0).

#[export] Instance Message_eq_dec : EqDecision Message.
Proof. solve_decision. Defined.
#[export] Instance Conversation_eq_dec : EqDecision Conversation.
Proof. solve_decision. Defined.
#[export] Instance Buddy_eq_dec : EqDecision Buddy.
Proof. solve_decision. Defined.
#[export] Instance NotificationInput_eq_dec : EqDecision NotificationInput.
Proof. solve_decision. Defined.
#[export] Instance Notification_eq_dec : EqDecision Notification.
Proof. solve_decision. Defined.
#[export] Instance User_eq_dec : EqDecision User.
Proof. solve_decision. Defined.
#[export] Instance Task_eq_dec : EqDecision Task.
Proof. solve_decision. Defined.
#[export] Instance CheckIn_eq_dec : EqDecision CheckIn.
Proof. solve_decision. Defined.
#[export] Instance Hotline_eq_dec : EqDecision Hotline.
Proof. solve_decision. Defined.
#[export] Instance Clock_eq_dec : EqDecision Clock.
Proof. solve_decision. Defined.

(** ** Object spread with one property replaced *)

(** [{ ...n, isRead: b }] *)
Definition set_isRead (b : bool) (n : Notification) : Notification :=
  {| n_id := n_id n; n_timestamp := n_timestamp n; n_isRead := b; n_input := n_input n |}.

(** [{ ...m, read: b }] *)
Definition set_read (b : bool) (m : Message) : Message :=
  {| m_id := m_id m; m_senderId := m_senderId m; m_content := m_content m;
     m_timestamp := m_timestamp m; m_read := b |}.

Lemma set_isRead_id n : set_isRead (n_isRead n) n = n.
Proof. by destruct n. Qed.

Lemma set_read_id m : set_read (m_read m) m = m.
Proof. by destruct m. Qed.

(** ** The read flag of notifications and of messages *)

#[export] Program Instance Notification_readable : Readable Notification := {|
  is_read := n_isRead;
  mark_read := set_isRead true;
|}.
Next Obligation. done. Qed.
Next Obligation. intros n Hn. simpl in *. by rewrite <-Hn, set_isRead_id. Qed.

#[export] Program Instance Message_readable : Readable Message := {|
  is_read := m_read;
  mark_read := set_read true;
|}.
Next Obligation. done. Qed.
Next Obligation. intros m Hm. simpl in *. by rewrite <-Hm, set_read_id. Qed.

#[export] Hint Rewrite set_isRead_id set_read_id : js_rw.
