(* ===== verification/View.v ===== *)
(** * View: the controls of a page and the events they raise

    What a component returns holds, beside what it displays, the elements
    the user acts on, each with its handler: [onChange] of an input,
    [onClick] of a button, [onSubmit] of a form.  A page of this development
    is a state machine whose events are those handlers; this file gives the
    controls a type, so that a page can state which controls a render holds
    and prove that the events its machine accepts in a state are exactly the
    ones the render of that state offers.

    A control of the markup that has no handler is [Inert]: it is displayed
    and raises nothing. *)

From S2P Require Import Prelude Types.

Section controls.
Context {E : Type}.

Inductive Control :=
| Input (placeholder value : string) (onChange : string → E)
| Checkbox (label : string) (checked : bool) (onChange : bool → E)
| Button (label : string) (onClick : E)
| Form (label : string) (disabled : bool) (onSubmit : Clock → E)
| Inert (label : string).

(** The events a control raises.  A form whose submit button is disabled is
    not submitted. *)
Definition raises (c : Control) (e : E) : Prop :=
  match c with
  | Input _ _ onChange => ∃ value, e = onChange value
  | Checkbox _ _ onChange => ∃ checked, e = onChange checked
  | Button _ onClick => e = onClick
  | Form _ disabled onSubmit => disabled = false ∧ ∃ clk, e = onSubmit clk
  | Inert _ => False
  end.

(** The events a render offers: those of its controls. *)
Definition offers (cs : list Control) (e : E) : Prop := Exists (λ c, raises c e) cs.

(** The controls without a handler. *)
Definition inert (cs : list Control) : list string :=
  omap (λ c, match c with Inert label => Some label | _ => None end) cs.

(** The controls rendered under a condition: [cond && (...)]. *)
Definition when (cond : bool) (cs : list Control) : list Control :=
  if cond then cs else [].

Lemma offers_nil e : offers [] e ↔ False.
Proof. apply Exists_nil. Qed.

Lemma offers_cons c cs e : offers (c :: cs) e ↔ raises c e ∨ offers cs e.
Proof. apply Exists_cons. Qed.

Lemma offers_app cs1 cs2 e : offers (cs1 ++ cs2) e ↔ offers cs1 e ∨ offers cs2 e.
Proof. apply Exists_app. Qed.

Lemma offers_when cond cs e : offers (when cond cs) e ↔ cond = true ∧ offers cs e.
Proof. destruct cond; simpl; [tauto|]. rewrite offers_nil. by intuition. Qed.

(** One button per element of a list: [xs.map(x => <button onClick=.../>)]. *)
Lemma offers_buttons {A} (label : A → string) (onClick : A → E) (xs : list A) e :
  offers ((λ x, Button (label x) (onClick x)) <$> xs) e ↔ ∃ x, x ∈ xs ∧ e = onClick x.
Proof. unfold offers. rewrite Exists_fmap, Exists_exists. done. Qed.

(** Several controls per element of a list. *)
Lemma offers_bind {A} (f : A → list Control) (xs : list A) e :
  offers (xs ≫= f) e ↔ ∃ x, x ∈ xs ∧ offers (f x) e.
Proof.
  unfold offers. rewrite Exists_exists. setoid_rewrite list_elem_of_bind.
  setoid_rewrite Exists_exists. split.
  - intros (c & (x & ? & ?) & ?). eauto.
  - intros (x & ? & c & ? & ?). eauto.
Qed.

Lemma inert_app cs1 cs2 : inert (cs1 ++ cs2) = inert cs1 ++ inert cs2.
Proof. apply omap_app. Qed.

Lemma inert_when cond cs : inert (when cond cs) = if cond then inert cs else [].
Proof. by destruct cond. Qed.

Lemma inert_buttons {A} (label : A → string) (onClick : A → E) (xs : list A) :
  inert ((λ x, Button (label x) (onClick x)) <$> xs) = [].
Proof. induction xs as [|x xs IH]; [done|]. by rewrite fmap_cons. Qed.

Lemma inert_bind {A} (f : A → list Control) (xs : list A) :
  (∀ x, inert (f x) = []) → inert (xs ≫= f) = [].
Proof.
  intros Hf. induction xs as [|x xs IH]; [done|].
  by rewrite bind_cons, inert_app, Hf, IH.
Qed.

Lemma inert_Inert labels : inert (Inert <$> labels) = labels.
Proof. induction labels as [|l labels IH]; [done|]. rewrite fmap_cons. simpl. by rewrite IH. Qed.

(** A control without a handler is offered to no event. *)
Lemma offers_inert labels e : offers (Inert <$> labels) e ↔ False.
Proof.
  unfold offers. rewrite Exists_fmap, Exists_exists. split; [|done]. by intros (? & _ & ?).
Qed.

End controls.

Arguments Control : clear implicits.

(** The cases of an event offered by a render: one per control, those of
    another constructor gone. *)
Ltac offers_cases :=
  repeat match goal with
  | H : _ ∨ _ |- _ => destruct H
  | H : _ ∧ _ |- _ => destruct H
  | H : ∃ _, _ |- _ => destruct H
  | H : False |- _ => destruct H
  | H : _ ∈ _ <$> _ |- _ => apply list_elem_of_fmap in H
  end; simplify_eq.

(** The control that raises an event: the first whose conditions hold among
    the hypotheses. *)
Ltac offer :=
  lazymatch goal with
  | |- _ ∨ _ => first [left; offer | right; offer]
  | |- _ ∧ _ => split; offer
  | |- @ex _ (λ _, ?P) => exists inhabitant; offer
  | |- ∃ _, _ => eexists; offer
  | |- False => fail
  | |- _ => first [eassumption | done | by eauto using list_elem_of_fmap_2]
  end.

(** An event is offered by the controls exactly when the guard of the
    machine holds: the guard gives the control, and each control the guard. *)
Ltac offers_iff := split; intros; offers_cases; offer.

Create Rewrite HintDb offers.
#[export] Hint Rewrite @inert_app @inert_when @inert_buttons @inert_Inert : offers.
#[export] Hint Rewrite @offers_nil @offers_cons @offers_app @offers_when @offers_buttons
  @offers_bind @offers_inert : offers.
