(* ===== verification/Notification.v ===== *)
(** * Notification: the notification context

    [src/context/NotificationContext.tsx].  The provider keeps one piece of
    state, the list [notifications], newest first; every operation hands
    [setNotifications] a function of the previous list, so an operation of
    the model is that function.  [unreadCount] is recomputed from the list at
    every render and is therefore a function of the state, not a field.

    The file proves what each operation does to the feed and to the unread
    count on every branch (identifier present or absent), that operations
    touch nothing but [isRead] and only ever set it, that identifiers stay
    distinct as long as the clock advances between two additions and what
    happens when it does not, and that the list is a faithful representation
    of a finite map from identifiers to notifications. *)

From S2P Require Import Prelude JsString JsDate Types.

(** ** State and operations *)

(** The context value the provider hands its consumers: the state and the
    derived count (the four operations are the definitions below). *)
Record NotificationContextType := mkNotificationContext {
  notifications : list Notification;
  ctx_unreadCount : nat;
}.

(** [notifications.filter(n => !n.isRead).length] *)
Definition unreadCount (notifications : list Notification) : nat :=
  length (filter (λ n, negb (n_isRead n)) notifications).

(** The new notification gets the clock's millisecond count as identifier
    and is put in front of the list. *)
Definition newNotification (clk : Clock) (notification : NotificationInput) :
    Notification :=
  {| n_input := notification;
     n_id := toString (now clk);
     n_timestamp := toISOString (date clk);
     n_isRead := false |}.

Definition addNotification (clk : Clock) (notification : NotificationInput)
    (prev : list Notification) : list Notification :=
  newNotification clk notification :: prev.

Definition markAsRead (id : string) (prev : list Notification) : list Notification :=
  (λ n, if bool_decide (n_id n = id) then set_isRead true n else n) <$> prev.

Definition markAllAsRead (prev : list Notification) : list Notification :=
  (λ n, set_isRead true n) <$> prev.

Definition clearNotification (id : string) (prev : list Notification) : list Notification :=
  filter (λ n, n_id n ≠ id) prev.

(** The value of one render of the provider. *)
Definition NotificationProvider (notifications : list Notification) : NotificationContextType :=
  {| notifications := notifications; ctx_unreadCount := unreadCount notifications |}.

(** [useNotifications] outside a provider finds no context and throws. *)
Definition useNotifications (context : option NotificationContextType) :
    Completion NotificationContextType :=
  match context with
  | None => Throw "useNotifications must be used within a NotificationProvider"
  | Some context => Normal context
  end.

(** ** The provider as a state machine *)

Inductive NotificationAction :=
| AddNotification (clk : Clock) (notification : NotificationInput)
| MarkAsRead (id : string)
| MarkAllAsRead
| ClearNotification (id : string).

Definition notification_step (a : NotificationAction) (prev : list Notification) :
    list Notification :=
  match a with
  | AddNotification clk n => addNotification clk n prev
  | MarkAsRead id => markAsRead id prev
  | MarkAllAsRead => markAllAsRead prev
  | ClearNotification id => clearNotification id prev
  end.

(** The states the provider can be in when it starts from [init]. *)
Inductive notification_reachable (init : list Notification) : list Notification → Prop :=
| nr_init : notification_reachable init init
| nr_step a ns :
    notification_reachable init ns →
    notification_reachable init (notification_step a ns).

(** When two operations may be applied in either order.  Two additions are
    ordered by the list unless they add the same notification; an addition
    and a marking of all are ordered, because only a notification that is
    already in the feed is marked; an addition is ordered with the marking
    and the clearing of the identifier it creates; every other pair is
    independent. *)
Definition independent (a b : NotificationAction) : bool :=
  match a, b with
  | AddNotification clk1 i1, AddNotification clk2 i2 =>
      bool_decide (newNotification clk1 i1 = newNotification clk2 i2)
  | AddNotification _ _, MarkAllAsRead | MarkAllAsRead, AddNotification _ _ => false
  | AddNotification clk _, (MarkAsRead id | ClearNotification id)
  | (MarkAsRead id | ClearNotification id), AddNotification clk _ =>
      bool_decide (toString (now clk) ≠ id)
  | _, _ => true
  end.

(** The identifiers of a feed, in feed order. *)
Definition feed_ids (ns : list Notification) : list string := n_id <$> ns.

(** How one operation may change a feed: position by position a
    notification is kept, or was unread and is now read. *)
Definition marked (n n' : Notification) : Prop :=
  n' = n ∨ (n_isRead n = false ∧ n' = set_isRead true n).

(** Every addition of the run reads a clock strictly later than [t] and than
    every addition before it. *)
Fixpoint adds_after (t : Z) (acts : list NotificationAction) : Prop :=
  match acts with
  | [] => True
  | AddNotification clk _ :: acts => t < now clk ∧ adds_after (now clk) acts
  | _ :: acts => adds_after t acts
  end%Z.

(** Every identifier of the feed is the millisecond count of a clock reading
    not later than [t]. *)
Definition ids_until (t : Z) (ns : list Notification) : Prop :=
  Forall (λ id, ∃ t', id = toString t' ∧ (t' ≤ t)%Z) (feed_ids ns).

(** ** The feed as a finite map

    What the operations promise a consumer that addresses notifications by
    identifier: a map from identifiers to notifications with insertion,
    in-place update and deletion. *)
Definition feed_map (ns : list Notification) : gmap string Notification :=
  list_to_map ((λ n, (n_id n, n)) <$> ns).

(** ** Sample data for the concrete instances *)

Definition sample_clock : Clock := {| now := 1700000000000; date := 1700000000002 |}.
Definition sample_clock' : Clock := {| now := 1700000000000; date := 1700000000003 |}.
Definition sample_clock_later : Clock := {| now := 1700000001500; date := 1700000001500 |}.

Definition sample_input : NotificationInput :=
  {| ni_category := "message"; ni_payload := "Maria sent you a message" |}.
Definition sample_alert : NotificationInput :=
  {| ni_category := "alert"; ni_payload := "Typhoon signal no. 2" |}.

Definition sample_feed : list Notification :=
  [ {| n_id := "2"; n_timestamp := "2024-01-15T10:30:00.000Z"; n_isRead := false;
       n_input := sample_alert |};
    {| n_id := "1"; n_timestamp := "2024-01-15T09:00:00.000Z"; n_isRead := true;
       n_input := sample_input |} ].

(** * Lemmas *)

Section notification_lemmas.
Implicit Types (ns prev : list Notification) (n : Notification) (id : string).

Lemma unreadCount_unread ns : unreadCount ns = unread ns.
Proof. done. Qed.

Lemma markAsRead_mark_where id ns :
  markAsRead id ns = mark_where (λ n, bool_decide (n_id n = id)) ns.
Proof. done. Qed.

Lemma markAllAsRead_mark_all ns : markAllAsRead ns = mark_all ns.
Proof. done. Qed.

Lemma feed_ids_markAsRead id ns : feed_ids (markAsRead id ns) = feed_ids ns.
Proof.
  unfold feed_ids, markAsRead. rewrite <-list_fmap_compose.
  apply list_fmap_ext. intros _ n _. simpl. by case_bool_decide.
Qed.

Lemma feed_ids_markAllAsRead ns : feed_ids (markAllAsRead ns) = feed_ids ns.
Proof. unfold feed_ids, markAllAsRead. by rewrite <-list_fmap_compose. Qed.

Lemma feed_ids_clearNotification id ns :
  feed_ids (clearNotification id ns) = filter (λ i, i ≠ id) (feed_ids ns).
Proof.
  unfold feed_ids, clearNotification.
  induction ns as [|n ns IH]; [done|].
  rewrite fmap_cons, !filter_cons. simpl. case_decide; by rewrite ?fmap_cons, IH.
Qed.

Lemma elem_of_feed_ids id ns : id ∈ feed_ids ns ↔ ∃ n, n ∈ ns ∧ n_id n = id.
Proof.
  unfold feed_ids. rewrite list_elem_of_fmap.
  split; [intros (n & -> & ?)|intros (n & ? & <-)]; eauto.
Qed.

Lemma clearNotification_sublist id ns : clearNotification id ns `sublist_of` ns.
Proof. apply sublist_filter. Qed.

Lemma marked_refl n : marked n n.
Proof. by left. Qed.

Lemma marked_set_isRead n : marked n (set_isRead true n).
Proof.
  destruct (n_isRead n) eqn:Hn; [left|by right].
  by rewrite <-Hn, set_isRead_id.
Qed.

Lemma feed_ids_addNotification clk i ns :
  feed_ids (addNotification clk i ns) = toString (now clk) :: feed_ids ns.
Proof. done. Qed.

Lemma not_elem_of_feed_ids id ns :
  id ∉ feed_ids ns → Forall (λ n, bool_decide (n_id n = id) = false) ns.
Proof.
  intros Hid. apply Forall_forall. intros n Hn. apply bool_decide_eq_false.
  intros <-. apply Hid, elem_of_feed_ids. eauto.
Qed.

Lemma ids_until_mono t t' ns : (t ≤ t')%Z → ids_until t ns → ids_until t' ns.
Proof.
  intros Ht Hns. eapply Forall_impl; [done|].
  intros id (t0 & -> & ?). exists t0. split; [done|lia].
Qed.

(** An identifier later than every identifier of the feed is not in it. *)
Lemma ids_until_fresh t t' ns :
  ids_until t ns → (t < t')%Z → toString t' ∉ feed_ids ns.
Proof.
  intros Hns Ht Hin. eapply Forall_forall in Hns as (t0 & Heq & ?); [|done].
  apply toString_inj in Heq. lia.
Qed.

(** One step keeps identifiers distinct and bounded, if an addition reads a
    clock later than the bound. *)
Lemma notification_step_ids t a ns :
  ids_until t ns → NoDup (feed_ids ns) → adds_after t [a] →
  ∃ t', (t ≤ t')%Z ∧ ids_until t' (notification_step a ns) ∧
        NoDup (feed_ids (notification_step a ns)) ∧
        ∀ acts, adds_after t (a :: acts) → adds_after t' acts.
Proof.
  intros Hu Hnd Ha. unfold ids_until in *.
  destruct a as [clk i|id| |id]; cbn [notification_step].
  - destruct Ha as [Ht _]. exists (now clk).
    rewrite feed_ids_addNotification, Forall_cons, NoDup_cons.
    split_and!; [lia|by eexists| | |done|by intros ? [_ ?]].
    + eapply ids_until_mono; [|done]. lia.
    + by eapply ids_until_fresh.
  - exists t. by rewrite feed_ids_markAsRead.
  - exists t. by rewrite feed_ids_markAllAsRead.
  - exists t. rewrite feed_ids_clearNotification.
    split_and!; [done| |by apply NoDup_filter|done].
    by apply Forall_filter.
Qed.

Lemma feed_map_nil : feed_map [] = ∅.
Proof. done. Qed.

Lemma feed_map_cons n ns : feed_map (n :: ns) = <[n_id n := n]> (feed_map ns).
Proof. done. Qed.

Lemma feed_map_dom id ns : feed_map ns !! id = None ↔ id ∉ feed_ids ns.
Proof.
  unfold feed_map, feed_ids. rewrite <-not_elem_of_list_to_map.
  by rewrite <-list_fmap_compose.
Qed.

Lemma marked_trans n1 n2 n3 : marked n1 n2 → marked n2 n3 → marked n1 n3.
Proof.
  intros [->|[H1 ->]] [->|[H2 ->]]; unfold marked; auto.
Qed.

Lemma adds_after_head t a acts : adds_after t (a :: acts) → adds_after t [a].
Proof. destruct a; simpl; tauto. Qed.

Lemma feed_map_addNotification clk i ns :
  feed_map (addNotification clk i ns) =
  <[toString (now clk) := newNotification clk i]> (feed_map ns).
Proof. done. Qed.

Lemma feed_map_markAsRead id ns :
  feed_map (markAsRead id ns) = alter (set_isRead true) id (feed_map ns).
Proof.
  induction ns as [|n ns IH]; [by rewrite feed_map_nil, alter_empty|].
  unfold markAsRead in *. rewrite fmap_cons, !feed_map_cons, IH.
  case_bool_decide as Hid; simpl.
  - subst id. by rewrite alter_insert_eq, insert_alter_eq.
  - by rewrite alter_insert_ne.
Qed.

Lemma feed_map_markAllAsRead ns :
  feed_map (markAllAsRead ns) = set_isRead true <$> feed_map ns.
Proof.
  induction ns as [|n ns IH]; [by rewrite feed_map_nil, fmap_empty|].
  unfold markAllAsRead in *. by rewrite fmap_cons, !feed_map_cons, IH, fmap_insert.
Qed.

Lemma feed_map_clearNotification id ns :
  feed_map (clearNotification id ns) = delete id (feed_map ns).
Proof.
  induction ns as [|n ns IH]; [by rewrite feed_map_nil, delete_empty|].
  unfold clearNotification in *. rewrite filter_cons, feed_map_cons.
  case_decide as Hid; [by rewrite feed_map_cons, IH, delete_insert_ne|].
  subst id. by rewrite IH, delete_insert_eq.
Qed.

End notification_lemmas.

(** ** The feed up to order

    What an operation does to a notification does not depend on where the
    notification stands in the list: on feeds that are permutations of each
    other the operations give permutations, and the same unread count. *)

#[export] Instance unreadCount_perm : Proper ((≡ₚ) ==> (=)) unreadCount.
Proof. intros ns ns' Hp. unfold unreadCount. by rewrite Hp. Qed.

#[export] Instance notification_step_perm a : Proper ((≡ₚ) ==> (≡ₚ)) (notification_step a).
Proof.
  intros ns ns' Hp. destruct a; simpl;
    unfold addNotification, markAsRead, markAllAsRead, clearNotification; by rewrite Hp.
Qed.

Lemma run_notification_perm acts ns ns' :
  ns ≡ₚ ns' → run notification_step acts ns ≡ₚ run notification_step acts ns'.
Proof.
  revert ns ns'. induction acts as [|a acts IH]; intros ns ns' Hp; [done|].
  simpl. apply IH. by rewrite Hp.
Qed.

Lemma run_notification_unreadCount acts ns ns' :
  ns ≡ₚ ns' →
  unreadCount (run notification_step acts ns) = unreadCount (run notification_step acts ns').
Proof. intros Hp. by rewrite (run_notification_perm acts ns ns' Hp). Qed.

#[export] Hint Rewrite unreadCount_unread markAllAsRead_mark_all : js_rw.
#[export] Hint Resolve marked_refl : js.

(** * Properties *)

(** Adding a notification puts an unread notification, whose
    identifier is the clock's millisecond count, at the head of the feed,
    keeps the rest of the feed as it was, and raises the unread count by
    exactly one. *)
Lemma addNotification_unreadCount clk i ns :
  ∃ n, addNotification clk i ns = n :: ns ∧
       n_id n = toString (now clk) ∧ n_input n = i ∧ n_isRead n = false ∧
       unreadCount (addNotification clk i ns) = S (unreadCount ns).
Proof. eexists. split_and!; try done. Qed.

(** [markAllAsRead] drives the unread count to zero, changes no
    identifier and is idempotent. *)
Lemma markAllAsRead_unreadCount ns :
  unreadCount (markAllAsRead ns) = 0 ∧
  feed_ids (markAllAsRead ns) = feed_ids ns ∧
  markAllAsRead (markAllAsRead ns) = markAllAsRead ns.
Proof.
  split_and!; [|apply feed_ids_markAllAsRead|].
  - by rewrite unreadCount_unread, markAllAsRead_mark_all, unread_mark_all.
  - exact (mark_all_idemp ns).
Qed.

(** [markAsRead id] lowers the unread count by exactly the number
    of unread notifications that carry [id]. *)
Lemma markAsRead_unreadCount id ns :
  unreadCount (markAsRead id ns) + unreadCount (filter (λ n, n_id n = id) ns) =
  unreadCount ns.
Proof.
  pose proof (unread_mark_where (λ n, bool_decide (n_id n = id)) ns) as Hm.
  rewrite (list_filter_iff _ (λ n, n_id n = id)) in Hm; [exact Hm|].
  intros n. apply bool_decide_spec.
Qed.

(** [markAsRead] with an identifier that no notification carries
    returns the feed unchanged: a stale identifier is a no-op, not an
    error. *)
Lemma markAsRead_absent id ns : id ∉ feed_ids ns → markAsRead id ns = ns.
Proof.
  intros Hid. rewrite markAsRead_mark_where.
  by apply mark_where_none, not_elem_of_feed_ids.
Qed.

(** [clearNotification] with an identifier that no notification
    carries returns the feed unchanged, so its length is unchanged. *)
Lemma clearNotification_absent id ns :
  id ∉ feed_ids ns → clearNotification id ns = ns.
Proof.
  intros Hid. unfold clearNotification. apply filter_all, Forall_forall.
  intros n Hn <-. apply Hid, elem_of_feed_ids. eauto.
Qed.

(** Claim C23. What each operation does to the unread count: an addition
    raises it by one; [markAsRead id] and [clearNotification id] both lower
    it by the number of unread notifications that carry [id]; after
    [markAllAsRead] it is zero. *)
Theorem notification_step_unreadCount a ns :
  match a with
  | AddNotification _ _ => unreadCount (notification_step a ns) = S (unreadCount ns)
  | MarkAsRead id | ClearNotification id =>
      unreadCount (notification_step a ns) +
      unreadCount (filter (λ n, n_id n = id) ns) = unreadCount ns
  | MarkAllAsRead => unreadCount (notification_step a ns) = 0
  end.
Proof.
  destruct a as [clk i|id| |id]; cbn [notification_step].
  - by destruct (addNotification_unreadCount clk i ns) as (? & _ & _ & _ & _ & ?).
  - apply markAsRead_unreadCount.
  - apply markAllAsRead_unreadCount.
  - exact (unread_filter_split (λ n, n_id n = id) ns).
Qed.

(** An identifier that no notification carries, for instance one
    already cleared, is a no-op for both [markAsRead] and
    [clearNotification]: the feed comes back unchanged and nothing is
    raised. *)
Lemma absent_id_noop id ns :
  id ∉ feed_ids ns → markAsRead id ns = ns ∧ clearNotification id ns = ns.
Proof. split; [by apply markAsRead_absent|by apply clearNotification_absent]. Qed.

Lemma absent_id_noop_witness :
  markAsRead "2" (clearNotification "2" sample_feed) = clearNotification "2" sample_feed ∧
  clearNotification "2" (clearNotification "2" sample_feed) = clearNotification "2" sample_feed.
Proof. apply absent_id_noop. compute_done. Defined.

(** Claim C24. After [clearNotification id] no notification carries [id],
    every other notification is still there in its old order, and clearing
    again changes nothing; an
    identifier that no notification carries, for instance one already
    cleared, is a no-op for both [markAsRead] and [clearNotification]. *)
Theorem clearNotification_removes id ns :
  (id ∉ feed_ids (clearNotification id ns)) ∧
  (∀ n, n ∈ clearNotification id ns ↔ n ∈ ns ∧ n_id n ≠ id) ∧
  sublist (clearNotification id ns) ns ∧
  clearNotification id (clearNotification id ns) = clearNotification id ns ∧
  (id ∉ feed_ids ns → markAsRead id ns = ns ∧ clearNotification id ns = ns).
Proof.
  split_and!.
  - rewrite feed_ids_clearNotification, list_elem_of_filter. by intros [? _].
  - intros n. unfold clearNotification. rewrite list_elem_of_filter. tauto.
  - apply clearNotification_sublist.
  - unfold clearNotification. rewrite list_filter_filter.
    apply list_filter_iff. tauto.
  - apply absent_id_noop.
Qed.

(** No operation changes anything but [isRead], and [isRead] only
    goes from false to true: an addition conses an unread notification, the
    two marking operations keep every position and at most set its flag, and
    clearing yields a sublist. *)
Lemma notification_step_shape a ns :
  match a with
  | AddNotification _ _ =>
      ∃ n, notification_step a ns = n :: ns ∧ n_isRead n = false
  | MarkAsRead _ | MarkAllAsRead => Forall2 marked ns (notification_step a ns)
  | ClearNotification _ => notification_step a ns `sublist_of` ns
  end.
Proof.
  destruct a as [clk i|id| |id]; simpl; [by eexists| | |apply sublist_filter];
    apply Forall2_fmap_self; intros n; try case_bool_decide;
    auto using marked_refl, marked_set_isRead.
Qed.

(** While identifiers are distinct the unread count of the feed is the
    number of unread entries of the map it represents. *)
Lemma unreadCount_feed_map ns :
  NoDup (feed_ids ns) →
  unreadCount ns = size (filter (λ kn, n_isRead kn.2 = false) (feed_map ns)).
Proof.
  induction ns as [|n ns IH]; intros Hnd; [by rewrite feed_map_nil, map_filter_empty|].
  apply NoDup_cons in Hnd as [Hn Hnd]. apply feed_map_dom in Hn.
  rewrite unreadCount_unread, unread_cons, feed_map_cons, map_filter_insert.
  change (unread ns) with (unreadCount ns). rewrite (IH Hnd). simpl.
  destruct (n_isRead n); case_decide; try done.
  - by rewrite delete_id.
  - rewrite map_size_insert_None; [done|]. by apply map_lookup_filter_None_2; left.
Qed.

(** Claim C13. The feed refines a finite map keyed by identifier: adding is
    an insertion, [markAsRead] an in-place update of the entry, [markAllAsRead]
    a map over the entries and [clearNotification] a deletion; and while
    identifiers are distinct the unread count of the feed is the number of
    unread entries of the map. *)
Theorem feed_map_refines a ns :
  feed_map (notification_step a ns) =
  match a with
  | AddNotification clk i => <[toString (now clk) := newNotification clk i]> (feed_map ns)
  | MarkAsRead id => alter (set_isRead true) id (feed_map ns)
  | MarkAllAsRead => set_isRead true <$> feed_map ns
  | ClearNotification id => delete id (feed_map ns)
  end ∧
  (NoDup (feed_ids ns) →
   unreadCount ns = size (filter (λ kn, n_isRead kn.2 = false) (feed_map ns))).
Proof.
  split; [|apply unreadCount_feed_map].
  destruct a; simpl; auto using feed_map_addNotification, feed_map_markAsRead,
    feed_map_markAllAsRead, feed_map_clearNotification.
Qed.

Lemma feed_map_refines_witness :
  unreadCount sample_feed =
  size (filter (λ kn, n_isRead kn.2 = false) (feed_map sample_feed)).
Proof. apply (feed_map_refines MarkAllAsRead sample_feed). compute_done. Defined.

(** Claim C21. Identifiers stay pairwise distinct along every run in which
    each addition reads a clock strictly later than the one before it and
    than every identifier of the initial feed. *)
Theorem feed_ids_NoDup_run t acts ns :
  ids_until t ns → NoDup (feed_ids ns) → adds_after t acts →
  NoDup (feed_ids (run notification_step acts ns)).
Proof.
  revert t ns. induction acts as [|a acts IH]; intros t ns Hu Hnd Ha; [done|].
  destruct (notification_step_ids t a ns) as (t' & _ & Hu' & Hnd' & Hacts);
    eauto using adds_after_head.
Qed.

Lemma feed_ids_NoDup_run_witness :
  NoDup (feed_ids (run notification_step
    [AddNotification sample_clock sample_input; MarkAsRead "2";
     AddNotification sample_clock_later sample_alert; ClearNotification "1"]
    sample_feed)).
Proof.
  apply (feed_ids_NoDup_run 2).
  - repeat constructor; [by exists 2%Z|by exists 1%Z].
  - compute_done.
  - simpl. lia.
Defined.

(** Claim C22. Two additions within the same millisecond get the same
    identifier: the feed then holds a duplicate identifier, one
    [clearNotification] removes both notifications and one [markAsRead]
    marks both. *)
Theorem same_millisecond_ids_collide clk1 clk2 i1 i2 ns :
  now clk1 = now clk2 →
  let id := toString (now clk1) in
  let ns' := addNotification clk2 i2 (addNotification clk1 i1 ns) in
  ¬ NoDup (feed_ids ns') ∧
  clearNotification id ns' = clearNotification id ns ∧
  unreadCount (markAsRead id ns') = unreadCount (markAsRead id ns).
Proof.
  intros Hnow id ns'. subst id ns'. split_and!.
  - rewrite !feed_ids_addNotification, Hnow, NoDup_cons, elem_of_cons.
    intros [Hin _]. apply Hin. by left.
  - unfold clearNotification, addNotification. rewrite !filter_cons_False; [done|..];
      simpl; rewrite ?Hnow; by intros [].
  - unfold markAsRead, addNotification. rewrite !fmap_cons, !unreadCount_unread, !unread_cons.
    simpl. rewrite Hnow, !bool_decide_eq_true_2 by done. done.
Qed.

Lemma same_millisecond_ids_collide_witness :
  ¬ NoDup (feed_ids (addNotification sample_clock' sample_alert
                       (addNotification sample_clock sample_input sample_feed))) ∧
  clearNotification "1700000000000"
    (addNotification sample_clock' sample_alert
       (addNotification sample_clock sample_input sample_feed)) =
  clearNotification "1700000000000" sample_feed ∧
  unreadCount (markAsRead "1700000000000"
    (addNotification sample_clock' sample_alert
       (addNotification sample_clock sample_input sample_feed))) =
  unreadCount (markAsRead "1700000000000" sample_feed).
Proof. apply (same_millisecond_ids_collide sample_clock sample_clock'). reflexivity. Defined.

(** Marking and clearing commute with each other, whatever the
    identifiers. *)
Lemma markAsRead_clearNotification_commute id1 id2 ns :
  markAsRead id1 (markAsRead id2 ns) = markAsRead id2 (markAsRead id1 ns) ∧
  clearNotification id1 (markAsRead id2 ns) = markAsRead id2 (clearNotification id1 ns) ∧
  clearNotification id1 (clearNotification id2 ns) =
    clearNotification id2 (clearNotification id1 ns) ∧
  clearNotification id1 (markAllAsRead ns) = markAllAsRead (clearNotification id1 ns) ∧
  markAsRead id1 (markAllAsRead ns) = markAllAsRead (markAsRead id1 ns).
Proof.
  unfold markAsRead, markAllAsRead, clearNotification. split_and!.
  - rewrite <-!list_fmap_compose. apply list_fmap_ext. intros _ n _. simpl.
    by repeat (case_bool_decide; simpl).
  - rewrite filter_fmap. f_equal. apply list_filter_iff. intros n. by case_bool_decide.
  - rewrite !list_filter_filter. apply list_filter_iff. tauto.
  - rewrite filter_fmap. f_equal.
  - rewrite <-!list_fmap_compose. apply list_fmap_ext. intros _ n _. simpl.
    by case_bool_decide.
Qed.

(** An addition against a marking or a clearing: the new notification is
    marked, or cleared, when it carries the identifier. *)
Lemma markAsRead_addNotification id clk i ns :
  markAsRead id (addNotification clk i ns) =
  (if bool_decide (toString (now clk) = id) then set_isRead true (newNotification clk i)
   else newNotification clk i) :: markAsRead id ns.
Proof. done. Qed.

Lemma clearNotification_addNotification id clk i ns :
  clearNotification id (addNotification clk i ns) =
  if bool_decide (toString (now clk) = id) then clearNotification id ns
  else addNotification clk i (clearNotification id ns).
Proof.
  unfold clearNotification, addNotification. rewrite filter_cons. simpl.
  case_bool_decide; [by rewrite decide_False by auto|by rewrite decide_True].
Qed.

(** A list is not itself with an element in front, and a new notification
    is not a read one. *)
Lemma cons_neq {A} (x : A) l : x :: l ≠ l.
Proof. intros H. apply (f_equal length) in H. simpl in H. lia. Qed.

Lemma newNotification_unread clk i l l' :
  newNotification clk i :: l ≠ set_isRead true (newNotification clk i) :: l'.
Proof. intros H. by apply (f_equal (λ l, n_isRead <$> head l)) in H. Qed.

(** The pairs with an addition, one by one. *)
Lemma addNotification_commute clk i a ns :
  if independent (AddNotification clk i) a
  then addNotification clk i (notification_step a ns) =
       notification_step a (addNotification clk i ns)
  else addNotification clk i (notification_step a ns) ≠
       notification_step a (addNotification clk i ns).
Proof.
  destruct a as [clk2 i2|id| |id]; cbn [independent notification_step];
    rewrite ?markAsRead_addNotification, ?clearNotification_addNotification;
    unfold addNotification.
  - case_bool_decide as H; [by rewrite H|]. intros Heq. apply H.
    apply (f_equal head) in Heq. by apply (inj Some).
  - case_bool_decide as H; [by rewrite bool_decide_eq_false_2|].
    rewrite bool_decide_eq_true_2 by done.
    apply newNotification_unread.
  - apply newNotification_unread.
  - case_bool_decide as H; [by rewrite bool_decide_eq_false_2|].
    rewrite bool_decide_eq_true_2 by done. apply cons_neq.
Qed.

Lemma independent_sym a b : independent a b = independent b a.
Proof.
  destruct a, b; simpl; try done. apply bool_decide_ext. split; by intros ->.
Qed.

(** Claim C25. Which operations of the feed may be applied in either order:
    exactly the independent ones.  Marking and clearing commute with each
    other whatever the identifiers; an addition commutes with the marking or
    the clearing of any identifier but the one it creates, and never with a
    marking of all, since a notification is created unread and only what is
    in the feed is marked; two additions commute only when they add the same
    notification.  Where two operations are not independent, the two orders
    give different feeds from every feed. *)
Theorem notification_updates_commute a b ns :
  if independent a b
  then notification_step a (notification_step b ns) =
       notification_step b (notification_step a ns)
  else notification_step a (notification_step b ns) ≠
       notification_step b (notification_step a ns).
Proof.
  destruct a as [clk1 i1|id1| |id1]; [apply addNotification_commute|..];
    (destruct b as [clk2 i2|id2| |id2];
     [rewrite independent_sym;
      lazymatch goal with
      | |- context [independent _ ?a] => pose proof (addNotification_commute clk2 i2 a ns) as H
      end; destruct (independent _ _); by auto|..]);
    cbn [independent notification_step]; try done;
    first [by apply markAsRead_clearNotification_commute
          |symmetry; by apply markAsRead_clearNotification_commute].
Qed.

(** Claim C14. Every notification of a reachable feed is a notification of
    the initial feed or one that [addNotification] built, with at most its
    [isRead] flag raised: no operation ever edits a payload, an identifier or
    a timestamp, or lowers a flag. *)
Theorem notification_reachable_origin init ns :
  notification_reachable init ns →
  Forall (λ n, ∃ n0, (n0 ∈ init ∨ ∃ clk i, n0 = newNotification clk i) ∧ marked n0 n) ns.
Proof.
  induction 1 as [|a ns _ IH].
  - apply Forall_forall. intros n Hn. exists n. auto using marked_refl.
  - pose proof (notification_step_shape a ns) as Hshape.
    destruct a as [clk i|id| |id]; simpl in *.
    + apply Forall_cons. split; [|done]. eexists. eauto using marked_refl.
    + eapply Forall2_Forall_r; [done|]. eapply Forall_impl; [done|]. simpl.
      intros n (n0 & ? & ?) n' ?. eauto using marked_trans.
    + eapply Forall2_Forall_r; [done|]. eapply Forall_impl; [done|]. simpl.
      intros n (n0 & ? & ?) n' ?. eauto using marked_trans.
    + by apply Forall_filter.
Qed.

Lemma notification_reachable_origin_witness :
  Forall (λ n, ∃ n0, (n0 ∈ sample_feed ∨ ∃ clk i, n0 = newNotification clk i) ∧ marked n0 n)
    (markAllAsRead (addNotification sample_clock sample_input sample_feed)).
Proof.
  apply notification_reachable_origin.
  apply (nr_step _ MarkAllAsRead), (nr_step _ (AddNotification _ _)), nr_init.
Defined.
