(* ===== verification/Store.v ===== *)
(** * Store: the conversation store and the delivery simulator of the design

    The design document of the repository describes the chat as two
    components the sources do not have as such: a Conversation Store that
    owns the conversations and their logs ([sendMessage], [receiveMessage],
    [markConversationRead], [listConversations], [selectConversation]) and a
    Delivery Simulator that schedules one reply per send and delivers it
    later.  This file states that design as functions on a [Store], with the
    invariant the design asks for: the unread count of a conversation is the
    number of unread messages of its participant.

    Nothing here is translated from the sources.  [Chat] relates the page to
    this store: which of its events stand for which command, and how far the
    list it shows is the log the store would hold. *)

From S2P Require Import Prelude JsString Types.

#[local] Open Scope js_scope.

Module ConversationStore.

Inductive StoreError :=
| ValidationError
| NotFoundError.

#[export] Instance StoreError_eq_dec : EqDecision StoreError.
Proof. solve_decision. Defined.

(** The conversations in insertion order, and the conversations of the
    replies that are scheduled and not yet delivered, oldest first. *)
Record Store := mkStore {
  conversations : list Conversation;
  scheduled : list string;
}.

#[export] Instance Store_eq_dec : EqDecision Store.
Proof. solve_decision. Defined.

Definition lookup_conversation (id : string) (st : Store) : option Conversation :=
  List.find (λ c, bool_decide (c_id c = id)) (conversations st).

(** The conversation [id] replaced by its image under [f]. *)
Definition update (id : string) (f : Conversation → Conversation)
    (cs : list Conversation) : list Conversation :=
  (λ c, if bool_decide (c_id c = id) then f c else c) <$> cs.

(** A message at the end of the log of a conversation. *)
Definition append (m : Message) (c : Conversation) : Conversation :=
  {| c_id := c_id c; c_participantId := c_participantId c;
     c_messages := c_messages c ++ [m];
     c_lastMessageAt := c_lastMessageAt c; c_unreadCount := c_unreadCount c |}.

Definition set_lastMessageAt (t : string) (c : Conversation) : Conversation :=
  {| c_id := c_id c; c_participantId := c_participantId c; c_messages := c_messages c;
     c_lastMessageAt := t; c_unreadCount := c_unreadCount c |}.

Definition set_unreadCount (n : nat) (c : Conversation) : Conversation :=
  {| c_id := c_id c; c_participantId := c_participantId c; c_messages := c_messages c;
     c_lastMessageAt := c_lastMessageAt c; c_unreadCount := n |}.

(** Every message read, none counted. *)
Definition read_all (c : Conversation) : Conversation :=
  {| c_id := c_id c; c_participantId := c_participantId c;
     c_messages := mark_all (c_messages c);
     c_lastMessageAt := c_lastMessageAt c; c_unreadCount := 0 |}.

(** ** The commands of the store *)

(** [name_of] is the display name of a participant. *)
Definition listConversations (name_of : string → option string)
    (textQuery : option string) (st : Store) : list Conversation :=
  match textQuery with
  | None => conversations st
  | Some q =>
      filter (λ c, from_option (λ n, includes (toLowerCase n) (toLowerCase q)) false
                     (name_of (c_participantId c)) = true)
        (conversations st)
  end.

Definition selectConversation (id : string) (st : Store) : StoreError + Conversation :=
  match lookup_conversation id st with
  | Some c => inr c
  | None => inl NotFoundError
  end.

Definition scheduleReply (conversationId : string) (st : Store) : Store :=
  mkStore (conversations st) (scheduled st ++ [conversationId]).

(** The identifier and the timestamp of the new message are the caller's:
    the design asks for a fresh identifier and the current time and leaves
    both to the implementation. *)
Definition sendMessage (conversationId authorId content : string)
    (id timestamp : string) (st : Store) : StoreError + (Message * Store) :=
  if negb (truthy (trim content)) then inl ValidationError
  else match lookup_conversation conversationId st with
       | None => inl ValidationError
       | Some _ =>
           let m := mkMessage id authorId content timestamp true in
           inr (m, scheduleReply conversationId
                     (mkStore (update conversationId
                                 (λ c, set_lastMessageAt timestamp (append m c))
                                 (conversations st))
                              (scheduled st)))
       end.

(** A message of the participant: unread, and counted.  A conversation that
    is not in the store makes it a no-op. *)
Definition receiveMessage (conversationId senderId content : string)
    (id timestamp : string) (st : Store) : Store :=
  let m := mkMessage id senderId content timestamp false in
  mkStore (update conversationId
             (λ c, set_unreadCount (S (c_unreadCount c)) (append m c))
             (conversations st))
          (scheduled st).

Definition markConversationRead (conversationId : string) (st : Store) : Store :=
  mkStore (update conversationId read_all (conversations st)) (scheduled st).

(** Deleting a conversation cancels the replies scheduled for it. *)
Definition deleteConversation (conversationId : string) (st : Store) : Store :=
  mkStore (filter (λ c, c_id c ≠ conversationId) (conversations st))
          (filter (λ id, id ≠ conversationId) (scheduled st)).

(** ** The delivery simulator *)

(** The oldest scheduled reply fires: the participant of its conversation
    sends [content]. *)
Definition deliver (content id timestamp : string) (st : Store) : Store :=
  match scheduled st with
  | [] => st
  | conversationId :: rest =>
      let st' := mkStore (conversations st) rest in
      match lookup_conversation conversationId st with
      | Some c => receiveMessage conversationId (c_participantId c) content id timestamp st'
      | None => st'
      end
  end.

(** ** The invariant of the design *)

(** The unread messages of the participant. *)
Definition unread_of (c : Conversation) : nat :=
  length (filter (λ m, m_senderId m = c_participantId c ∧ m_read m = false) (c_messages c)).

Record store_inv (st : Store) : Prop := {
  inv_ids : NoDup (c_id <$> conversations st);
  inv_unread : Forall (λ c, c_unreadCount c = unread_of c) (conversations st);
  inv_scheduled : Forall (λ id, is_Some (lookup_conversation id st)) (scheduled st);
}.

(** * Lemmas *)

Section store_lemmas.
Implicit Types (st : Store) (c : Conversation) (cs : list Conversation) (id : string).

Lemma find_update id id' f cs :
  (∀ c, c_id (f c) = c_id c) →
  List.find (λ c, bool_decide (c_id c = id')) (update id f cs) =
  (λ c, if bool_decide (c_id c = id) then f c else c) <$>
    List.find (λ c, bool_decide (c_id c = id')) cs.
Proof.
  intros Hf. induction cs as [|c cs IH]; [done|]. simpl.
  destruct (bool_decide (c_id c = id)) eqn:Hid; rewrite ?Hf;
    destruct (bool_decide (c_id c = id')) eqn:Hid'; simpl; by rewrite ?Hid.
Qed.

(** The conversation a command addresses is replaced by its image, the
    others are as they were. *)
Lemma lookup_update id id' f st sched :
  (∀ c, c_id (f c) = c_id c) →
  lookup_conversation id' (mkStore (update id f (conversations st)) sched) =
  (λ c, if bool_decide (id' = id) then f c else c) <$> lookup_conversation id' st.
Proof.
  intros Hf. unfold lookup_conversation. simpl. rewrite find_update by done.
  destruct (List.find _ (conversations st)) as [c|] eqn:Hc; [|done]. simpl.
  apply find_some in Hc as [_ Hid%bool_decide_eq_true]. by rewrite Hid.
Qed.

Lemma lookup_scheduleReply id id' st :
  lookup_conversation id' (scheduleReply id st) = lookup_conversation id' st.
Proof. done. Qed.

Lemma lookup_is_Some_update id id' f st sched :
  (∀ c, c_id (f c) = c_id c) →
  is_Some (lookup_conversation id' (mkStore (update id f (conversations st)) sched)) ↔
  is_Some (lookup_conversation id' st).
Proof. intros Hf. by rewrite lookup_update, fmap_is_Some. Qed.

Lemma Forall_update (P : Conversation → Prop) id f cs :
  Forall P cs → (∀ c, c ∈ cs → P c → c_id c = id → P (f c)) → Forall P (update id f cs).
Proof.
  rewrite !Forall_forall. intros Hcs Hf c' (c & -> & Hin)%list_elem_of_fmap.
  case_bool_decide; auto.
Qed.

Lemma unread_of_append m c :
  unread_of (append m c) =
  unread_of c +
  (if decide (m_senderId m = c_participantId c ∧ m_read m = false) then 1 else 0).
Proof.
  unfold unread_of. simpl. rewrite filter_app, length_app, filter_cons, filter_nil.
  by case_decide.
Qed.

Lemma unread_of_set_lastMessageAt t c : unread_of (set_lastMessageAt t c) = unread_of c.
Proof. done. Qed.

Lemma unread_of_set_unreadCount n c : unread_of (set_unreadCount n c) = unread_of c.
Proof. done. Qed.

Lemma ids_update id f cs : (∀ c, c_id (f c) = c_id c) → c_id <$> update id f cs = c_id <$> cs.
Proof.
  intros Hf. unfold update. rewrite <-list_fmap_compose. apply list_fmap_ext.
  intros _ c _. simpl. by case_bool_decide.
Qed.

Lemma lookup_conversation_Some id st c :
  lookup_conversation id st = Some c → c ∈ conversations st ∧ c_id c = id.
Proof.
  intros [Hin Hid%bool_decide_eq_true]%find_some. by rewrite list_elem_of_In.
Qed.

Lemma lookup_conversation_None id st :
  lookup_conversation id st = None ↔ ∀ c, c ∈ conversations st → c_id c ≠ id.
Proof.
  unfold lookup_conversation. split.
  - intros Hnone c Hin%list_elem_of_In Hid.
    pose proof (find_none _ _ Hnone c Hin) as Hf. simpl in Hf.
    by rewrite bool_decide_eq_true_2 in Hf.
  - intros Hall. destruct (List.find _ _) as [c|] eqn:Hc; [|done].
    apply find_some in Hc as [Hin%list_elem_of_In Hid%bool_decide_eq_true].
    by destruct (Hall c).
Qed.

Lemma lookup_conversation_Some_2 id st c :
  NoDup (c_id <$> conversations st) → c ∈ conversations st → c_id c = id →
  lookup_conversation id st = Some c.
Proof.
  intros Hn Hin Hid. destruct (lookup_conversation id st) as [c'|] eqn:Hc.
  - apply lookup_conversation_Some in Hc as [Hin' Hid'].
    f_equal. apply (NoDup_fmap_elem_eq c_id (conversations st)); congruence.
  - rewrite lookup_conversation_None in Hc. by destruct (Hc c).
Qed.

Lemma update_update id f g cs :
  (∀ c, c_id (g c) = c_id c) → update id f (update id g cs) = update id (f ∘ g) cs.
Proof.
  intros Hg. unfold update. rewrite <-list_fmap_compose. apply list_fmap_ext.
  intros _ c _. unfold compose.
  destruct (bool_decide (c_id c = id)) eqn:Hid; [by rewrite Hg, Hid|by rewrite Hid].
Qed.

Lemma read_all_idemp c : read_all (read_all c) = read_all c.
Proof. unfold read_all. simpl. by rewrite mark_all_idemp. Qed.

Lemma unread_of_read_all c : unread_of (read_all c) = 0.
Proof.
  unfold unread_of. simpl. apply length_zero_iff_nil, filter_none, Forall_fmap.
  apply Forall_forall. by intros m _ [_ ?].
Qed.

End store_lemmas.

(** ** The commands keep the invariant *)

Section store_inv.
Implicit Types (st : Store) (c : Conversation) (id : string).

Lemma sendMessage_inv conversationId authorId content id timestamp st m st' :
  store_inv st →
  sendMessage conversationId authorId content id timestamp st = inr (m, st') →
  store_inv st'.
Proof.
  intros [Hn Hu Hs]. unfold sendMessage. case_match; [done|].
  destruct (lookup_conversation conversationId st) as [c|] eqn:Hc; intros [= <- <-].
  unfold scheduleReply. split; simpl.
  - by rewrite ids_update.
  - apply Forall_update; [done|]. intros c' _ Hc' _. simpl in *.
    rewrite unread_of_set_lastMessageAt, unread_of_append, Hc'. simpl.
    rewrite decide_False; [lia|by intros [_ ?]].
  - apply Forall_app. split; [|apply Forall_singleton].
    + eapply Forall_impl; [done|]. intros id'. by rewrite lookup_is_Some_update.
    + rewrite lookup_is_Some_update by done. by rewrite Hc.
Qed.

Lemma deliver_inv content id timestamp st :
  store_inv st → store_inv (deliver content id timestamp st).
Proof.
  intros [Hn Hu Hs]. unfold deliver. destruct (scheduled st) as [|cid rest] eqn:Hsch; [by split; rewrite ?Hsch|].
  apply Forall_cons in Hs as [[c Hc] Hrest]. rewrite Hc. unfold receiveMessage.
  split; simpl.
  - by rewrite ids_update.
  - apply Forall_update; [done|]. intros c' Hin Hc' Hid. simpl in *.
    rewrite unread_of_set_unreadCount, unread_of_append, Hc'. simpl.
    apply lookup_conversation_Some in Hc as [Hcin Hcid].
    assert (c' = c) as -> by (apply (NoDup_fmap_elem_eq c_id (conversations st)); congruence).
    rewrite decide_True by done. lia.
  - eapply Forall_impl; [done|]. intros id'. by rewrite lookup_is_Some_update.
Qed.

Lemma markConversationRead_inv conversationId st :
  store_inv st → store_inv (markConversationRead conversationId st).
Proof.
  intros [Hn Hu Hs]. unfold markConversationRead. split; simpl.
  - by rewrite ids_update.
  - apply Forall_update; [done|]. intros c _ _ _. by rewrite unread_of_read_all.
  - eapply Forall_impl; [done|]. intros id'. by rewrite lookup_is_Some_update.
Qed.

(** Marking a conversation read twice is marking it once. *)
Lemma markConversationRead_idemp conversationId st :
  markConversationRead conversationId (markConversationRead conversationId st) =
  markConversationRead conversationId st.
Proof.
  unfold markConversationRead. simpl. rewrite update_update by done. f_equal.
  apply list_fmap_ext. intros _ c _. simpl. case_bool_decide; [apply read_all_idemp|done].
Qed.

(** A conversation that is deleted takes its scheduled replies with it: none
    of them fires into the store afterwards. *)
Lemma deleteConversation_inv conversationId st :
  store_inv st → store_inv (deleteConversation conversationId st) ∧
  lookup_conversation conversationId (deleteConversation conversationId st) = None ∧
  conversationId ∉ scheduled (deleteConversation conversationId st).
Proof.
  intros [Hn Hu Hs]. split_and!; [split|..]; simpl.
  - by apply NoDup_fmap_filter.
  - by apply Forall_filter.
  - apply Forall_forall. intros id' [Hid Hin]%list_elem_of_filter.
    eapply Forall_forall in Hs as [c Hc]; [|done]. exists c.
    apply lookup_conversation_Some in Hc as [Hcin Hcid].
    apply lookup_conversation_Some_2; [by apply NoDup_fmap_filter| |done].
    apply list_elem_of_filter. by rewrite Hcid.
  - apply lookup_conversation_None. intros c [Hid _]%list_elem_of_filter. done.
  - by intros [? _]%list_elem_of_filter.
Qed.

End store_inv.

End ConversationStore.
