(* ===== verification/Chat.v ===== *)
(** * Chat: the chat page

    [src/pages/ChatPage.tsx].  The page keeps five pieces of React state
    ([searchQuery], [selectedConversation], [newMessage], [messages],
    [isMobileConversationOpen]); the browser keeps, on the page's behalf, the
    queue of [setTimeout] callbacks that [handleSendMessage] scheduled.  The
    conversations and buddies come from the module-level mock data and the
    current user from the auth context: they are the parameters of the
    section.

    A state of the model is the record [ChatState] of the five pieces and
    the queue.  An event is a user action or the firing of the oldest pending
    timeout; its handler is the function the source binds to it, followed by
    the effect that React re-runs when [selectedConversation] has changed.
    Handlers read the clock and the random generator through the arguments
    of the event.

    The file also models what the page derives from the state when it
    renders: the filtered list of conversations, a row of that list, the
    chat area with its header, a message bubble, the visibility of the two
    panes, and the controls of the render ([controls]), of which
    [chat_enabled] is proved to be the guard.

    The definitions live in the module [ChatPage], whose names are the
    source's: some are also names of the buddies page. *)

From S2P Require Import Prelude JsString JsDate JsNumber Types View Store.

Module ChatPage.

(** ** State *)

(** A pending [setTimeout]: the closure holds the conversation that was
    selected when the message was sent, and fires after [to_delay] ms. *)
Record Timeout := mkTimeout {
  to_conversation : Conversation;
  to_delay : Z;
}.

#[export] Instance Timeout_eq_dec : EqDecision Timeout.
Proof. solve_decision. Defined.

Record ChatState := mkChatState {
  searchQuery : string;
  selectedConversation : option Conversation;
  newMessage : string;
  messages : list Message;
  isMobileConversationOpen : bool;
  timeouts : list Timeout;
}.

#[export] Instance ChatState_eq_dec : EqDecision ChatState.
Proof. solve_decision. Defined.

(** The state setters of [useState], and the two operations of the timeout
    queue. *)
Definition setSearchQuery (v : string) (s : ChatState) : ChatState :=
  mkChatState v (selectedConversation s) (newMessage s) (messages s)
    (isMobileConversationOpen s) (timeouts s).

Definition setSelectedConversation (v : option Conversation) (s : ChatState) : ChatState :=
  mkChatState (searchQuery s) v (newMessage s) (messages s)
    (isMobileConversationOpen s) (timeouts s).

Definition setNewMessage (v : string) (s : ChatState) : ChatState :=
  mkChatState (searchQuery s) (selectedConversation s) v (messages s)
    (isMobileConversationOpen s) (timeouts s).

(** [setMessages] takes the function of the previous list, as the source
    calls it. *)
Definition setMessages (f : list Message → list Message) (s : ChatState) : ChatState :=
  mkChatState (searchQuery s) (selectedConversation s) (newMessage s) (f (messages s))
    (isMobileConversationOpen s) (timeouts s).

Definition setIsMobileConversationOpen (v : bool) (s : ChatState) : ChatState :=
  mkChatState (searchQuery s) (selectedConversation s) (newMessage s) (messages s)
    v (timeouts s).

Definition setTimeout (conv : Conversation) (delay : Z) (s : ChatState) : ChatState :=
  mkChatState (searchQuery s) (selectedConversation s) (newMessage s) (messages s)
    (isMobileConversationOpen s) (timeouts s ++ [mkTimeout conv delay]).

Definition popTimeout (s : ChatState) : ChatState :=
  mkChatState (searchQuery s) (selectedConversation s) (newMessage s) (messages s)
    (isMobileConversationOpen s) (tail (timeouts s)).

(** The state of the first render. *)
Definition ChatPage_init : ChatState :=
  {| searchQuery := ""; selectedConversation := None; newMessage := "";
     messages := []; isMobileConversationOpen := false; timeouts := [] |}.

(** ** The simulated replies

    The two emoji are kept as the bytes of the source file; no theorem looks
    inside a reply. *)

Definition replies : list string :=
  [ "Salamat sa message! 😊";
    "Noted po! I'll get back to you soon.";
    "Okay po, maraming salamat!";
    "That sounds good! Let me check.";
    "Ingat palagi! 💪";
    "Sure, I can help with that.";
    "Naintindihan ko na po. Thank you!" ].

(** [random] is the Number [Math.random()] returns.  The index is the
    floor of its product with the number of replies, a product of doubles
    that is rounded to the nearest double.  [None] is the [undefined] of an
    index outside the array. *)
Definition getRandomReply (random : Number) : option string :=
  element replies (Math_floor (mul random (of_nat (length replies)))).

Section chat.
Context (mockConversations : list Conversation) (mockBuddies : list Buddy).
Context (user : option User).

(** ** Handlers *)

Definition getBuddy (participantId : string) : option Buddy :=
  List.find (λ b, bool_decide (b_id b = participantId)) mockBuddies.

(** The test of the filter: the buddy's name contains the query, case
    insensitively; for a conversation without a buddy, [buddy?.name...] is
    [undefined], which the filter takes for false. *)
Definition matchesSearch (searchQuery : string) (conv : Conversation) : bool :=
  let buddy := List.find (λ b, bool_decide (b_id b = c_participantId conv)) mockBuddies in
  match buddy with
  | Some buddy => includes (toLowerCase (b_name buddy)) (toLowerCase searchQuery)
  | None => false
  end.

Definition filteredConversations (searchQuery : string) : list Conversation :=
  filter (λ conv, matchesSearch searchQuery conv) mockConversations.

(** The effect with dependency [selectedConversation]: React runs it after a
    render in which the dependency is not the one of the previous render. *)
Definition useEffect_selectedConversation (prev s : ChatState) : ChatState :=
  if decide (selectedConversation prev = selectedConversation s) then s
  else match selectedConversation s with
       | Some conv => setMessages (λ _, c_messages conv) s
       | None => s
       end.

Definition handleSelectConversation (conv : Conversation) (s : ChatState) : ChatState :=
  setIsMobileConversationOpen true (setSelectedConversation (Some conv) s).

(** The message [handleSendMessage] builds: authored by the user, holding
    the trimmed draft, read from the start. *)
Definition message (u : User) (clk : Clock) (newMessage : string) : Message :=
  {| m_id := "msg-" +:+ toString (now clk);
     m_senderId := u_id u;
     m_content := trim newMessage;
     m_timestamp := toISOString (date clk);
     m_read := true |}.

(** The message the timeout builds: authored by the participant of the
    conversation its closure holds, unread. *)
Definition replyMessage (conv : Conversation) (clk : Clock) (random : Number) : Message :=
  {| m_id := "msg-" +:+ toString (now clk) +:+ "-reply";
     m_senderId := c_participantId conv;
     m_content := default "" (getRandomReply random);
     m_timestamp := toISOString (date clk);
     m_read := false |}.

(** The callback of the timeout appends the reply to the list the page
    shows when it fires. *)
Definition replyCallback (conv : Conversation) (clk : Clock) (random : Number)
    (s : ChatState) : ChatState :=
  setMessages (λ prev, prev ++ [replyMessage conv clk random]) s.

(** [handleSendMessage]: returns without effect when the trimmed draft is
    empty or no conversation is selected; throws when there is no signed-in
    user ([user!.id]); otherwise appends the message, clears the draft and
    schedules the reply. *)
Definition handleSendMessage (clk : Clock) (s : ChatState) : Completion ChatState :=
  if negb (truthy (trim (newMessage s))) then Normal s
  else match selectedConversation s with
       | None => Normal s
       | Some conv =>
           match user with
           | None => Throw "TypeError: Cannot read properties of null (reading 'id')"
           | Some u =>
               Normal (setTimeout conv 1500
                         (setNewMessage ""
                            (setMessages (λ prev, prev ++ [message u clk (newMessage s)]) s)))
           end
       end.

(** ** The page as a state machine *)

Inductive ChatEvent :=
| ChangeSearch (value : string)
| ChangeMessage (value : string)
| ClickConversation (conv : Conversation)
| ClickBack
| SubmitMessage (clk : Clock)
| TimeoutFires (clk : Clock) (random : Number).

(** What the handler bound to the event does to the state. *)
Definition chat_handle (e : ChatEvent) (s : ChatState) : Completion ChatState :=
  match e with
  | ChangeSearch value => Normal (setSearchQuery value s)
  | ChangeMessage value => Normal (setNewMessage value s)
  | ClickConversation conv => Normal (handleSelectConversation conv s)
  | ClickBack => Normal (setIsMobileConversationOpen false s)
  | SubmitMessage clk => handleSendMessage clk s
  | TimeoutFires clk random =>
      match timeouts s with
      | t :: _ => Normal (replyCallback (to_conversation t) clk random (popTimeout s))
      | [] => Normal s
      end
  end.

(** One event: the handler, then the effects of the render it causes.  A
    handler that throws has changed nothing. *)
Definition chat_step (e : ChatEvent) (s : ChatState) : ChatState :=
  match chat_handle e s with
  | Normal s' => useEffect_selectedConversation s s'
  | Throw _ => s
  end.

(** When the page offers the event: a conversation can be clicked when the
    list shows it, the message form exists when a conversation is selected,
    its button is enabled when the trimmed draft is not empty, and a timeout
    can fire when one is pending. *)
Definition chat_enabled (e : ChatEvent) (s : ChatState) : Prop :=
  match e with
  | ChangeSearch _ => True
  | ChangeMessage _ | ClickBack => is_Some (selectedConversation s)
  | ClickConversation conv => conv ∈ filteredConversations (searchQuery s)
  | SubmitMessage _ =>
      is_Some (selectedConversation s) ∧ truthy (trim (newMessage s)) = true
  | TimeoutFires _ _ => timeouts s ≠ []
  end.

#[export] Instance chat_enabled_dec e s : Decision (chat_enabled e s).
Proof. destruct e; simpl; apply _. Defined.

Definition chat_trans : ChatState → ChatEvent → ChatState → Prop :=
  lts_trans chat_step chat_enabled.

(** The states the page reaches from its first render, with the events that
    led there, oldest first. *)
Definition chat_run : list ChatEvent → ChatState → Prop :=
  lts_run chat_step chat_enabled ChatPage_init.

Definition chat_reachable : ChatState → Prop :=
  lts_reachable chat_step chat_enabled ChatPage_init.

(** ** What a render derives from the state *)

(** A row of the conversation list. *)
Record ConversationRow := mkConversationRow {
  row_buddy : option Buddy;
  row_lastMessage : option Message;
  row_isSelected : bool;
  row_online : bool;
  row_time : string;
  row_preview : option string;
  row_badge : option nat;
}.

Definition conversationRow (s : ChatState) (conv : Conversation) : ConversationRow :=
  let buddy := getBuddy (c_participantId conv) in
  let lastMessage := last (c_messages conv) in
  let isSelected :=
    match selectedConversation s with
    | Some sel => bool_decide (c_id sel = c_id conv)
    | None => false
    end in
  {| row_buddy := buddy;
     row_lastMessage := lastMessage;
     row_isSelected := isSelected;
     row_online := from_option (λ b, bool_decide (b_status b = "online")) false buddy;
     row_time := or_else (from_option m_timestamp "" lastMessage) (c_lastMessageAt conv);
     row_preview := m_content <$> lastMessage;
     row_badge := if bool_decide (0 < c_unreadCount conv) then Some (c_unreadCount conv)
                  else None |}.

Definition conversationList (s : ChatState) : list ConversationRow :=
  conversationRow s <$> filteredConversations (searchQuery s).

(** A message bubble of the chat area. *)
Record Bubble := mkBubble {
  bub_message : Message;
  bub_isOwnMessage : bool;
  bub_showAvatar : bool;
  bub_doubleCheck : option bool;
}.

(** [senderId === user?.id], where [senderId] is the sender of an optional
    message: two [undefined] are equal. *)
Definition sentByUser (message : option Message) : bool :=
  match message, user with
  | Some m, Some u => bool_decide (m_senderId m = u_id u)
  | None, None => true
  | _, _ => false
  end.

Definition bubble (messages : list Message) (index : nat) (message : Message) : Bubble :=
  let isOwnMessage := sentByUser (Some message) in
  let showAvatar :=
    negb isOwnMessage &&
    (bool_decide (index = 0) || sentByUser (messages !! (index - 1))) in
  {| bub_message := message;
     bub_isOwnMessage := isOwnMessage;
     bub_showAvatar := showAvatar;
     bub_doubleCheck := if isOwnMessage then Some (m_read message) else None |}.

Definition bubbles (s : ChatState) : list Bubble :=
  imap (bubble (messages s)) (messages s).

(** The send button is disabled while the trimmed draft is empty. *)
Definition sendDisabled (s : ChatState) : bool := negb (truthy (trim (newMessage s))).

(** Below the medium breakpoint a pane with class [hidden md:flex] is not
    displayed. *)
Definition listPaneHidden (s : ChatState) : bool := isMobileConversationOpen s.

Definition chatPaneHidden (s : ChatState) : bool :=
  negb (isMobileConversationOpen s) && negb (bool_decide (is_Some (selectedConversation s))).

(** The notice under a conversation list that the search has emptied. *)
Definition noConversationsFound (s : ChatState) : bool :=
  bool_decide (length (filteredConversations (searchQuery s)) = 0).

(** The header of the chat area: the initial, the online dot, the name and
    the status of the participant, each missing when the store has no such
    buddy. *)
Record ChatHeader := mkChatHeader {
  hd_initial : option string;
  hd_online : bool;
  hd_name : option string;
  hd_status : option string;
}.

Definition chatHeader (conv : Conversation) : ChatHeader :=
  let buddy := getBuddy (c_participantId conv) in
  {| hd_initial := buddy ≫= (λ b, charAt0 (b_name b));
     hd_online := from_option (λ b, bool_decide (b_status b = "online")) false buddy;
     hd_name := b_name <$> buddy;
     hd_status := b_status <$> buddy |}.

(** The chat area: the thread of the selected conversation with its header,
    its bubbles, the draft and the state of the send button; or the
    placeholder. *)
Inductive ChatArea :=
| Thread (header : ChatHeader) (thread : list Bubble) (draft : string) (disabled : bool)
| EmptyState.

Definition chatArea (s : ChatState) : ChatArea :=
  match selectedConversation s with
  | Some conv => Thread (chatHeader conv) (bubbles s) (newMessage s) (sendDisabled s)
  | None => EmptyState
  end.

(** The heading and the text of the placeholder. *)
Definition emptyState : string * string :=
  ("Your Messages", "Select a conversation to start chatting with your buddies").

(** ** The controls of a render *)

(** The search field of the list pane. *)
Definition searchControls (s : ChatState) : list (Control ChatEvent) :=
  [Input "Search conversations..." (searchQuery s) ChangeSearch].

(** One button per conversation of the filtered list. *)
Definition conversationControls (s : ChatState) : list (Control ChatEvent) :=
  (λ conv, Button (c_id conv) (ClickConversation conv)) <$>
    filteredConversations (searchQuery s).

(** The header of the chat area: the back button, and three buttons that
    have no handler. *)
Definition headerControls : list (Control ChatEvent) :=
  [Button "Go back" ClickBack] ++ (Inert <$> ["Voice call"; "Video call"; "More options"]).

(** The form: the draft, the submit button, and three buttons that have no
    handler. *)
Definition formControls (s : ChatState) : list (Control ChatEvent) :=
  (Inert <$> ["Attach file"; "Send image"]) ++
  [Input "Type a message..." (newMessage s) ChangeMessage;
   Inert "Add emoji";
   Form "Send message" (sendDisabled s) SubmitMessage].

(** What the component returns, as the controls it holds: the list pane,
    and for a selected conversation the header and the form. *)
Definition controls (s : ChatState) : list (Control ChatEvent) :=
  searchControls s ++ conversationControls s ++
  when (bool_decide (is_Some (selectedConversation s))) (headerControls ++ formControls s).

(** ** Invariant of the reachable states

    The selected conversation and the conversations the pending timeouts
    hold are conversations of the store; every timeout has the delay of the
    source; the list the page shows starts with the stored log of the selected
    conversation; the mobile flag is only set while a conversation is
    selected. *)
Record chat_inv (s : ChatState) : Prop := mkChatInv {
  inv_selected : ∀ conv, selectedConversation s = Some conv → conv ∈ mockConversations;
  inv_timeouts : Forall (λ t, to_conversation t ∈ mockConversations ∧ to_delay t = 1500%Z)
                   (timeouts s);
  inv_log : from_option c_messages [] (selectedConversation s) `prefix_of` messages s;
  inv_mobile : isMobileConversationOpen s = true → is_Some (selectedConversation s);
}.

(** The number of events of a run that sent a message, and that delivered a
    reply. *)
(** Every event of the list is offered in the state the events before it
    lead to. *)
Definition chat_enabled_all : list ChatEvent → ChatState → Prop :=
  lts_enabled_all chat_step chat_enabled.

#[export] Instance chat_enabled_all_dec es s : Decision (chat_enabled_all es s).
Proof. unfold chat_enabled_all. apply _. Defined.

Definition is_submit (e : ChatEvent) : bool :=
  match e with SubmitMessage _ => true | _ => false end.

Definition is_fire (e : ChatEvent) : bool :=
  match e with TimeoutFires _ _ => true | _ => false end.

Definition submits (es : list ChatEvent) : nat := length (filter (λ e, is_submit e) es).

Definition fires (es : list ChatEvent) : nat := length (filter (λ e, is_fire e) es).

(** ** The page and the store of the design

    The design gives the chat to a store with [sendMessage] and a simulator
    that delivers into it ([Store]).  An event of the page stands for a
    command of that store: a submit for [sendMessage] on the selected
    conversation with the trimmed draft, a firing timeout for the delivery
    of the oldest scheduled reply; the other events are no command. *)
Definition store_step (e : ChatEvent) (s : ChatState)
    (st : ConversationStore.Store) : ConversationStore.Store :=
  match e with
  | SubmitMessage clk =>
      match selectedConversation s, user with
      | Some conv, Some u =>
          match ConversationStore.sendMessage (c_id conv) (u_id u) (trim (newMessage s))
                  ("msg-" +:+ toString (now clk)) (toISOString (date clk)) st with
          | inr (_, st') => st'
          | inl _ => st
          end
      | _, _ => st
      end
  | TimeoutFires clk random =>
      ConversationStore.deliver (default "" (getRandomReply random))
        ("msg-" +:+ toString (now clk) +:+ "-reply") (toISOString (date clk)) st
  | _ => st
  end.

(** The store after the commands of a list of events, which the page takes
    from the state [s] on. *)
Fixpoint store_run (es : list ChatEvent) (s : ChatState)
    (st : ConversationStore.Store) : ConversationStore.Store :=
  match es with
  | [] => st
  | e :: es => store_run es (chat_step e s) (store_step e s st)
  end.

(** The events of a user who stays in one conversation. *)
Definition stays_in (conv : Conversation) (e : ChatEvent) : Prop :=
  match e with
  | ClickConversation c => c = conv
  | _ => True
  end.

#[export] Instance stays_in_dec conv e : Decision (stays_in conv e).
Proof. destruct e; simpl; apply _. Defined.

(** The page shows what the store holds: the list is the log of the one
    conversation the user has been in, the pending timeouts are the replies
    scheduled, and the store has counted [n] replies as unread. *)
Record sim (conv : Conversation) (n : nat) (s : ChatState)
    (st : ConversationStore.Store) : Prop := {
  sim_selected : ∀ c, selectedConversation s = Some c → c = conv;
  sim_stored : ∃ c',
    ConversationStore.lookup_conversation (c_id conv) st = Some c' ∧
    c_participantId c' = c_participantId conv ∧
    c_unreadCount c' = c_unreadCount conv + n ∧
    match selectedConversation s with
    | Some _ => c_messages c' = messages s
    | None => c_messages c' = c_messages conv ∧ timeouts s = []
    end;
  sim_scheduled :
    ConversationStore.scheduled st = (λ t, c_id (to_conversation t)) <$> timeouts s;
  sim_timeouts : Forall (λ t, to_conversation t = conv) (timeouts s);
}.

(** * Lemmas *)

Implicit Types (s : ChatState) (e : ChatEvent) (conv : Conversation) (clk : Clock).

(** *** The step, event by event *)

Lemma handleSendMessage_selected clk s s' :
  handleSendMessage clk s = Normal s' → selectedConversation s' = selectedConversation s.
Proof.
  unfold handleSendMessage. intros Hs.
  repeat case_match; by simplify_eq.
Qed.

Lemma useEffect_same prev s :
  selectedConversation prev = selectedConversation s →
  useEffect_selectedConversation prev s = s.
Proof. intros Hsel. unfold useEffect_selectedConversation. by rewrite decide_True. Qed.

(** [chat_step] without the effect, which only a click on another
    conversation triggers. *)
Lemma chat_step_eq e s :
  chat_step e s =
  match e with
  | ChangeSearch value => setSearchQuery value s
  | ChangeMessage value => setNewMessage value s
  | ClickConversation conv =>
      if decide (selectedConversation s = Some conv)
      then handleSelectConversation conv s
      else setMessages (λ _, c_messages conv) (handleSelectConversation conv s)
  | ClickBack => setIsMobileConversationOpen false s
  | SubmitMessage clk =>
      match handleSendMessage clk s with Normal s' => s' | Throw _ => s end
  | TimeoutFires clk random =>
      match timeouts s with
      | t :: _ => replyCallback (to_conversation t) clk random (popTimeout s)
      | [] => s
      end
  end.
Proof.
  unfold chat_step. destruct e as [v|v|conv| |clk|clk r]; simpl;
    try (by apply useEffect_same).
  - unfold useEffect_selectedConversation. simpl. by repeat case_decide.
  - destruct (handleSendMessage clk s) as [s'|] eqn:Hs; [|done].
    apply useEffect_same. symmetry. by eapply handleSendMessage_selected.
  - destruct (timeouts s); by apply useEffect_same.
Qed.

(** A successful send, spelled out. *)
Lemma handleSendMessage_Normal clk s conv u :
  selectedConversation s = Some conv → truthy (trim (newMessage s)) = true →
  user = Some u →
  handleSendMessage clk s =
  Normal (setTimeout conv 1500
            (setNewMessage "" (setMessages (λ prev, prev ++ [message u clk (newMessage s)]) s))).
Proof. intros Hc Ht Hu. unfold handleSendMessage. by rewrite Ht, Hc, Hu. Qed.

Lemma handleSendMessage_inv clk s :
  handleSendMessage clk s = Normal s ∨
  (user = None ∧ ∃ m, handleSendMessage clk s = Throw m) ∨
  ∃ conv u, selectedConversation s = Some conv ∧ truthy (trim (newMessage s)) = true ∧
    user = Some u ∧
    handleSendMessage clk s =
    Normal (setTimeout conv 1500
              (setNewMessage "" (setMessages (λ prev, prev ++ [message u clk (newMessage s)]) s))).
Proof.
  unfold handleSendMessage.
  destruct (truthy (trim (newMessage s))) eqn:Ht; [simpl|by left].
  destruct (selectedConversation s) as [conv|]; [|by left].
  destruct user as [u|]; [|right; left; eauto]. right; right. by exists conv, u.
Qed.

Lemma chat_step_submit u clk s conv :
  user = Some u → selectedConversation s = Some conv →
  truthy (trim (newMessage s)) = true →
  chat_step (SubmitMessage clk) s =
  setTimeout conv 1500
    (setNewMessage "" (setMessages (λ prev, prev ++ [message u clk (newMessage s)]) s)).
Proof.
  intros Hu Hc Ht. by rewrite chat_step_eq, (handleSendMessage_Normal clk s conv u).
Qed.

Lemma chat_step_click_other conv s :
  selectedConversation s ≠ Some conv →
  chat_step (ClickConversation conv) s =
  setMessages (λ _, c_messages conv) (handleSelectConversation conv s).
Proof. intros Hc. by rewrite chat_step_eq, decide_False. Qed.

Lemma chat_step_click_same conv s :
  selectedConversation s = Some conv →
  chat_step (ClickConversation conv) s = handleSelectConversation conv s.
Proof. intros Hc. by rewrite chat_step_eq, decide_True. Qed.

Lemma chat_step_fire clk random s t ts :
  timeouts s = t :: ts →
  chat_step (TimeoutFires clk random) s =
  replyCallback (to_conversation t) clk random (popTimeout s).
Proof. intros Hts. by rewrite chat_step_eq, Hts. Qed.

(** *** The controls a render offers *)

(** The events of the chat area are offered exactly by the thread: the draft
    and the back button whenever it is shown, the submit while its button is
    not disabled. *)
Lemma chat_enabled_chatArea s :
  (chat_enabled ClickBack s ↔ chatArea s ≠ EmptyState) ∧
  (∀ v, chat_enabled (ChangeMessage v) s ↔ chatArea s ≠ EmptyState) ∧
  (∀ clk, chat_enabled (SubmitMessage clk) s ↔
          ∃ header thread draft, chatArea s = Thread header thread draft false).
Proof.
  unfold chatArea, sendDisabled. simpl.
  destruct (selectedConversation s) as [conv|]; rewrite ?is_Some_alt; split_and!; try done.
  - intros clk. rewrite <-negb_false_iff. split; [intros [_ ->]; eauto|].
    by intros (? & ? & ? & [= _ _ _ ->]).
  - split; [by intros []|by intros (? & ? & ? & ?)].
Qed.

Lemma noConversationsFound_spec s :
  noConversationsFound s = true ↔ conversationList s = [].
Proof.
  unfold noConversationsFound, conversationList.
  rewrite bool_decide_eq_true, length_zero_iff_nil. split; [by intros ->|].
  apply fmap_nil_inv.
Qed.

(** *** The invariant *)

Lemma chat_inv_init : chat_inv ChatPage_init.
Proof. by split. Qed.

Lemma elem_of_filteredConversations conv q :
  conv ∈ filteredConversations q ↔ matchesSearch q conv = true ∧ conv ∈ mockConversations.
Proof.
  unfold filteredConversations. by rewrite list_elem_of_filter, Is_true_true.
Qed.

Lemma chat_inv_step s e : chat_inv s → chat_enabled e s → chat_inv (chat_step e s).
Proof.
  intros [Hsel Hto Hlog Hmob] He. rewrite chat_step_eq.
  destruct e as [v|v|conv| |clk|clk r]; simpl in *.
  - by split.
  - by split.
  - apply elem_of_filteredConversations in He as [_ He].
    case_decide as Hc; split; simpl; intros; simplify_eq; eauto.
    by rewrite Hc in Hlog.
  - split; simpl; try done.
  - destruct (handleSendMessage_inv clk s) as [->|[[_ [m ->]]|(conv & u & Hc & _ & _ & ->)]];
      [by split..|].
    split; simpl; [done| |by etrans; [|apply prefix_app_r]|done].
    apply Forall_app. split; [done|]. apply Forall_singleton. eauto.
  - destruct (timeouts s) as [|t ts] eqn:Hts; [by split|].
    apply Forall_cons in Hto as [_ Hto].
    split; simpl; [done|by rewrite Hts|by etrans; [|apply prefix_app_r]|done].
Qed.

Lemma chat_trans_inv s e s' : chat_trans s e s' → chat_enabled e s ∧ s' = chat_step e s.
Proof. apply lts_trans_inv. Qed.

Lemma chat_run_inv es s : chat_run es s → chat_inv s.
Proof. apply lts_run_invariant; eauto using chat_inv_init, chat_inv_step. Qed.

(** Executing a list of events that are all offered is a run. *)
Lemma chat_run_exec es0 s0 es :
  chat_run es0 s0 → chat_enabled_all es s0 → chat_run (es0 ++ es) (run chat_step es s0).
Proof. apply lts_run_exec. Qed.

Lemma chat_reachable_exec es :
  chat_enabled_all es ChatPage_init → chat_reachable (run chat_step es ChatPage_init).
Proof. apply lts_reachable_exec. Qed.

(** *** Counting *)

Lemma submits_snoc es e : submits (es ++ [e]) = submits es + (if is_submit e then 1 else 0).
Proof.
  unfold submits. rewrite filter_app, length_app, filter_cons, filter_nil.
  by destruct (is_submit e).
Qed.

Lemma fires_snoc es e : fires (es ++ [e]) = fires es + (if is_fire e then 1 else 0).
Proof.
  unfold fires. rewrite filter_app, length_app, filter_cons, filter_nil.
  by destruct (is_fire e).
Qed.

(** With a signed-in user, an enabled submit schedules one timeout, a firing
    removes one, and nothing else touches the queue. *)
Lemma chat_step_timeouts u e s :
  user = Some u → chat_enabled e s →
  length (timeouts (chat_step e s)) + (if is_fire e then 1 else 0) =
  length (timeouts s) + (if is_submit e then 1 else 0).
Proof.
  intros Hu He. rewrite chat_step_eq.
  destruct e as [v|v|conv| |clk|clk r]; simpl in *; try lia.
  - case_decide; simpl; lia.
  - destruct He as [[conv Hc] Ht].
    rewrite (handleSendMessage_Normal clk s conv u) by done. simpl.
    rewrite length_app. simpl. lia.
  - destruct (timeouts s) eqn:Hts; simpl; rewrite ?Hts; simpl; [done|lia].
Qed.

(** Without a user an enabled submit throws and the state stays as it is. *)
Lemma chat_step_no_user e s :
  user = None → chat_enabled e s → timeouts s = [] →
  timeouts (chat_step e s) = [] ∧
  (messages s = from_option c_messages [] (selectedConversation s) →
   messages (chat_step e s) = from_option c_messages [] (selectedConversation (chat_step e s))).
Proof.
  intros Hu He Hto. rewrite chat_step_eq.
  destruct e as [v|v|conv| |clk|clk r]; simpl in *; try done.
  - case_decide as Hc; simpl; [by rewrite Hc|done].
  - destruct He as [[conv Hc] Ht]. unfold handleSendMessage.
    rewrite Hc, Ht. simpl. by rewrite Hu, Hc.
Qed.

(** * Properties *)

(** Claim C1. Every state the page can reach satisfies the invariant: the
    selected conversation and the conversations held by pending timeouts are
    conversations of the store, every pending timeout has the delay 1500, the
    list the page shows extends the stored log of the selected conversation,
    and the mobile flag is set only while a conversation is selected. *)
Theorem chat_reachable_inv s : chat_reachable s → chat_inv s.
Proof. intros [es Hrun]. by eapply chat_run_inv. Qed.

(** Claim C2. With a signed-in user, along every run the number of pending
    timeouts plus the number of replies delivered equals the number of
    messages sent: each send schedules exactly one reply, none is coalesced
    and none is lost. *)
Theorem timeouts_accounting u es s :
  user = Some u → chat_run es s →
  length (timeouts s) + fires es = submits es.
Proof.
  intros Hu. induction 1 as [|es s e s' _ IH [He ->]%chat_trans_inv]; [done|].
  rewrite submits_snoc, fires_snoc.
  pose proof (chat_step_timeouts u e s Hu He). lia.
Qed.

(** Claim C36. Without a signed-in user no message is ever sent: every submit
    throws before any state is set, so along every run no timeout is pending
    and the page shows exactly the stored log of the selected conversation. *)
Theorem no_user_no_send es s :
  user = None → chat_run es s →
  timeouts s = [] ∧ messages s = from_option c_messages [] (selectedConversation s).
Proof.
  intros Hu. induction 1 as [|es s e s' _ [IH1 IH2] [He ->]%chat_trans_inv]; [done|].
  destruct (chat_step_no_user e s Hu He IH1); auto.
Qed.

(** Claim C32. [handleSendMessage] returns without changing anything when no
    conversation is selected or the draft is blank; it reports no error. *)
Theorem handleSendMessage_rejects clk s :
  selectedConversation s = None ∨ all_white_space (newMessage s) = true →
  handleSendMessage clk s = Normal s.
Proof.
  unfold handleSendMessage. intros [->|Hws]; [by case_match|].
  apply trim_empty_iff in Hws. by rewrite Hws.
Qed.

(** Claim C4. A send with a selected conversation, a non-blank draft and a
    signed-in user appends one message as the last entry of the list, with the
    trimmed draft as content, the user as author and the read flag set; it
    clears the draft, schedules one reply for the selected conversation with
    delay 1500 behind the pending ones, and leaves the unread count of the
    list, the selection and the search as they were. *)
Theorem handleSendMessage_sends clk s conv u :
  selectedConversation s = Some conv → truthy (trim (newMessage s)) = true →
  user = Some u →
  ∃ s' m, handleSendMessage clk s = Normal s' ∧
    messages s' = messages s ++ [m] ∧ last (messages s') = Some m ∧
    m_content m = trim (newMessage s) ∧ m_senderId m = u_id u ∧ m_read m = true ∧
    newMessage s' = "" ∧ timeouts s' = timeouts s ++ [mkTimeout conv 1500] ∧
    unread (messages s') = unread (messages s) ∧
    selectedConversation s' = Some conv ∧ searchQuery s' = searchQuery s.
Proof.
  intros Hc Ht Hu. eexists _, (message u clk (newMessage s)).
  split; [by apply handleSendMessage_Normal|]. simpl.
  split_and!; try done; [apply last_snoc|by rewrite unread_snoc].
Qed.

(** Claim C33. A firing timeout delivers the reply of the oldest pending
    send: it appends one unread message authored by the participant of the
    conversation that send was made in, removes that timeout from the queue
    and raises the unread count of the list by one. *)
Theorem timeout_delivers_oldest clk random s t ts :
  timeouts s = t :: ts →
  let s' := chat_step (TimeoutFires clk random) s in
  let m := replyMessage (to_conversation t) clk random in
  messages s' = messages s ++ [m] ∧ timeouts s' = ts ∧
  m_senderId m = c_participantId (to_conversation t) ∧ m_read m = false ∧
  unread (messages s') = S (unread (messages s)) ∧
  selectedConversation s' = selectedConversation s.
Proof.
  intros Hts. simpl. rewrite (chat_step_fire _ _ _ _ _ Hts). simpl.
  rewrite Hts, unread_snoc. simpl. split_and!; try done. lia.
Qed.

(** Claim C35. Between two changes of selection the list only grows at its
    end: every event other than a click on a conversation that is not the
    selected one keeps the messages shown, in order and unmodified, as a
    prefix of the new list. *)
Theorem messages_append_only e s :
  (∀ conv, e = ClickConversation conv → selectedConversation s = Some conv) →
  messages s `prefix_of` messages (chat_step e s).
Proof.
  intros He. rewrite chat_step_eq. destruct e as [v|v|conv| |clk|clk r]; simpl; try done.
  - by rewrite decide_True by eauto.
  - destruct (handleSendMessage_inv clk s) as [->|[[_ [m ->]]|(conv & u & _ & _ & _ & ->)]];
      [done..|]. by apply prefix_app_r.
  - destruct (timeouts s); [done|]. by apply prefix_app_r.
Qed.

(** Claim C3. A reply is appended to whatever list the page shows when the
    timeout fires: after sending in conversation [c1] and selecting another
    conversation [c2] before the timeout fires, the list of [c2] ends with a
    message authored by the participant of [c1]. *)
Theorem reply_lands_in_other_conversation u c1 c2 clk1 clk2 random s :
  user = Some u → selectedConversation s = Some c1 → c1 ≠ c2 →
  truthy (trim (newMessage s)) = true → timeouts s = [] →
  let s' := run chat_step
    [SubmitMessage clk1; ClickConversation c2; TimeoutFires clk2 random] s in
  selectedConversation s' = Some c2 ∧
  messages s' = c_messages c2 ++ [replyMessage c1 clk2 random] ∧
  m_senderId (replyMessage c1 clk2 random) = c_participantId c1.
Proof.
  intros Hu Hc Hne Ht Hto. simpl.
  rewrite (chat_step_submit u clk1 s c1) by done.
  rewrite chat_step_click_other by (simpl; congruence).
  erewrite chat_step_fire by (simpl; by rewrite Hto). done.
Qed.

(** Claim C34. A sent message lives only in the list of the page: after
    sending in [c1], selecting [c2] and coming back to [c1], the page shows
    the stored log of [c1] without the message, while its reply is still
    pending. *)
Theorem sent_message_lost_on_switch u c1 c2 clk s :
  user = Some u → selectedConversation s = Some c1 → c1 ≠ c2 →
  truthy (trim (newMessage s)) = true →
  let s' := run chat_step
    [SubmitMessage clk; ClickConversation c2; ClickConversation c1] s in
  selectedConversation s' = Some c1 ∧ messages s' = c_messages c1 ∧
  timeouts s' = timeouts s ++ [mkTimeout c1 1500].
Proof.
  intros Hu Hc Hne Ht. simpl.
  rewrite (chat_step_submit u clk s c1) by done.
  rewrite (chat_step_click_other c2) by (simpl; congruence).
  rewrite (chat_step_click_other c1) by (simpl; congruence). done.
Qed.

(** The stored unread count and the conversation list do not
    follow the exchange: starting from a conversation whose stored count
    agrees with its log, after one send and its reply the list of the page
    holds one more unread message, yet the row of the conversation shows the
    same badge, preview and time as before. *)
Lemma unread_badge_not_updated u conv clk1 clk2 random s :
  user = Some u → selectedConversation s = Some conv →
  truthy (trim (newMessage s)) = true → timeouts s = [] →
  messages s = c_messages conv → c_unreadCount conv = unread (c_messages conv) →
  let s' := run chat_step [SubmitMessage clk1; TimeoutFires clk2 random] s in
  unread (messages s') = S (c_unreadCount conv) ∧
  conversationRow s' conv = conversationRow s conv.
Proof.
  intros Hu Hc Ht Hto Hms Hcount. simpl.
  rewrite (chat_step_submit u clk1 s conv) by done.
  erewrite chat_step_fire by (simpl; by rewrite Hto).
  unfold conversationRow. simpl. rewrite !unread_snoc, Hms, Hcount, Hc. simpl.
  split; [lia|done].
Qed.

(** Claim C37. [getRandomReply] never yields [undefined]: whatever Number
    from 0 up to 1 [Math.random()] returns, the product with the number of
    replies, rounded as the multiplication of doubles rounds it, has a floor
    from 0 to 6, and the reply is the candidate at that index.  Every
    candidate is the reply for some value of [Math.random()]. *)
Theorem getRandomReply_in_replies random :
  is_random random →
  (∃ i r, Math_floor (mul random (of_nat (length replies))) = Some i ∧
     (0 ≤ i < 7)%Z ∧ replies !! Z.to_nat i = Some r ∧ getRandomReply random = Some r) ∧
  ∀ r, r ∈ replies → ∃ random', is_random random' ∧ getRandomReply random' = Some r.
Proof.
  intros Hr. split.
  - destruct (element_floor_random replies random Hr) as (i & Hi & Hrange); [done|].
    destruct (lookup_lt_is_Some_2 replies (Z.to_nat i)) as [r Hlk]; [lia|].
    exists i, r. unfold getRandomReply. rewrite Hi. simpl in *.
    by rewrite decide_True by lia.
  - intros r Hin. apply list_elem_of_lookup in Hin as [i Hi].
    exists (random_of (((2 * Z.of_nat i + 1) * 2 ^ 52) `div` 7)).
    do 7 (destruct i as [|i]; [split; [compute_done|by vm_compute in Hi |- *]|]). done.
Qed.

(** Claim C38. The conversation list keeps the order of the store, shows only
    conversations whose buddy exists and whose lower-cased name contains the
    lower-cased query, and can only shrink when the query is extended: what a
    query matches, every query contained in it matches. *)
Theorem filteredConversations_narrows q q' :
  filteredConversations q `sublist_of` mockConversations ∧
  (∀ conv, conv ∈ filteredConversations q ↔
     conv ∈ mockConversations ∧ ∃ b, getBuddy (c_participantId conv) = Some b ∧
       ∃ pre post, toLowerCase (b_name b) = pre +:+ toLowerCase q +:+ post) ∧
  (includes (toLowerCase q) (toLowerCase q') = true →
   filteredConversations q `sublist_of` filteredConversations q').
Proof.
  split_and!.
  - apply sublist_filter.
  - intros conv. rewrite elem_of_filteredConversations. unfold matchesSearch, getBuddy.
    destruct (List.find _ _) as [b|].
    + rewrite includes_spec. split; [intros [? ?]; eauto|intros [? (b' & ? & ?)]].
      by simplify_eq.
    + split; [by intros [? _]|by intros [_ (? & ? & _)]].
  - intros Hq. apply filter_sublist_impl. intros conv. rewrite !Is_true_true.
    unfold matchesSearch. destruct (List.find _ _); [|done].
    intros. by eapply includes_trans.
Qed.

(** An avatar is shown for a message exactly when it is not the
    user's own and it is the first of the list or follows one of the user's
    own: once at the start of each run of received messages. *)
Theorem bubble_showAvatar_spec msgs i m :
  msgs !! i = Some m →
  bub_showAvatar (bubble msgs i m) = true ↔
  sentByUser (Some m) = false ∧
  (i = 0 ∨ ∃ p, msgs !! (i - 1) = Some p ∧ sentByUser (Some p) = true).
Proof.
  intros Hm. simpl. rewrite andb_true_iff, negb_true_iff, orb_true_iff, bool_decide_eq_true.
  destruct i as [|i]; [split; intros [? _]; auto|].
  destruct (lookup_lt_is_Some_2 msgs (S i - 1)) as [p Hp].
  { apply lookup_lt_Some in Hm. lia. }
  rewrite Hp. split; (intros [? [?|Hprev]]; [done|split; [done|right]]).
  - by exists p.
  - by destruct Hprev as (p' & [= <-] & ?).
Qed.

(** The back button leaves both panes displayed below the medium breakpoint:
    the chat pane is hidden only when no conversation is selected, and going
    back does not clear the selection. *)
Lemma back_shows_both_panes s :
  is_Some (selectedConversation s) →
  let s' := chat_step ClickBack s in
  listPaneHidden s' = false ∧ chatPaneHidden s' = false ∧
  selectedConversation s' = selectedConversation s.
Proof.
  intros Hsel. simpl. rewrite chat_step_eq. unfold chatPaneHidden. simpl.
  by rewrite bool_decide_eq_true_2.
Qed.

(** *** The page against the store *)

(** The list of the page is the [listConversations] of the store as it was
    loaded, with the buddies' names as display names. *)
Lemma filteredConversations_listConversations q :
  filteredConversations q =
  ConversationStore.listConversations (λ id, b_name <$> getBuddy id) (Some q)
    (ConversationStore.mkStore mockConversations []).
Proof.
  unfold filteredConversations, ConversationStore.listConversations. simpl.
  apply list_filter_iff. intros conv. unfold matchesSearch, getBuddy.
  rewrite Is_true_true. by destruct (List.find _ mockBuddies).
Qed.

Lemma sim_init conv :
  NoDup (c_id <$> mockConversations) → conv ∈ mockConversations →
  sim conv 0 ChatPage_init (ConversationStore.mkStore mockConversations []).
Proof.
  intros Hn Hin. split; simpl; [done| |done|done]. exists conv.
  split_and!; [by apply ConversationStore.lookup_conversation_Some_2|done|lia|done..].
Qed.

(** A step that keeps the selection, the list and the queue keeps the
    relation with a store that is not commanded. *)
Lemma sim_ext conv n s s' st :
  sim conv n s st →
  selectedConversation s' = selectedConversation s → messages s' = messages s →
  timeouts s' = timeouts s → sim conv n s' st.
Proof. intros [Hsel Hst Hsch Hto] Hs Hm Ht. split; by rewrite ?Hs, ?Hm, ?Ht. Qed.

Lemma sim_step_click conv n s st :
  sim conv n s st → sim conv n (chat_step (ClickConversation conv) s) st.
Proof.
  intros Hsim. rewrite chat_step_eq. case_decide as Hc; [by eapply sim_ext|].
  destruct Hsim as [Hsel (c' & Hc' & Hp & Hu & Hlog) Hsch Hto].
  destruct (selectedConversation s) as [c|] eqn:Hs; [by rewrite (Hsel c) in Hc|].
  destruct Hlog as [Hlog Hts]. split; simpl; [by intros ? [= <-]| |done..].
  by exists c'.
Qed.

Lemma sim_step_submit conv n clk s st :
  sim conv n s st → chat_enabled (SubmitMessage clk) s →
  sim conv n (chat_step (SubmitMessage clk) s) (store_step (SubmitMessage clk) s st).
Proof.
  intros Hsim [[c Hc] Ht]. rewrite chat_step_eq. unfold store_step. rewrite Hc.
  destruct user as [u|] eqn:Hu; [|by unfold handleSendMessage; rewrite Ht, Hc, Hu].
  rewrite (handleSendMessage_Normal clk s c u) by done.
  destruct Hsim as [Hsel (c' & Hc' & Hp & Hn & Hlog) Hsch Hto].
  rewrite Hc in Hlog. rewrite (Hsel c Hc) in *.
  unfold ConversationStore.sendMessage. rewrite trim_idemp, Ht, Hc'. simpl.
  split; simpl; [done| |by rewrite fmap_app, Hsch|by apply Forall_app; auto].
  rewrite Hc. eexists.
  rewrite ConversationStore.lookup_scheduleReply, ConversationStore.lookup_update, Hc' by done.
  simpl.
  rewrite bool_decide_eq_true_2 by done. split_and!; [done..|]. simpl. by rewrite Hlog.
Qed.

Lemma sim_step_fire conv n clk random s st :
  sim conv n s st → chat_enabled (TimeoutFires clk random) s →
  sim conv (n + 1) (chat_step (TimeoutFires clk random) s)
    (store_step (TimeoutFires clk random) s st).
Proof.
  intros [Hsel (c' & Hc' & Hp & Hn & Hlog) Hsch Hto] He. simpl in He.
  destruct (timeouts s) as [|t ts] eqn:Hts; [done|].
  apply Forall_cons in Hto as [Ht Hto]. rewrite (chat_step_fire _ _ _ t ts Hts), Ht.
  destruct (selectedConversation s) as [c|] eqn:Hc; [|by destruct Hlog].
  unfold store_step, ConversationStore.deliver, ConversationStore.receiveMessage.
  rewrite Hsch. simpl. rewrite Ht, Hc'. simpl.
  split; simpl; rewrite ?Hts; simpl; [by rewrite Hc| |done..].
  eexists. rewrite ConversationStore.lookup_update by done.
  unfold ConversationStore.lookup_conversation in *. simpl. rewrite Hc'. simpl.
  rewrite bool_decide_eq_true_2, Hc by done. split_and!; [done|done|simpl; lia|].
  simpl. unfold replyMessage. by rewrite Hlog, Hp.
Qed.

(** One event of the page and the command it stands for. *)
Lemma sim_step conv n e s st :
  sim conv n s st → stays_in conv e → chat_enabled e s →
  sim conv (n + (if is_fire e then 1 else 0)) (chat_step e s) (store_step e s st).
Proof.
  intros Hsim Hstay He.
  destruct e as [v|v|c| |clk|clk r]; simpl in Hstay; cbn [is_fire];
    rewrite ?Nat.add_0_r; [..|by apply sim_step_submit|by apply sim_step_fire];
    try (by rewrite chat_step_eq; eapply sim_ext).
  subst c. by apply sim_step_click.
Qed.

Lemma sim_run conv es : ∀ n s st,
  sim conv n s st → Forall (stays_in conv) es → chat_enabled_all es s →
  sim conv (n + fires es) (run chat_step es s) (store_run es s st).
Proof.
  induction es as [|e es IH]; intros n s st Hsim Hstay Hen; simpl.
  { by rewrite Nat.add_0_r. }
  apply Forall_cons in Hstay as [He Hstay]. destruct Hen as [Hen Hens].
  replace (n + fires (e :: es)) with (n + (if is_fire e then 1 else 0) + fires es).
  - apply IH; [by apply sim_step|done..].
  - unfold fires. rewrite filter_cons. destruct (is_fire e); simpl; lia.
Qed.

(** The commands of the page keep the invariant of the design. *)
Lemma store_run_inv es : ∀ s st,
  ConversationStore.store_inv st → ConversationStore.store_inv (store_run es s st).
Proof.
  induction es as [|e es IH]; intros s st Hinv; [done|]. simpl. apply IH.
  destruct e as [v|v|c| |clk|clk r]; simpl; try done;
    [|by apply ConversationStore.deliver_inv].
  repeat case_match; try done. by eapply ConversationStore.sendMessage_inv.
Qed.

(** Claim C5. While the user stays in one conversation the page implements
    the store of the design: if every submit is taken for the [sendMessage]
    and every firing timeout for the delivery it stands for, the list the
    page shows is the log the store holds for that conversation and the
    pending timeouts are the replies the store has scheduled.  What the page
    does not implement is the counter: the store has counted every delivered
    reply as unread, and the row of the conversation still shows the badge
    and the preview of the conversation as it was loaded. *)
Theorem page_refines_store conv es :
  NoDup (c_id <$> mockConversations) → conv ∈ mockConversations →
  Forall (stays_in conv) es → chat_enabled_all es ChatPage_init →
  let s := run chat_step es ChatPage_init in
  let st := store_run es ChatPage_init (ConversationStore.mkStore mockConversations []) in
  ∃ c', ConversationStore.lookup_conversation (c_id conv) st = Some c' ∧
    (is_Some (selectedConversation s) → messages s = c_messages c') ∧
    ConversationStore.scheduled st = (λ t, c_id (to_conversation t)) <$> timeouts s ∧
    c_unreadCount c' = c_unreadCount conv + fires es ∧
    row_badge (conversationRow s conv) =
      (if bool_decide (0 < c_unreadCount conv) then Some (c_unreadCount conv) else None) ∧
    row_preview (conversationRow s conv) = m_content <$> last (c_messages conv).
Proof.
  intros Hn Hin Hstay Hen.
  destruct (sim_run conv es 0 _ _ (sim_init conv Hn Hin) Hstay Hen)
    as [_ (c' & Hc' & _ & Hu & Hlog) Hsch _].
  exists c'. split_and!; [done| |done..]. intros [c Hc]. by rewrite Hc in Hlog.
Qed.

(** *** Draining the queue *)

(** The timer events that deliver the pending replies, one clock reading and
    one random number for each. *)
Definition deliveries (rs : list (Clock * Number)) : list ChatEvent :=
  (λ cr, TimeoutFires cr.1 cr.2) <$> rs.

Lemma deliveries_drain rs s :
  length rs = length (timeouts s) →
  chat_enabled_all (deliveries rs) s ∧
  timeouts (run chat_step (deliveries rs) s) = [] ∧
  messages (run chat_step (deliveries rs) s) =
    messages s ++
    zip_with (λ t cr, replyMessage (to_conversation t) cr.1 cr.2) (timeouts s) rs.
Proof.
  revert s. induction rs as [|[clk r] rs IH]; intros s Hlen;
    destruct (timeouts s) as [|t ts] eqn:Hts; simplify_eq/=.
  { by rewrite app_nil_r. }
  pose proof (chat_step_fire clk r s t ts Hts) as Hs1.
  destruct (IH (chat_step (TimeoutFires clk r) s)) as (Hen & Hq & Hm).
  { by rewrite Hs1; simpl; rewrite Hts. }
  rewrite Hs1 in Hm at 2 3. simpl in Hm. rewrite Hts, <-(assoc_L (++)) in Hm.
  split_and!; [by rewrite Hts|done..].
Qed.

(** Claim C18. Every pending reply is eventually delivered: in every state a
    timer event is offered while a timeout is pending, and the run of as many
    timer events as there are pending timeouts is a run of the page that
    empties the queue and appends one reply per timeout, in the order of the
    sends, each authored by the participant of its send's conversation. *)
Theorem replies_eventually_delivered es0 s rs :
  chat_run es0 s → length rs = length (timeouts s) →
  let s' := run chat_step (deliveries rs) s in
  chat_run (es0 ++ deliveries rs) s' ∧ timeouts s' = [] ∧
  messages s' =
    messages s ++
    zip_with (λ t cr, replyMessage (to_conversation t) cr.1 cr.2) (timeouts s) rs.
Proof.
  intros Hrun Hlen. destruct (deliveries_drain rs s Hlen) as (Hen & Hq & Hm).
  split_and!; [by apply chat_run_exec|done..].
Qed.

(** The buttons of the page that do nothing: the three of the header and
    the three of the form beside the draft, shown with every selected
    conversation. *)
Lemma inert_chat_controls s :
  inert (controls s) =
  if bool_decide (is_Some (selectedConversation s))
  then ["Voice call"; "Video call"; "More options"; "Attach file"; "Send image"; "Add emoji"]
  else [].
Proof.
  unfold controls, searchControls, conversationControls, headerControls, formControls.
  autorewrite with offers. by case_bool_decide.
Qed.

(** Claim C19. The events the machine of the page accepts in a state are
    those the render of that state offers, and the firing of a pending
    timeout: an event of the user is enabled if and only if a control of the
    render raises it.  The draft, the back button and the form exist while a
    conversation is selected, the form is not submitted while its button is
    disabled, and the six buttons without a handler raise nothing. *)
Theorem controls_offer_chat_enabled s e :
  chat_enabled e s ↔
  offers (controls s) e ∨ ∃ clk random, e = TimeoutFires clk random ∧ timeouts s ≠ [].
Proof.
  unfold controls, searchControls, conversationControls, headerControls, formControls,
    sendDisabled. autorewrite with offers.
  rewrite bool_decide_eq_true. cbn [raises]. rewrite negb_false_iff.
  destruct e; cbn [chat_enabled]; offers_iff.
Qed.

End chat.

(** * Concrete instances

    The scenario of the specification: conversation [C1] with participant
    Maria and an empty log, a second conversation with one unread message, and
    the user ["me"]. *)

Definition sample_user : User :=
  {| u_id := "me"; u_firstName := "Juan"; u_points := 120; u_rank := "Kapitbahay" |}.

Definition sample_maria : Buddy :=
  {| b_id := "b1"; b_name := "Maria Santos"; b_status := "online";
     b_location := Some "Quezon City"; b_phone := "0917 000 0001";
     b_skills := Some ["First Aid"]; b_checkInCount := 3 |}.

Definition sample_pedro : Buddy :=
  {| b_id := "b2"; b_name := "Pedro Cruz"; b_status := "away";
     b_location := None; b_phone := "0917 000 0002";
     b_skills := None; b_checkInCount := 0 |}.

Definition sample_buddies : list Buddy := [sample_maria; sample_pedro].

Definition sample_C1 : Conversation :=
  {| c_id := "C1"; c_participantId := "b1"; c_messages := [];
     c_lastMessageAt := "2024-01-15T08:00:00.000Z"; c_unreadCount := 0 |}.

Definition sample_C2 : Conversation :=
  {| c_id := "C2"; c_participantId := "b2";
     c_messages := [ {| m_id := "m1"; m_senderId := "b2"; m_content := "Magandang umaga!";
                        m_timestamp := "2024-01-14T07:30:00.000Z"; m_read := false |} ];
     c_lastMessageAt := "2024-01-14T07:30:00.000Z"; c_unreadCount := 1 |}.

Definition sample_conversations : list Conversation := [sample_C1; sample_C2].

Definition sample_clk1 : Clock := {| now := 1700000000000; date := 1700000000000 |}.
Definition sample_clk2 : Clock := {| now := 1700000001500; date := 1700000001501 |}.

(** Maria's conversation selected, ["  Kumusta? "] typed. *)
Definition sample_typed : ChatState :=
  run (chat_step (Some sample_user))
    [ClickConversation sample_C1; ChangeMessage "  Kumusta? "] ChatPage_init.

Definition sample_events : list ChatEvent :=
  [ ClickConversation sample_C1; ChangeMessage "  Kumusta? "; SubmitMessage sample_clk1;
    ChangeSearch "ped"; ClickConversation sample_C2; TimeoutFires sample_clk2 (random_of 4000000000000000);
    ClickBack ].

Lemma sample_events_enabled :
  chat_enabled_all sample_conversations sample_buddies (Some sample_user)
    sample_events ChatPage_init.
Proof. compute_done. Defined.

Lemma sample_events_run :
  chat_run sample_conversations sample_buddies (Some sample_user) sample_events
    (run (chat_step (Some sample_user)) sample_events ChatPage_init).
Proof. apply (chat_run_exec _ _ _ [] _ sample_events); [constructor|apply sample_events_enabled]. Defined.

(** The scenario of the specification, computed: after the send the list has
    one message, read; after the timeout it has two, the second authored by
    Maria and unread. *)
Example scenario_kumusta :
  let s1 := chat_step (Some sample_user) (SubmitMessage sample_clk1) sample_typed in
  let s2 := chat_step (Some sample_user) (TimeoutFires sample_clk2 (random_of 4000000000000000)) s1 in
  messages s1 =
    [ {| m_id := "msg-1700000000000"; m_senderId := "me"; m_content := "Kumusta?";
         m_timestamp := "2023-11-14T22:13:20.000Z"; m_read := true |} ] ∧
  unread (messages s1) = 0 ∧ newMessage s1 = "" ∧
  messages s2 = messages s1 ++
    [ {| m_id := "msg-1700000001500-reply"; m_senderId := "b1";
         m_content := "That sounds good! Let me check.";
         m_timestamp := "2023-11-14T22:13:21.501Z"; m_read := false |} ] ∧
  unread (messages s2) = 1 ∧ timeouts s2 = [].
Proof. vm_compute. done. Qed.

Lemma chat_reachable_inv_witness :
  chat_inv sample_conversations
    (run (chat_step (Some sample_user)) sample_events ChatPage_init).
Proof.
  apply (chat_reachable_inv sample_conversations sample_buddies (Some sample_user)).
  exists sample_events. apply sample_events_run.
Defined.

Lemma timeouts_accounting_witness :
  length (timeouts (run (chat_step (Some sample_user)) sample_events ChatPage_init)) +
  fires sample_events = submits sample_events.
Proof.
  apply (timeouts_accounting sample_conversations sample_buddies (Some sample_user) sample_user);
    [reflexivity|apply sample_events_run].
Defined.

Lemma sample_events_enabled_no_user :
  chat_enabled_all sample_conversations sample_buddies None
    [ClickConversation sample_C1; ChangeMessage "Kumusta?"; SubmitMessage sample_clk1]
    ChatPage_init.
Proof. compute_done. Defined.

Lemma no_user_no_send_witness :
  let s := run (chat_step None)
    [ClickConversation sample_C1; ChangeMessage "Kumusta?"; SubmitMessage sample_clk1]
    ChatPage_init in
  timeouts s = [] ∧ messages s = from_option c_messages [] (selectedConversation s).
Proof.
  apply (no_user_no_send sample_conversations sample_buddies None
           [ClickConversation sample_C1; ChangeMessage "Kumusta?"; SubmitMessage sample_clk1]);
    [reflexivity|].
  apply (chat_run_exec _ _ _ [] _ _ (lts_run_init _ _ _) sample_events_enabled_no_user).
Defined.

Lemma handleSendMessage_rejects_witness :
  handleSendMessage (Some sample_user) sample_clk1
    (setNewMessage "   " sample_typed) = Normal (setNewMessage "   " sample_typed).
Proof. apply handleSendMessage_rejects. right. reflexivity. Defined.

Lemma handleSendMessage_sends_witness :
  ∃ s' m, handleSendMessage (Some sample_user) sample_clk1 sample_typed = Normal s' ∧
    messages s' = messages sample_typed ++ [m] ∧ last (messages s') = Some m ∧
    m_content m = trim (newMessage sample_typed) ∧ m_senderId m = u_id sample_user ∧
    m_read m = true ∧ newMessage s' = "" ∧
    timeouts s' = timeouts sample_typed ++ [mkTimeout sample_C1 1500] ∧
    unread (messages s') = unread (messages sample_typed) ∧
    selectedConversation s' = Some sample_C1 ∧ searchQuery s' = searchQuery sample_typed.
Proof. apply handleSendMessage_sends; reflexivity. Defined.

Lemma timeout_delivers_oldest_witness :
  let s := chat_step (Some sample_user) (SubmitMessage sample_clk1) sample_typed in
  let s' := chat_step (Some sample_user) (TimeoutFires sample_clk2 (random_of 0)) s in
  let m := replyMessage sample_C1 sample_clk2 (random_of 0) in
  messages s' = messages s ++ [m] ∧ timeouts s' = [] ∧
  m_senderId m = c_participantId sample_C1 ∧ m_read m = false ∧
  unread (messages s') = S (unread (messages s)) ∧
  selectedConversation s' = selectedConversation s.
Proof.
  apply (timeout_delivers_oldest (Some sample_user) sample_clk2 (random_of 0) _ (mkTimeout sample_C1 1500) []).
  reflexivity.
Defined.

Lemma messages_append_only_witness :
  messages sample_typed `prefix_of`
  messages (chat_step (Some sample_user) (SubmitMessage sample_clk1) sample_typed).
Proof. apply messages_append_only. intros conv Hconv. discriminate Hconv. Defined.

Lemma reply_lands_in_other_conversation_witness :
  let s' := run (chat_step (Some sample_user))
    [SubmitMessage sample_clk1; ClickConversation sample_C2; TimeoutFires sample_clk2 (random_of 0)]
    sample_typed in
  selectedConversation s' = Some sample_C2 ∧
  messages s' = c_messages sample_C2 ++ [replyMessage sample_C1 sample_clk2 (random_of 0)] ∧
  m_senderId (replyMessage sample_C1 sample_clk2 (random_of 0)) = c_participantId sample_C1.
Proof.
  apply (reply_lands_in_other_conversation (Some sample_user) sample_user);
    [reflexivity|reflexivity|discriminate|reflexivity|reflexivity].
Defined.

Lemma sent_message_lost_on_switch_witness :
  let s' := run (chat_step (Some sample_user))
    [SubmitMessage sample_clk1; ClickConversation sample_C2; ClickConversation sample_C1]
    sample_typed in
  selectedConversation s' = Some sample_C1 ∧ messages s' = c_messages sample_C1 ∧
  timeouts s' = timeouts sample_typed ++ [mkTimeout sample_C1 1500].
Proof.
  apply (sent_message_lost_on_switch (Some sample_user) sample_user);
    [reflexivity|reflexivity|discriminate|reflexivity].
Defined.

Lemma unread_badge_not_updated_witness :
  let s' := run (chat_step (Some sample_user))
    [SubmitMessage sample_clk1; TimeoutFires sample_clk2 (random_of 0)] sample_typed in
  unread (messages s') = S (c_unreadCount sample_C1) ∧
  conversationRow sample_buddies s' sample_C1 =
  conversationRow sample_buddies sample_typed sample_C1.
Proof.
  apply (unread_badge_not_updated sample_buddies (Some sample_user) sample_user);
    reflexivity.
Defined.

Lemma page_refines_store_witness :
  let es := [ClickConversation sample_C1; ChangeMessage "  Kumusta? ";
             SubmitMessage sample_clk1; TimeoutFires sample_clk2 (random_of 0)] in
  ∃ c', ConversationStore.lookup_conversation "C1"
          (store_run (Some sample_user) es ChatPage_init
             (ConversationStore.mkStore sample_conversations [])) = Some c' ∧
        c_unreadCount c' = 1 ∧ ConversationStore.unread_of c' = 1.
Proof.
  intros es.
  destruct (page_refines_store sample_conversations sample_buddies (Some sample_user)
    sample_C1 es) as (c' & Hc' & _ & _ & Hu & _); [compute_done..|].
  exists c'. split_and!; [done..|].
  assert (ConversationStore.store_inv
    (store_run (Some sample_user) es ChatPage_init
       (ConversationStore.mkStore sample_conversations []))) as [_ Hinv _].
  { apply store_run_inv. split; simpl; [compute_done|by repeat constructor|done]. }
  apply ConversationStore.lookup_conversation_Some in Hc' as [Hin _].
  eapply Forall_forall in Hinv; [|done]. by rewrite <-Hinv.
Defined.

Lemma getRandomReply_in_replies_witness :
  ∃ i r, Math_floor (mul (random_of 7720456504063707) (of_nat (length replies))) =
           Some i ∧
    (0 ≤ i < 7)%Z ∧ replies !! Z.to_nat i = Some r ∧
    getRandomReply (random_of 7720456504063707) = Some r.
Proof.
  apply (getRandomReply_in_replies (random_of 7720456504063707)).
  compute_done.
Defined.

(** The reply the rounded product chooses where the exact product would
    choose the one before it. *)
Example getRandomReply_rounded :
  getRandomReply (random_of 7720456504063707) = replies !! 6 ∧
  replies !! Z.to_nat ((7720456504063707 * 7) `div` 2 ^ 53) = replies !! 5.
Proof. by vm_compute. Qed.

Lemma filteredConversations_narrows_witness :
  filteredConversations sample_conversations sample_buddies "MARIA" `sublist_of`
  filteredConversations sample_conversations sample_buddies "Ma".
Proof.
  apply (filteredConversations_narrows sample_conversations sample_buddies "MARIA" "Ma").
  reflexivity.
Defined.

Lemma bubble_showAvatar_spec_witness :
  bub_showAvatar (bubble (Some sample_user) (c_messages sample_C2) 0
    {| m_id := "m1"; m_senderId := "b2"; m_content := "Magandang umaga!";
       m_timestamp := "2024-01-14T07:30:00.000Z"; m_read := false |}) = true.
Proof.
  apply (bubble_showAvatar_spec (Some sample_user) (c_messages sample_C2) 0);
    [reflexivity|]. split; [reflexivity|by left].
Defined.

Lemma back_shows_both_panes_witness :
  let s' := chat_step (Some sample_user) ClickBack sample_typed in
  listPaneHidden s' = false ∧ chatPaneHidden s' = false ∧
  selectedConversation s' = selectedConversation sample_typed.
Proof. apply back_shows_both_panes. by eexists. Defined.

Lemma replies_eventually_delivered_witness :
  let s := run (chat_step (Some sample_user))
             [ClickConversation sample_C1; ChangeMessage "Kumusta?"; SubmitMessage sample_clk1;
              ChangeMessage "Nandiyan ka ba?"; SubmitMessage sample_clk2] ChatPage_init in
  timeouts (run (chat_step (Some sample_user))
              (deliveries [(sample_clk2, random_of 0); (sample_clk2, random_of 1)]) s) = [].
Proof.
  intros s.
  refine (proj1 (proj2 (replies_eventually_delivered sample_conversations sample_buddies
    (Some sample_user) _ s [(sample_clk2, random_of 0); (sample_clk2, random_of 1)] _ eq_refl))).
  apply (chat_run_exec _ _ _ [] _ _ (lts_run_init _ _ _)). compute_done.
Defined.

(** A conversation whose participant is not among the buddies gets a header
    without initial, name and status. *)
Example sample_chatArea :
  chatArea sample_buddies (Some sample_user) ChatPage_init = EmptyState ∧
  chatHeader sample_buddies sample_C1 =
    mkChatHeader (charAt0 (b_name sample_maria)) true
      (Some (b_name sample_maria)) (Some "online") ∧
  chatHeader [] sample_C1 = mkChatHeader None false None None.
Proof. by vm_compute. Qed.

End ChatPage.
