(* ===== verification/Wiring.v ===== *)
(** * Wiring: the store's events in the notification feed

    The design document wires its components: a message the Conversation
    Store receives is an event the Notification Aggregator consumes (its
    sections 2 and 4.1), each store references the other by identifier only,
    and each keeps an unread counter of its own.  The sources have the
    aggregator ([Notification]) and no wiring: the chat page never calls
    [addNotification].

    This file states the wiring as a [System] of the design's store
    ([Store]) and the feed of the sources, with the commands of both and the
    delivery that notifies.  It proves how the two unread counters relate,
    what runs of commands leave in the logs (interleaved sends, deletion
    and the replies scheduled before it), and compares the wired system
    with what the sources do: the page and the provider side by side, with
    no event of the page reaching the feed. *)

From S2P Require Import Prelude JsString JsDate JsNumber Types Notification Store Chat.

#[local] Open Scope js_scope.

Import ConversationStore.

(** ** The wired system *)

Record System := mkSystem {
  sys_store : Store;
  sys_feed : list Notification;
}.

(** The notification of a received message: its payload is the identifier
    of the conversation, a reference by lookup. *)
Definition new_message (conversationId : string) : NotificationInput :=
  {| ni_category := "message"; ni_payload := conversationId |}.

(** The oldest scheduled reply fires.  The store receives the message, and
    the event reaches the feed if the conversation is still there. *)
Definition deliver_notify (content id timestamp : string) (clk : Clock)
    (sys : System) : System :=
  match scheduled (sys_store sys) with
  | [] => sys
  | conversationId :: _ =>
      mkSystem (deliver content id timestamp (sys_store sys))
        (match lookup_conversation conversationId (sys_store sys) with
         | Some _ => addNotification clk (new_message conversationId) (sys_feed sys)
         | None => sys_feed sys
         end)
  end.

(** The commands of the presentation adapter, and the firing of the
    simulator. *)
Inductive Command :=
| Send (conversationId authorId content id timestamp : string)
| Deliver (content id timestamp : string) (clk : Clock)
| ReadConversation (conversationId : string)
| Delete (conversationId : string)
| Feed (a : NotificationAction).

Definition system_step (c : Command) (sys : System) : System :=
  match c with
  | Send conversationId authorId content id timestamp =>
      match sendMessage conversationId authorId content id timestamp (sys_store sys) with
      | inr (_, st) => mkSystem st (sys_feed sys)
      | inl _ => sys
      end
  | Deliver content id timestamp clk => deliver_notify content id timestamp clk sys
  | ReadConversation conversationId =>
      mkSystem (markConversationRead conversationId (sys_store sys)) (sys_feed sys)
  | Delete conversationId =>
      mkSystem (deleteConversation conversationId (sys_store sys)) (sys_feed sys)
  | Feed a => mkSystem (sys_store sys) (notification_step a (sys_feed sys))
  end.

(** The unread messages the store counts, over all conversations. *)
Definition total_unread (st : Store) : nat :=
  sum_list (c_unreadCount <$> conversations st).

(** A command that reads nothing: a send or a delivery. *)
Definition writes_only (c : Command) : bool :=
  match c with Send _ _ _ _ _ | Deliver _ _ _ _ => true | _ => false end.

(** A command that leaves the feed to the store: anything but a command of
    the feed. *)
Definition store_side (c : Command) : bool :=
  match c with Feed _ => false | _ => true end.

(** ** The logs along a run *)

(** The log of a conversation; a store that does not hold it shows none. *)
Definition log_of (id : string) (st : Store) : list Message :=
  from_option c_messages [] (lookup_conversation id st).

Definition is_send (c : Command) : bool :=
  match c with Send _ _ _ _ _ => true | _ => false end.

(** What a send appends to the log of the conversation [id]: its message,
    when it is addressed to [id] and its content is not blank. *)
Definition sent_to (id : string) (c : Command) : list Message :=
  match c with
  | Send conversationId authorId content mid timestamp =>
      if decide (conversationId = id ∧ truthy (trim content) = true)
      then [mkMessage mid authorId content timestamp true] else []
  | _ => []
  end.

(** The notifications of a feed that refer to the conversation [id]. *)
Definition notifications_of (id : string) (ns : list Notification) : list Notification :=
  filter (λ n, n_input n = new_message id) ns.

(** ** The sources against the wiring *)

(** The application as the sources have it: the chat page and the provider
    of the feed side by side, each with its own events. *)
Record Application := mkApp {
  app_page : ChatPage.ChatState;
  app_feed : list Notification;
}.

Inductive AppEvent :=
| PageEvent (e : ChatPage.ChatEvent)
| ProviderAction (a : NotificationAction).

Definition app_step (user : option User) (e : AppEvent) (app : Application) : Application :=
  match e with
  | PageEvent e => mkApp (ChatPage.chat_step user e (app_page app)) (app_feed app)
  | ProviderAction a => mkApp (app_page app) (notification_step a (app_feed app))
  end.

(** The command of the wired system an event of the page stands for: those
    of [ChatPage.store_step], the delivery being the one that notifies. *)
Definition wired_step (user : option User) (e : ChatPage.ChatEvent)
    (s : ChatPage.ChatState) (sys : System) : System :=
  match e with
  | ChatPage.TimeoutFires clk random =>
      deliver_notify (default "" (ChatPage.getRandomReply random))
        ("msg-" +:+ toString (now clk) +:+ "-reply") (toISOString (date clk)) clk sys
  | _ => mkSystem (ChatPage.store_step user e s (sys_store sys)) (sys_feed sys)
  end.

Fixpoint wired_run (user : option User) (es : list ChatPage.ChatEvent)
    (s : ChatPage.ChatState) (sys : System) : System :=
  match es with
  | [] => sys
  | e :: es => wired_run user es (ChatPage.chat_step user e s) (wired_step user e s sys)
  end.

(** How far the feed's counter is ahead of the store's. *)
Definition lead (sys : System) : Z :=
  Z.of_nat (unreadCount (sys_feed sys)) - Z.of_nat (total_unread (sys_store sys)).

(** * Lemmas *)

Section wiring_lemmas.
Implicit Types (st : Store) (sys : System) (c : Conversation) (cs : list Conversation).

Lemma update_absent id f cs : Forall (λ c, c_id c ≠ id) cs → update id f cs = cs.
Proof.
  intros Hcs. unfold update. rewrite <-(list_fmap_id cs) at 2.
  apply Forall_fmap_ext_1. eapply Forall_impl; [done|]. intros c Hc.
  by rewrite bool_decide_eq_false_2.
Qed.

(** Replacing one conversation changes the total by its counter. *)
Lemma sum_update id f cs c :
  NoDup (c_id <$> cs) → c ∈ cs → c_id c = id →
  sum_list (c_unreadCount <$> update id f cs) + c_unreadCount c =
  sum_list (c_unreadCount <$> cs) + c_unreadCount (f c).
Proof.
  intros Hnd Hin Hid. induction cs as [|a cs IH]; [by apply elem_of_nil in Hin|].
  rewrite fmap_cons in Hnd. apply NoDup_cons in Hnd as [Ha Hnd].
  apply elem_of_cons in Hin as [->|Hin]; simpl.
  - rewrite bool_decide_eq_true_2 by done. fold (update id f cs).
    rewrite update_absent; [lia|]. apply Forall_forall. intros c' Hc' Heq.
    apply Ha, list_elem_of_fmap. exists c'. by rewrite Hid, Heq.
  - rewrite bool_decide_eq_false_2.
    + fold (update id f cs). specialize (IH Hnd Hin). unfold fmap in IH. lia.
    + intros Heq. apply Ha, list_elem_of_fmap. exists c. by rewrite Hid, Heq.
Qed.

Lemma total_unread_update id f st sched c :
  NoDup (c_id <$> conversations st) → lookup_conversation id st = Some c →
  total_unread (mkStore (update id f (conversations st)) sched) + c_unreadCount c =
  total_unread st + c_unreadCount (f c).
Proof.
  intros Hnd [Hin Hid]%lookup_conversation_Some. by apply sum_update.
Qed.

Lemma total_unread_update_None id f st sched :
  lookup_conversation id st = None →
  total_unread (mkStore (update id f (conversations st)) sched) = total_unread st.
Proof.
  intros Hc. unfold total_unread. simpl. rewrite update_absent; [done|].
  apply Forall_forall. by apply lookup_conversation_None.
Qed.

Lemma total_unread_delete id st : total_unread (deleteConversation id st) ≤ total_unread st.
Proof.
  unfold total_unread. simpl. induction (conversations st) as [|c cs IH]; [done|].
  rewrite filter_cons. case_decide; rewrite ?fmap_cons; simpl; unfold fmap in *; lia.
Qed.

(** Unread notifications in front of a feed count one each. *)
Lemma unreadCount_app_unread new ns :
  Forall (λ n, n_isRead n = false) new →
  unreadCount (new ++ ns) = length new + unreadCount ns.
Proof.
  intros Hnew. unfold unreadCount. rewrite filter_app, length_app. f_equal.
  induction Hnew as [|n new Hn _ IH]; [done|].
  rewrite filter_cons, Hn. simpl. by rewrite IH.
Qed.

(** ** The commands one by one *)

Lemma system_step_inv cmd sys :
  store_inv (sys_store sys) → store_inv (sys_store (system_step cmd sys)).
Proof.
  intros Hinv. destruct cmd; simpl.
  - destruct (sendMessage _ _ _ _ _ _) as [|[m st]] eqn:Hsend; [done|].
    by eapply sendMessage_inv.
  - unfold deliver_notify. destruct (scheduled _) eqn:Hs; [done|]. simpl.
    by apply deliver_inv.
  - by apply markConversationRead_inv.
  - by apply deleteConversation_inv.
  - done.
Qed.

(** A send counts nothing. *)
Lemma sendMessage_total conversationId authorId content id timestamp st m st' :
  NoDup (c_id <$> conversations st) →
  sendMessage conversationId authorId content id timestamp st = inr (m, st') →
  total_unread st' = total_unread st.
Proof.
  intros Hnd. unfold sendMessage. case_match; [done|].
  destruct (lookup_conversation _ _) as [c|] eqn:Hc; intros [= <- <-].
  pose proof (total_unread_update conversationId
    (λ c, set_lastMessageAt timestamp (append (mkMessage id authorId content timestamp true) c))
    st (scheduled st) c Hnd Hc) as Ht.
  unfold scheduleReply, total_unread in *. simpl in *. lia.
Qed.

(** A delivery counts one message, unless it is stale. *)
Lemma deliver_total content id timestamp st conversationId rest :
  NoDup (c_id <$> conversations st) → scheduled st = conversationId :: rest →
  total_unread (deliver content id timestamp st) =
  total_unread st +
  match lookup_conversation conversationId st with Some _ => 1 | None => 0 end.
Proof.
  intros Hnd Hs. unfold deliver. rewrite Hs.
  destruct (lookup_conversation _ _) as [c|] eqn:Hc; [|by rewrite Nat.add_0_r].
  pose proof (total_unread_update conversationId
    (λ c', set_unreadCount (S (c_unreadCount c'))
             (append (mkMessage id (c_participantId c) content timestamp false) c'))
    st rest c Hnd Hc) as Ht.
  unfold receiveMessage, total_unread in *. simpl in *. lia.
Qed.

(** A send leaves both counters; a delivery raises both, or neither if it
    is stale. *)
Lemma lead_writes_only cmd sys :
  store_inv (sys_store sys) → writes_only cmd = true →
  lead (system_step cmd sys) = lead sys.
Proof.
  intros [Hnd _ _] Hcmd. destruct cmd; try done; simpl.
  - destruct (sendMessage _ _ _ _ _ _) as [|[m st]] eqn:Hsend; [done|].
    unfold lead. simpl. by rewrite (sendMessage_total _ _ _ _ _ _ _ _ Hnd Hsend).
  - unfold deliver_notify. destruct (scheduled _) as [|cid rest] eqn:Hs; [done|].
    unfold lead. simpl. rewrite (deliver_total _ _ _ _ cid rest) by done.
    destruct (lookup_conversation cid _); simpl; [|lia].
    unfold addNotification, unreadCount. simpl. lia.
Qed.

(** A command of the store never lets its counter gain on the feed's. *)
Lemma lead_store_side cmd sys :
  store_inv (sys_store sys) → store_side cmd = true →
  (lead sys ≤ lead (system_step cmd sys))%Z.
Proof.
  intros Hinv Hcmd. destruct cmd; try done.
  1,2: by rewrite lead_writes_only.
  - destruct Hinv as [Hnd _ _]. unfold lead. simpl.
    destruct (lookup_conversation conversationId (sys_store sys)) as [c|] eqn:Hc.
    + pose proof (total_unread_update conversationId read_all (sys_store sys)
        (scheduled (sys_store sys)) c Hnd Hc) as Ht.
      unfold markConversationRead. simpl in Ht. lia.
    + unfold markConversationRead. rewrite total_unread_update_None by done. lia.
  - unfold lead. simpl. pose proof (total_unread_delete conversationId (sys_store sys)). lia.
Qed.

End wiring_lemmas.

(** ** The testable properties of the design, over runs *)

Section runs.
Implicit Types (sys : System) (cmd : Command) (id : string).

(** A send read back: the message is the last of its conversation, with the
    content and the author given, and has set the time of the last
    message. *)
Lemma sendMessage_read_back conversationId authorId content id timestamp st m st' :
  sendMessage conversationId authorId content id timestamp st = inr (m, st') →
  m_content m = content ∧ m_senderId m = authorId ∧
  ∃ c', lookup_conversation conversationId st' = Some c' ∧
    last (c_messages c') = Some m ∧ c_lastMessageAt c' = timestamp.
Proof.
  unfold sendMessage. case_match; [done|].
  destruct (lookup_conversation conversationId st) as [c|] eqn:Hc; intros [= <- <-].
  split_and!; [done..|]. rewrite lookup_scheduleReply, lookup_update, Hc by done. simpl.
  rewrite bool_decide_eq_true_2 by done. eexists. split; [done|]. simpl.
  by rewrite last_snoc.
Qed.

(** A send appends its message to the conversation it addresses and leaves
    every other log as it was. *)
Lemma send_log id cmd sys :
  is_send cmd = true → is_Some (lookup_conversation id (sys_store sys)) →
  is_Some (lookup_conversation id (sys_store (system_step cmd sys))) ∧
  log_of id (sys_store (system_step cmd sys)) = log_of id (sys_store sys) ++ sent_to id cmd.
Proof.
  intros Hsend [c Hc]. destruct cmd as [cid authorId content mid timestamp| | | |]; try done.
  unfold log_of. simpl. unfold sendMessage.
  destruct (truthy (trim content)) eqn:Ht; simpl;
    [|rewrite Hc, decide_False, app_nil_r by (by intros [_ ?]); eauto].
  destruct (lookup_conversation cid _) as [c'|] eqn:Hc'; simpl.
  - rewrite lookup_scheduleReply, lookup_update, Hc by done. simpl.
    case_bool_decide; case_decide as Hd; simplify_eq/=; rewrite ?app_nil_r;
      first [by eauto|destruct Hd; by simplify_eq].
  - rewrite Hc, decide_False, app_nil_r; [eauto|]. intros [-> _]. congruence.
Qed.

(** No command creates a conversation. *)
Lemma system_step_absent id cmd sys :
  lookup_conversation id (sys_store sys) = None →
  lookup_conversation id (sys_store (system_step cmd sys)) = None.
Proof.
  intros Hid. destruct cmd as [cid authorId content mid timestamp|content mid timestamp clk|cid|cid|a];
    simpl; [| | | |done].
  - unfold sendMessage. repeat case_match; simplify_eq/=; try done.
    by rewrite lookup_scheduleReply, lookup_update, Hid.
  - unfold deliver_notify, deliver. repeat case_match; simplify_eq/=; try done.
    unfold receiveMessage. simpl. by rewrite lookup_update, Hid.
  - unfold markConversationRead. by rewrite lookup_update, Hid.
  - apply lookup_conversation_None. intros c [_ Hin]%list_elem_of_filter.
    by eapply lookup_conversation_None.
Qed.

(** A delivery notifies for a conversation of the store only. *)
Lemma system_step_notifications id cmd sys :
  lookup_conversation id (sys_store sys) = None → store_side cmd = true →
  notifications_of id (sys_feed (system_step cmd sys)) = notifications_of id (sys_feed sys).
Proof.
  intros Hid Hcmd. destruct cmd as [? ? ? ? ?|content mid timestamp clk| | |]; simpl; try done.
  - by repeat case_match.
  - unfold deliver_notify. destruct (scheduled _) as [|cid rest]; [done|]. simpl.
    destruct (lookup_conversation cid _) eqn:Hcid; [|done].
    unfold notifications_of, addNotification. rewrite filter_cons_False; [done|].
    simpl. intros [= ->]. congruence.
Qed.

End runs.

(** ** The page's events in the wired system *)

Section sources.
Context (mockConversations : list Conversation) (mockBuddies : list Buddy).
Context (user : option User).

#[local] Abbreviation enabled := (ChatPage.chat_enabled mockConversations mockBuddies).
#[local] Abbreviation enabled_all :=
  (ChatPage.chat_enabled_all mockConversations mockBuddies user).

(** The store of the wired system is the store the page was compared with. *)
Lemma wired_step_store e s sys :
  sys_store (wired_step user e s sys) = ChatPage.store_step user e s (sys_store sys).
Proof.
  destruct e; try done. simpl. unfold deliver_notify, deliver.
  by destruct (scheduled (sys_store sys)).
Qed.

Lemma wired_run_store es : ∀ s sys,
  sys_store (wired_run user es s sys) = ChatPage.store_run user es s (sys_store sys).
Proof.
  induction es as [|e es IH]; intros s sys; [done|]. simpl.
  by rewrite IH, wired_step_store.
Qed.

(** No event of the page reaches the provider. *)
Lemma app_run_page es app :
  run (app_step user) (PageEvent <$> es) app =
  mkApp (run (ChatPage.chat_step user) es (app_page app)) (app_feed app).
Proof.
  revert app. induction es as [|e es IH]; intros app; [by destruct app|].
  rewrite fmap_cons, !run_cons, IH. done.
Qed.

(** A firing timeout of a user who has stayed in one conversation notifies:
    the reply is scheduled for that conversation, which the store holds. *)
Lemma wired_step_feed conv n e s sys :
  ChatPage.sim conv n s (sys_store sys) → enabled e s →
  sys_feed (wired_step user e s sys) =
  match e with
  | ChatPage.TimeoutFires clk _ => addNotification clk (new_message (c_id conv)) (sys_feed sys)
  | _ => sys_feed sys
  end.
Proof.
  intros [_ (c' & Hc' & _) Hsch Hto] He. destruct e as [| | | | |clk random]; try done.
  simpl in *. unfold deliver_notify. rewrite Hsch.
  destruct (ChatPage.timeouts s) as [|t ts]; [done|].
  apply Forall_cons in Hto as [Ht _]. rewrite fmap_cons, Ht. simpl. by rewrite Hc'.
Qed.

Lemma wired_run_feed conv es : ∀ n s sys,
  ChatPage.sim conv n s (sys_store sys) → Forall (ChatPage.stays_in conv) es →
  enabled_all es s →
  ∃ new, sys_feed (wired_run user es s sys) = new ++ sys_feed sys ∧
    length new = ChatPage.fires es ∧
    Forall (λ n, n_input n = new_message (c_id conv) ∧ n_isRead n = false) new.
Proof.
  induction es as [|e es IH]; intros n s sys Hsim Hstay Hen; [by exists []|].
  apply Forall_cons in Hstay as [He Hstay]. destruct Hen as [Hen Hens]. simpl.
  destruct (IH (n + (if ChatPage.is_fire e then 1 else 0)) (ChatPage.chat_step user e s)
    (wired_step user e s sys)) as (new & -> & Hlen & Hnew); [|done..|].
  { rewrite wired_step_store. by eapply ChatPage.sim_step. }
  rewrite (wired_step_feed conv n) by done. unfold ChatPage.fires. rewrite filter_cons.
  destruct e as [| | | | |clk random]; simpl;
    try (by exists new); fold (ChatPage.fires es).
  exists (new ++ [newNotification clk (new_message (c_id conv))]).
  rewrite <-app_assoc, length_app, Forall_app, Forall_singleton. simpl.
  split_and!; [done|lia|done..].
Qed.

End sources.

(** * Properties *)

(** Claim C12. The two unread counters of the design.  Along every run of
    the wired system the store keeps its invariant.  While nothing is read
    the counters move in step: over a run of sends and deliveries the feed
    gains exactly the unread notifications that the store gains unread
    messages, a stale delivery counting on neither side.  Reading or
    deleting a conversation lowers the store's counter only, so over a run of
    commands of the store the feed's counter never falls behind. *)
Theorem counters_in_step cmds sys :
  store_inv (sys_store sys) →
  let sys' := run system_step cmds sys in
  store_inv (sys_store sys') ∧
  (Forall (λ cmd, writes_only cmd = true) cmds →
   unreadCount (sys_feed sys') + total_unread (sys_store sys) =
   unreadCount (sys_feed sys) + total_unread (sys_store sys')) ∧
  (Forall (λ cmd, store_side cmd = true) cmds →
   unreadCount (sys_feed sys) + total_unread (sys_store sys') ≤
   unreadCount (sys_feed sys') + total_unread (sys_store sys)).
Proof.
  intros Hinv. simpl. split_and!.
  - by apply (run_invariant system_step (λ s, store_inv (sys_store s)) system_step_inv).
  - intros Hcmds.
    pose proof (run_preorder_where system_step (λ s s', lead s = lead s')
      (PreOrder0 := measure_preorder eq lead) _ _ system_step_inv
      (λ cmd s Hc Hs, eq_sym (lead_writes_only cmd s Hs Hc)) cmds sys Hcmds Hinv) as H.
    unfold lead in H. lia.
  - intros Hcmds.
    pose proof (run_preorder_where system_step (λ s s', (lead s ≤ lead s')%Z)
      (PreOrder0 := measure_preorder Z.le lead) _ _ system_step_inv
      (λ cmd s Hc Hs, lead_store_side cmd s Hs Hc) cmds sys Hcmds Hinv) as H.
    unfold lead in H. lia.
Qed.

(** ** Runs of commands *)

Section runs_of_commands.
Implicit Types (sys : System) (cmds : list Command) (id : string).

Lemma run_sends_log id cmds : ∀ sys,
  Forall (λ cmd, is_send cmd = true) cmds →
  is_Some (lookup_conversation id (sys_store sys)) →
  log_of id (sys_store (run system_step cmds sys)) =
  log_of id (sys_store sys) ++ (cmds ≫= sent_to id).
Proof.
  induction cmds as [|cmd cmds IH]; intros sys Hsends Hid; [by rewrite app_nil_r|].
  apply Forall_cons in Hsends as [Hsend Hsends].
  destruct (send_log id cmd sys Hsend Hid) as [Hid' Hlog].
  by rewrite run_cons, IH, Hlog, bind_cons, app_assoc.
Qed.

(** The sends that are addressed elsewhere, or are rejected, add nothing. *)
Lemma sent_to_filter id cmds :
  filter (λ cmd, sent_to id cmd ≠ []) cmds ≫= sent_to id = cmds ≫= sent_to id.
Proof.
  induction cmds as [|cmd cmds IH]; [done|]. rewrite filter_cons, bind_cons.
  case_decide as Hcmd; [by rewrite bind_cons, IH|].
  by rewrite Hcmd, IH.
Qed.

Lemma run_absent id cmds : ∀ sys,
  lookup_conversation id (sys_store sys) = None →
  lookup_conversation id (sys_store (run system_step cmds sys)) = None ∧
  (Forall (λ cmd, store_side cmd = true) cmds →
   notifications_of id (sys_feed (run system_step cmds sys)) =
   notifications_of id (sys_feed sys)).
Proof.
  induction cmds as [|cmd cmds IH]; intros sys Hid; [done|]. rewrite run_cons.
  destruct (IH (system_step cmd sys) (system_step_absent id cmd sys Hid)) as [Hid' Hfeed].
  split; [done|]. intros [Hcmd Hcmds]%Forall_cons.
  by rewrite Hfeed, system_step_notifications.
Qed.

End runs_of_commands.

(** Interleaved sends.  Over a run of sends the log of a conversation grows
    by the messages sent to it, in the order of the sends, whatever is sent
    to the other conversations in between: it is the log of the run with
    those sends left out. *)
Theorem sends_interleaved id cmds sys :
  Forall (λ cmd, is_send cmd = true) cmds →
  is_Some (lookup_conversation id (sys_store sys)) →
  log_of id (sys_store (run system_step cmds sys)) =
    log_of id (sys_store sys) ++ (cmds ≫= sent_to id) ∧
  log_of id (sys_store (run system_step cmds sys)) =
    log_of id (sys_store (run system_step (filter (λ cmd, sent_to id cmd ≠ []) cmds) sys)).
Proof.
  intros Hsends Hid. rewrite !run_sends_log, sent_to_filter; auto using Forall_filter.
Qed.

(** Cancellation.  After a conversation is deleted no command brings it
    back, and no delivery notifies for it: a reply that was scheduled for it
    fires into nothing. *)
Theorem delete_cancels id cmds sys :
  let sys' := run system_step cmds (system_step (Delete id) sys) in
  lookup_conversation id (sys_store sys') = None ∧
  (Forall (λ cmd, store_side cmd = true) cmds →
   notifications_of id (sys_feed sys') = notifications_of id (sys_feed sys)).
Proof.
  apply (run_absent id cmds (system_step (Delete id) sys)). simpl.
  apply lookup_conversation_None. by intros c [? _]%list_elem_of_filter.
Qed.

(** Claim C11. The source against the design's wiring.  In the sources no
    event of the chat page reaches the provider: over any run of page events
    the feed and its counter stay as they were.  In the design a received
    message is an event for the feed: had the page's handlers been wired as
    the design says, the store would be the one the page is compared with,
    and the feed would hold in front, unread, one message notification
    naming the conversation for every reply delivered, so its counter would
    be ahead of the sources' by the number of timeouts fired. *)
Theorem page_never_notifies mockConversations mockBuddies user conv es feed :
  NoDup (c_id <$> mockConversations) → conv ∈ mockConversations →
  Forall (ChatPage.stays_in conv) es →
  ChatPage.chat_enabled_all mockConversations mockBuddies user es ChatPage.ChatPage_init →
  let app := run (app_step user) (PageEvent <$> es) (mkApp ChatPage.ChatPage_init feed) in
  let sys := wired_run user es ChatPage.ChatPage_init
               (mkSystem (mkStore mockConversations []) feed) in
  app_page app = run (ChatPage.chat_step user) es ChatPage.ChatPage_init ∧
  app_feed app = feed ∧
  sys_store sys =
    ChatPage.store_run user es ChatPage.ChatPage_init (mkStore mockConversations []) ∧
  (∃ new, sys_feed sys = new ++ feed ∧ length new = ChatPage.fires es ∧
     Forall (λ n, n_input n = new_message (c_id conv) ∧ n_isRead n = false) new) ∧
  unreadCount (sys_feed sys) = ChatPage.fires es + unreadCount (app_feed app).
Proof.
  intros Hn Hin Hstay Hen app sys. subst app sys. rewrite app_run_page, wired_run_store.
  destruct (wired_run_feed mockConversations mockBuddies user conv es 0
    ChatPage.ChatPage_init (mkSystem (mkStore mockConversations []) feed))
    as (new & Hnew & Hlen & Hall); [by apply ChatPage.sim_init|done..|].
  split_and!; [done..|by exists new|]. simpl in *.
  rewrite Hnew, unreadCount_app_unread, Hlen; [done|].
  by eapply Forall_impl; [done|intros ? [_ ?]].
Qed.

(** * Witnesses and examples *)

Lemma page_never_notifies_witness :
  let es := [ChatPage.ClickConversation ChatPage.sample_C1;
             ChatPage.ChangeMessage "  Kumusta? ";
             ChatPage.SubmitMessage ChatPage.sample_clk1;
             ChatPage.TimeoutFires ChatPage.sample_clk2 (random_of 0)] in
  app_feed (run (app_step (Some ChatPage.sample_user)) (PageEvent <$> es)
              (mkApp ChatPage.ChatPage_init [])) = [] ∧
  unreadCount (sys_feed (wired_run (Some ChatPage.sample_user) es ChatPage.ChatPage_init
              (mkSystem (mkStore ChatPage.sample_conversations []) []))) = 1.
Proof.
  intros es.
  destruct (page_never_notifies ChatPage.sample_conversations ChatPage.sample_buddies
    (Some ChatPage.sample_user) ChatPage.sample_C1 es [])
    as (_ & Hfeed & _ & _ & Hcount);
    [compute_done..|by repeat constructor
    |simpl; split_and!; first [done|by eexists|compute_done]|].
  split; [exact Hfeed|]. etrans; [exact Hcount|]. by rewrite Hfeed.
Defined.

(** The scenario of the design: [C1] has the participant [Maria] and an empty
    log; a message is sent and the reply delivered. *)
Definition sample_C1 : Conversation :=
  {| c_id := "C1"; c_participantId := "Maria"; c_messages := [];
     c_lastMessageAt := "2026-03-01T08:00:00.000Z"; c_unreadCount := 0 |}.

Definition sample_system : System := mkSystem (mkStore [sample_C1] []) [].

Definition sample_commands : list Command :=
  [Send "C1" "me" "Kumusta?" "m1" "2026-03-01T08:00:01.000Z";
   Deliver "Mabuti naman!" "m2" "2026-03-01T08:00:02.500Z" Notification.sample_clock].

Lemma sample_system_inv : store_inv (sys_store sample_system).
Proof. split; simpl; [compute_done| |done]. by repeat constructor. Qed.

Lemma counters_in_step_witness :
  unreadCount (sys_feed (run system_step sample_commands sample_system)) +
    total_unread (sys_store sample_system) =
  unreadCount (sys_feed sample_system) +
    total_unread (sys_store (run system_step sample_commands sample_system)).
Proof.
  refine (proj1 (proj2 (counters_in_step sample_commands sample_system sample_system_inv)) _).
  by repeat constructor.
Defined.

Example scenario_maria :
  let sys := run system_step sample_commands sample_system in
  (λ c, m_senderId <$> c_messages c) <$> lookup_conversation "C1" (sys_store sys) =
    Some ["me"; "Maria"] ∧
  total_unread (sys_store sys) = 1 ∧ unreadCount (sys_feed sys) = 1 ∧
  (n_input <$> sys_feed sys) = [new_message "C1"].
Proof. by vm_compute. Qed.

(** Reading the conversation resets the store's counter and leaves the
    notification unread; deleting it leaves a notification that refers to no
    conversation; a reply scheduled before the deletion never fires. *)
Example scenario_read_and_delete :
  let sys := run system_step (sample_commands ++ [ReadConversation "C1"]) sample_system in
  let sys' := run system_step
    [Send "C1" "me" "Nandiyan ka pa?" "m3" "2026-03-01T08:01:00.000Z"; Delete "C1";
     Deliver "Oo!" "m4" "2026-03-01T08:01:01.500Z" Notification.sample_clock_later] sys in
  total_unread (sys_store sys) = 0 ∧ unreadCount (sys_feed sys) = 1 ∧
  sys_store sys' = mkStore [] [] ∧ sys_feed sys' = sys_feed sys ∧
  selectConversation "C1" (sys_store sys') = inl NotFoundError.
Proof. by vm_compute. Qed.

(** Sends to two conversations, interleaved: each log holds its own messages
    in the order they were sent, and the blank send is in neither. *)
Example scenario_interleaved :
  let C2 := {| c_id := "C2"; c_participantId := "Jose"; c_messages := [];
               c_lastMessageAt := "2026-03-01T07:00:00.000Z"; c_unreadCount := 0 |} in
  let sys := run system_step
    [Send "C1" "me" "Kumusta?" "m1" "2026-03-01T08:00:01.000Z";
     Send "C2" "me" "Nasaan ka?" "m2" "2026-03-01T08:00:02.000Z";
     Send "C2" "me" "   " "m3" "2026-03-01T08:00:03.000Z";
     Send "C1" "me" "Ingat!" "m4" "2026-03-01T08:00:04.000Z"]
    (mkSystem (mkStore [sample_C1; C2] []) []) in
  m_id <$> log_of "C1" (sys_store sys) = ["m1"; "m4"] ∧
  m_id <$> log_of "C2" (sys_store sys) = ["m2"] ∧
  scheduled (sys_store sys) = ["C1"; "C2"; "C1"].
Proof. by vm_compute. Qed.
