(* ===== verification/Json.v ===== *)
(** * Json: JSON values, [JSON.stringify] and [JSON.parse]

    [services/api.ts] sends [JSON.stringify] of its arguments and reads what
    the server answers with [response.json()] and [JSON.parse].  This file
    holds the values both sides exchange, the operations of ECMAScript the
    service applies to them (truthiness, [a || b], property access) and an
    executable printer and parser, with the proof that parsing the text of
    a value gives the value back ([JSON_parse_stringify]) and that the fuel
    [JSON_parse] runs with is enough for every text ([JSON_parse_fuel]).

    Scope of the model: a number is an integer (the service sends counts,
    points and identifiers, and inspects no number it receives); a string has
    code units below 256.  The parser rejects a number literal with a
    fraction or an exponent and a [\u] escape above 255, which ECMAScript
    accepts: such texts are outside the model.  An object is the list of its
    properties in the order written; where a name occurs twice the last
    occurrence is the property, as [JSON.parse] has it. *)

From S2P Require Import Prelude JsString.
From Stdlib Require Import Ascii.

#[local] Arguments String.append !_ _ / : simpl nomatch.
#[local] Open Scope js_scope.

(** ** Values *)

#[local] Unset Elimination Schemes.
Inductive Json : Type :=
| JNull
| JBool (b : bool)
| JNumber (n : Z)
| JString (s : string)
| JArray (items : list Json)
| JObject (props : list (string * Json)).
#[local] Set Elimination Schemes.

(** Induction on a value, with the hypothesis for every element of an array
    and every property of an object. *)
Section Json_ind.
Context (P : Json → Prop).
Context (Hnull : P JNull) (Hbool : ∀ b, P (JBool b)) (Hnumber : ∀ n, P (JNumber n))
  (Hstring : ∀ s, P (JString s))
  (Harray : ∀ items, Forall P items → P (JArray items))
  (Hobject : ∀ props, Forall (λ p, P p.2) props → P (JObject props)).

Fixpoint Json_ind (v : Json) : P v :=
  match v with
  | JNull => Hnull
  | JBool b => Hbool b
  | JNumber n => Hnumber n
  | JString s => Hstring s
  | JArray items =>
      Harray items
        ((fix go l : Forall P l :=
            match l with
            | [] => Forall_nil_2 P
            | x :: l => Forall_cons_2 P x l (Json_ind x) (go l)
            end) items)
  | JObject props =>
      Hobject props
        ((fix go l : Forall (λ p, P p.2) l :=
            match l with
            | [] => Forall_nil_2 _
            | (k, x) :: l => Forall_cons_2 (λ p, P p.2) (k, x) l (Json_ind x) (go l)
            end) props)
  end.

End Json_ind.

(** The number of values in a value. *)
Fixpoint json_size (v : Json) : nat :=
  match v with
  | JArray items => S (sum_list (map json_size items))
  | JObject props => S (sum_list (map (λ p, json_size p.2) props))
  | _ => 1
  end.

(** A value of JavaScript that came from JSON, or [undefined]. *)
Definition JsValue : Type := option Json.

(** ToBoolean: [null], [false], [0], the empty string and [undefined] are
    falsy, every array and object is truthy. *)
Definition truthy_js (v : Json) : bool :=
  match v with
  | JNull => false
  | JBool b => b
  | JNumber n => negb (n =? 0)%Z
  | JString s => truthy s
  | JArray _ | JObject _ => true
  end.

(** [typeof v === 'string'] *)
Definition is_string (v : Json) : bool :=
  match v with JString _ => true | _ => false end.

(** [a || b] *)
Definition or_js (a b : JsValue) : JsValue :=
  match a with
  | Some v => if truthy_js v then a else b
  | None => b
  end.

Infix "||ⱼ" := or_js (at level 50, left associativity) : js_scope.

(** The property [k] of an object: the last one written under that name. *)
Definition own_property (k : string) (props : list (string * Json)) : JsValue :=
  snd <$> last (filter (λ p, p.1 = k) props).

(** [v.k] for a name [k] that no prototype defines (such as [detail] and
    [message]): reading a property of [null] throws a TypeError, a primitive
    or an array has no such property. *)
Definition get_prop (v : Json) (k : string) : Completion JsValue :=
  match v with
  | JNull => Throw "TypeError: Cannot read properties of null"
  | JObject props => Normal (own_property k props)
  | _ => Normal None
  end.

(** [try { body } catch { handler }] *)
Definition try_catch {A} (body : Completion A) (handler : A) : A :=
  match body with Normal a => a | Throw _ => handler end.

(** ** Printing *)

Definition dquote : ascii := "034"%char.
Definition backslash : ascii := "092"%char.

Definition hex_digit (n : N) : ascii :=
  ascii_of_N (if (n <? 10)%N then 48 + n else 87 + n).

(** QuoteJSONString on one code unit: the quote, the backslash and the
    control characters are escaped, the others stand for themselves. *)
Definition escape_char (c : ascii) : string :=
  match N_of_ascii c with
  | 34 => String backslash (String dquote "")
  | 92 => String backslash (String backslash "")
  | 8 => String backslash "b"
  | 12 => String backslash "f"
  | 10 => String backslash "n"
  | 13 => String backslash "r"
  | 9 => String backslash "t"
  | n => if (n <? 32)%N
         then String backslash
                (String "u" (String "0" (String "0"
                  (String (hex_digit (n `div` 16)) (String (hex_digit (n `mod` 16)) "")))))
         else String c ""
  end%N.

Fixpoint escape (s : string) : string :=
  match s with
  | "" => ""
  | String c s => escape_char c +:+ escape s
  end.

Definition quote (s : string) : string :=
  String dquote (escape s +:+ String dquote "").

Fixpoint join_commas (l : list string) : string :=
  match l with
  | [] => ""
  | [s] => s
  | s :: l => s +:+ "," +:+ join_commas l
  end.

(** [JSON.stringify(v)]: no white space, the properties in their order. *)
Fixpoint JSON_stringify (v : Json) : string :=
  match v with
  | JNull => "null"
  | JBool true => "true"
  | JBool false => "false"
  | JNumber n => pretty n
  | JString s => quote s
  | JArray items => "[" +:+ join_commas (map JSON_stringify items) +:+ "]"
  | JObject props =>
      "{" +:+ join_commas (map (λ p, quote p.1 +:+ ":" +:+ JSON_stringify p.2) props) +:+ "}"
  end.

(** ** Parsing *)

(** JSON white space: TAB, LF, CR and SP. *)
Definition is_json_ws (c : ascii) : bool :=
  match N_of_ascii c with
  | 9 | 10 | 13 | 32 => true
  | _ => false
  end%N.

Fixpoint skip_ws (s : string) : string :=
  match s with
  | String c s' => if is_json_ws c then skip_ws s' else s
  | "" => ""
  end.

Definition is_digit (c : ascii) : bool :=
  (48 <=? N_of_ascii c)%N && (N_of_ascii c <=? 57)%N.

Definition hex_value (c : ascii) : option N :=
  let n := N_of_ascii c in
  if (48 <=? n)%N && (n <=? 57)%N then Some (n - 48)%N
  else if (97 <=? n)%N && (n <=? 102)%N then Some (n - 87)%N
  else if (65 <=? n)%N && (n <=? 70)%N then Some (n - 55)%N
  else None.

(** The code unit a one-letter escape stands for. *)
Definition unescape (e : ascii) : option ascii :=
  match N_of_ascii e with
  | 34 => Some dquote
  | 92 => Some backslash
  | 47 => Some "/"%char
  | 98 => Some "008"%char
  | 102 => Some "012"%char
  | 110 => Some "010"%char
  | 114 => Some "013"%char
  | 116 => Some "009"%char
  | _ => None
  end%N.

(** The four hex digits of a [\u] escape, as a code unit below 256. *)
Definition unescape_u (h1 h2 h3 h4 : ascii) : option ascii :=
  a ← hex_value h1; b ← hex_value h2; c ← hex_value h3; d ← hex_value h4;
  if decide (a = 0 ∧ b = 0)%N then Some (ascii_of_N (16 * c + d)) else None.

(** The characters of a string literal after its opening quote, up to the
    closing quote, and what follows it. *)
Fixpoint parse_chars (s : string) : option (string * string) :=
  match s with
  | "" => None
  | String c rest =>
      if decide (c = dquote) then Some ("", rest)
      else if decide (c = backslash) then
        match rest with
        | String e rest' =>
            if decide (e = "u"%char) then
              match rest' with
              | String h1 (String h2 (String h3 (String h4 rest''))) =>
                  c' ← unescape_u h1 h2 h3 h4;
                  '(str, r) ← parse_chars rest'';
                  Some (String c' str, r)
              | _ => None
              end
            else
              c' ← unescape e;
              '(str, r) ← parse_chars rest';
              Some (String c' str, r)
        | "" => None
        end
      else if (N_of_ascii c <? 32)%N then None
      else '(str, r) ← parse_chars rest; Some (String c str, r)
  end.

Fixpoint parse_digits (acc : N) (s : string) : N * string :=
  match s with
  | String c s' =>
      if is_digit c then parse_digits (10 * acc + (N_of_ascii c - 48)) s' else (acc, s)
  | "" => (acc, "")
  end%N.

(** What may follow the integer part of a number of the model: anything but
    a fraction or an exponent. *)
Definition ends_number (s : string) : bool :=
  match s with
  | String c _ => negb (bool_decide (c = "."%char ∨ c = "e"%char ∨ c = "E"%char))
  | "" => true
  end.

(** An unsigned integer literal: [0], or a digit other than [0] followed by
    digits. *)
Definition parse_unsigned (s : string) : option (N * string) :=
  match s with
  | String c rest =>
      if decide (c = "0"%char) then guard (ends_number rest);; Some (0%N, rest)
      else if is_digit c then
        let '(n, rest') := parse_digits 0 s in guard (ends_number rest');; Some (n, rest')
      else None
  | "" => None
  end.

Definition parse_number (s : string) : option (Z * string) :=
  match s with
  | String c rest =>
      if decide (c = "-"%char)
      then '(n, r) ← parse_unsigned rest; Some (- Z.of_N n, r)%Z
      else '(n, r) ← parse_unsigned s; Some (Z.of_N n, r)
  | "" => None
  end.

(** [strip_prefix p s] is what follows [p] in [s]. *)
Fixpoint strip_prefix (p s : string) : option string :=
  match p, s with
  | "", _ => Some s
  | String a p', String b s' => if decide (a = b) then strip_prefix p' s' else None
  | _, "" => None
  end.

(** [expect c s] is what follows the character [c] at the head of [s]. *)
Definition expect (c : ascii) (s : string) : option string :=
  match s with
  | String c' r => if decide (c' = c) then Some r else None
  | "" => None
  end.

(** The elements of an array after the first bracket, one value then a comma
    or the closing bracket.  [p] parses one value. *)
Fixpoint parse_elements (p : string → option (Json * string)) (fuel : nat) (s : string)
    : option (list Json * string) :=
  match fuel with
  | 0 => None
  | S fuel =>
      '(v, rest) ← p s;
      match expect "," (skip_ws rest) with
      | Some rest' => '(vs, r) ← parse_elements p fuel rest'; Some (v :: vs, r)
      | None => r ← expect "]" (skip_ws rest); Some ([v], r)
      end
  end.

(** One member of an object: a string literal, a colon and a value. *)
Definition parse_member (p : string → option (Json * string)) (s : string)
    : option ((string * Json) * string) :=
  rest ← expect dquote (skip_ws s);
  '(k, rest') ← parse_chars rest;
  rest'' ← expect ":" (skip_ws rest');
  '(v, r) ← p rest'';
  Some ((k, v), r).

Fixpoint parse_members (p : string → option (Json * string)) (fuel : nat) (s : string)
    : option (list (string * Json) * string) :=
  match fuel with
  | 0 => None
  | S fuel =>
      '(m, rest) ← parse_member p s;
      match expect "," (skip_ws rest) with
      | Some rest' => '(ms, r) ← parse_members p fuel rest'; Some (m :: ms, r)
      | None => r ← expect "}" (skip_ws rest); Some ([m], r)
      end
  end.

(** One value and what follows it.  [fuel] bounds the depth of nesting and
    the number of elements of an array or object. *)
Fixpoint parse_value (fuel : nat) (s : string) : option (Json * string) :=
  match fuel with
  | 0 => None
  | S fuel =>
      match skip_ws s with
      | String c rest =>
          if decide (c = dquote) then
            '(str, r) ← parse_chars rest; Some (JString str, r)
          else if decide (c = "["%char) then
            match expect "]" (skip_ws rest) with
            | Some r => Some (JArray [], r)
            | None => '(items, r) ← parse_elements (parse_value fuel) fuel rest;
                      Some (JArray items, r)
            end
          else if decide (c = "{"%char) then
            match expect "}" (skip_ws rest) with
            | Some r => Some (JObject [], r)
            | None => '(props, r) ← parse_members (parse_value fuel) fuel rest;
                      Some (JObject props, r)
            end
          else if decide (c = "n"%char) then r ← strip_prefix "ull" rest; Some (JNull, r)
          else if decide (c = "t"%char) then r ← strip_prefix "rue" rest; Some (JBool true, r)
          else if decide (c = "f"%char) then r ← strip_prefix "alse" rest; Some (JBool false, r)
          else '(n, r) ← parse_number (String c rest); Some (JNumber n, r)
      | "" => None
      end
  end.

(** [JSON.parse(text)]: one value with white space around it, [None] for a
    SyntaxError.  Every value consumes a character, so the length of the text
    is fuel enough. *)
Definition JSON_parse (text : string) : option Json :=
  '(v, rest) ← parse_value (S (String.length text)) text;
  guard (skip_ws rest = "");; Some v.

(** ** Round trip: what the proofs speak of *)

(** What may follow a value inside a text: the end, a comma or a closing
    bracket. *)
Definition follows_value (s : string) : bool :=
  match s with
  | String c _ => bool_decide (c = ","%char ∨ c = "]"%char ∨ c = "}"%char)
  | "" => true
  end.

(** The text of a member. *)
Definition member_text (p : string * Json) : string :=
  quote p.1 +:+ ":" +:+ JSON_stringify p.2.

(** What [parse_value] must do on the text of [v]: read [v] and leave what
    follows, given fuel for the size of [v]. *)
Definition parses (v : Json) : Prop :=
  ∀ fuel rest, json_size v ≤ fuel → follows_value rest = true →
    parse_value fuel (JSON_stringify v +:+ rest) = Some (v, rest).

(** A parser that leaves less text than it was given, whenever it succeeds. *)
Definition shrinks {A} (p : string → option (A * string)) : Prop :=
  ∀ s v r, p s = Some (v, r) → String.length r < String.length s.

(** ** Numbers *)

Lemma follows_value_cases s :
  follows_value s = true →
  s = "" ∨ ∃ c r, s = String c r ∧ (c = ","%char ∨ c = "]"%char ∨ c = "}"%char).
Proof. destruct s as [|c r]; [by left|]. simpl. intros ?%bool_decide_eq_true. right. eauto. Qed.

Lemma follows_value_skip_ws s : follows_value s = true → skip_ws s = s.
Proof. by intros [->|(c & r & -> & [->|[->| ->]])]%follows_value_cases. Qed.

Lemma follows_value_ends_number s : follows_value s = true → ends_number s = true.
Proof. by intros [->|(c & r & -> & [->|[->| ->]])]%follows_value_cases. Qed.

Lemma parse_digits_stop acc s : follows_value s = true → parse_digits acc s = (acc, s).
Proof. by intros [->|(c & r & -> & [->|[->| ->]])]%follows_value_cases. Qed.

Lemma pretty_N_char_digit d :
  (d < 10)%N →
  is_digit (pretty_N_char d) = true ∧ (N_of_ascii (pretty_N_char d) - 48)%N = d.
Proof.
  intros Hd.
  assert (d = 0 ∨ d = 1 ∨ d = 2 ∨ d = 3 ∨ d = 4 ∨ d = 5 ∨ d = 6 ∨ d = 7 ∨ d = 8 ∨ d = 9)%N
    as Hcases by lia.
  by destruct_or!; subst.
Qed.

Lemma pretty_N_go_app x s rest : pretty_N_go x s +:+ rest = pretty_N_go x (s +:+ rest).
Proof.
  revert s. induction (N.lt_wf_0 x) as [x _ IH]; intros s.
  destruct (decide (x = 0)%N) as [->|]; [by rewrite !pretty_N_go_0|].
  rewrite (pretty_N_go_step x s), (pretty_N_go_step x (s +:+ rest)) by lia.
  rewrite IH; [done|]. apply N.div_lt; lia.
Qed.

Lemma parse_digits_pretty x :
  ∃ k, ∀ acc s, parse_digits acc (pretty_N_go x s) = parse_digits (acc * 10 ^ k + x) s.
Proof.
  induction (N.lt_wf_0 x) as [x _ IH].
  destruct (decide (x = 0)%N) as [->|].
  { exists 0%N. intros acc s. rewrite pretty_N_go_0. f_equal. lia. }
  destruct (IH (x `div` 10)%N) as [k Hk]; [apply N.div_lt; lia|].
  exists (N.succ k). intros acc s.
  destruct (pretty_N_char_digit (x `mod` 10)%N) as [Hd Hv]; [by apply N.mod_lt|].
  rewrite pretty_N_go_step, Hk by lia. simpl. rewrite Hd, Hv. f_equal.
  rewrite N.pow_succ_r'. pose proof (N.div_mod x 10). lia.
Qed.

Lemma pretty_N_go_head x s :
  (0 < x)%N →
  ∃ c r, pretty_N_go x s = String c r ∧ is_digit c = true ∧ c ≠ "0"%char.
Proof.
  revert s. induction (N.lt_wf_0 x) as [x _ IH]; intros s Hx.
  rewrite pretty_N_go_step by done.
  destruct (decide (x `div` 10 = 0)%N) as [Hdiv|].
  - rewrite Hdiv, pretty_N_go_0. eexists _, _; split; [done|].
    assert (x < 10)%N by (by apply N.div_small_iff in Hdiv).
    rewrite N.mod_small by done.
    assert (x = 1 ∨ x = 2 ∨ x = 3 ∨ x = 4 ∨ x = 5 ∨ x = 6 ∨ x = 7 ∨ x = 8 ∨ x = 9)%N
      as Hcases by lia.
    by destruct_or!; subst.
  - apply IH; [apply N.div_lt; lia|by apply N.neq_0_lt_0].
Qed.

Lemma parse_unsigned_pretty x rest :
  (0 < x)%N → follows_value rest = true →
  parse_unsigned (pretty_N_go x rest) = Some (x, rest).
Proof.
  intros Hx Hrest. destruct (pretty_N_go_head x rest Hx) as (c & r & Heq & Hd & Hc).
  destruct (parse_digits_pretty x) as [k Hk].
  unfold parse_unsigned. rewrite Heq. rewrite decide_False, Hd, <-Heq, Hk by done.
  rewrite parse_digits_stop by done. simpl. by rewrite follows_value_ends_number.
Qed.

Lemma parse_number_pretty (n : Z) rest :
  follows_value rest = true → parse_number (pretty n +:+ rest) = Some (n, rest).
Proof.
  intros Hrest. destruct n as [|p|p]; unfold pretty, pretty_Z, pretty, pretty_positive,
    pretty, pretty_N; simpl.
  - by rewrite follows_value_ends_number.
  - rewrite pretty_N_go_app. simpl.
    destruct (pretty_N_go_head (N.pos p) rest) as (c & r & Heq & Hd & _); [done|].
    unfold parse_number. rewrite Heq. rewrite decide_False by (by intros ->).
    rewrite <-Heq, parse_unsigned_pretty by done. done.
  - rewrite pretty_N_go_app. simpl. by rewrite parse_unsigned_pretty.
Qed.

(** The head of the text of a number is a digit or the sign. *)
Lemma pretty_Z_head (n : Z) rest :
  ∃ c r, pretty n +:+ rest = String c r ∧ (is_digit c = true ∨ c = "-"%char).
Proof.
  destruct n as [|p|p]; unfold pretty, pretty_Z, pretty, pretty_positive, pretty, pretty_N;
    simpl; [by eauto| |by eauto].
  rewrite pretty_N_go_app.
  destruct (pretty_N_go_head (N.pos p) ("" +:+ rest) eq_refl) as (c & r & -> & Hd & _); eauto.
Qed.

(** ** Strings *)

Lemma parse_chars_escape_char c tail :
  parse_chars (escape_char c +:+ tail) =
  '(str, r) ← parse_chars tail; Some (String c str, r).
Proof. destruct c as [[] [] [] [] [] [] [] []]; reflexivity. Qed.

Lemma parse_chars_escape s rest :
  parse_chars (escape s +:+ String dquote rest) = Some (s, rest).
Proof.
  induction s as [|c s IH]; [done|].
  simpl escape. by rewrite app_assoc_s, parse_chars_escape_char, IH.
Qed.

Lemma quote_app s rest :
  quote s +:+ rest = String dquote (escape s +:+ String dquote rest).
Proof. unfold quote. simpl. by rewrite app_assoc_s. Qed.

(** ** Values *)

Lemma json_size_pos v : 1 ≤ json_size v.
Proof. destruct v; simpl; lia. Qed.

Lemma skip_ws_head c s : is_json_ws c = false → skip_ws (String c s) = String c s.
Proof. simpl. by intros ->. Qed.

(** A digit or a sign is no white space and selects the number branch of
    [parse_value]. *)
Lemma number_head c :
  is_digit c = true ∨ c = "-"%char →
  is_json_ws c = false ∧ c ≠ "]"%char ∧
  Forall (λ d, c ≠ d) [dquote; "["; "{"; "n"; "t"; "f"]%char.
Proof.
  intros Hc. split_and!; [|intros ->; by destruct Hc|].
  - destruct Hc as [Hc| ->]; [|done]. unfold is_digit, is_json_ws in *.
    destruct (N_of_ascii c) as [|p]; [done|].
    do 7 (destruct p as [p|p|]; try done).
  - repeat constructor; intros ->; by destruct Hc.
Qed.

Lemma parse_value_number fuel c r :
  is_digit c = true ∨ c = "-"%char →
  parse_value (S fuel) (String c r) =
  '(n, r') ← parse_number (String c r); Some (JNumber n, r').
Proof.
  intros (Hws & _ & Hc)%number_head. cbn [parse_value]. rewrite skip_ws_head by done.
  rewrite !Forall_cons in Hc. destruct Hc as (?&?&?&?&?&?&_).
  by rewrite !decide_False by done.
Qed.

(** The text of a value begins with a character that is no white space and
    no closing bracket. *)
Lemma stringify_head v rest :
  ∃ c r, JSON_stringify v +:+ rest = String c r ∧ is_json_ws c = false ∧ c ≠ "]"%char.
Proof.
  destruct v as [|[]|n|s|items|props]; simpl; try by eauto.
  destruct (pretty_Z_head n rest) as (c & r & -> & Hc).
  apply number_head in Hc as (? & ? & _). eauto.
Qed.

Lemma parse_elements_stringify fuel n items rest :
  items ≠ [] → Forall parses items →
  sum_list (map json_size items) ≤ n → n ≤ fuel →
  parse_elements (parse_value fuel) n
    (join_commas (map JSON_stringify items) +:+ String "]" rest) = Some (items, rest).
Proof.
  intros Hne Hitems. revert n.
  induction Hitems as [|v items Hv _ IH]; [done|].
  pose proof (json_size_pos v). intros [|n] Hsize Hn; simpl in Hsize; [lia|].
  destruct items as [|v' items].
  - simpl. rewrite Hv by (done || lia). simpl. done.
  - change (join_commas (map JSON_stringify (v :: v' :: items)))
      with (JSON_stringify v +:+ "," +:+ join_commas (map JSON_stringify (v' :: items))).
    rewrite !app_assoc_s. cbn [parse_elements]. rewrite Hv by (done || lia). simpl.
    rewrite IH by (done || lia). done.
Qed.

Lemma expect_head c c' s : c' ≠ c → expect c (String c' s) = None.
Proof. intros. simpl. by rewrite decide_False. Qed.

Lemma elements_head v items tail :
  ∃ c r, join_commas (map JSON_stringify (v :: items)) +:+ tail = String c r ∧
         is_json_ws c = false ∧ c ≠ "]"%char.
Proof.
  destruct items as [|v' items]; [apply stringify_head|].
  change (join_commas (map JSON_stringify (v :: v' :: items)))
    with (JSON_stringify v +:+ "," +:+ join_commas (map JSON_stringify (v' :: items))).
  rewrite app_assoc_s. apply stringify_head.
Qed.

Lemma parse_member_stringify fuel k v tail :
  parses v → json_size v ≤ fuel → follows_value tail = true →
  parse_member (parse_value fuel) (member_text (k, v) +:+ tail) = Some ((k, v), tail).
Proof.
  intros Hv Hsize Htail. unfold member_text, parse_member. simpl fst; simpl snd.
  rewrite !app_assoc_s, quote_app. rewrite skip_ws_head by done. simpl expect.
  cbn [mbind option_bind]. rewrite parse_chars_escape. simpl. by rewrite Hv.
Qed.

Lemma parse_members_stringify fuel n props rest :
  props ≠ [] → Forall (λ p, parses p.2) props →
  sum_list (map (λ p, json_size p.2) props) ≤ n → n ≤ fuel →
  parse_members (parse_value fuel) n
    (join_commas (map member_text props) +:+ String "}" rest) = Some (props, rest).
Proof.
  intros Hne Hprops. revert n.
  induction Hprops as [|[k v] props Hv _ IH]; [done|].
  pose proof (json_size_pos v). intros [|n] Hsize Hn; simpl in Hsize; [lia|].
  destruct props as [|p props].
  - cbn [map join_commas parse_members]. rewrite parse_member_stringify by (done || lia).
    done.
  - change (join_commas (map member_text ((k, v) :: p :: props)))
      with (member_text (k, v) +:+ "," +:+ join_commas (map member_text (p :: props))).
    rewrite (app_assoc_s (member_text (k, v))), (app_assoc_s ","). cbn [parse_members].
    rewrite parse_member_stringify by (done || lia). simpl.
    rewrite IH by (done || lia). done.
Qed.

Lemma stringify_array items rest :
  JSON_stringify (JArray items) +:+ rest =
  String "[" (join_commas (map JSON_stringify items) +:+ String "]" rest).
Proof.
  change (JSON_stringify (JArray items))
    with ("[" +:+ join_commas (map JSON_stringify items) +:+ "]").
  generalize (join_commas (map JSON_stringify items)). intros j. simpl.
  by rewrite app_assoc_s.
Qed.

Lemma stringify_object props rest :
  JSON_stringify (JObject props) +:+ rest =
  String "{" (join_commas (map member_text props) +:+ String "}" rest).
Proof.
  change (JSON_stringify (JObject props))
    with ("{" +:+ join_commas (map member_text props) +:+ "}").
  generalize (join_commas (map member_text props)). intros j. simpl.
  by rewrite app_assoc_s.
Qed.

Lemma parses_array items : Forall parses items → parses (JArray items).
Proof.
  intros Hitems [|fuel] rest Hsize Hrest; simpl in Hsize; [lia|].
  destruct items as [|v items]; [done|]. rewrite stringify_array.
  destruct (elements_head v items (String "]" rest)) as (c & r & Heq & Hws & Hc).
  cbn [parse_value]. rewrite skip_ws_head, decide_False, decide_True by done.
  rewrite Heq, skip_ws_head, expect_head, <-Heq by done.
  by rewrite parse_elements_stringify by (done || lia).
Qed.

Lemma parses_object props : Forall (λ p, parses p.2) props → parses (JObject props).
Proof.
  intros Hprops [|fuel] rest Hsize Hrest; simpl in Hsize; [lia|].
  destruct props as [|[k v] props]; [done|]. rewrite stringify_object.
  cbn [parse_value]. rewrite skip_ws_head by done.
  rewrite decide_False, decide_False, decide_True by done.
  assert (∃ r, join_commas (map member_text ((k, v) :: props)) +:+ String "}" rest
               = String dquote r) as [r Heq].
  { destruct props; cbn [map join_commas]; unfold member_text at 1;
      rewrite !app_assoc_s, quote_app; eauto. }
  rewrite Heq, skip_ws_head, expect_head, <-Heq by done.
  by rewrite parse_members_stringify by (done || lia).
Qed.

Lemma parses_all v : parses v.
Proof.
  induction v as [|b|n|s|items IH|props IH] using Json_ind.
  - by intros [|fuel] rest Hsize Hrest; [simpl in Hsize; lia|].
  - by intros [|fuel] rest Hsize Hrest; [simpl in Hsize; lia|destruct b].
  - intros [|fuel] rest Hsize Hrest; [simpl in Hsize; lia|]. simpl JSON_stringify.
    destruct (pretty_Z_head n rest) as (c & r & Heq & Hc).
    by rewrite Heq, parse_value_number, <-Heq, parse_number_pretty.
  - intros [|fuel] rest Hsize Hrest; [simpl in Hsize; lia|]. simpl JSON_stringify.
    rewrite quote_app. cbn [parse_value]. rewrite skip_ws_head, decide_True by done.
    by rewrite parse_chars_escape.
  - by apply parses_array.
  - by apply parses_object.
Qed.

(** ** Fuel *)

Lemma join_commas_size {A} (size : A → nat) (f : A → string) (l : list A) :
  Forall (λ x, size x ≤ String.length (f x)) l →
  sum_list (map size l) ≤ String.length (join_commas (map f l)).
Proof.
  induction 1 as [|x l Hx _ IH]; [done|]. destruct l as [|y l]; [simpl; lia|].
  change (join_commas (map f (x :: y :: l)))
    with (f x +:+ "," +:+ join_commas (map f (y :: l))).
  rewrite !app_length_s. simpl in *. lia.
Qed.

Lemma json_size_length v : json_size v ≤ String.length (JSON_stringify v).
Proof.
  induction v as [|[]|n|s|items IH|props IH] using Json_ind; try (simpl; lia).
  - destruct (pretty_Z_head n "") as (c & r & Heq & _).
    rewrite app_empty_r in Heq. simpl. rewrite Heq. simpl. lia.
  - rewrite <-(app_empty_r (JSON_stringify _)), stringify_array.
    cbn [String.length json_size]. rewrite app_length_s.
    pose proof (join_commas_size json_size JSON_stringify items IH). lia.
  - rewrite <-(app_empty_r (JSON_stringify _)), stringify_object.
    cbn [String.length json_size]. rewrite app_length_s.
    assert (Forall (λ p, json_size p.2 ≤ String.length (member_text p)) props) as Hprops.
    { eapply Forall_impl; [done|]. intros [k v] Hv. unfold member_text.
      rewrite !app_length_s. simpl in *. lia. }
    pose proof (join_commas_size _ member_text props Hprops). lia.
Qed.

Lemma JSON_parse_stringify v : JSON_parse (JSON_stringify v) = Some v.
Proof.
  pose proof (json_size_length v).
  pose proof (parses_all v (S (String.length (JSON_stringify v))) "") as Hv.
  rewrite app_empty_r in Hv. unfold JSON_parse. rewrite Hv by (done || lia). done.
Qed.

#[export] Hint Rewrite JSON_parse_stringify : js_rw.

(** ** Fuel: every text

    A value that parses leaves less text than it was given, so the elements
    of an array and the depth of nesting are bounded by the length of the
    text: a parse that succeeds with some fuel succeeds, with the same
    result, with any fuel above the length.  [None] from [JSON_parse] is
    therefore a syntax error of the grammar above, never exhaustion. *)

(** Case analysis on the first parser a bind runs. *)
Ltac bind_cases :=
  repeat match goal with
  | H : context [mbind _ ?m] |- _ => destruct m as [[??]|] eqn:?; simplify_eq/=
  | H : context [mbind _ ?m] |- _ => destruct m eqn:?; simplify_eq/=
  | H : context [if decide ?P then _ else _] |- _ => destruct (decide P); simplify_eq/=
  end.

Lemma skip_ws_length s : String.length (skip_ws s) ≤ String.length s.
Proof. induction s as [|c s IH]; simpl; [done|]. destruct (is_json_ws c); simpl; lia. Qed.

Lemma expect_length c s r : expect c s = Some r → String.length s = S (String.length r).
Proof. destruct s; simpl; [done|]. case_decide; by intros [= ->]. Qed.

Lemma expect_skip_ws_length c s r :
  expect c (skip_ws s) = Some r → String.length r < String.length s.
Proof. intros ?%expect_length. pose proof (skip_ws_length s). lia. Qed.

Lemma strip_prefix_length p s r :
  strip_prefix p s = Some r → String.length r ≤ String.length s.
Proof.
  revert s. induction p as [|a p IH]; intros s; simpl; [by intros [= ->]|].
  destruct s as [|b s]; [done|]. case_decide; [|done]. intros ?%IH. simpl. lia.
Qed.

Lemma parse_chars_length : shrinks parse_chars.
Proof.
  intros s. remember (String.length s) as n eqn:Hn.
  revert s Hn. induction n as [n IH] using lt_wf_ind. intros [|c s] -> str r; [done|].
  cbn [parse_chars]. intros H.
  repeat match type of H with
  | context [if decide ?P then _ else _] => destruct (decide P)
  | context [if ?b then _ else _] => destruct b
  | context [match ?x with String _ _ => _ | EmptyString => _ end] => destruct x
  end; bind_cases; simplify_eq/=; try lia.
  all: match goal with
  | Hp : parse_chars ?t = Some _ |- _ =>
      pose proof (IH (String.length t) ltac:(simpl; lia) t eq_refl _ _ Hp); simpl; lia
  end.
Qed.

Lemma parse_digits_length acc s : String.length (parse_digits acc s).2 ≤ String.length s.
Proof.
  revert acc. induction s as [|c s IH]; intros acc; simpl; [done|].
  destruct (is_digit c); simpl; [|done]. specialize (IH (10 * acc + (N_of_ascii c - 48))%N). lia.
Qed.

Lemma parse_unsigned_length : shrinks parse_unsigned.
Proof.
  intros [|c s] n r; [done|]. unfold parse_unsigned.
  pose proof (parse_digits_length 0 (String c s)) as Hd. intros H.
  case_decide; [by simplify_option_eq; simpl; lia|].
  destruct (is_digit c) eqn:Hc; [|done].
  destruct (parse_digits 0 (String c s)) as [n' r'] eqn:Hp.
  simplify_option_eq. cbn [parse_digits] in Hp. rewrite Hc in Hp.
  pose proof (parse_digits_length (10 * 0 + (N_of_ascii c - 48)) s) as Hd'.
  rewrite Hp in Hd'. simpl in *. lia.
Qed.

Lemma parse_number_length : shrinks parse_number.
Proof.
  intros [|c s] n r; [done|]. unfold parse_number. case_decide.
  - destruct (parse_unsigned s) as [[n' r']|] eqn:Hp; [|done]. intros [= <- <-].
    apply parse_unsigned_length in Hp. simpl. lia.
  - destruct (parse_unsigned (String c s)) as [[n' r']|] eqn:Hp; [|done]. intros [= <- <-].
    by apply parse_unsigned_length in Hp.
Qed.

(** The elements of an array and the members of an object, for a parser of
    values that shrinks the text. *)
Lemma parse_elements_length p fuel : shrinks p → shrinks (parse_elements p fuel).
Proof.
  intros Hp. induction fuel as [|fuel IH]; intros s vs r; [done|]. cbn [parse_elements].
  destruct (p s) as [[v rest]|] eqn:Hv; [|done]. apply Hp in Hv. cbn [mbind option_bind].
  destruct (expect "," (skip_ws rest)) as [rest'|] eqn:He.
  - apply expect_skip_ws_length in He.
    destruct (parse_elements p fuel rest') as [[vs' r']|] eqn:Hvs; [|done].
    apply IH in Hvs. intros [= <- <-]. lia.
  - destruct (expect "]" (skip_ws rest)) as [r'|] eqn:He'; [|done].
    apply expect_skip_ws_length in He'. intros [= <- <-]. lia.
Qed.

Lemma parse_member_length p : shrinks p → shrinks (parse_member p).
Proof.
  intros Hp s m r. unfold parse_member.
  destruct (expect dquote (skip_ws s)) as [rest|] eqn:H1; [|done].
  apply expect_skip_ws_length in H1. cbn [mbind option_bind].
  destruct (parse_chars rest) as [[k rest']|] eqn:H2; [|done].
  apply parse_chars_length in H2. cbn [mbind option_bind].
  destruct (expect ":" (skip_ws rest')) as [rest''|] eqn:H3; [|done].
  apply expect_skip_ws_length in H3. cbn [mbind option_bind].
  destruct (p rest'') as [[v r']|] eqn:H4; [|done]. apply Hp in H4.
  intros [= <- <-]. lia.
Qed.

Lemma parse_members_length p fuel : shrinks p → shrinks (parse_members p fuel).
Proof.
  intros Hp. induction fuel as [|fuel IH]; intros s ms r; [done|]. cbn [parse_members].
  destruct (parse_member p s) as [[m rest]|] eqn:Hm; [|done].
  apply (parse_member_length p Hp) in Hm. cbn [mbind option_bind].
  destruct (expect "," (skip_ws rest)) as [rest'|] eqn:He.
  - apply expect_skip_ws_length in He.
    destruct (parse_members p fuel rest') as [[ms' r']|] eqn:Hms; [|done].
    apply IH in Hms. intros [= <- <-]. lia.
  - destruct (expect "}" (skip_ws rest)) as [r'|] eqn:He'; [|done].
    apply expect_skip_ws_length in He'. intros [= <- <-]. lia.
Qed.

Lemma parse_value_length fuel : shrinks (parse_value fuel).
Proof.
  induction fuel as [|fuel IH]; intros s v r; [done|]. cbn [parse_value].
  pose proof (skip_ws_length s) as Hws. destruct (skip_ws s) as [|c rest]; [done|].
  simpl in Hws. intros H.
  repeat match type of H with
  | context [if decide ?P then _ else _] => destruct (decide P)
  end.
  - destruct (parse_chars rest) as [[str r']|] eqn:Hp; [|done].
    apply parse_chars_length in Hp. simplify_eq/=. lia.
  - destruct (expect "]" (skip_ws rest)) as [r'|] eqn:He.
    { apply expect_skip_ws_length in He. simplify_eq/=. lia. }
    destruct (parse_elements _ _ rest) as [[items r']|] eqn:Hp; [|done].
    apply (parse_elements_length _ _ IH) in Hp. simplify_eq/=. lia.
  - destruct (expect "}" (skip_ws rest)) as [r'|] eqn:He.
    { apply expect_skip_ws_length in He. simplify_eq/=. lia. }
    destruct (parse_members _ _ rest) as [[props r']|] eqn:Hp; [|done].
    apply (parse_members_length _ _ IH) in Hp. simplify_eq/=. lia.
  - destruct (strip_prefix "ull" rest) as [r'|] eqn:Hp; [|done].
    apply strip_prefix_length in Hp. simplify_eq/=. lia.
  - destruct (strip_prefix "rue" rest) as [r'|] eqn:Hp; [|done].
    apply strip_prefix_length in Hp. simplify_eq/=. lia.
  - destruct (strip_prefix "alse" rest) as [r'|] eqn:Hp; [|done].
    apply strip_prefix_length in Hp. simplify_eq/=. lia.
  - destruct (parse_number (String c rest)) as [[n' r']|] eqn:Hp; [|done].
    apply parse_number_length in Hp. simplify_eq/=. lia.
Qed.

(** More fuel, and a parser of values that agrees on the shorter texts, give
    the same elements. *)
Lemma parse_elements_fuel p p' fuel : ∀ fuel' s res,
  shrinks p →
  (∀ t res, String.length t ≤ String.length s → p t = Some res → p' t = Some res) →
  parse_elements p fuel s = Some res → String.length s < fuel' →
  parse_elements p' fuel' s = Some res.
Proof.
  induction fuel as [|fuel IH]; intros [|fuel'] s res Hp Hpp' H Hlen; try done; [lia|].
  cbn [parse_elements] in *.
  destruct (p s) as [[v rest]|] eqn:Hv; [|done]. rewrite (Hpp' s _ ltac:(done) Hv).
  apply Hp in Hv. cbn [mbind option_bind] in *.
  destruct (expect "," (skip_ws rest)) as [rest'|] eqn:He; [|done].
  apply expect_skip_ws_length in He.
  destruct (parse_elements p fuel rest') as [[vs r']|] eqn:Hvs; [|done].
  erewrite IH; [done..| |done|lia]. intros t res' Ht. apply Hpp'. lia.
Qed.

Lemma parse_members_fuel p p' fuel : ∀ fuel' s res,
  shrinks p →
  (∀ t res, String.length t ≤ String.length s → p t = Some res → p' t = Some res) →
  parse_members p fuel s = Some res → String.length s < fuel' →
  parse_members p' fuel' s = Some res.
Proof.
  induction fuel as [|fuel IH]; intros [|fuel'] s res Hp Hpp' H Hlen; try done; [lia|].
  cbn [parse_members] in *. unfold parse_member in *.
  destruct (expect dquote (skip_ws s)) as [r1|] eqn:H1; [|done].
  pose proof (expect_skip_ws_length _ _ _ H1) as L1. cbn [mbind option_bind] in *.
  destruct (parse_chars r1) as [[k r2]|] eqn:H2; [|done].
  pose proof (parse_chars_length _ _ _ H2) as L2. cbn [mbind option_bind] in *.
  destruct (expect ":" (skip_ws r2)) as [r3|] eqn:H3; [|done].
  pose proof (expect_skip_ws_length _ _ _ H3) as L3. cbn [mbind option_bind] in *.
  destruct (p r3) as [[v rest]|] eqn:Hv; [|done]. rewrite (Hpp' r3 _ ltac:(lia) Hv).
  apply Hp in Hv. cbn [mbind option_bind] in *.
  destruct (expect "," (skip_ws rest)) as [rest'|] eqn:He; [|done].
  apply expect_skip_ws_length in He.
  destruct (parse_members p fuel rest') as [[ms r']|] eqn:Hms; [|done].
  erewrite IH; [done..| |done|lia]. intros t res' Ht. apply Hpp'. lia.
Qed.

(** A parse that succeeds with some fuel succeeds, with the same result, with
    any fuel above the length of the text. *)
Lemma parse_value_fuel fuel : ∀ fuel' s res,
  parse_value fuel s = Some res → String.length s < fuel' →
  parse_value fuel' s = Some res.
Proof.
  induction fuel as [|fuel IH]; intros [|fuel'] s res H Hlen; try done; [lia|].
  cbn [parse_value] in *. pose proof (skip_ws_length s) as Hws.
  destruct (skip_ws s) as [|c rest]; [done|]. simpl in Hws.
  repeat case_decide; try done.
  - destruct (expect "]" (skip_ws rest)); [done|].
    destruct (parse_elements _ fuel rest) as [[items r]|] eqn:Hp; [|done].
    erewrite parse_elements_fuel; [done|apply parse_value_length| |done|lia].
    intros t res' Ht Hv. apply (IH _ _ _ Hv). lia.
  - destruct (expect "}" (skip_ws rest)); [done|].
    destruct (parse_members _ fuel rest) as [[props r]|] eqn:Hp; [|done].
    erewrite parse_members_fuel; [done|apply parse_value_length| |done|lia].
    intros t res' Ht Hv. apply (IH _ _ _ Hv). lia.
Qed.

(** [JSON_parse]'s fuel, the length of the text and one more, is enough for
    every text: no amount of fuel parses a text that [JSON_parse] rejects, or
    parses it to another value. *)
Theorem JSON_parse_fuel fuel text v rest :
  parse_value fuel text = Some (v, rest) → skip_ws rest = "" →
  JSON_parse text = Some v.
Proof.
  intros H Hrest. unfold JSON_parse.
  rewrite (parse_value_fuel _ _ _ _ H) by lia. simpl. by rewrite Hrest.
Qed.
