(* ===== verification/Payload.v ===== *)
(** * Payload: the request payloads and their JSON codec

    The methods of [services/api.ts] that send data take one object each
    ([userData], [credentials], [taskData], [updates], [requestData],
    [alertData]) and send [JSON.stringify] of it.  This file holds the types
    of those objects as records, the JSON value each one stands for
    ([ToJson]), and the reading of such a value back into the record
    ([FromJson]), which is what the receiving end does with the body.  The
    class [FromJson] carries the law that reading undoes writing, and the
    instances discharge it for every payload; that [to_json] is injective
    follows from the law alone. *)

From S2P Require Import Prelude JsString Json.

#[local] Open Scope js_scope.

(** ** Payloads *)

Class ToJson (A : Type) := to_json : A → Json.
#[export] Hint Mode ToJson ! : typeclass_instances.

#[export] Instance string_to_json : ToJson string := JString.
#[export] Instance Z_to_json : ToJson Z := JNumber.
#[export] Instance list_to_json `{ToJson A} : ToJson (list A) :=
  λ l, JArray (to_json <$> l).

(** A required property, and an optional one: [JSON.stringify] leaves out a
    property whose value is [undefined]. *)
Definition prop `{ToJson A} (k : string) (a : A) : list (string * Json) :=
  [(k, to_json a)].

Definition prop_opt `{ToJson A} (k : string) (o : option A) : list (string * Json) :=
  match o with Some a => [(k, to_json a)] | None => [] end.

Record RegisterData := mkRegisterData {
  rd_email : string;
  rd_password : string;
  rd_first_name : string;
  rd_last_name : string;
  rd_phone : option string;
  rd_barangay : option string;
  rd_city : option string;
}.

Record Credentials := mkCredentials {
  cr_email : string;
  cr_password : string;
}.

Record TaskData := mkTaskData {
  td_title : string;
  td_description : string;
  td_category : string;
  td_priority : string;
  td_points : Z;
  td_due_date : option string;
  td_assigned_to : option string;
  td_location : option string;
}.

Record TaskUpdates := mkTaskUpdates {
  tu_status : option string;
  tu_title : option string;
  tu_description : option string;
  tu_category : option string;
  tu_priority : option string;
  tu_points : option Z;
  tu_due_date : option string;
  tu_assigned_to : option string;
  tu_location : option string;
}.

Record HelpRequestData := mkHelpRequestData {
  hr_type : string;
  hr_title : string;
  hr_description : string;
  hr_location : string;
  hr_urgency : string;
  hr_responders_needed : option Z;
}.

Record AlertData := mkAlertData {
  ad_type : string;
  ad_priority : string;
  ad_title : string;
  ad_message : string;
  ad_affected_areas : list string;
  ad_expires_in : option string;
}.

Record CommunityTaskData := mkCommunityTaskData {
  ct_title : string;
  ct_description : string;
  ct_location : string;
  ct_urgency : string;
  ct_points : option Z;
}.

#[export] Instance RegisterData_to_json : ToJson RegisterData := λ d,
  JObject (prop "email" (rd_email d) ++ prop "password" (rd_password d) ++
           prop "first_name" (rd_first_name d) ++ prop "last_name" (rd_last_name d) ++
           prop_opt "phone" (rd_phone d) ++ prop_opt "barangay" (rd_barangay d) ++
           prop_opt "city" (rd_city d)).

#[export] Instance Credentials_to_json : ToJson Credentials := λ d,
  JObject (prop "email" (cr_email d) ++ prop "password" (cr_password d)).

#[export] Instance TaskData_to_json : ToJson TaskData := λ d,
  JObject (prop "title" (td_title d) ++ prop "description" (td_description d) ++
           prop "category" (td_category d) ++ prop "priority" (td_priority d) ++
           prop "points" (td_points d) ++ prop_opt "due_date" (td_due_date d) ++
           prop_opt "assigned_to" (td_assigned_to d) ++ prop_opt "location" (td_location d)).

#[export] Instance TaskUpdates_to_json : ToJson TaskUpdates := λ d,
  JObject (prop_opt "status" (tu_status d) ++ prop_opt "title" (tu_title d) ++
           prop_opt "description" (tu_description d) ++ prop_opt "category" (tu_category d) ++
           prop_opt "priority" (tu_priority d) ++ prop_opt "points" (tu_points d) ++
           prop_opt "due_date" (tu_due_date d) ++ prop_opt "assigned_to" (tu_assigned_to d) ++
           prop_opt "location" (tu_location d)).

#[export] Instance HelpRequestData_to_json : ToJson HelpRequestData := λ d,
  JObject (prop "type" (hr_type d) ++ prop "title" (hr_title d) ++
           prop "description" (hr_description d) ++ prop "location" (hr_location d) ++
           prop "urgency" (hr_urgency d) ++
           prop_opt "responders_needed" (hr_responders_needed d)).

#[export] Instance AlertData_to_json : ToJson AlertData := λ d,
  JObject (prop "type" (ad_type d) ++ prop "priority" (ad_priority d) ++
           prop "title" (ad_title d) ++ prop "message" (ad_message d) ++
           prop "affected_areas" (ad_affected_areas d) ++
           prop_opt "expires_in" (ad_expires_in d)).

#[export] Instance CommunityTaskData_to_json : ToJson CommunityTaskData := λ d,
  JObject (prop "title" (ct_title d) ++ prop "description" (ct_description d) ++
           prop "location" (ct_location d) ++ prop "urgency" (ct_urgency d) ++
           prop_opt "points" (ct_points d)).

(** ** Reading a payload back *)

(** A type whose values can be read back from the JSON value that stands for
    them.  The law is the contract between the client and whoever reads the
    body of its requests. *)
Class FromJson (A : Type) `{ToJson A} := {
  of_json : Json → option A;
  of_to_json a : of_json (to_json a) = Some a;
}.
#[export] Hint Mode FromJson ! - : typeclass_instances.
Arguments of_json {A _ _} v : simpl never.
Arguments to_json {A _} a : simpl never.

#[export] Instance to_json_inj `{FromJson A} : Inj (=) (=) (to_json (A:=A)).
Proof. intros a b Hab. apply (inj Some). by rewrite <-(of_to_json a), Hab, of_to_json. Qed.

Definition string_of_json (v : Json) : option string :=
  match v with JString s => Some s | _ => None end.

Definition Z_of_json (v : Json) : option Z :=
  match v with JNumber n => Some n | _ => None end.

Definition list_of_json `{FromJson A} (v : Json) : option (list A) :=
  match v with JArray items => mapM of_json items | _ => None end.

Lemma list_of_to_json `{FromJson A} (l : list A) : list_of_json (to_json l) = Some l.
Proof. apply mapM_fmap_Some, of_to_json. Qed.

#[export] Instance string_from_json : FromJson string :=
  {| of_json := string_of_json; of_to_json _ := eq_refl |}.
#[export] Instance Z_from_json : FromJson Z :=
  {| of_json := Z_of_json; of_to_json _ := eq_refl |}.
#[export] Instance list_from_json `{FromJson A} : FromJson (list A) :=
  {| of_json := list_of_json; of_to_json := list_of_to_json |}.

(** The properties of an object; nothing else is a payload. *)
Definition props_of (v : Json) : option (list (string * Json)) :=
  match v with JObject props => Some props | _ => None end.

(** A required property, and an optional one. *)
Definition field `{FromJson A} (k : string) (props : list (string * Json)) : option A :=
  own_property k props ≫= of_json.

Definition field_opt `{FromJson A} (k : string) (props : list (string * Json))
    : option (option A) :=
  match own_property k props with
  | Some v => Some <$> of_json v
  | None => Some None
  end.

Definition RegisterData_of_json (v : Json) : option RegisterData :=
  props ← props_of v;
  email ← field "email" props; password ← field "password" props;
  first_name ← field "first_name" props; last_name ← field "last_name" props;
  phone ← field_opt "phone" props; barangay ← field_opt "barangay" props;
  city ← field_opt "city" props;
  Some (mkRegisterData email password first_name last_name phone barangay city).

Definition Credentials_of_json (v : Json) : option Credentials :=
  props ← props_of v;
  email ← field "email" props; password ← field "password" props;
  Some (mkCredentials email password).

Definition TaskData_of_json (v : Json) : option TaskData :=
  props ← props_of v;
  title ← field "title" props; description ← field "description" props;
  category ← field "category" props; priority ← field "priority" props;
  points ← field "points" props; due_date ← field_opt "due_date" props;
  assigned_to ← field_opt "assigned_to" props; location ← field_opt "location" props;
  Some (mkTaskData title description category priority points due_date assigned_to location).

Definition TaskUpdates_of_json (v : Json) : option TaskUpdates :=
  props ← props_of v;
  status ← field_opt "status" props; title ← field_opt "title" props;
  description ← field_opt "description" props; category ← field_opt "category" props;
  priority ← field_opt "priority" props; points ← field_opt "points" props;
  due_date ← field_opt "due_date" props; assigned_to ← field_opt "assigned_to" props;
  location ← field_opt "location" props;
  Some (mkTaskUpdates status title description category priority points due_date
          assigned_to location).

Definition HelpRequestData_of_json (v : Json) : option HelpRequestData :=
  props ← props_of v;
  type ← field "type" props; title ← field "title" props;
  description ← field "description" props; location ← field "location" props;
  urgency ← field "urgency" props;
  responders_needed ← field_opt "responders_needed" props;
  Some (mkHelpRequestData type title description location urgency responders_needed).

Definition AlertData_of_json (v : Json) : option AlertData :=
  props ← props_of v;
  type ← field "type" props; priority ← field "priority" props;
  title ← field "title" props; message ← field "message" props;
  affected_areas ← field "affected_areas" props;
  expires_in ← field_opt "expires_in" props;
  Some (mkAlertData type priority title message affected_areas expires_in).

Definition CommunityTaskData_of_json (v : Json) : option CommunityTaskData :=
  props ← props_of v;
  title ← field "title" props; description ← field "description" props;
  location ← field "location" props; urgency ← field "urgency" props;
  points ← field_opt "points" props;
  Some (mkCommunityTaskData title description location urgency points).

(** ** The law of the codec *)

Lemma field_prop `{FromJson A} k props (a : A) :
  own_property k props = Some (to_json a) → field k props = Some a.
Proof. unfold field. intros ->. apply of_to_json. Qed.

Lemma field_opt_prop `{FromJson A} k props (o : option A) :
  own_property k props = to_json <$> o → field_opt k props = Some o.
Proof. unfold field_opt. intros ->. destruct o; simpl; [by rewrite of_to_json|done]. Qed.

(** A property of an object written as a sequence of properties: the last
    one of that name. *)
Lemma own_property_app k l1 l2 :
  own_property k (l1 ++ l2) = from_option Some (own_property k l1) (own_property k l2).
Proof.
  unfold own_property. rewrite filter_app, last_app.
  by destruct (last (filter _ l2)).
Qed.

Lemma own_property_prop `{ToJson A} k k' (a : A) :
  own_property k (prop k' a) = if decide (k' = k) then Some (to_json a) else None.
Proof. unfold own_property, prop. rewrite filter_cons. simpl. by case_decide. Qed.

Lemma own_property_prop_opt `{ToJson A} k k' (o : option A) :
  own_property k (prop_opt k' o) = if decide (k' = k) then to_json <$> o else None.
Proof. destruct o; [apply own_property_prop|by case_decide]. Qed.

Lemma from_option_Some_None {A} (o : option A) : from_option Some None o = o.
Proof. by destruct o. Qed.

(** The property read from the object of a payload: the names are literals,
    so the comparisons compute. *)
Ltac own_property_norm :=
  rewrite ?own_property_app, ?own_property_prop, ?own_property_prop_opt; simpl;
  rewrite ?from_option_Some_None; reflexivity.

(** The round trip of a record, one field after the other. *)
Ltac codec_law :=
  intros d; destruct d;
  lazymatch goal with
  | |- ?f (@to_json _ ?i _) = _ => unfold f; unfold to_json at 1; unfold i
  end;
  cbn [props_of mbind option_bind];
  repeat (first [erewrite field_prop by own_property_norm
                |erewrite field_opt_prop by own_property_norm];
          cbn [mbind option_bind]);
  reflexivity.

Lemma RegisterData_of_to_json d : RegisterData_of_json (to_json d) = Some d.
Proof. revert d. codec_law. Qed.

Lemma Credentials_of_to_json d : Credentials_of_json (to_json d) = Some d.
Proof. revert d. codec_law. Qed.

Lemma TaskData_of_to_json d : TaskData_of_json (to_json d) = Some d.
Proof. revert d. codec_law. Qed.

Lemma TaskUpdates_of_to_json d : TaskUpdates_of_json (to_json d) = Some d.
Proof. revert d. codec_law. Qed.

Lemma HelpRequestData_of_to_json d : HelpRequestData_of_json (to_json d) = Some d.
Proof. revert d. codec_law. Qed.

Lemma AlertData_of_to_json d : AlertData_of_json (to_json d) = Some d.
Proof. revert d. codec_law. Qed.

Lemma CommunityTaskData_of_to_json d : CommunityTaskData_of_json (to_json d) = Some d.
Proof. revert d. codec_law. Qed.

#[export] Instance RegisterData_from_json : FromJson RegisterData :=
  {| of_json := RegisterData_of_json; of_to_json := RegisterData_of_to_json |}.
#[export] Instance Credentials_from_json : FromJson Credentials :=
  {| of_json := Credentials_of_json; of_to_json := Credentials_of_to_json |}.
#[export] Instance TaskData_from_json : FromJson TaskData :=
  {| of_json := TaskData_of_json; of_to_json := TaskData_of_to_json |}.
#[export] Instance TaskUpdates_from_json : FromJson TaskUpdates :=
  {| of_json := TaskUpdates_of_json; of_to_json := TaskUpdates_of_to_json |}.
#[export] Instance HelpRequestData_from_json : FromJson HelpRequestData :=
  {| of_json := HelpRequestData_of_json; of_to_json := HelpRequestData_of_to_json |}.
#[export] Instance AlertData_from_json : FromJson AlertData :=
  {| of_json := AlertData_of_json; of_to_json := AlertData_of_to_json |}.
#[export] Instance CommunityTaskData_from_json : FromJson CommunityTaskData :=
  {| of_json := CommunityTaskData_of_json; of_to_json := CommunityTaskData_of_to_json |}.

(** ** Reading the text of a body *)

(** What the receiving end does with the body of a request. *)
Definition read_text `{FromJson A} (text : string) : option A :=
  JSON_parse text ≫= of_json.

Lemma read_text_stringify `{FromJson A} (a : A) :
  read_text (JSON_stringify (to_json a)) = Some a.
Proof. unfold read_text. rewrite JSON_parse_stringify. apply of_to_json. Qed.

(** Two payloads with the same text are the same payload. *)
Lemma stringify_to_json_inj `{FromJson A} : Inj (=) (=) (λ a : A, JSON_stringify (to_json a)).
Proof.
  intros a b Hab. apply (inj Some).
  by rewrite <-(read_text_stringify a), Hab, read_text_stringify.
Qed.

(** A payload is an object, and the properties it has are among those its
    type declares. *)
Example sample_register_text :
  JSON_stringify (to_json (mkRegisterData "a@b.ph" "pw" "Ana" "Cruz" None (Some "Lahug") None)) =
  "{" +:+ quote "email" +:+ ":" +:+ quote "a@b.ph" +:+ "," +:+
         quote "password" +:+ ":" +:+ quote "pw" +:+ "," +:+
         quote "first_name" +:+ ":" +:+ quote "Ana" +:+ "," +:+
         quote "last_name" +:+ ":" +:+ quote "Cruz" +:+ "," +:+
         quote "barangay" +:+ ":" +:+ quote "Lahug" +:+ "}".
Proof. by vm_compute. Qed.
