(* ===== verification/Api.v ===== *)
(** * Api: the HTTP client of the back end ([services/api.ts])

    [ApiService] keeps the access token, mirrors it in the browser's
    [localStorage], and offers one method per endpoint of the back end.  Each
    method hands one request to [fetch] and turns the response into an
    [ApiResponse] with [handleResponse].

    The state is the pair of the token and the storage ([ApiService]); the
    methods that change it are [constructor], [setToken] and [clearToken].
    A method of an endpoint is a [Call]: the request it makes and what it does
    with the response; [run_call] supplies the network.  The payloads are the
    records of [Payload], turned into JSON objects with the properties in
    the order of their declaration and the absent optional ones left out,
    which is what [JSON.stringify] sends for an object built to that type. *)

From S2P Require Import Prelude JsString Json Payload.

#[local] Open Scope js_scope.

(** ** Requests and responses *)

(** The second argument of [fetch]. *)
Record RequestInit := mkRequestInit {
  method : string;
  headers : list (string * string);
  body : option string;
}.

Record Request := mkRequest {
  url : string;
  init : RequestInit;
}.

(** What [handleResponse] reads of a [Response]: [response.ok] and the text
    of the body. *)
Record Response := mkResponse {
  ok : bool;
  text : string;
}.

(** [interface ApiResponse<T>]: both properties are optional.  [error] is
    declared a string; the value the code stores is whatever JavaScript value
    [handleResponse] computes. *)
Record ApiResponse := mkApiResponse {
  data : JsValue;
  error : JsValue;
}.

(** A method of an endpoint, suspended at its [await fetch(...)]. *)
Record Call := mkCall {
  call_request : Request;
  call_continue : Response → Completion ApiResponse;
}.

Definition fetch (url : string) (init : RequestInit)
    (k : Response → Completion ApiResponse) : Call :=
  mkCall (mkRequest url init) k.

(** The call completed by a network that answers the request, or fails. *)
Definition run_call (network : Request → Completion Response) (c : Call)
    : Completion ApiResponse :=
  response ← network (call_request c); call_continue c response.

(** ** The service object and the storage *)

Record ApiService := mkApiService {
  token : option string;
  localStorage : gmap string string;
}.

Definition TOKEN_KEY : string := "safezoneph_token".

(** [constructor()], run when the module is loaded. *)
Definition constructor (storage : gmap string string) : ApiService :=
  {| token := storage !! TOKEN_KEY; localStorage := storage |}.

Definition getHeaders (api : ApiService) : list (string * string) :=
  let headers := [("Content-Type", "application/json")] in
  match token api with
  | Some t => if truthy t then headers ++ [("Authorization", "Bearer " +:+ t)] else headers
  | None => headers
  end.

(** The [try] block of [handleResponse]: the message of a parsed error
    body.  Reading a property has no effect, and reading [message] throws
    only where reading [detail] has thrown already, so both are read before
    [||] chooses. *)
Definition errorMessage_of (errorText : string) (errorMessage : Json) : Completion Json :=
  match JSON_parse errorText with
  | Some errorJson =>
      detail ← get_prop errorJson "detail";
      message ← get_prop errorJson "message";
      Normal (default errorMessage (detail ||ⱼ message ||ⱼ Some errorMessage))
  | None => Throw "SyntaxError"
  end.

Definition handleResponse (response : Response) : Completion ApiResponse :=
  if ok response then
    match JSON_parse (text response) with
    | Some data => Normal {| data := Some data; error := None |}
    | None => Throw "SyntaxError"
    end
  else
    let errorText := text response in
    let errorMessage := "An error occurred" in
    let errorMessage :=
      try_catch (errorMessage_of errorText (JString errorMessage))
                (JString (errorText ||ₛ errorMessage)) in
    Normal {| data := None; error := Some errorMessage |}.

Definition setToken (t : string) (api : ApiService) : ApiService :=
  {| token := Some t; localStorage := <[TOKEN_KEY := t]> (localStorage api) |}.

Definition clearToken (api : ApiService) : ApiService :=
  {| token := None; localStorage := delete TOKEN_KEY (localStorage api) |}.

(** What happens to the service between two calls: the application sets or
    clears the token, or the page is loaded again and the module constructs
    the service anew from the storage. *)
Inductive ApiAction :=
| SetToken (t : string)
| ClearToken
| Reload.

Definition api_step (a : ApiAction) (api : ApiService) : ApiService :=
  match a with
  | SetToken t => setToken t api
  | ClearToken => clearToken api
  | Reload => constructor (localStorage api)
  end.

(** ** The endpoints *)

Section endpoints.
Context (API_BASE_URL : string) (api : ApiService).

Definition register (userData : RegisterData) : Call :=
  fetch (API_BASE_URL +:+ "/api/auth/register")
    {| method := "POST"; headers := getHeaders api;
       body := Some (JSON_stringify (to_json userData)) |}
    handleResponse.

Definition login (credentials : Credentials) : Call :=
  fetch (API_BASE_URL +:+ "/api/auth/login")
    {| method := "POST"; headers := getHeaders api;
       body := Some (JSON_stringify (to_json credentials)) |}
    handleResponse.

Definition getCurrentUser : Call :=
  fetch (API_BASE_URL +:+ "/api/auth/me")
    {| method := "GET"; headers := getHeaders api; body := None |}
    handleResponse.

Definition getTasks : Call :=
  fetch (API_BASE_URL +:+ "/api/tasks")
    {| method := "GET"; headers := getHeaders api; body := None |}
    handleResponse.

Definition createTask (taskData : TaskData) : Call :=
  fetch (API_BASE_URL +:+ "/api/tasks")
    {| method := "POST"; headers := getHeaders api;
       body := Some (JSON_stringify (to_json taskData)) |}
    handleResponse.

Definition updateTask (taskId : string) (updates : TaskUpdates) : Call :=
  fetch (API_BASE_URL +:+ "/api/tasks/" +:+ taskId)
    {| method := "PATCH"; headers := getHeaders api;
       body := Some (JSON_stringify (to_json updates)) |}
    handleResponse.

Definition getPointsHistory : Call :=
  fetch (API_BASE_URL +:+ "/api/points/history")
    {| method := "GET"; headers := getHeaders api; body := None |}
    handleResponse.

Definition getHelpRequests : Call :=
  fetch (API_BASE_URL +:+ "/api/help-requests")
    {| method := "GET"; headers := getHeaders api; body := None |}
    handleResponse.

Definition createHelpRequest (requestData : HelpRequestData) : Call :=
  fetch (API_BASE_URL +:+ "/api/help-requests")
    {| method := "POST"; headers := getHeaders api;
       body := Some (JSON_stringify (to_json requestData)) |}
    handleResponse.

Definition respondToHelpRequest (requestId : Z) : Call :=
  fetch (API_BASE_URL +:+ "/api/help-requests/" +:+ toString requestId +:+ "/respond")
    {| method := "PATCH"; headers := getHeaders api; body := None |}
    handleResponse.

Definition getGlobalAlerts : Call :=
  fetch (API_BASE_URL +:+ "/api/global-alerts")
    {| method := "GET"; headers := getHeaders api; body := None |}
    handleResponse.

Definition createGlobalAlert (alertData : AlertData) : Call :=
  fetch (API_BASE_URL +:+ "/api/global-alerts")
    {| method := "POST"; headers := getHeaders api;
       body := Some (JSON_stringify (to_json alertData)) |}
    handleResponse.

Definition acknowledgeAlert (alertId : Z) : Call :=
  fetch (API_BASE_URL +:+ "/api/global-alerts/" +:+ toString alertId +:+ "/acknowledge")
    {| method := "PATCH"; headers := getHeaders api; body := None |}
    handleResponse.

Definition toggleAlertStatus (alertId : Z) : Call :=
  fetch (API_BASE_URL +:+ "/api/global-alerts/" +:+ toString alertId +:+ "/toggle")
    {| method := "PATCH"; headers := getHeaders api; body := None |}
    handleResponse.

Definition getCommunityTasks : Call :=
  fetch (API_BASE_URL +:+ "/api/community-tasks")
    {| method := "GET"; headers := getHeaders api; body := None |}
    handleResponse.

Definition createCommunityTask (taskData : CommunityTaskData) : Call :=
  fetch (API_BASE_URL +:+ "/api/community-tasks")
    {| method := "POST"; headers := getHeaders api;
       body := Some (JSON_stringify (to_json taskData)) |}
    handleResponse.

Definition volunteerForTask (taskId : Z) : Call :=
  fetch (API_BASE_URL +:+ "/api/community-tasks/" +:+ toString taskId +:+ "/volunteer")
    {| method := "POST"; headers := getHeaders api; body := None |}
    handleResponse.

(** The public methods of the service with their arguments, and the call
    each one makes. *)
Inductive ApiCall :=
| Register (userData : RegisterData)
| Login (credentials : Credentials)
| GetCurrentUser
| GetTasks
| CreateTask (taskData : TaskData)
| UpdateTask (taskId : string) (updates : TaskUpdates)
| GetPointsHistory
| GetHelpRequests
| CreateHelpRequest (requestData : HelpRequestData)
| RespondToHelpRequest (requestId : Z)
| GetGlobalAlerts
| CreateGlobalAlert (alertData : AlertData)
| AcknowledgeAlert (alertId : Z)
| ToggleAlertStatus (alertId : Z)
| GetCommunityTasks
| CreateCommunityTask (taskData : CommunityTaskData)
| VolunteerForTask (taskId : Z).

Definition invoke (c : ApiCall) : Call :=
  match c with
  | Register d => register d
  | Login d => login d
  | GetCurrentUser => getCurrentUser
  | GetTasks => getTasks
  | CreateTask d => createTask d
  | UpdateTask taskId d => updateTask taskId d
  | GetPointsHistory => getPointsHistory
  | GetHelpRequests => getHelpRequests
  | CreateHelpRequest d => createHelpRequest d
  | RespondToHelpRequest n => respondToHelpRequest n
  | GetGlobalAlerts => getGlobalAlerts
  | CreateGlobalAlert d => createGlobalAlert d
  | AcknowledgeAlert n => acknowledgeAlert n
  | ToggleAlertStatus n => toggleAlertStatus n
  | GetCommunityTasks => getCommunityTasks
  | CreateCommunityTask d => createCommunityTask d
  | VolunteerForTask n => volunteerForTask n
  end.

(** The payload a call sends, if it sends one. *)
Definition payload (c : ApiCall) : JsValue :=
  match c with
  | Register d => Some (to_json d)
  | Login d => Some (to_json d)
  | CreateTask d => Some (to_json d)
  | UpdateTask _ d => Some (to_json d)
  | CreateHelpRequest d => Some (to_json d)
  | CreateGlobalAlert d => Some (to_json d)
  | CreateCommunityTask d => Some (to_json d)
  | _ => None
  end.

End endpoints.

(** ** Sample data *)

Definition sample_base : string := "http://localhost:8000".
Definition sample_storage : gmap string string := {[ TOKEN_KEY := "abc.def" ]}.
Definition sample_api : ApiService := constructor sample_storage.

Definition sample_updates : TaskUpdates :=
  mkTaskUpdates (Some "completed") None None None None (Some 50%Z) None None None.

Definition sample_alert_data : AlertData :=
  mkAlertData "typhoon" "high" "Signal no. 3" "Stay indoors" ["Cebu"; "Bohol"] None.

(** A validation error as FastAPI reports it: [detail] is an array. *)
Definition sample_422 : Response :=
  mkResponse false
    (JSON_stringify (JObject [("detail", JArray [JObject [("msg", JString "field required")]])])).

Definition sample_401 : Response :=
  mkResponse false (JSON_stringify (JObject [("detail", JString "Invalid credentials")])).

(** ** The token and the storage *)

(** The token in use is the stored one. *)
Definition api_inv (api : ApiService) : Prop :=
  token api = localStorage api !! TOKEN_KEY.

Lemma api_inv_constructor storage : api_inv (constructor storage).
Proof. done. Qed.

Lemma api_inv_step a api : api_inv (api_step a api).
Proof.
  destruct a; unfold api_inv; simpl;
    [by rewrite lookup_insert_eq|by rewrite lookup_delete_eq|done].
Qed.

Lemma api_inv_run actions api : api_inv api → api_inv (run api_step actions api).
Proof. apply run_invariant. intros ???. apply api_inv_step. Qed.

Lemma api_inv_reload api : api_inv api → api_step Reload api = api.
Proof. destruct api as [t ls]. unfold api_inv. simpl. by intros ->. Qed.

Lemma api_inv_reloads n api :
  api_inv api → run api_step (replicate n Reload) api = api.
Proof.
  intros Hinv. induction n as [|n IH]; [done|].
  by rewrite replicate_S_end, run_snoc, IH, api_inv_reload.
Qed.

(** The storage a step leaves differs from the one it found in the token's
    entry at most. *)
Lemma api_step_storage a api k :
  k ≠ TOKEN_KEY → localStorage (api_step a api) !! k = localStorage api !! k.
Proof.
  intros Hk. destruct a; simpl; [by rewrite lookup_insert_ne|by rewrite lookup_delete_ne|done].
Qed.

(** ** Headers *)

Lemma getHeaders_Authorization api v :
  ("Authorization", v) ∈ getHeaders api ↔
  ∃ t, token api = Some t ∧ t ≠ "" ∧ v = "Bearer " +:+ t.
Proof.
  unfold getHeaders. destruct (token api) as [[|c t]|]; simpl.
  - rewrite list_elem_of_singleton. split; [done|]. by intros (? & [= <-] & ? & _).
  - rewrite !elem_of_cons, elem_of_nil. split.
    + intros [[=]|[[= ->]|[]]]. by eexists.
    + intros (? & [= <-] & _ & ->). auto.
  - rewrite list_elem_of_singleton. split; [done|]. by intros (? & [=] & _).
Qed.

Lemma getHeaders_Content_Type api v :
  ("Content-Type", v) ∈ getHeaders api ↔ v = "application/json".
Proof.
  unfold getHeaders. destruct (token api) as [[|c t]|]; simpl;
    rewrite ?elem_of_cons, ?elem_of_nil; (split; [intros H|intros ->]);
    intuition congruence.
Qed.

Lemma getHeaders_NoDup api : NoDup (getHeaders api).*1.
Proof.
  unfold getHeaders. destruct (token api) as [[|c t]|]; simpl;
    repeat constructor; rewrite ?elem_of_cons, ?elem_of_nil; intuition congruence.
Qed.

(** ** Error messages *)

Lemma or_js_truthy a b :
  from_option truthy_js false b = true → from_option truthy_js false (a ||ⱼ b) = true.
Proof. intros Hb. destruct a as [v|]; simpl; [|done]. by destruct (truthy_js v) eqn:?. Qed.

Lemma errorMessage_of_truthy errorText d v :
  truthy_js d = true → errorMessage_of errorText d = Normal v → truthy_js v = true.
Proof.
  unfold errorMessage_of. intros Hd.
  destruct (JSON_parse errorText) as [j|]; [|done].
  destruct (get_prop j "detail") as [detail|]; [simpl|done].
  destruct (get_prop j "message") as [message|]; [simpl|done]. intros [= <-].
  pose proof (or_js_truthy (detail ||ⱼ message) (Some d) Hd) as Ht.
  by destruct (detail ||ⱼ message ||ⱼ Some d).
Qed.

(** The message of an error body that parses to an object, computed from its
    two properties. *)
Lemma errorMessage_of_object errorText props d :
  JSON_parse errorText = Some (JObject props) →
  errorMessage_of errorText d =
  Normal (default d (own_property "detail" props ||ⱼ own_property "message" props ||ⱼ Some d)).
Proof. unfold errorMessage_of. by intros ->. Qed.

(** What [||] chooses among the two properties and the default. *)
Lemma chosen_property d (a b : JsValue) :
  default d (a ||ⱼ b ||ⱼ Some d) =
  match a ||ⱼ b with Some v => if truthy_js v then v else d | None => d end.
Proof. unfold or_js at 1. destruct (a ||ⱼ b) as [v|]; [by destruct (truthy_js v)|done]. Qed.

Lemma handleResponse_error response :
  ok response = false →
  handleResponse response =
  Normal {| data := None;
            error := Some (try_catch (errorMessage_of (text response) (JString "An error occurred"))
                                     (JString (text response ||ₛ "An error occurred"))) |}.
Proof. unfold handleResponse. by intros ->. Qed.

Lemma handleResponse_is_Normal response :
  is_Normal (handleResponse response) ↔
  (ok response = true → is_Some (JSON_parse (text response))).
Proof.
  unfold handleResponse.
  destruct (ok response), (JSON_parse (text response)); simpl; split; try done; eauto.
  intros H. by destruct H.
Qed.

(** ** Every method makes its request the same way *)

Lemma invoke_headers base api c :
  headers (init (call_request (invoke base api c))) = getHeaders api.
Proof. by destruct c. Qed.

Lemma invoke_continue base api c : call_continue (invoke base api c) = handleResponse.
Proof. by destruct c. Qed.

Lemma invoke_body base api c :
  body (init (call_request (invoke base api c))) = JSON_stringify <$> payload c.
Proof. by destruct c. Qed.

#[export] Hint Rewrite invoke_headers invoke_continue invoke_body : js_rw.
#[export] Hint Resolve api_inv_constructor : js.

(** ** Properties *)

(** Claim C7. Whatever sequence of [setToken], [clearToken] and page loads
    the service has gone through since it was constructed, loading the page
    again constructs the same service: the token in use is always the one in
    [localStorage], and no step touches another entry of the storage. *)
Theorem reload_restores_service storage actions :
  let api := run api_step actions (constructor storage) in
  api_step Reload api = api ∧
  ∀ k, k ≠ TOKEN_KEY → localStorage api !! k = storage !! k.
Proof.
  split; [apply api_inv_reload, api_inv_run; auto with js|]. intros k Hk.
  induction actions as [|a actions IH] using rev_ind; [done|].
  by rewrite run_snoc, api_step_storage.
Qed.

(** Claim C8. Every method of the service sends the [Content-Type] header and
    sends [Authorization] exactly when the token is a non-empty string, with
    the value [Bearer <token>]; no header name is sent twice. *)
Theorem invoke_authorization base api c v :
  let hs := headers (init (call_request (invoke base api c))) in
  (("Authorization", v) ∈ hs ↔ ∃ t, token api = Some t ∧ t ≠ "" ∧ v = "Bearer " +:+ t) ∧
  ("Content-Type", "application/json") ∈ hs ∧ NoDup hs.*1.
Proof.
  simpl. rewrite invoke_headers. split_and!.
  - apply getHeaders_Authorization.
  - by apply getHeaders_Content_Type.
  - apply getHeaders_NoDup.
Qed.

(** After [clearToken] no method sends an [Authorization] header,
    also after any number of page loads. *)
Lemma clearToken_logs_out base api n c v :
  ("Authorization", v) ∉
  headers (init (call_request
    (invoke base (run api_step (replicate n Reload) (clearToken api)) c))).
Proof.
  rewrite invoke_headers, getHeaders_Authorization. intros (t & Ht & _).
  by rewrite api_inv_reloads in Ht by apply (api_inv_step ClearToken).
Qed.

(** Claim C6. [handleResponse] on every response: an [ok] response whose body
    is JSON gives [data] and no [error]; an [ok] response whose body is not
    JSON throws; a response that is not [ok] never throws and gives no [data]
    and an [error] that is truthy. *)
Theorem handleResponse_outcomes response :
  match handleResponse response with
  | Normal res =>
      if ok response
      then JSON_parse (text response) = data res ∧ is_Some (data res) ∧ error res = None
      else data res = None ∧ ∃ m, error res = Some m ∧ truthy_js m = true
  | Throw _ => ok response = true ∧ JSON_parse (text response) = None
  end.
Proof.
  destruct (ok response) eqn:Hok.
  - unfold handleResponse. rewrite Hok.
    destruct (JSON_parse (text response)); simpl; eauto.
  - rewrite handleResponse_error by done. simpl. split; [done|]. eexists; split; [done|].
    destruct (errorMessage_of _ _) eqn:Hm; simpl.
    + by eapply errorMessage_of_truthy, Hm.
    + by apply or_else_truthy.
Qed.

(** When the body of a failed response is not JSON, or is the JSON
    text of [null], the error is the body itself, or the default message when
    the body is empty. *)
Lemma handleResponse_unparsed_text response :
  ok response = false →
  JSON_parse (text response) = None ∨ JSON_parse (text response) = Some JNull →
  handleResponse response =
  Normal {| data := None; error := Some (JString (text response ||ₛ "An error occurred")) |}.
Proof.
  intros Hok Hparse. rewrite handleResponse_error by done.
  unfold errorMessage_of. by destruct Hparse as [-> | ->].
Qed.

(** When the body of a failed response is a JSON object, the error
    is its [detail] if that is truthy, else its [message] if that is truthy,
    else the default message; it is a string whenever the property chosen is
    one. *)
Lemma handleResponse_error_object response props :
  ok response = false →
  JSON_parse (text response) = Some (JObject props) →
  ∃ m, handleResponse response = Normal {| data := None; error := Some m |} ∧
    match own_property "detail" props, own_property "message" props with
    | Some d, o => if truthy_js d then m = d else
        match o with
        | Some e => if truthy_js e then m = e else m = JString "An error occurred"
        | None => m = JString "An error occurred"
        end
    | None, Some e => if truthy_js e then m = e else m = JString "An error occurred"
    | None, None => m = JString "An error occurred"
    end.
Proof.
  intros Hok Hparse. rewrite handleResponse_error by done.
  rewrite (errorMessage_of_object _ props) by done. eexists; split; [done|]. simpl.
  destruct (own_property "detail" props) as [d|], (own_property "message" props) as [e|];
    simpl; repeat (case_match; simpl); done.
Qed.

(** The error of a failed response, by the shape of its body. *)
Lemma handleResponse_error_cases response :
  ok response = false →
  ∃ m, handleResponse response = Normal {| data := None; error := Some m |} ∧
    match JSON_parse (text response) with
    | None | Some JNull => m = JString (text response ||ₛ "An error occurred")
    | Some (JObject props) =>
        match own_property "detail" props, own_property "message" props with
        | Some d, o => if truthy_js d then m = d else
            match o with
            | Some e => if truthy_js e then m = e else m = JString "An error occurred"
            | None => m = JString "An error occurred"
            end
        | None, Some e => if truthy_js e then m = e else m = JString "An error occurred"
        | None, None => m = JString "An error occurred"
        end
    | Some _ => m = JString "An error occurred"
    end.
Proof.
  intros Hok. destruct (JSON_parse (text response)) as [[| | | | |props]|] eqn:Hp;
    [|..|exact (handleResponse_error_object response props Hok Hp)|];
    (eexists; split; [|done]);
    try (by apply handleResponse_unparsed_text; auto);
    rewrite handleResponse_error by done; unfold errorMessage_of; by rewrite Hp.
Qed.

(** When the error of a failed response is not a string. *)
Lemma handleResponse_error_string response :
  ok response = false →
  ∃ m, handleResponse response = Normal {| data := None; error := Some m |} ∧
    (is_string m = false ↔
     ∃ props, JSON_parse (text response) = Some (JObject props) ∧
       own_property "detail" props ||ⱼ own_property "message" props = Some m ∧
       truthy_js m = true ∧ is_string m = false).
Proof.
  intros Hok. rewrite handleResponse_error by done. eexists; split; [done|].
  unfold errorMessage_of.
  destruct (JSON_parse (text response)) as [[| | | | |props]|]; simpl;
    try (split; [done|by intros (? & [=] & _)]).
  rewrite (chosen_property (JString "An error occurred")).
  split; [|by intros (_ & _ & _ & _ & ?)]. intros Hm. exists props. split; [done|].
  destruct (_ ||ⱼ _) as [v|]; [|done]. simpl in *.
  by destruct (truthy_js v) eqn:Hv.
Qed.

(** Claim C39. The error of a failed response, on every body: a body that is
    not JSON, or is the JSON text of [null], gives the body itself, or the
    default message when the body is empty; a JSON object gives its [detail]
    if that is truthy, else its [message] if that is truthy, else the default
    message; any other JSON value gives the default message.  The error of an
    [ApiResponse] is declared a string, and what is stored is one except in
    one case, which [handleResponse] does not check: the body is a JSON
    object and the property chosen is truthy and not a string; the error is
    then that value, whatever its type. *)
Theorem handleResponse_error_message response :
  ok response = false →
  ∃ m, handleResponse response = Normal {| data := None; error := Some m |} ∧
    match JSON_parse (text response) with
    | None | Some JNull => m = JString (text response ||ₛ "An error occurred")
    | Some (JObject props) =>
        match own_property "detail" props, own_property "message" props with
        | Some d, o => if truthy_js d then m = d else
            match o with
            | Some e => if truthy_js e then m = e else m = JString "An error occurred"
            | None => m = JString "An error occurred"
            end
        | None, Some e => if truthy_js e then m = e else m = JString "An error occurred"
        | None, None => m = JString "An error occurred"
        end
    | Some _ => m = JString "An error occurred"
    end ∧
    (is_string m = false ↔
     ∃ props, JSON_parse (text response) = Some (JObject props) ∧
       own_property "detail" props ||ⱼ own_property "message" props = Some m ∧
       truthy_js m = true ∧ is_string m = false).
Proof.
  intros Hok.
  destruct (handleResponse_error_cases response Hok) as (m & Hm & Hcases).
  destruct (handleResponse_error_string response Hok) as (m' & Hm' & Hstring).
  rewrite Hm in Hm'. simplify_eq. by exists m'.
Qed.

(** A validation error whose [detail] is an array comes back as that
    array. *)
Example sample_422_error :
  handleResponse sample_422 =
  Normal {| data := None;
            error := Some (JArray [JObject [("msg", JString "field required")]]) |}.
Proof. by vm_compute. Qed.

(** Claim C40. A call completes as follows: it throws when the network fails
    or when an [ok] response has a body that is not JSON, and otherwise
    returns what [handleResponse] makes of the response. *)
Theorem run_call_outcomes base api network c :
  run_call network (invoke base api c) =
  match network (call_request (invoke base api c)) with
  | Normal response => handleResponse response
  | Throw msg => Throw msg
  end ∧
  (is_Normal (run_call network (invoke base api c)) ↔
   ∃ response, network (call_request (invoke base api c)) = Normal response ∧
     (ok response = true → is_Some (JSON_parse (text response)))).
Proof.
  unfold run_call. rewrite invoke_continue.
  destruct (network _) as [response|msg]; simpl; split; try done.
  - rewrite handleResponse_is_Normal. split; [by eauto|]. by intros (? & [= <-] & ?).
  - split; [done|]. by intros (? & [=] & _).
Qed.

(** A request has a body exactly when its method has a payload, the body is
    the JSON text of the payload and parses back to it, the method is [GET],
    [POST] or [PATCH], and no [GET] request has a body. *)
Lemma invoke_body_method base api c :
  let req := init (call_request (invoke base api c)) in
  body req = JSON_stringify <$> payload c ∧
  (body req ≫= JSON_parse) = payload c ∧
  method req ∈ ["GET"; "POST"; "PATCH"] ∧
  (method req = "GET" → body req = None).
Proof.
  simpl. rewrite invoke_body. split_and!; [done| |..].
  - destruct (payload c); simpl; [apply JSON_parse_stringify|done].
  - destruct c; simpl; rewrite ?elem_of_cons; auto.
  - by destruct c.
Qed.

(** What the server serialises is what the caller receives: an [ok]
    response whose body is the JSON text of a value gives that value as
    [data]. *)
Lemma handleResponse_data_roundtrip v :
  handleResponse (mkResponse true (JSON_stringify v)) =
  Normal {| data := Some v; error := None |}.
Proof. unfold handleResponse. cbn [ok text]. by rewrite JSON_parse_stringify. Qed.

(** A failed response whose body is the JSON text of an object with
    a non-empty string [detail] gives that string as the error, whatever else
    the object holds. *)
Lemma handleResponse_server_detail props s :
  own_property "detail" props = Some (JString s) → s ≠ "" →
  handleResponse (mkResponse false (JSON_stringify (JObject props))) =
  Normal {| data := None; error := Some (JString s) |}.
Proof.
  intros Hdetail Hs. rewrite handleResponse_error by done. cbn [text].
  rewrite (errorMessage_of_object _ props) by apply JSON_parse_stringify.
  rewrite Hdetail. simpl. by destruct s.
Qed.

(** What the server serialises is what the caller receives: an
    [ok] response whose body is the JSON text of a value gives that value as
    [data], and a failed response whose body is the JSON text of an object
    with a non-empty string [detail] gives that string as the error, whatever
    else the object holds. *)
Lemma handleResponse_roundtrip v :
  handleResponse (mkResponse true (JSON_stringify v)) =
    Normal {| data := Some v; error := None |} ∧
  ∀ props s, v = JObject props →
    own_property "detail" props = Some (JString s) → s ≠ "" →
    handleResponse (mkResponse false (JSON_stringify v)) =
      Normal {| data := None; error := Some (JString s) |}.
Proof.
  split; [apply handleResponse_data_roundtrip|].
  intros props s ->. apply handleResponse_server_detail.
Qed.

(** ** Witnesses *)

Lemma handleResponse_error_message_witness :
  ∃ m, handleResponse (mkResponse false "null") =
         Normal {| data := None; error := Some m |} ∧
       m = JString "null".
Proof.
  destruct (handleResponse_error_message (mkResponse false "null") eq_refl)
    as (m & Hm & Hcase & _).
  exact (ex_intro _ m (conj Hm Hcase)).
Defined.

(** A validation error: the error stored is not a string. *)
Example sample_422_not_string :
  ∃ m, handleResponse sample_422 = Normal {| data := None; error := Some m |} ∧
    is_string m = false.
Proof. eexists. split; [by vm_compute|done]. Qed.

Lemma handleResponse_roundtrip_witness :
  handleResponse sample_401 =
  Normal {| data := None; error := Some (JString "Invalid credentials") |}.
Proof.
  refine (proj2 (handleResponse_roundtrip
    (JObject [("detail", JString "Invalid credentials")])) _ _ eq_refl eq_refl _).
  done.
Defined.

Example login_request :
  call_request (login sample_base sample_api (mkCredentials "a@b.ph" "pw")) =
  mkRequest "http://localhost:8000/api/auth/login"
    {| method := "POST";
       headers := [("Content-Type", "application/json"); ("Authorization", "Bearer abc.def")];
       body := Some (JSON_stringify
                 (JObject [("email", JString "a@b.ph"); ("password", JString "pw")])) |}.
Proof. by vm_compute. Qed.

Example updateTask_request :
  let req := call_request (updateTask sample_base (clearToken sample_api) "17" sample_updates) in
  url req = "http://localhost:8000/api/tasks/17" ∧
  headers (init req) = [("Content-Type", "application/json")] ∧
  (body (init req) ≫= JSON_parse) =
    Some (JObject [("status", JString "completed"); ("points", JNumber 50)]).
Proof. by vm_compute. Qed.
