(* ===== verification/Route.v ===== *)
(** * Route: a request read back into the call that made it

    The back end is not part of the repository; what the client needs of it
    is that a request says which method of [ApiService] was called, and with
    which arguments.  [route] is the reading a back end with the routes of
    [services/api.ts] does: the base address is taken off the address of the
    request, the path is cut into the collection and what follows it, the
    method chooses among the calls on that path, and the body is read by the
    codec of the payload ([Payload.FromJson]).  [route_invoke] is the round
    trip, and that two different calls never make the same request follows
    from it. *)

From S2P Require Import Prelude JsString Json Payload Api.
From Stdlib Require Import Ascii.

#[local] Arguments String.append !_ _ / : simpl nomatch.
#[local] Arguments JSON_stringify : simpl never.
#[local] Open Scope js_scope.

(** ** Reading a request *)

(** [cut sep s]: what precedes the first [sep] in [s], and what follows it
    if there is one. *)
Fixpoint cut (sep : ascii) (s : string) : string * option string :=
  match s with
  | "" => ("", None)
  | String c r =>
      if decide (c = sep) then ("", Some r)
      else let '(h, t) := cut sep r in (String c h, t)
  end.

(** An identifier in a path: the text of an integer and nothing else. *)
Definition read_id (segment : string) : option Z :=
  match parse_number segment with
  | Some (n, "") => Some n
  | _ => None
  end.

(** The payload in the body of a request. *)
Definition read_body `{FromJson A} (r : Request) : option A :=
  body (init r) ≫= read_text.

(** The member of a collection and the action on it, in [<id>/<action>]. *)
Definition member_action (tail : string) : option (Z * string) :=
  match cut "/" tail with
  | (segment, Some action) => n ← read_id segment; Some (n, action)
  | (_, None) => None
  end.

Definition str_eq (a b : string) : bool := bool_decide (a = b).

(** The routes under [/api/], by collection. *)
Definition route_auth (m : string) (tail : option string) (r : Request) : option ApiCall :=
  match tail with
  | Some action =>
      if str_eq m "POST" && str_eq action "register" then Register <$> read_body r
      else if str_eq m "POST" && str_eq action "login" then Login <$> read_body r
      else if str_eq m "GET" && str_eq action "me" then Some GetCurrentUser
      else None
  | None => None
  end.

Definition route_tasks (m : string) (tail : option string) (r : Request) : option ApiCall :=
  match tail with
  | None =>
      if str_eq m "GET" then Some GetTasks
      else if str_eq m "POST" then CreateTask <$> read_body r
      else None
  | Some taskId => if str_eq m "PATCH" then UpdateTask taskId <$> read_body r else None
  end.

Definition route_points (m : string) (tail : option string) : option ApiCall :=
  match tail with
  | Some action => if str_eq m "GET" && str_eq action "history" then Some GetPointsHistory else None
  | None => None
  end.

Definition route_help_requests (m : string) (tail : option string) (r : Request)
    : option ApiCall :=
  match tail with
  | None =>
      if str_eq m "GET" then Some GetHelpRequests
      else if str_eq m "POST" then CreateHelpRequest <$> read_body r
      else None
  | Some tail =>
      '(requestId, action) ← member_action tail;
      if str_eq m "PATCH" && str_eq action "respond" then Some (RespondToHelpRequest requestId)
      else None
  end.

Definition route_global_alerts (m : string) (tail : option string) (r : Request)
    : option ApiCall :=
  match tail with
  | None =>
      if str_eq m "GET" then Some GetGlobalAlerts
      else if str_eq m "POST" then CreateGlobalAlert <$> read_body r
      else None
  | Some tail =>
      '(alertId, action) ← member_action tail;
      if str_eq m "PATCH" && str_eq action "acknowledge" then Some (AcknowledgeAlert alertId)
      else if str_eq m "PATCH" && str_eq action "toggle" then Some (ToggleAlertStatus alertId)
      else None
  end.

Definition route_community_tasks (m : string) (tail : option string) (r : Request)
    : option ApiCall :=
  match tail with
  | None =>
      if str_eq m "GET" then Some GetCommunityTasks
      else if str_eq m "POST" then CreateCommunityTask <$> read_body r
      else None
  | Some tail =>
      '(taskId, action) ← member_action tail;
      if str_eq m "POST" && str_eq action "volunteer" then Some (VolunteerForTask taskId)
      else None
  end.

Definition route (API_BASE_URL : string) (r : Request) : option ApiCall :=
  path ← strip_prefix API_BASE_URL (url r);
  rest ← strip_prefix "/api/" path;
  let '(collection, tail) := cut "/" rest in
  let m := method (init r) in
  if str_eq collection "auth" then route_auth m tail r
  else if str_eq collection "tasks" then route_tasks m tail r
  else if str_eq collection "points" then route_points m tail
  else if str_eq collection "help-requests" then route_help_requests m tail r
  else if str_eq collection "global-alerts" then route_global_alerts m tail r
  else if str_eq collection "community-tasks" then route_community_tasks m tail r
  else None.

(** ** Lemmas *)

Lemma strip_prefix_app p s : strip_prefix p (p +:+ s) = Some s.
Proof. induction p as [|c p IH]; simpl; [by destruct s|by rewrite decide_True]. Qed.

Lemma cut_app sep a b :
  occurs sep a = false → cut sep (a +:+ String sep b) = (a, Some b).
Proof.
  induction a as [|c a IH]; simpl; [by rewrite decide_True|].
  intros [Hc Ha]%orb_false_elim. apply bool_decide_eq_false in Hc.
  by rewrite decide_False, IH.
Qed.

Lemma read_id_toString n : read_id (toString n) = Some n.
Proof.
  unfold read_id, toString. rewrite <-(app_empty_r (pretty n)).
  by rewrite parse_number_pretty.
Qed.

Lemma member_action_toString n action :
  member_action (toString n +:+ String "/" action) = Some (n, action).
Proof.
  unfold member_action. rewrite cut_app, read_id_toString; [done|].
  apply toString_occurs; [|done]. intros d _. unfold pretty_N_char. by repeat case_match.
Qed.

Lemma read_body_stringify `{FromJson A} u m h (a : A) :
  read_body (mkRequest u (mkRequestInit m h (Some (JSON_stringify (to_json a))))) = Some a.
Proof. apply read_text_stringify. Qed.

(** The path of a call, after the base address. *)
Lemma route_base base r path :
  url r = base +:+ path →
  route base r =
    (rest ← strip_prefix "/api/" path;
     let '(collection, tail) := cut "/" rest in
     let m := method (init r) in
     if str_eq collection "auth" then route_auth m tail r
     else if str_eq collection "tasks" then route_tasks m tail r
     else if str_eq collection "points" then route_points m tail
     else if str_eq collection "help-requests" then route_help_requests m tail r
     else if str_eq collection "global-alerts" then route_global_alerts m tail r
     else if str_eq collection "community-tasks" then route_community_tasks m tail r
     else None).
Proof. unfold route. intros ->. by rewrite strip_prefix_app. Qed.

(** Every call is read back: one case per method, each by computation up to
    the round trips of the identifier and of the payload. *)
Ltac route_round_trip :=
  intros api c; destruct c; (erewrite route_base; [|reflexivity]); simpl;
  unfold route_help_requests, route_global_alerts, route_community_tasks;
  rewrite ?member_action_toString, ?read_body_stringify; done.

(** ** Properties *)

(** Claim C9. The request of a call says which call it is: reading the
    request of any method of the service, with any arguments and whatever
    the token, gives back the method and its arguments, the payload
    included; so two calls that make the same request, with the same token
    or not, are the same method called with the same arguments. *)
Theorem route_invoke base api c :
  route base (call_request (invoke base api c)) = Some c ∧
  ∀ api' c', call_request (invoke base api' c') = call_request (invoke base api c) → c' = c.
Proof.
  assert (∀ api c, route base (call_request (invoke base api c)) = Some c) as Hroute
    by (clear; route_round_trip).
  split; [done|]. intros api' c' Heq. apply (inj Some).
  by rewrite <-(Hroute api' c'), Heq, Hroute.
Qed.

(** The round trip, for the files that build on the router. *)
Lemma route_call_request base api c : route base (call_request (invoke base api c)) = Some c.
Proof. revert api c. route_round_trip. Qed.

(** The routes in use: a task is addressed by whatever text the caller
    gives, the other members by the decimal text of their number. *)
Example sample_routes :
  route sample_base (call_request (invoke sample_base sample_api (UpdateTask "t-7" sample_updates)))
    = Some (UpdateTask "t-7" sample_updates) ∧
  url (call_request (invoke sample_base sample_api (ToggleAlertStatus (-3)))) =
    "http://localhost:8000/api/global-alerts/-3/toggle" ∧
  route sample_base (mkRequest "http://localhost:8000/api/tasks/7"
                       (mkRequestInit "DELETE" [] None)) = None.
Proof. by vm_compute. Qed.

(** The identifier of a task goes into the path as it is: one that holds a
    slash or a question mark addresses something else than a task. *)
Example updateTask_id_not_encoded :
  url (call_request (updateTask sample_base sample_api "7/../../auth/me?x=1" sample_updates)) =
  "http://localhost:8000/api/tasks/7/../../auth/me?x=1".
Proof. done. Qed.
