(* ===== verification/Server.v ===== *)
(** * Server: a call carried to a back end and back

    The client and a back end composed: the request of a call is read by the
    router ([Route.route]), the back end checks the bearer token of a call
    that needs one and answers, and the answer goes through
    [Api.handleResponse].  The back end is a parameter: which tokens it
    accepts, which calls need one, and its answer to each call, a value or
    the detail of an error, sent the way FastAPI sends them (200 with the
    value, or an error status with [{"detail": ...}]). *)

From S2P Require Import Prelude JsString Json Payload Api Route.

#[local] Open Scope js_scope.
#[local] Arguments JSON_stringify : simpl never.

Section server.
Context (API_BASE_URL : string).
Context (valid : string → bool) (protected : ApiCall → bool).
Context (answer : ApiCall → Json + string).

(** The token of the [Authorization] header, if the request has one. *)
Definition bearer (hs : list (string * string)) : option string :=
  h ← List.find (λ h, bool_decide (h.1 = "Authorization")) hs;
  strip_prefix "Bearer " h.2.

(** The response that carries an answer. *)
Definition reply (a : Json + string) : Response :=
  match a with
  | inl v => mkResponse true (JSON_stringify v)
  | inr detail => mkResponse false (JSON_stringify (JObject [("detail", JString detail)]))
  end.

Definition authenticated (r : Request) : bool :=
  from_option valid false (bearer (headers (init r))).

Definition serve (r : Request) : Response :=
  match route API_BASE_URL r with
  | Some c =>
      if protected c && negb (authenticated r) then reply (inr "Not authenticated")
      else reply (answer c)
  | None => reply (inr "Not Found")
  end.

(** A network that always reaches the back end. *)
Definition network (r : Request) : Completion Response := Normal (serve r).

(** The token the service sends. *)
Definition sent_token (api : ApiService) : option string :=
  t ← token api; if truthy t then Some t else None.

(** The token a page load finds in the storage. *)
Definition stored_token (storage : gmap string string) : option string :=
  t ← storage !! TOKEN_KEY; if truthy t then Some t else None.

(** What the caller gets for an answer. *)
Definition received (a : Json + string) : ApiResponse :=
  match a with
  | inl v => {| data := Some v; error := None |}
  | inr detail => {| data := None; error := Some (JString (detail ||ₛ "An error occurred")) |}
  end.

(** ** Lemmas *)

Lemma bearer_getHeaders api : bearer (getHeaders api) = sent_token api.
Proof.
  unfold getHeaders, sent_token. destruct (token api) as [[|c t]|]; [done| |done].
  reflexivity.
Qed.

Lemma authenticated_invoke api c :
  authenticated (call_request (invoke API_BASE_URL api c)) =
  from_option valid false (sent_token api).
Proof. unfold authenticated. by rewrite invoke_headers, bearer_getHeaders. Qed.

(** An answer sent and handled is the answer received; an error without
    detail is received as the default message. *)
Lemma handleResponse_reply a : handleResponse (reply a) = Normal (received a).
Proof.
  destruct a as [v|detail]; simpl; [apply handleResponse_data_roundtrip|].
  rewrite handleResponse_error by done. cbn [text].
  rewrite (errorMessage_of_object _ [("detail", JString detail)])
    by apply JSON_parse_stringify.
  by destruct detail.
Qed.

Lemma serve_invoke api c :
  serve (call_request (invoke API_BASE_URL api c)) =
  reply (if protected c && negb (from_option valid false (sent_token api))
         then inr "Not authenticated" else answer c).
Proof.
  unfold serve. rewrite route_call_request, authenticated_invoke. by case_match.
Qed.

(** The token a service sends is the stored one, when the token in use is. *)
Lemma sent_token_stored api :
  api_inv api → sent_token api = stored_token (localStorage api).
Proof. unfold sent_token, stored_token, api_inv. by intros ->. Qed.

(** ** Properties *)

(** Claim C10. A call carried to the back end and back, after whatever the
    application has done with the token since the page was loaded: the call
    never throws; the caller of any method gets the answer of the back end to
    that very call, a value as [data] or the detail of an error as [error],
    when the call needs no token or [localStorage] holds a non-empty token
    the back end accepts; it gets the error [Not authenticated] otherwise. *)
Theorem call_end_to_end storage actions c :
  let api := run api_step actions (constructor storage) in
  run_call network (invoke API_BASE_URL api c) =
  Normal (received
    (if protected c && negb (from_option valid false (stored_token (localStorage api)))
     then inr "Not authenticated" else answer c)).
Proof.
  unfold run_call, network. simpl.
  rewrite invoke_continue, serve_invoke, handleResponse_reply.
  by rewrite sent_token_stored by apply api_inv_run, api_inv_constructor.
Qed.

End server.

(** ** Examples *)

(** A back end that accepts one token, asks for it on every call but
    [register] and [login], and answers with the name of the collection. *)
Definition sample_valid (t : string) : bool := bool_decide (t = "abc.def").

Definition sample_protected (c : ApiCall) : bool :=
  match c with Register _ | Login _ => false | _ => true end.

Definition sample_answer (c : ApiCall) : Json + string :=
  match c with
  | Login d =>
      if bool_decide (cr_password d = "secret")
      then inl (JObject [("access_token", JString "abc.def")])
      else inr "Invalid credentials"
  | GetTasks => inl (JArray [])
  | _ => inr ""
  end.

Definition sample_call (actions : list ApiAction) (c : ApiCall) : Completion ApiResponse :=
  run_call (network sample_base sample_valid sample_protected sample_answer)
    (invoke sample_base (run api_step actions (constructor ∅)) c).

(** A session: the tasks are refused before the login, the login answers
    with a token, the tasks are served once the token is set and refused
    again once it is cleared; an empty token is no token. *)
Example sample_session :
  sample_call [] GetTasks =
    Normal {| data := None; error := Some (JString "Not authenticated") |} ∧
  sample_call [] (Login (mkCredentials "ana@example.ph" "secret")) =
    Normal {| data := Some (JObject [("access_token", JString "abc.def")]); error := None |} ∧
  sample_call [SetToken "abc.def"; Reload] GetTasks =
    Normal {| data := Some (JArray []); error := None |} ∧
  sample_call [SetToken "abc.def"; ClearToken; Reload] GetTasks =
    Normal {| data := None; error := Some (JString "Not authenticated") |} ∧
  sample_call [SetToken "abc.def"] GetPointsHistory =
    Normal {| data := None; error := Some (JString "An error occurred") |}.
Proof. by vm_compute. Qed.
