(* ===== verification/Buddies.v ===== *)
(** * Buddies: the buddies page

    [src/pages/BuddiesPage.tsx].  The page filters the buddies of the mock
    data by a search text and a status, and opens two modals on a selected
    buddy: a check-in form and a profile.  Submitting the form shows an
    alert, closes the modal and resets the form; nothing else is done with
    what was entered.

    A state of the model is the record [BuddiesState] of the six [useState]
    cells and of the alerts shown so far ([window.alert] is the only effect
    of the page outside its state).  An event is a click or an input the JSX
    binds a handler to; [buddies_step] is that handler.  [buddies_enabled]
    says when the rendered page offers the event: a card exists for a buddy
    the filter keeps, and the children of a [Modal] exist while it is open
    (the component is outside the sources; that a closed modal renders
    nothing is what its [isOpen] property promises).  [controls] lists the
    elements of a render with their handlers, and [buddies_enabled] is
    proved to be what they offer.

    The definitions live in the module [BuddiesPage], whose names are the
    source's: some are also names of the chat page. *)

From S2P Require Import Prelude JsString Types View.
From Stdlib Require Import Ascii.

#[local] Open Scope js_scope.

Module BuddiesPage.

(** ** State *)

Record CheckInData := mkCheckInData {
  mood : string;
  notes : string;
  needsSupport : bool;
}.

#[export] Instance CheckInData_eq_dec : EqDecision CheckInData.
Proof. solve_decision. Defined.

Record BuddiesState := mkBuddiesState {
  searchQuery : string;
  statusFilter : string;
  selectedBuddy : option Buddy;
  showCheckInModal : bool;
  showProfileModal : bool;
  checkInData : CheckInData;
  alerts : list string;
}.

#[export] Instance BuddiesState_eq_dec : EqDecision BuddiesState.
Proof. solve_decision. Defined.

(** The value the form starts with and is reset to. *)
Definition checkInData_init : CheckInData :=
  {| mood := "good"; notes := ""; needsSupport := false |}.

Definition BuddiesPage_init : BuddiesState :=
  {| searchQuery := ""; statusFilter := "all"; selectedBuddy := None;
     showCheckInModal := false; showProfileModal := false;
     checkInData := checkInData_init; alerts := [] |}.

Definition setSearchQuery (v : string) (s : BuddiesState) : BuddiesState :=
  mkBuddiesState v (statusFilter s) (selectedBuddy s) (showCheckInModal s)
    (showProfileModal s) (checkInData s) (alerts s).

Definition setStatusFilter (v : string) (s : BuddiesState) : BuddiesState :=
  mkBuddiesState (searchQuery s) v (selectedBuddy s) (showCheckInModal s)
    (showProfileModal s) (checkInData s) (alerts s).

Definition setSelectedBuddy (v : option Buddy) (s : BuddiesState) : BuddiesState :=
  mkBuddiesState (searchQuery s) (statusFilter s) v (showCheckInModal s)
    (showProfileModal s) (checkInData s) (alerts s).

Definition setShowCheckInModal (v : bool) (s : BuddiesState) : BuddiesState :=
  mkBuddiesState (searchQuery s) (statusFilter s) (selectedBuddy s) v
    (showProfileModal s) (checkInData s) (alerts s).

Definition setShowProfileModal (v : bool) (s : BuddiesState) : BuddiesState :=
  mkBuddiesState (searchQuery s) (statusFilter s) (selectedBuddy s) (showCheckInModal s)
    v (checkInData s) (alerts s).

(** [setCheckInData] takes the function of the previous value, as the
    inputs of the form call it. *)
Definition setCheckInData (f : CheckInData → CheckInData) (s : BuddiesState)
    : BuddiesState :=
  mkBuddiesState (searchQuery s) (statusFilter s) (selectedBuddy s) (showCheckInModal s)
    (showProfileModal s) (f (checkInData s)) (alerts s).

(** [alert(message)] *)
Definition alert (message : string) (s : BuddiesState) : BuddiesState :=
  mkBuddiesState (searchQuery s) (statusFilter s) (selectedBuddy s) (showCheckInModal s)
    (showProfileModal s) (checkInData s) (alerts s ++ [message]).

(** [{ ...prev, mood: v }], [{ ...prev, notes: v }] and
    [{ ...prev, needsSupport: v }] *)
Definition set_mood (v : string) (d : CheckInData) : CheckInData :=
  {| mood := v; notes := notes d; needsSupport := needsSupport d |}.

Definition set_notes (v : string) (d : CheckInData) : CheckInData :=
  {| mood := mood d; notes := v; needsSupport := needsSupport d |}.

Definition set_needsSupport (v : bool) (d : CheckInData) : CheckInData :=
  {| mood := mood d; notes := notes d; needsSupport := v |}.

(** ** Constants of the page *)

Record MoodOption := mkMoodOption {
  mo_value : string;
  mo_emoji : string;
  mo_label : string;
}.

(** The emoji are kept as the bytes of the source file. *)
Definition moodOptions : list MoodOption :=
  [ mkMoodOption "great" "üòä" "Great";
    mkMoodOption "good" "üôÇ" "Good";
    mkMoodOption "okay" "üòê" "Okay";
    mkMoodOption "low" "üòî" "Low";
    mkMoodOption "distressed" "üò∞" "Distressed" ].

(** The buttons of the status filter. *)
Definition statuses : list string := ["all"; "online"; "away"; "offline"].

Section buddies.
Context (mockBuddies : list Buddy).

(** ** The filter *)

Definition matchesSearch (searchQuery : string) (buddy : Buddy) : bool :=
  includes (toLowerCase (b_name buddy)) (toLowerCase searchQuery) ||
  (match b_location buddy with
   | Some location => includes (toLowerCase location) (toLowerCase searchQuery)
   | None => false
   end || false).

Definition matchesStatus (statusFilter : string) (buddy : Buddy) : bool :=
  bool_decide (statusFilter = "all") || bool_decide (b_status buddy = statusFilter).

Definition filteredBuddies (searchQuery statusFilter : string) : list Buddy :=
  filter (λ buddy, matchesSearch searchQuery buddy && matchesStatus statusFilter buddy)
    mockBuddies.

(** ** Handlers *)

Definition handleCheckIn (buddy : Buddy) (s : BuddiesState) : BuddiesState :=
  setShowCheckInModal true (setSelectedBuddy (Some buddy) s).

Definition handleViewProfile (buddy : Buddy) (s : BuddiesState) : BuddiesState :=
  setShowProfileModal true (setSelectedBuddy (Some buddy) s).

Definition handleSubmitCheckIn (s : BuddiesState) : BuddiesState :=
  setCheckInData (λ _, checkInData_init)
    (setShowCheckInModal false
       (alert ("Check-in recorded for " +:+ template (b_name <$> selectedBuddy s) +:+ "!") s)).

(** The [Check In] button of the profile: rendered for a selected buddy. *)
Definition profileCheckIn (s : BuddiesState) : BuddiesState :=
  match selectedBuddy s with
  | Some buddy => handleCheckIn buddy (setShowProfileModal false s)
  | None => s
  end.

(** ** The page as a state machine *)

Inductive BuddiesEvent :=
| ChangeSearch (value : string)
| ClickStatus (status : string)
| ClickCheckIn (buddy : Buddy)
| ClickMessage (buddy : Buddy)
| ClickCall (buddy : Buddy)
| ClickViewProfile (buddy : Buddy)
| CloseCheckIn
| ClickMood (value : string)
| ChangeNotes (value : string)
| ChangeNeedsSupport (checked : bool)
| ClickCancel
| SubmitCheckIn
| CloseProfile
| ClickProfileCheckIn.

Definition buddies_step (e : BuddiesEvent) (s : BuddiesState) : BuddiesState :=
  match e with
  | ChangeSearch value => setSearchQuery value s
  | ClickStatus status => setStatusFilter status s
  | ClickCheckIn buddy => handleCheckIn buddy s
  | ClickMessage buddy => alert ("Opening chat with " +:+ b_name buddy) s
  | ClickCall buddy => alert ("Calling " +:+ b_name buddy) s
  | ClickViewProfile buddy => handleViewProfile buddy s
  | CloseCheckIn | ClickCancel => setShowCheckInModal false s
  | ClickMood value => setCheckInData (set_mood value) s
  | ChangeNotes value => setCheckInData (set_notes value) s
  | ChangeNeedsSupport checked => setCheckInData (set_needsSupport checked) s
  | SubmitCheckIn => handleSubmitCheckIn s
  | CloseProfile => setShowProfileModal false s
  | ClickProfileCheckIn => profileCheckIn s
  end.

Definition buddies_enabled (e : BuddiesEvent) (s : BuddiesState) : Prop :=
  match e with
  | ChangeSearch _ => True
  | ClickStatus status => status ∈ statuses
  | ClickCheckIn buddy | ClickMessage buddy | ClickCall buddy | ClickViewProfile buddy =>
      buddy ∈ filteredBuddies (searchQuery s) (statusFilter s)
  | ClickMood value => showCheckInModal s = true ∧ value ∈ mo_value <$> moodOptions
  | CloseCheckIn | ChangeNotes _ | ChangeNeedsSupport _ | ClickCancel | SubmitCheckIn =>
      showCheckInModal s = true
  | CloseProfile => showProfileModal s = true
  | ClickProfileCheckIn => showProfileModal s = true ∧ is_Some (selectedBuddy s)
  end.

#[export] Instance buddies_enabled_dec e s : Decision (buddies_enabled e s).
Proof. destruct e; simpl; apply _. Defined.

(** The runs of the page from its first render, oldest event first. *)
Definition buddies_run : list BuddiesEvent → BuddiesState → Prop :=
  lts_run buddies_step buddies_enabled BuddiesPage_init.

Definition buddies_reachable : BuddiesState → Prop :=
  lts_reachable buddies_step buddies_enabled BuddiesPage_init.

(** The same, as a test on a list of events. *)
Definition buddies_enabled_all : list BuddiesEvent → BuddiesState → Prop :=
  lts_enabled_all buddies_step buddies_enabled.

#[export] Instance buddies_enabled_all_dec es s : Decision (buddies_enabled_all es s).
Proof. unfold buddies_enabled_all. apply _. Defined.

(** ** What a render derives from the state *)

(** The placeholder shown instead of the grid. *)
Definition emptyState (s : BuddiesState) : bool :=
  bool_decide (length (filteredBuddies (searchQuery s) (statusFilter s)) = 0).

(** A button of the status filter and whether it is highlighted. *)
Definition statusButtons (s : BuddiesState) : list (string * bool) :=
  (λ status, (status, bool_decide (statusFilter s = status))) <$> statuses.

(** The check-in modal: title, the name the question uses and the mood
    buttons with the selected one highlighted. *)
Record CheckInModal := mkCheckInModal {
  cim_isOpen : bool;
  cim_title : string;
  cim_firstName : string;
  cim_moods : list (MoodOption * bool);
  cim_notes : string;
  cim_needsSupport : bool;
}.

Definition checkInModal (s : BuddiesState) : CheckInModal :=
  {| cim_isOpen := showCheckInModal s;
     cim_title := "Check-in on " +:+ template (b_name <$> selectedBuddy s);
     cim_firstName := jsx_child (split_head " "%char <$> (b_name <$> selectedBuddy s));
     cim_moods :=
       (λ m, (m, bool_decide (mood (checkInData s) = mo_value m))) <$> moodOptions;
     cim_notes := notes (checkInData s);
     cim_needsSupport := needsSupport (checkInData s) |}.

(** The profile of the selected buddy: what the modal shows of the buddy,
    the five stars of which four are filled, and the three texts that are
    the same for every buddy. *)
Record Profile := mkProfile {
  pr_initial : option string;
  pr_name : string;
  pr_location : option string;
  pr_stars : list bool;
  pr_rating : string;
  pr_phone : string;
  pr_status : string;
  pr_skills : list string;
  pr_checkInCount : nat;
  pr_tasksDone : string;
  pr_points : string;
}.

Definition profile (buddy : Buddy) : Profile :=
  {| pr_initial := charAt0 (b_name buddy);
     pr_name := b_name buddy;
     pr_location := b_location buddy;
     pr_stars := (λ star, bool_decide (star ≤ 4)) <$> [1; 2; 3; 4; 5];
     pr_rating := "4.8 rating";
     pr_phone := b_phone buddy;
     pr_status := b_status buddy;
     pr_skills := default [] (b_skills buddy);
     pr_checkInCount := b_checkInCount buddy;
     pr_tasksDone := "12";
     pr_points := "1.2K" |}.

(** The profile modal and its content, rendered for a selected buddy. *)
Definition profileModal (s : BuddiesState) : bool * option Profile :=
  (showProfileModal s, profile <$> selectedBuddy s).

(** ** The controls of a render *)

(** A card of the grid: the four callbacks handed to [BuddyCard]. *)
Definition cardControls (buddy : Buddy) : list (Control BuddiesEvent) :=
  [Button "onCheckIn" (ClickCheckIn buddy); Button "onMessage" (ClickMessage buddy);
   Button "onCall" (ClickCall buddy); Button "onViewProfile" (ClickViewProfile buddy)].

(** The check-in modal: [onClose] and the form. *)
Definition checkInControls (s : BuddiesState) : list (Control BuddiesEvent) :=
  [Button "onClose" CloseCheckIn] ++
  ((λ m, Button (mo_label m) (ClickMood (mo_value m))) <$> moodOptions) ++
  [Input "Add any observations or notes..." (notes (checkInData s)) ChangeNotes;
   Checkbox "Needs additional support" (needsSupport (checkInData s)) ChangeNeedsSupport;
   Button "Cancel" ClickCancel;
   Form "Submit Check-in" false (λ _, SubmitCheckIn)].

(** The profile modal: [onClose] and, for a selected buddy, the three
    actions, of which two have no handler. *)
Definition profileControls (s : BuddiesState) : list (Control BuddiesEvent) :=
  [Button "onClose" CloseProfile] ++
  when (bool_decide (is_Some (selectedBuddy s)))
    [Button "Check In" ClickProfileCheckIn; Inert "Message"; Inert "Call buddy"].

(** The button of the header, which has no handler. *)
Definition headerControls : list (Control BuddiesEvent) := [Inert "Find New Buddy"].

(** The search field and the four status filters. *)
Definition filterControls (s : BuddiesState) : list (Control BuddiesEvent) :=
  [Input "Search by name or location..." (searchQuery s) ChangeSearch] ++
  ((λ status, Button status (ClickStatus status)) <$> statuses).

(** The grid: the callbacks of one card per buddy shown. *)
Definition gridControls (s : BuddiesState) : list (Control BuddiesEvent) :=
  filteredBuddies (searchQuery s) (statusFilter s) ≫= cardControls.

(** What the component returns, as the controls it holds: the header, the
    search and the filters, the grid, and the two modals, each rendered
    while it is open. *)
Definition controls (s : BuddiesState) : list (Control BuddiesEvent) :=
  headerControls ++ filterControls s ++ gridControls s ++
  when (showCheckInModal s) (checkInControls s) ++
  when (showProfileModal s) (profileControls s).

(** ** Invariant *)

(** The three forms of an alert, each naming a buddy of the data. *)
Definition alert_of_buddy (message : string) : Prop :=
  ∃ buddy, buddy ∈ mockBuddies ∧
    (message = "Check-in recorded for " +:+ b_name buddy +:+ "!" ∨
     message = "Opening chat with " +:+ b_name buddy ∨
     message = "Calling " +:+ b_name buddy).

Record buddies_inv (s : BuddiesState) : Prop := {
  inv_selected : ∀ buddy, selectedBuddy s = Some buddy → buddy ∈ mockBuddies;
  inv_modal :
    showCheckInModal s = true ∨ showProfileModal s = true → is_Some (selectedBuddy s);
  inv_status : statusFilter s ∈ statuses;
  inv_mood : mood (checkInData s) ∈ mo_value <$> moodOptions;
  inv_alerts : Forall alert_of_buddy (alerts s);
}.

(** ** The filter: lemmas *)

Lemma matchesStatus_spec st buddy :
  matchesStatus st buddy = true ↔ st = "all" ∨ b_status buddy = st.
Proof.
  unfold matchesStatus. rewrite orb_true_iff, !bool_decide_eq_true. done.
Qed.

(** The search test, without the code's redundant [|| false]. *)
Lemma matchesSearch_spec q buddy :
  matchesSearch q buddy = true ↔
  includes (toLowerCase (b_name buddy)) (toLowerCase q) = true ∨
  ∃ location, b_location buddy = Some location ∧
    includes (toLowerCase location) (toLowerCase q) = true.
Proof.
  unfold matchesSearch. rewrite orb_false_r, orb_true_iff.
  destruct (b_location buddy) as [l|]; (split; intros [?|Hl]; [by left| |by left|]).
  - right. by exists l.
  - right. by destruct Hl as (? & [= <-] & ?).
  - done.
  - by destruct Hl as (? & [=] & _).
Qed.

Lemma matchesSearch_narrows q q' buddy :
  includes (toLowerCase q') (toLowerCase q) = true →
  matchesSearch q' buddy = true → matchesSearch q buddy = true.
Proof.
  intros Hq. rewrite !matchesSearch_spec.
  intros [?|(l & ? & ?)]; [left|right; exists l; split; [done|]];
    by eapply includes_trans.
Qed.

Lemma status_cases (st : string) :
  st ∈ ["online"; "away"; "offline"] → st = "online" ∨ st = "away" ∨ st = "offline".
Proof. rewrite !elem_of_cons, elem_of_nil. tauto. Qed.

Lemma elem_of_filteredBuddies buddy q st :
  buddy ∈ filteredBuddies q st ↔
  buddy ∈ mockBuddies ∧ matchesSearch q buddy = true ∧ matchesStatus st buddy = true.
Proof.
  unfold filteredBuddies. rewrite list_elem_of_filter, Is_true_true, andb_true_iff. tauto.
Qed.

(** ** Invariant: lemmas *)

Lemma buddies_inv_init : buddies_inv BuddiesPage_init.
Proof.
  split; simpl; [done|by intros [|]|compute_done|compute_done|constructor].
Qed.

Lemma alert_of_buddy_snoc s message :
  Forall alert_of_buddy (alerts s) → alert_of_buddy message →
  Forall alert_of_buddy (alerts s ++ [message]).
Proof. intros. apply Forall_app. auto. Qed.

(** Selecting a buddy of the data and opening a modal keeps the
    invariant. *)
Lemma buddies_inv_select s buddy c p :
  buddies_inv s → buddy ∈ mockBuddies →
  buddies_inv (mkBuddiesState (searchQuery s) (statusFilter s) (Some buddy) c p
                 (checkInData s) (alerts s)).
Proof. intros [] Hb. split; simpl; eauto. by intros ? [= <-]. Qed.

(** Closing modals keeps it. *)
Lemma buddies_inv_close s c p d :
  buddies_inv s → (c = true → showCheckInModal s = true) →
  (p = true → showProfileModal s = true) → mood d ∈ mo_value <$> moodOptions →
  buddies_inv (mkBuddiesState (searchQuery s) (statusFilter s) (selectedBuddy s) c p
                 d (alerts s)).
Proof. intros [] Hc Hp Hd. split; simpl; eauto. intros [?|?]; auto. Qed.

Lemma buddies_inv_alert s message :
  buddies_inv s → alert_of_buddy message → buddies_inv (alert message s).
Proof. intros [] Hm. split; simpl; eauto using alert_of_buddy_snoc. Qed.

Lemma buddies_inv_step e s :
  buddies_inv s → buddies_enabled e s → buddies_inv (buddies_step e s).
Proof.
  intros Hinv He. pose proof Hinv as [Hsel Hmodal Hst Hmood Hal].
  destruct e; simpl in *;
    try (apply elem_of_filteredBuddies in He as (Hb & _)).
  - by split.
  - by split.
  - exact (buddies_inv_select s buddy true _ Hinv Hb).
  - apply buddies_inv_alert; [done|]. exists buddy. auto.
  - apply buddies_inv_alert; [done|]. exists buddy. auto.
  - exact (buddies_inv_select s buddy _ true Hinv Hb).
  - by apply (buddies_inv_close s false _ (checkInData s)).
  - by apply (buddies_inv_close s _ _ (set_mood value (checkInData s))); destruct He.
  - by apply (buddies_inv_close s _ _ (set_notes value (checkInData s))).
  - by apply (buddies_inv_close s _ _ (set_needsSupport checked (checkInData s))).
  - by apply (buddies_inv_close s false _ (checkInData s)).
  - destruct (Hmodal (or_introl He)) as [buddy Hbuddy].
    unfold handleSubmitCheckIn. rewrite Hbuddy.
    apply (buddies_inv_close (alert _ s) false _ checkInData_init);
      simpl; try done; [|compute_done].
    apply buddies_inv_alert; [done|]. exists buddy. eauto.
  - by apply (buddies_inv_close s _ false (checkInData s)).
  - destruct He as [_ [buddy Hbuddy]]. unfold profileCheckIn. rewrite Hbuddy.
    exact (buddies_inv_select s buddy true false Hinv (Hsel _ Hbuddy)).
Qed.

Lemma buddies_run_inv es s : buddies_run es s → buddies_inv s.
Proof. apply lts_run_invariant; eauto using buddies_inv_init, buddies_inv_step. Qed.

(** ** Properties *)

(** Claim C15. In every state the buddies page reaches, the selected buddy is
    a buddy of the data, a modal is open only on a selected buddy, the status
    filter is one of the four buttons, the mood is one of the five options,
    and every alert shown names a buddy of the data: none says
    [undefined]. *)
Theorem buddies_reachable_inv s : buddies_reachable s → buddies_inv s.
Proof. intros [es Hrun]. by eapply buddies_run_inv. Qed.

(** Claim C26. The grid shows, in the order of the data, exactly the buddies
    whose name or location contains the search text, case-insensitively, and
    whose status is the selected one or any under [all]; it shows every
    buddy at first, and shrinks when the search text is extended. *)
Theorem filteredBuddies_spec q q' st :
  (∀ buddy, buddy ∈ filteredBuddies q st ↔
     buddy ∈ mockBuddies ∧
     ((∃ pre post, toLowerCase (b_name buddy) = pre +:+ toLowerCase q +:+ post) ∨
      ∃ l, b_location buddy = Some l ∧
        ∃ pre post, toLowerCase l = pre +:+ toLowerCase q +:+ post) ∧
     (st = "all" ∨ b_status buddy = st)) ∧
  filteredBuddies q st `sublist_of` filteredBuddies q "all" ∧
  filteredBuddies q "all" `sublist_of` mockBuddies ∧
  filteredBuddies "" "all" = mockBuddies ∧
  (includes (toLowerCase q') (toLowerCase q) = true →
   filteredBuddies q' st `sublist_of` filteredBuddies q st).
Proof.
  split_and!.
  - intros buddy.
    rewrite elem_of_filteredBuddies, matchesSearch_spec, matchesStatus_spec, includes_spec.
    by setoid_rewrite includes_spec.
  - apply filter_sublist_impl. intros buddy. rewrite !Is_true_true, !andb_true_iff.
    intros [? _]. by split.
  - apply sublist_filter.
  - apply filter_all, Forall_forall. intros buddy _.
    unfold matchesSearch. simpl. by rewrite includes_empty.
  - intros Hq. apply filter_sublist_impl. intros buddy.
    rewrite !Is_true_true, !andb_true_iff. intros [? ?]. eauto using matchesSearch_narrows.
Qed.

(** When every buddy is online, away or offline, the three status
    filters partition what [all] shows: each buddy of the unfiltered grid is
    in exactly one of the three, so their sizes add up. *)
Lemma filteredBuddies_partition q :
  Forall (λ buddy, b_status buddy ∈ ["online"; "away"; "offline"]) mockBuddies →
  filteredBuddies q "all" ≡ₚ
    filteredBuddies q "online" ++ filteredBuddies q "away" ++ filteredBuddies q "offline".
Proof.
  intros Hst. unfold filteredBuddies.
  set (keeps := λ (P : Buddy → bool) buddy, Is_true (matchesSearch q buddy && P buddy)).
  trans (filter (keeps (matchesStatus "online")) mockBuddies ++
         filter (keeps (λ b, matchesStatus "away" b || matchesStatus "offline" b))
           mockBuddies).
  - apply (filter_split (keeps (matchesStatus "all"))), (Forall_impl _ _ _ Hst).
    intros buddy Hb. apply status_cases in Hb. unfold keeps, matchesStatus.
    destruct (matchesSearch q buddy); simpl; [|tauto].
    destruct Hb as [->|[->| ->]]; simpl; tauto.
  - apply Permutation_app; [done|].
    apply (filter_split (keeps _)), (Forall_impl _ _ _ Hst).
    intros buddy Hb. apply status_cases in Hb. unfold keeps, matchesStatus.
    destruct (matchesSearch q buddy); simpl; [|tauto].
    destruct Hb as [->|[->| ->]]; simpl; tauto.
Qed.

(** Submitting the check-in form appends one alert, closes the
    modal and resets the form, and the outcome does not depend on what was
    entered: mood, notes and the support flag are dropped, and the buddy,
    the filters and the data are as before. *)
Lemma handleSubmitCheckIn_discards s d :
  handleSubmitCheckIn (setCheckInData (λ _, d) s) = handleSubmitCheckIn s ∧
  handleSubmitCheckIn s =
    mkBuddiesState (searchQuery s) (statusFilter s) (selectedBuddy s) false
      (showProfileModal s) checkInData_init
      (alerts s ++ ["Check-in recorded for " +:+ template (b_name <$> selectedBuddy s) +:+ "!"]).
Proof. done. Qed.

(** Cancelling keeps what was typed: after a check-in on one buddy
    is cancelled, the form opened on another buddy shows the notes and the
    support flag entered for the first. *)
Lemma cancel_keeps_draft s buddy buddy' v :
  buddy ∈ filteredBuddies (searchQuery s) (statusFilter s) →
  buddy' ∈ filteredBuddies (searchQuery s) (statusFilter s) →
  let es := [ClickCheckIn buddy; ChangeNotes v; ChangeNeedsSupport true;
             ClickCancel; ClickCheckIn buddy'] in
  let s' := run buddies_step es s in
  buddies_enabled_all es s ∧
  selectedBuddy s' = Some buddy' ∧ showCheckInModal s' = true ∧
  notes (checkInData s') = v ∧ needsSupport (checkInData s') = true.
Proof. intros Hb Hb'. by split_and!. Qed.

(** Claim C27. What becomes of the data of the check-in form.  Submitting
    appends one alert, closes the modal and resets the form, and the outcome
    does not depend on what was entered: mood, notes and the support flag
    are recorded nowhere.  Cancelling closes the modal and keeps what was
    typed: the form opened next, on another buddy, shows the notes and the
    support flag entered for the first. *)
Theorem checkIn_form_data s d buddy buddy' v :
  buddy ∈ filteredBuddies (searchQuery s) (statusFilter s) →
  buddy' ∈ filteredBuddies (searchQuery s) (statusFilter s) →
  let es := [ClickCheckIn buddy; ChangeNotes v; ChangeNeedsSupport true;
             ClickCancel; ClickCheckIn buddy'] in
  let s' := run buddies_step es s in
  (handleSubmitCheckIn (setCheckInData (λ _, d) s) = handleSubmitCheckIn s ∧
   checkInData (handleSubmitCheckIn s) = checkInData_init ∧
   alerts (handleSubmitCheckIn s) =
     alerts s ++ ["Check-in recorded for " +:+ template (b_name <$> selectedBuddy s) +:+ "!"]) ∧
  (buddies_enabled_all es s ∧ selectedBuddy s' = Some buddy' ∧
   cim_isOpen (checkInModal s') = true ∧ cim_notes (checkInModal s') = v ∧
   cim_needsSupport (checkInModal s') = true).
Proof.
  intros Hb Hb'. split.
  - by destruct (handleSubmitCheckIn_discards s d) as [-> ->].
  - by destruct (cancel_keeps_draft s buddy buddy' v Hb Hb') as (? & ? & ? & ? & ?).
Qed.

(** The buttons of the page that do nothing: the one of the header, and
    two of the three actions of the profile. *)
Lemma inert_buddies_controls s :
  inert (controls s) =
  "Find New Buddy" ::
  if showProfileModal s && bool_decide (is_Some (selectedBuddy s))
  then ["Message"; "Call buddy"] else [].
Proof.
  unfold controls, headerControls, filterControls, gridControls, checkInControls,
    profileControls. autorewrite with offers.
  rewrite inert_bind by done. by destruct (showCheckInModal s), (showProfileModal s), (bool_decide _).
Qed.

Lemma offers_cardControls buddy e :
  offers (cardControls buddy) e ↔
  e = ClickCheckIn buddy ∨ e = ClickMessage buddy ∨ e = ClickCall buddy ∨
  e = ClickViewProfile buddy.
Proof. unfold cardControls. autorewrite with offers. simpl. tauto. Qed.

(** Claim C28. The events the machine of the page accepts in a state are
    exactly those the render of that state offers: an event is enabled if
    and only if a control of the render raises it.  The card buttons exist
    for the buddies of the filtered grid only, the form controls while the
    check-in modal is open, the profile actions while the profile modal is
    open on a buddy; the three buttons without a handler raise nothing. *)
Theorem controls_offer_enabled s e :
  offers (controls s) e ↔ buddies_enabled e s.
Proof.
  unfold controls, headerControls, filterControls, gridControls, checkInControls,
    profileControls.
  autorewrite with offers. rewrite bool_decide_eq_true.
  setoid_rewrite offers_cardControls. cbn [raises].
  destruct e; cbn [buddies_enabled]; offers_iff.
Qed.

End buddies.

(** ** Sample data and witnesses *)

Definition sample_ana : Buddy :=
  mkBuddy "b1" "Ana Reyes" "online" (Some "Quezon City") "0917 000 0001"
    (Some ["First aid"; "Cooking"]) 12.

Definition sample_ben : Buddy :=
  mkBuddy "b2" "Ben Cruz" "away" None "0917 000 0002" None 3.

Definition sample_cora : Buddy :=
  mkBuddy "b3" "Cora Lim" "offline" (Some "Cebu City") "0917 000 0003" (Some []) 0.

Definition sample_mock : list Buddy := [sample_ana; sample_ben; sample_cora].

(** A session: search, open Ben's profile, check in from it, fill the form
    and submit. *)
Definition sample_session : list BuddiesEvent :=
  [ChangeSearch "c"; ClickStatus "away"; ClickViewProfile sample_ben; ClickProfileCheckIn;
   ClickMood "low"; ChangeNotes "Tired"; ChangeNeedsSupport true; SubmitCheckIn].

Lemma sample_session_run :
  buddies_run sample_mock sample_session
    (run (buddies_step) sample_session BuddiesPage_init).
Proof.
  apply (lts_run_exec _ _ _ [] _ sample_session (lts_run_init _ _ _)).
  compute_done.
Qed.

Example sample_session_result :
  run buddies_step sample_session BuddiesPage_init =
  mkBuddiesState "c" "away" (Some sample_ben) false false checkInData_init
    ["Check-in recorded for Ben Cruz!"].
Proof. by vm_compute. Qed.

(** Without a selected buddy the alert of a submit would name [undefined];
    the invariant shows the page never offers that submit. *)
Example submit_without_selection :
  alerts (handleSubmitCheckIn BuddiesPage_init) = ["Check-in recorded for undefined!"].
Proof. done. Qed.

Example sample_views :
  (cim_title (checkInModal (handleCheckIn sample_ana BuddiesPage_init)),
   cim_firstName (checkInModal (handleCheckIn sample_ana BuddiesPage_init))) =
    ("Check-in on Ana Reyes", "Ana") ∧
  pr_stars (profile sample_ben) = [true; true; true; true; false] ∧
  pr_skills (profile sample_ben) = [] ∧ pr_initial (profile sample_ben) = Some "B" ∧
  emptyState sample_mock (setSearchQuery "zz" BuddiesPage_init) = true.
Proof. by vm_compute. Qed.

Lemma buddies_reachable_inv_witness :
  buddies_inv sample_mock (run buddies_step sample_session BuddiesPage_init).
Proof. apply buddies_reachable_inv. eexists. apply sample_session_run. Defined.

Lemma filteredBuddies_partition_witness :
  filteredBuddies sample_mock "c" "all" ≡ₚ
    filteredBuddies sample_mock "c" "online" ++ filteredBuddies sample_mock "c" "away" ++
    filteredBuddies sample_mock "c" "offline".
Proof. apply filteredBuddies_partition. compute_done. Defined.

Lemma filteredBuddies_spec_witness :
  filteredBuddies sample_mock "an" "online" `sublist_of` filteredBuddies sample_mock "a" "online".
Proof.
  apply (proj2 (proj2 (proj2 (proj2 (filteredBuddies_spec sample_mock "a" "an" "online"))))).
  by vm_compute.
Defined.

Lemma cancel_keeps_draft_witness :
  notes (checkInData (run buddies_step
    [ClickCheckIn sample_ana; ChangeNotes "Has a fever"; ChangeNeedsSupport true;
     ClickCancel; ClickCheckIn sample_ben] BuddiesPage_init)) = "Has a fever".
Proof.
  apply (cancel_keeps_draft sample_mock BuddiesPage_init sample_ana sample_ben);
    compute_done.
Defined.

Lemma checkIn_form_data_witness :
  cim_notes (checkInModal (run buddies_step
    [ClickCheckIn sample_ana; ChangeNotes "Has a fever"; ChangeNeedsSupport true;
     ClickCancel; ClickCheckIn sample_ben] BuddiesPage_init)) = "Has a fever".
Proof.
  refine (proj1 (proj2 (proj2 (proj2 (proj2 (checkIn_form_data sample_mock BuddiesPage_init
    checkInData_init sample_ana sample_ben "Has a fever" _ _)))))); compute_done.
Defined.

End BuddiesPage.
