(* ===== verification/Dashboard.v ===== *)
(** * Dashboard: the dashboard page

    [src/pages/DashboardPage.tsx].  The page reads the task store, seeds it
    from the mock tasks when it is empty, and shows figures and short lists
    derived from the store and the mock data.  It has no handler of its own:
    its only write is the [setTasks] of the effect.

    [render] is one render of the page followed by its effect phase, on a
    state that holds the store and the dependencies of the previous render;
    [settle] repeats it while the effect has written to the store, with fuel.
    [dash_step] is the page among the other writers of the store: it is
    mounted and unmounted, and renders again when the store is written.
    The derived values ([stats], [pendingTasks], [recentCheckIns],
    [activeBuddies], [rankProgress]) and the rows of the lists are functions
    of the store, the clock and the data; [view] puts them together as the
    element the component returns, with its anchors and its buttons.

    The mock data, the user and the two helpers of [utils/helpers] the page
    calls are parameters of the section: they are outside the sources. *)

From S2P Require Import Prelude JsString JsDate Types.
From Stdlib Require Import Ascii.

#[local] Open Scope js_scope.

Module DashboardPage.

(** What [getRankProgress] returns. *)
Record RankProgress := mkRankProgress {
  rp_current : Z;
  rp_next : Z;
  rp_percentage : Z;
}.

(** The store as the page sees it, and the dependency array of the previous
    render ([None] before the first). *)
Record DashState := mkDashState {
  tasks : list Task;
  lastDeps : option nat;
}.

#[export] Instance DashState_eq_dec : EqDecision DashState.
Proof. solve_decision. Defined.

(** A tile of the figures grid. *)
Record Stat := mkStat {
  st_label : string;
  st_value : nat;
  st_color : string;
}.

(** A tile as the grid shows it, under its key. *)
Record Tile := mkTile {
  tl_key : nat;
  tl_value : string;
  tl_label : string;
  tl_color : string;
}.

(** The texts of the rank card and the width of its bar. *)
Record RankCard := mkRankCard {
  rc_rank : string;
  rc_points : string;
  rc_percentage : string;
  rc_width : string;
}.

(** The body of the pending tasks card. *)
Inductive PendingSection :=
| TaskCards (cards : list Task)
| AllCompleted.

Record CheckInRow := mkCheckInRow {
  cr_initial : option string;
  cr_name : option string;
  cr_emoji : string;
  cr_notes : string;
}.

Record BuddyRow := mkBuddyRow {
  br_initial : option string;
  br_online : bool;
  br_name : string;
  br_status : string;
}.

Record HotlineRow := mkHotlineRow {
  hl_href : string;
  hl_name : string;
  hl_number : string;
}.

(** An anchor: where it leads and what it says. *)
Record Link := mkLink {
  ln_href : string;
  ln_text : string;
}.

(** The page: its sections in the order of the markup, its anchors in the
    order of the document, and its buttons, none of which has a handler. *)
Record DashboardView := mkDashboardView {
  dv_greeting : string;
  dv_tiles : list Tile;
  dv_rank : RankCard;
  dv_pending : PendingSection;
  dv_checkIns : list CheckInRow;
  dv_buddies : list BuddyRow;
  dv_hotlines : list HotlineRow;
  dv_links : list Link;
  dv_inert : list string;
}.

Section dashboard.
Context (mockBuddies : list Buddy) (mockTasks : list Task).
Context (mockCheckIns : list CheckIn) (emergencyHotlines : list Hotline).
Context (user : option User).
Context (getRankProgress : nat → string → RankProgress) (getMoodEmoji : string → string).

(** ** The effect *)

(** The [setTasks] call of the effect, if it makes one. *)
Definition useEffect_tasks (tasks : list Task) : option (list Task) :=
  if decide (length tasks = 0) then Some mockTasks else None.

(** One render and its effect phase.  React runs the effect when the
    dependency [tasks.length] is not the one of the previous render; the
    result says whether the effect wrote to the store, which schedules
    another render. *)
Definition render (s : DashState) : DashState * bool :=
  let deps := Some (length (tasks s)) in
  if decide (lastDeps s = deps) then (s, false)
  else match useEffect_tasks (tasks s) with
       | Some tasks' => (mkDashState tasks' deps, true)
       | None => (mkDashState (tasks s) deps, false)
       end.

(** Renders until none is scheduled. *)
Fixpoint settle (fuel : nat) (s : DashState) : option DashState :=
  match fuel with
  | 0 => None
  | S fuel => let '(s', again) := render s in if again then settle fuel s' else Some s'
  end.

(** The page mounted on a store. *)
Definition mount (store : list Task) : option DashState :=
  settle 2 (mkDashState store None).

(** ** The page among the other writers of the store

    The store outlives the page: the router mounts and unmounts the page,
    and other components write the store.  A mounted page is subscribed to
    the store and renders again after a write; a page that is mounted anew
    has no previous dependencies.  [lastDeps] is [None] exactly while the
    page is not mounted. *)
Inductive DashEvent :=
| Visit
| Leave
| StoreWrite (tasks' : list Task).

(** The renders a change causes, until none is scheduled. *)
Definition rerender (s : DashState) : DashState := default s (settle 2 s).

Definition dash_step (e : DashEvent) (s : DashState) : DashState :=
  match e with
  | Visit => rerender (mkDashState (tasks s) None)
  | Leave => mkDashState (tasks s) None
  | StoreWrite tasks' =>
      match lastDeps s with
      | Some _ => rerender (mkDashState tasks' (lastDeps s))
      | None => mkDashState tasks' None
      end
  end.

Definition dash_enabled (e : DashEvent) (s : DashState) : Prop :=
  match e with
  | Visit => lastDeps s = None
  | Leave => is_Some (lastDeps s)
  | StoreWrite _ => True
  end.

#[export] Instance dash_enabled_dec e s : Decision (dash_enabled e s).
Proof. destruct e; simpl; apply _. Defined.

(** The runs of the application from a store that no page has mounted. *)
Definition dash_run (store : list Task) : list DashEvent → DashState → Prop :=
  lts_run dash_step dash_enabled (mkDashState store None).

(** While the page is mounted it has settled, and its store is not empty
    unless there are no mock tasks. *)
Record dash_inv (s : DashState) : Prop := {
  inv_settled : is_Some (lastDeps s) → render s = (s, false);
  inv_seeded : is_Some (lastDeps s) → mockTasks ≠ [] → tasks s ≠ [];
}.

(** ** Derived values *)

(** [new Date().toISOString().split('T')[0]] *)
Definition today (clk : Clock) : string :=
  split_head "T" (toISOString (date clk)).

Definition stats (clk : Clock) (tasks : list Task) : list Stat :=
  [ mkStat "Active Buddies"
      (length (filter (λ b, b_status b = "online") mockBuddies)) "text-green-500";
    mkStat "Check-ins Today"
      (length (filter (λ c, ci_date c = today clk) mockCheckIns)) "text-primary";
    mkStat "Bayanihan Points" (from_option u_points 0 user) "text-burnt-orange";
    mkStat "Tasks Completed"
      (length (filter (λ t, t_status t = "completed") tasks)) "text-blue-500" ].

Definition pendingTasks (tasks : list Task) : list Task :=
  take 3 (filter (λ t, t_status t = "pending") tasks).

Definition recentCheckIns : list CheckIn := take 5 mockCheckIns.

Definition activeBuddies : list Buddy :=
  take 4 (filter (λ b, b_status b ≠ "offline") mockBuddies).

Definition rankProgress : RankProgress :=
  match user with
  | Some user => getRankProgress (u_points user) (u_rank user)
  | None => mkRankProgress 0 100 0
  end.

(** ** What the page shows *)

Definition greeting : string :=
  "Magandang Araw, " +:+ jsx_child (u_firstName <$> user) +:+ "! 👋".

Definition statTiles (clk : Clock) (tasks : list Task) : list Tile :=
  imap (λ index stat,
    mkTile index (toString (Z.of_nat (st_value stat))) (st_label stat) (st_color stat))
    (stats clk tasks).

Definition rankCard : RankCard :=
  {| rc_rank := jsx_child (u_rank <$> user);
     rc_points := jsx_child (toString ∘ Z.of_nat ∘ u_points <$> user) +:+ " pts";
     rc_percentage := toString (rp_percentage rankProgress) +:+ "%";
     rc_width := toString (rp_percentage rankProgress) +:+ "%" |}.

Definition pendingSection (tasks : list Task) : PendingSection :=
  if decide (0 < length (pendingTasks tasks)) then TaskCards (pendingTasks tasks)
  else AllCompleted.

Definition checkInRow (checkIn : CheckIn) : CheckInRow :=
  let buddy := List.find (λ b, bool_decide (b_id b = ci_buddyId checkIn)) mockBuddies in
  {| cr_initial := buddy ≫= (λ b, charAt0 (b_name b));
     cr_name := b_name <$> buddy;
     cr_emoji := getMoodEmoji (ci_mood checkIn);
     cr_notes := ci_notes checkIn |}.

Definition checkInRows : list CheckInRow := checkInRow <$> take 3 recentCheckIns.

Definition buddyRow (buddy : Buddy) : BuddyRow :=
  {| br_initial := charAt0 (b_name buddy);
     br_online := bool_decide (b_status buddy = "online");
     br_name := b_name buddy;
     br_status := b_status buddy |}.

Definition buddyRows : list BuddyRow := buddyRow <$> take 3 activeBuddies.

Definition hotlineRow (hotline : Hotline) : HotlineRow :=
  {| hl_href := "tel:" +:+ remove_white_space (h_number hotline);
     hl_name := h_name hotline;
     hl_number := h_number hotline |}.

Definition hotlineRows : list HotlineRow := hotlineRow <$> take 3 emergencyHotlines.

Definition quickActions : list Link :=
  [mkLink "/buddies" "Find Buddy"; mkLink "/tasks" "New Task"; mkLink "/resources" "Resources"].

(** The anchors in the headings of the pending tasks and of the active
    buddies, and the dialling anchor of each hotline row. *)
Definition pendingLink : Link := mkLink "/tasks" "View All".

Definition buddiesLink : Link := mkLink "/buddies" "See All".

Definition hotlineLinks : list Link :=
  (λ row, mkLink (hl_href row) (hl_name row)) <$> hotlineRows.

(** The buttons, none of which has a handler: [Rewards] in the rank card and
    [Send message] in every row of the active buddies. *)
Definition rewardsButton : string := "Rewards".

Definition sendMessageButtons : list string := (λ _, "Send message") <$> buddyRows.

(** What the component returns. *)
Definition view (clk : Clock) (s : DashState) : DashboardView :=
  {| dv_greeting := greeting;
     dv_tiles := statTiles clk (tasks s);
     dv_rank := rankCard;
     dv_pending := pendingSection (tasks s);
     dv_checkIns := checkInRows;
     dv_buddies := buddyRows;
     dv_hotlines := hotlineRows;
     dv_links := [pendingLink; buddiesLink] ++ hotlineLinks ++ quickActions;
     dv_inert := rewardsButton :: sendMessageButtons |}.

(** ** The effect: lemmas *)

(** A render that schedules no other leaves a state on which a render
    changes nothing. *)
Lemma render_stable s s' : render s = (s', false) → render s' = (s', false).
Proof.
  unfold render, useEffect_tasks. repeat case_decide; intros [= <-]; simpl;
    by rewrite ?decide_True.
Qed.

(** A render that schedules another has found the store empty and filled it
    with the mock tasks. *)
Lemma render_again s s' :
  render s = (s', true) →
  tasks s = [] ∧ lastDeps s ≠ Some 0 ∧ s' = mkDashState mockTasks (Some 0).
Proof.
  unfold render, useEffect_tasks. repeat case_decide; intros [= <-]; simpl.
  destruct (tasks s); simplify_eq/=. done.
Qed.

(** A render that schedules no other has not touched the store. *)
Lemma render_keeps s s' :
  render s = (s', false) →
  tasks s' = tasks s ∧ ¬ (tasks s = [] ∧ lastDeps s ≠ Some 0).
Proof.
  unfold render, useEffect_tasks. repeat case_decide; intros [= <-]; simpl.
  - split; [done|]. intros [Ht Hd]. by rewrite Ht in *.
  - split; [done|]. intros [Ht _]. by rewrite Ht in *.
Qed.

(** The render that follows a write of the effect schedules no other. *)
Lemma render_after_write :
  ∃ s', render (mkDashState mockTasks (Some 0)) = (s', false) ∧ tasks s' = mockTasks.
Proof.
  unfold render, useEffect_tasks. simpl.
  destruct (decide (length mockTasks = 0)) as [H0|H0].
  - rewrite decide_True by (by rewrite H0). eauto.
  - rewrite decide_False by (intros [= ?]; lia). eauto.
Qed.

(** What two renders reach, and that they suffice. *)
Lemma settle_2 s :
  ∃ s', settle 2 s = Some s' ∧ render s' = (s', false) ∧
    tasks s' = if decide (tasks s = [] ∧ lastDeps s ≠ Some 0) then mockTasks else tasks s.
Proof.
  simpl. destruct (render s) as [s1 [|]] eqn:Hr.
  - apply render_again in Hr as (Ht & Hd & ->).
    destruct render_after_write as (s' & Hr' & Hs'). rewrite Hr'.
    exists s'. rewrite decide_True by done. eauto using render_stable.
  - exists s1. apply render_keeps in Hr as Hk. destruct Hk as [-> Hk].
    rewrite decide_False by done. eauto using render_stable.
Qed.

(** More fuel changes nothing once the page has settled. *)
Lemma settle_S fuel s s' : settle fuel s = Some s' → settle (S fuel) s = Some s'.
Proof.
  revert s. induction fuel as [|fuel IH]; intros s; [done|].
  cbn [settle]. destruct (render s) as [s1 [|]]; [apply IH|done].
Qed.

Lemma settle_le fuel fuel' s s' :
  fuel ≤ fuel' → settle fuel s = Some s' → settle fuel' s = Some s'.
Proof. induction 1; auto using settle_S. Qed.

(** A state on which a render changes nothing has recorded the length of
    its store. *)
Lemma render_settled_deps s : render s = (s, false) → lastDeps s = Some (length (tasks s)).
Proof.
  unfold render, useEffect_tasks. case_decide as Hd; [done|]. case_decide; [done|].
  intros [= Hs]. by rewrite <-Hs.
Qed.

(** The renders after a change: the state they reach. *)
Lemma rerender_spec s :
  render (rerender s) = (rerender s, false) ∧
  tasks (rerender s) =
    if decide (tasks s = [] ∧ lastDeps s ≠ Some 0) then mockTasks else tasks s.
Proof. unfold rerender. by destruct (settle_2 s) as (s' & -> & ? & ?). Qed.

Lemma rerender_mounted s : is_Some (lastDeps (rerender s)).
Proof.
  destruct (rerender_spec s) as [Hr _]. apply render_settled_deps in Hr. by rewrite Hr.
Qed.

(** ** The page among the other writers: lemmas *)

Lemma dash_inv_init store : dash_inv (mkDashState store None).
Proof. split; simpl; by intros [? [=]]. Qed.

(** What the renders after a change establish, when the store was not left
    empty by a settled page that has mock tasks. *)
Lemma dash_inv_rerender s :
  (tasks s = [] → lastDeps s = Some 0 → mockTasks = []) → dash_inv (rerender s).
Proof.
  intros Hs. destruct (rerender_spec s) as [Hr Ht]. split; [done|].
  intros _ Hm. rewrite Ht. case_decide as Hc; [done|].
  intros Hnil. destruct (decide (lastDeps s = Some 0)); [by apply Hm, Hs|by apply Hc].
Qed.

Lemma dash_inv_step e s : dash_inv s → dash_enabled e s → dash_inv (dash_step e s).
Proof.
  intros [Hset Hseed] He. destruct e as [| |tasks']; simpl in *.
  - by apply dash_inv_rerender.
  - apply dash_inv_init.
  - destruct (lastDeps s) as [n|] eqn:Hd; [|apply dash_inv_init].
    apply dash_inv_rerender. simpl. intros _ [= ->].
    destruct (decide (mockTasks = [])) as [|Hmock]; [done|].
    destruct (Hseed (mk_is_Some _ _ eq_refl) Hmock). apply length_zero_iff_nil.
    apply render_settled_deps in Hset; [|done]. congruence.
Qed.

Lemma dash_run_inv store es s : dash_run store es s → dash_inv s.
Proof. apply lts_run_invariant; eauto using dash_inv_init, dash_inv_step. Qed.

(** ** Derived values: lemmas *)

Lemma today_isoDate clk : today clk = isoDate (date clk).
Proof. apply split_head_toISOString. Qed.

Lemma pendingTasks_pending tasks :
  Forall (λ t, t_status t = "pending") (pendingTasks tasks).
Proof.
  apply Forall_take, Forall_forall. by intros t [? _]%list_elem_of_filter.
Qed.

Lemma pendingTasks_nil tasks :
  pendingTasks tasks = [] ↔ Forall (λ t, t_status t ≠ "pending") tasks.
Proof.
  unfold pendingTasks. split.
  - intros Hnil. apply Forall_forall. intros t Ht Hp.
    assert (t ∈ filter (λ t, t_status t = "pending") tasks) as Hin
      by (by apply list_elem_of_filter).
    destruct (filter _ tasks); [by apply elem_of_nil in Hin|done].
  - intros Hall. by rewrite filter_none.
Qed.

(** ** Properties *)

(** Claim C16. The effect loop of the page terminates: from every state, two
    renders reach a state on which a render changes nothing, more fuel gives
    the same state, and the store is then the mock tasks if it was found
    empty by an effect that ran, and what it was otherwise.  So the page
    never settles on an empty store unless there are no mock tasks. *)
Theorem settle_terminates s fuel :
  2 ≤ fuel →
  ∃ s', settle fuel s = Some s' ∧ render s' = (s', false) ∧
    tasks s' = (if decide (tasks s = [] ∧ lastDeps s ≠ Some 0) then mockTasks else tasks s) ∧
    (lastDeps s = None → mockTasks ≠ [] → tasks s' ≠ []).
Proof.
  intros Hfuel. destruct (settle_2 s) as (s' & Hs & Hr & Ht).
  exists s'. split_and!; [by eapply settle_le|done|done|].
  intros Hd Hm. rewrite Ht. case_decide as Hc; [done|].
  intros Hnil. apply Hc. by rewrite Hd.
Qed.

(** Claim C17. While the dashboard is mounted the store is never left empty:
    along every run of visits, departures and writes of the store by other
    components, a mounted page has settled, has recorded the length of the
    store, shows a store that is not empty unless there are no mock tasks,
    and answers a write of the empty list by putting the mock tasks back. *)
Theorem dashboard_store_seeded store es s :
  dash_run store es s → is_Some (lastDeps s) →
  render s = (s, false) ∧ lastDeps s = Some (length (tasks s)) ∧
  (mockTasks ≠ [] → tasks s ≠ []) ∧
  tasks (dash_step (StoreWrite []) s) = mockTasks.
Proof.
  intros [Hset Hseed]%dash_run_inv Hm. specialize (Hset Hm). specialize (Hseed Hm).
  pose proof (render_settled_deps s Hset) as Hd. split_and!; [done..|].
  simpl. rewrite Hd. destruct (rerender_spec (mkDashState [] (Some (length (tasks s)))))
    as [_ ->]. simpl. case_decide as Hc; [done|].
  destruct (decide (mockTasks = [])) as [->|Hmock]; [done|].
  destruct Hc. split; [done|]. intros [= Hlen]. by apply Hseed, length_zero_iff_nil.
Qed.

(** The second slice of each list makes the first redundant: the
    rows shown are those of the first three check-ins and of the first three
    buddies that are not offline, at most three of each and of the hotlines,
    and no row is of an offline buddy. *)
Lemma dashboard_slices :
  checkInRows = checkInRow <$> take 3 mockCheckIns ∧
  buddyRows = buddyRow <$> take 3 (filter (λ b, b_status b ≠ "offline") mockBuddies) ∧
  length checkInRows ≤ 3 ∧ length buddyRows ≤ 3 ∧ length hotlineRows ≤ 3 ∧
  Forall (λ r, br_status r ≠ "offline") buddyRows.
Proof.
  unfold checkInRows, buddyRows, hotlineRows, recentCheckIns, activeBuddies.
  rewrite !take_take_le by lia. split_and!; try done;
    rewrite ?length_fmap, ?length_take; try lia.
  apply Forall_fmap, Forall_take, Forall_forall.
  by intros b [? _]%list_elem_of_filter.
Qed.

(** Claim C29. The pending tasks card shows [All tasks completed!] exactly
    when no task of the store is pending, whatever the status of the others;
    otherwise it shows the first three pending tasks, in the order of the
    store. *)
Theorem pendingSection_spec tasks :
  (pendingSection tasks = AllCompleted ↔ Forall (λ t, t_status t ≠ "pending") tasks) ∧
  (∀ cards, pendingSection tasks = TaskCards cards →
     cards = take 3 (filter (λ t, t_status t = "pending") tasks) ∧
     0 < length cards ≤ 3 ∧ Forall (λ t, t_status t = "pending") cards ∧
     cards `sublist_of` tasks).
Proof.
  unfold pendingSection. rewrite <-pendingTasks_nil. split.
  - case_decide as Hlen; [|split; [|done]].
    + split; [done|]. intros Hnil. rewrite Hnil in Hlen. simpl in Hlen. lia.
    + intros _. destruct (pendingTasks tasks); [done|simpl in Hlen; lia].
  - intros cards. case_decide as Hlen; intros [= <-]. split_and!; try done.
    + unfold pendingTasks. rewrite length_take. lia.
    + apply pendingTasks_pending.
    + unfold pendingTasks. etrans; [apply sublist_take|apply sublist_filter].
Qed.

(** Claim C30. The four figures: the first counts the online buddies, which
    are at most the buddies the [Active Buddies] list draws from, and fewer
    as soon as a buddy is away; the second counts the check-ins dated with
    the date part of the clock's ISO string, which is the UTC date: on a
    clock [offset] milliseconds ahead of UTC these are the check-ins of the
    local day, except during the first [offset] milliseconds of a local day,
    when they are those of the day before; the third is the user's points,
    zero without a user; the fourth counts the completed tasks, which with
    the pending ones are at most the store. *)
Theorem stats_values clk tasks :
  ∃ a c p t,
    stats clk tasks =
      [mkStat "Active Buddies" a "text-green-500"; mkStat "Check-ins Today" c "text-primary";
       mkStat "Bayanihan Points" p "text-burnt-orange";
       mkStat "Tasks Completed" t "text-blue-500"] ∧
    a ≤ length (filter (λ b, b_status b ≠ "offline") mockBuddies) ≤ length mockBuddies ∧
    (∀ b, b ∈ mockBuddies → b_status b = "away" →
       a < length (filter (λ b, b_status b ≠ "offline") mockBuddies)) ∧
    c = length (filter (λ ci, ci_date ci = isoDate (date clk)) mockCheckIns) ∧
    (∀ offset, (0 ≤ offset ≤ msPerDay)%Z →
       c = length (filter (λ ci, ci_date ci = isoDate
             (if decide (TimeWithinDay (date clk + offset) < offset)%Z
              then date clk + offset - msPerDay else date clk + offset)%Z) mockCheckIns)) ∧
    p = from_option u_points 0 user ∧
    t + length (filter (λ t, t_status t = "pending") tasks) ≤ length tasks.
Proof.
  eexists _, _, _, _. split; [done|]. split_and!.
  - apply length_filter_impl. by intros b ->.
  - apply length_filter.
  - intros b Hb Haway. apply (length_filter_lt _ _ _ b); [by intros ? ->|done|..];
      by rewrite Haway.
  - by rewrite today_isoDate.
  - intros offset Ho. by rewrite today_isoDate, <-isoDate_local.
  - done.
  - apply length_filter_exclusive. by intros t ->.
Qed.

(** The page mounted on an empty store: the first render shows the empty
    state of the pending tasks card, and the render that follows the effect
    shows the pending tasks of the mock data. *)
Lemma view_mount_empty clk :
  dv_pending (view clk (mkDashState [] None)) = AllCompleted ∧
  ∃ s, mount [] = Some s ∧ dv_pending (view clk s) = pendingSection mockTasks.
Proof.
  split; [done|]. destruct (settle_2 (mkDashState [] None)) as (s & Hs & _ & Ht).
  exists s. split; [done|]. rewrite decide_True in Ht by done.
  unfold view. simpl. by rewrite Ht.
Qed.

(** Claim C31. What the page shows, whatever the store and the clock: four
    tiles under the keys 0 to 3; at most three check-ins, three buddies and
    three hotlines, none of the buddies offline; and as anchors the two
    section links, one dialling link per hotline row and the three quick
    actions, where every anchor leads to one of the three pages or dials a
    number that holds no white space; its buttons, [Rewards] and one per
    buddy row, have no handler. *)
Theorem view_shape clk s :
  let v := view clk s in
  tl_key <$> dv_tiles v = [0; 1; 2; 3] ∧
  length (dv_checkIns v) ≤ 3 ∧ length (dv_buddies v) ≤ 3 ∧ length (dv_hotlines v) ≤ 3 ∧
  Forall (λ row, br_status row ≠ "offline") (dv_buddies v) ∧
  length (dv_links v) = 5 + length (dv_hotlines v) ∧
  length (dv_inert v) = 1 + length (dv_buddies v) ∧
  Forall (λ link,
    ln_href link ∈ ["/tasks"; "/buddies"; "/resources"] ∨
    ∃ number, ln_href link = "tel:" +:+ number ∧
      ∀ c, is_white_space c = true → occurs c number = false) (dv_links v).
Proof.
  destruct dashboard_slices as (_ & _ & Hc & Hb & Hh & Hoff).
  simpl. unfold hotlineLinks, sendMessageButtons. split_and!; try done.
  - rewrite !length_app, length_fmap. simpl. lia.
  - by rewrite length_fmap.
  - do 2 (apply Forall_cons; split; [left; set_solver|]). apply Forall_app; split.
    + apply Forall_fmap, Forall_fmap, Forall_forall. intros hotline _. right.
      eexists; split; [done|]. apply remove_white_space_clean.
    + repeat constructor; left; set_solver.
Qed.

End dashboard.

(** ** Sample data and witnesses *)

Definition sample_tasks : list Task :=
  [mkTask "t1" "pending"; mkTask "t2" "completed"; mkTask "t3" "in-progress";
   mkTask "t4" "pending"; mkTask "t5" "pending"; mkTask "t6" "pending"].

Definition sample_buddies : list Buddy :=
  [mkBuddy "b1" "Ana Reyes" "online" (Some "Quezon City") "0917 000 0001" None 12;
   mkBuddy "b2" "Ben Cruz" "away" None "0917 000 0002" None 3;
   mkBuddy "b3" "Cora Lim" "offline" None "0917 000 0003" None 0].

(** 2026-02-28T16:30:00Z, half past midnight of 1 March in Manila. *)
Definition sample_clock : Clock := mkClock 1772296200000 1772296200000.

Definition sample_checkIns : list CheckIn :=
  [mkCheckIn "c1" "b1" "2026-03-01" "good" "Feeling fine";
   mkCheckIn "c2" "b9" "2026-02-28" "low" "No answer"].

Lemma settle_terminates_witness :
  ∃ s', mount sample_tasks [] = Some s' ∧ tasks s' = sample_tasks.
Proof.
  destruct (settle_terminates sample_tasks (mkDashState [] None) 2)
    as (s' & Hs & _ & Ht & _); [lia|]. exists s'. split; [exact Hs|]. by rewrite Ht.
Defined.

Lemma stats_values_witness :
  ∃ a, head (stats sample_buddies sample_checkIns None sample_clock sample_tasks) =
         Some (mkStat "Active Buddies" a "text-green-500") ∧ a < 2.
Proof.
  destruct (stats_values sample_buddies sample_checkIns None sample_clock sample_tasks)
    as (a & c & p & t & Hs & _ & Haway & _).
  exists a. split; [by rewrite Hs|].
  apply (Haway (mkBuddy "b2" "Ben Cruz" "away" None "0917 000 0002" None 3)); compute_done.
Defined.

Lemma dashboard_store_seeded_witness :
  tasks (run (dash_step sample_tasks) [Visit; StoreWrite []] (mkDashState [] None)) =
  sample_tasks.
Proof.
  refine (proj2 (proj2 (proj2 (dashboard_store_seeded sample_tasks []
    [Visit] (run (dash_step sample_tasks) [Visit] (mkDashState [] None)) _ _)))).
  - apply (lts_run_exec _ _ _ [] _ [Visit] (lts_run_init _ _ _)). compute_done.
  - vm_compute. by eexists.
Defined.

(** One render is not enough on an empty store. *)
Example settle_1_empty mockTasks : settle mockTasks 1 (mkDashState [] None) = None.
Proof. done. Qed.

(** A store with a task in progress and none pending is told that all tasks
    are completed. *)
Example all_completed_in_progress :
  pendingSection [mkTask "t2" "completed"; mkTask "t3" "in-progress"] = AllCompleted.
Proof. done. Qed.

Lemma pendingSection_spec_witness :
  pendingSection sample_tasks =
    TaskCards [mkTask "t1" "pending"; mkTask "t4" "pending"; mkTask "t5" "pending"] ∧
  0 < 3 ≤ 3.
Proof.
  split; [done|].
  destruct (proj2 (pendingSection_spec sample_tasks) _ eq_refl) as (_ & Hlen & _).
  exact Hlen.
Defined.

(** The date of the figures is the UTC date: shortly after midnight in
    Manila a check-in dated with the local day is not counted, one dated the
    day before is. *)
Example today_is_utc :
  today sample_clock = "2026-02-28" ∧
  st_value <$> stats sample_buddies sample_checkIns None sample_clock sample_tasks =
    [1; 1; 0; 1].
Proof. by vm_compute. Qed.

Example sample_rows :
  checkInRows sample_buddies sample_checkIns id =
    [mkCheckInRow (Some "A") (Some "Ana Reyes") "good" "Feeling fine";
     mkCheckInRow None None "low" "No answer"] ∧
  hotlineRow (mkHotline "Red Cross" "143 or (02) 8790 2300") =
    mkHotlineRow "tel:143or(02)87902300" "Red Cross" "143 or (02) 8790 2300" ∧
  greeting None = "Magandang Araw, ! 👋".
Proof. by vm_compute. Qed.

(** Signed out, the rank card has no rank and no figure before [pts]. *)
Example rankCard_signed_out getRankProgress :
  rankCard None getRankProgress = mkRankCard "" " pts" "0%" "0%".
Proof. done. Qed.

Example sample_tiles :
  statTiles sample_buddies sample_checkIns None sample_clock sample_tasks =
    [mkTile 0 "1" "Active Buddies" "text-green-500";
     mkTile 1 "1" "Check-ins Today" "text-primary";
     mkTile 2 "0" "Bayanihan Points" "text-burnt-orange";
     mkTile 3 "1" "Tasks Completed" "text-blue-500"].
Proof. by vm_compute. Qed.

Example sample_links :
  ln_href <$> dv_links (view sample_buddies sample_checkIns
                          [mkHotline "Red Cross" "143 or (02) 8790 2300"] None
                          (λ _ _, mkRankProgress 0 100 0) (λ mood, mood)
                          sample_clock (mkDashState sample_tasks None)) =
  ["/tasks"; "/buddies"; "tel:143or(02)87902300"; "/buddies"; "/tasks"; "/resources"].
Proof. by vm_compute. Qed.

End DashboardPage.
