(* ===== verification/App.v ===== *)
(** * App: the pages on the same buddies

    The three pages import the same [mockBuddies].  The buddies page filters
    them by status, the dashboard counts and lists them, and the chat page
    looks one up by the participant of a conversation, with [find].  This
    file relates what the pages show of one buddy: the figures and the rows
    of the dashboard in terms of the filters of the buddies page, and the
    online marks of the chat page, the dashboard and the buddies page on one
    another.  The pages agree when no two buddies share an identifier; the
    chat page shows the first buddy of an identifier otherwise. *)

From S2P Require Import Prelude JsString Types Chat Buddies Dashboard.

#[local] Open Scope js_scope.

Section app.
Context (mockBuddies : list Buddy).

(** The buddies page lists the buddy when the filter is [online] and the
    search is empty. *)
Definition listed_online (buddy : Buddy) : bool :=
  bool_decide (buddy ∈ BuddiesPage.filteredBuddies mockBuddies "" "online").

(** The online marks of a buddy: on the row and the header of the chat page
    for a conversation, and on the row of the dashboard. *)
Definition online_marks (s : ChatPage.ChatState) (conv : Conversation) (buddy : Buddy)
    : list bool :=
  [ChatPage.row_online (ChatPage.conversationRow mockBuddies s conv);
   ChatPage.hd_online (ChatPage.chatHeader mockBuddies conv);
   DashboardPage.br_online (DashboardPage.buddyRow buddy)].

(** ** The filters of the buddies page with no search *)

Lemma matchesSearch_empty buddy : BuddiesPage.matchesSearch "" buddy = true.
Proof. unfold BuddiesPage.matchesSearch. simpl. by rewrite includes_empty. Qed.

Lemma filteredBuddies_all : BuddiesPage.filteredBuddies mockBuddies "" "all" = mockBuddies.
Proof.
  unfold BuddiesPage.filteredBuddies. apply filter_all, Forall_forall. intros buddy _.
  by rewrite matchesSearch_empty.
Qed.

Lemma filteredBuddies_status status :
  status ≠ "all" →
  BuddiesPage.filteredBuddies mockBuddies "" status =
  filter (λ buddy, b_status buddy = status) mockBuddies.
Proof.
  intros Hs. unfold BuddiesPage.filteredBuddies, BuddiesPage.matchesStatus.
  apply list_filter_iff. intros buddy.
  rewrite matchesSearch_empty, (bool_decide_eq_false_2 (status = "all")) by done. simpl.
  by rewrite bool_decide_spec.
Qed.

Lemma elem_of_online buddy :
  buddy ∈ BuddiesPage.filteredBuddies mockBuddies "" "online" ↔
  buddy ∈ mockBuddies ∧ b_status buddy = "online".
Proof. rewrite filteredBuddies_status by done. rewrite list_elem_of_filter. tauto. Qed.

(** ** The lookup of the chat page *)

Lemma getBuddy_elem_of buddy :
  NoDup (b_id <$> mockBuddies) → buddy ∈ mockBuddies →
  ChatPage.getBuddy mockBuddies (b_id buddy) = Some buddy.
Proof.
  intros Hnd Hb. unfold ChatPage.getBuddy.
  destruct (List.find _ _) as [buddy'|] eqn:Hfind.
  - apply find_some in Hfind as [Hin Hid]. apply bool_decide_eq_true in Hid.
    f_equal. apply (NoDup_fmap_elem_eq b_id mockBuddies); [done| |done..].
    by apply list_elem_of_In.
  - apply list_elem_of_In in Hb. apply (find_none _ _ Hfind) in Hb.
    by apply bool_decide_eq_false in Hb.
Qed.

(** The mark of a buddy whose record the pages hold. *)
Lemma online_mark buddy :
  buddy ∈ mockBuddies →
  bool_decide (b_status buddy = "online") = listed_online buddy.
Proof. intros Hb. apply bool_decide_ext. rewrite elem_of_online. tauto. Qed.

(** ** Properties *)

(** Claim C20. The pages agree on a buddy when no two buddies share an
    identifier: every online mark of the buddy, on the row and the header
    of the chat page for a conversation with the buddy and on the row of the
    dashboard, is set exactly when the buddies page lists the buddy under
    [online] with no search; the first figure of the dashboard is the size of that list; and
    the rows of the dashboard are the first three buddies the buddies page
    lists under [all] that are not offline. *)
Theorem buddy_across_pages checkIns user clk tasks s buddy conv :
  NoDup (b_id <$> mockBuddies) → buddy ∈ mockBuddies → c_participantId conv = b_id buddy →
  let listed := BuddiesPage.filteredBuddies mockBuddies "" in
  Forall (λ mark, mark = listed_online buddy) (online_marks s conv buddy) ∧
  DashboardPage.st_value <$> head (DashboardPage.stats mockBuddies checkIns user clk tasks) =
    Some (length (listed "online")) ∧
  DashboardPage.buddyRows mockBuddies =
    DashboardPage.buddyRow <$> take 3 (filter (λ b, b_status b ≠ "offline") (listed "all")).
Proof.
  intros Hnd Hb Hconv. simpl. split_and!.
  - unfold online_marks, ChatPage.conversationRow, ChatPage.chatHeader. simpl.
    rewrite Hconv, getBuddy_elem_of by done. simpl. rewrite online_mark by done.
    by repeat constructor.
  - by rewrite filteredBuddies_status.
  - rewrite filteredBuddies_all.
    unfold DashboardPage.buddyRows, DashboardPage.activeBuddies. by rewrite take_take_le by lia.
Qed.

End app.

(** ** Witnesses and examples *)

Definition sample_conversation : Conversation :=
  {| c_id := "conv-1"; c_participantId := b_id BuddiesPage.sample_ana; c_messages := [];
     c_lastMessageAt := "2026-03-01T08:00:00.000Z"; c_unreadCount := 0 |}.

Lemma buddy_across_pages_witness :
  Forall (λ mark, mark = listed_online BuddiesPage.sample_mock BuddiesPage.sample_ana)
    (online_marks BuddiesPage.sample_mock ChatPage.ChatPage_init sample_conversation
       BuddiesPage.sample_ana).
Proof.
  refine (proj1 (buddy_across_pages BuddiesPage.sample_mock [] None
    DashboardPage.sample_clock [] ChatPage.ChatPage_init BuddiesPage.sample_ana
    sample_conversation _ _ eq_refl)); [compute_done|set_solver].
Defined.

(** With two buddies under one identifier the chat page shows the first:
    here the conversation is marked offline while the buddies page lists a
    buddy of that identifier under [online]. *)
Example duplicate_id_pages_disagree :
  let ana_offline := mkBuddy "b1" "Ana Reyes" "offline" None "0917 000 0009" None 0 in
  let mock := [ana_offline; BuddiesPage.sample_ana] in
  online_marks mock ChatPage.ChatPage_init sample_conversation BuddiesPage.sample_ana =
    [false; false; true] ∧
  listed_online mock BuddiesPage.sample_ana = true.
Proof. by vm_compute. Qed.
